(** * A shallow embedding of the BSD BASIC interpreters

    The repository holds two builds of one line-numbered BASIC interpreter:

    - the classic interpreter ([bsdbasic.c], the file with [eval_comparison],
      [eval_and_expr], [eval_or_expr], [LEFT$], [MID$], ...), embedded in
      module [Classic];
    - the PDP-11 build [basic.c] (binary-search line lookup with a one-slot
      cache, smaller limits, no relational or logical operators inside
      expressions), embedded in module [Optimized].

    Both are translated function by function.  The C globals become the fields
    of one [state] record which is threaded through a small state monad; the
    [char **p] cursor that every parsing function receives always points at
    the global [statement_pos], so the cursor is the [statement_pos] field.
    Recursion of the recursive-descent evaluator and the loops of the driver
    are bounded by a fuel argument; running out of fuel is the result [None]
    and is never confused with a BASIC runtime error, which (as in the C) only
    sets the [halted] flag and lets the current statement run on.

    What the interpreter takes from the C library and cannot be computed on
    binary64 inside Rocq (the transcendental functions, [rand]) is a field of
    the [host] record; [ref_host] is a concrete host used to run programs. *)

From Stdlib Require Import ZArith NArith Bool List String Ascii Lia Sorted.
From Stdlib Require Import Permutation FinFun.
From Stdlib Require Import Floats Uint63.
Import ListNotations.

Local Open Scope string_scope.
Local Open Scope Z_scope.

(* ===================================================================== *)
(** * The parts of the C library the interpreter calls                    *)
(* ===================================================================== *)

Module CLib.

(** ** <ctype.h>, "C" locale *)

Definition NUL : ascii := "000"%char.

Definition code (c : ascii) : Z := Z.of_N (N_of_ascii c).

Definition isdigit (c : ascii) : bool := (48 <=? code c) && (code c <=? 57).
Definition isupper (c : ascii) : bool := (65 <=? code c) && (code c <=? 90).
Definition islower (c : ascii) : bool := (97 <=? code c) && (code c <=? 122).
Definition isalpha (c : ascii) : bool := isupper c || islower c.
Definition isspace (c : ascii) : bool :=
  (code c =? 32) || ((9 <=? code c) && (code c <=? 13)).
Definition toupper (c : ascii) : ascii :=
  if islower c then ascii_of_N (N_of_ascii c - 32) else c.

(** ** C strings

    A [char *] into a NUL-terminated buffer is the text from the pointer up
    to the terminator.  [peek] is [*p]; [peek_at i] is [p[i]]; reading at or
    past the terminator yields NUL. *)

Definition peek (p : string) : ascii :=
  match p with EmptyString => NUL | String c _ => c end.

Fixpoint drop (n : nat) (p : string) : string :=
  match n, p with
  | S n', String _ p' => drop n' p'
  | _, _ => p
  end.

Fixpoint take (n : nat) (p : string) : string :=
  match n, p with
  | S n', String c p' => String c (take n' p')
  | _, _ => EmptyString
  end.

Definition peek_at (i : nat) (p : string) : ascii := peek (drop i p).

(** The C string held by a buffer: everything before the first NUL. *)
Fixpoint cstr (s : string) : string :=
  match s with
  | EmptyString => EmptyString
  | String c s' => if Ascii.eqb c NUL then EmptyString else String c (cstr s')
  end.

Definition strlen (s : string) : Z := Z.of_nat (String.length s).

(** [strcmp]: only the sign of the result is specified (and used). *)
Fixpoint strcmp (a b : string) : Z :=
  match a, b with
  | EmptyString, EmptyString => 0
  | EmptyString, String _ _ => -1
  | String _ _, EmptyString => 1
  | String x a', String y b' =>
      if code x <? code y then -1
      else if code y <? code x then 1
      else strcmp a' b'
  end.

Fixpoint is_prefix (a b : string) : bool :=
  match a, b with
  | EmptyString, _ => true
  | String x a', String y b' => Ascii.eqb x y && is_prefix a' b'
  | String _ _, EmptyString => false
  end.

(** [strstr hay needle]: offset of the first occurrence, if any. *)
Fixpoint strstr (hay needle : string) : option Z :=
  if is_prefix needle hay then Some 0
  else match hay with
       | EmptyString => None
       | String _ hay' =>
           match strstr hay' needle with
           | Some k => Some (k + 1)
           | None => None
           end
       end.

(** [strchr(s, '\n')] followed by [*p = '\0']. *)
Fixpoint cut_at_newline (s : string) : string :=
  match s with
  | EmptyString => EmptyString
  | String c s' =>
      if Ascii.eqb c "010"%char then EmptyString else String c (cut_at_newline s')
  end.

(** [strncat(dst, src, n)] on a destination that has room for the result. *)
Definition strncat (dst src : string) (n : Z) : string :=
  dst ++ take (Z.to_nat n) src.

(** ** <stdio.h>: [fgets] on a stream given by the characters still unread.

    At most [size - 1] characters are stored; reading stops after a newline.
    The result is [None] at end of file. *)

Fixpoint fgets_chars (room : nat) (inp : string) : string * string :=
  match room, inp with
  | S room', String c inp' =>
      if Ascii.eqb c "010"%char then (String c EmptyString, inp')
      else let (l, rest) := fgets_chars room' inp' in (String c l, rest)
  | _, _ => (EmptyString, inp)
  end.

Definition fgets (size : Z) (inp : string) : option (string * string) :=
  match inp with
  | EmptyString => None
  | _ => let (l, rest) := fgets_chars (Z.to_nat (size - 1)) inp in
         Some (cstr l, rest)
  end.

(** ** Integers

    [int] is 32 bits wide, [long] 64.  The interpreter's own integer
    arithmetic (indices, sizes, columns) is carried out in [Z]. *)

Definition INT_MIN : Z := - 2 ^ 31.
Definition INT_MAX : Z := 2 ^ 31 - 1.

Definition wrap32 (z : Z) : Z := (z + 2 ^ 31) mod 2 ^ 32 - 2 ^ 31.

Definition clamp_long (z : Z) : Z := Z.max (- 2 ^ 63) (Z.min (2 ^ 63 - 1) z).

Fixpoint skip_isspace (p : string) : string :=
  match p with
  | String c p' => if isspace c then skip_isspace p' else p
  | EmptyString => p
  end.

Fixpoint digits_value (acc : Z) (p : string) : Z :=
  match p with
  | String c p' =>
      if isdigit c then digits_value (10 * acc + (code c - 48)) p' else acc
  | EmptyString => acc
  end.

(** [atoi]: white space, an optional sign, decimal digits.  A value that
    does not fit is what [(int) strtol(...)] gives. *)
Definition atoi (p : string) : Z :=
  let q := skip_isspace p in
  let v :=
    match q with
    | String "-" q' => - digits_value 0 q'
    | String "+" q' => digits_value 0 q'
    | _ => digits_value 0 q
    end in
  wrap32 (clamp_long v).

(** ** Conversions between [double] and [int]

    [double] is IEEE-754 binary64, Rocq's primitive [float]. *)

Definition trunc_SF (f : spec_float) : option Z :=
  match f with
  | S754_zero _ => Some 0
  | S754_finite s m e =>
      let a := if 0 <=? e then Zpos m * 2 ^ e else Zpos m / 2 ^ (- e) in
      Some (if s then - a else a)
  | _ => None
  end.

Definition floor_SF (f : spec_float) : option Z :=
  match f with
  | S754_zero _ => Some 0
  | S754_finite s m e =>
      if 0 <=? e then Some (if s then - (Zpos m * 2 ^ e) else Zpos m * 2 ^ e)
      else Some ((if s then Zneg m else Zpos m) / 2 ^ (- e))
  | _ => None
  end.

(** [(int) x]: truncation toward zero.  For a NaN or a value outside the
    range of [int] the C result is undefined; the model returns what the
    x86-64 conversion instruction returns, [INT_MIN]. *)
Definition double_to_int (x : float) : Z :=
  match trunc_SF (Prim2SF x) with
  | Some z => if (INT_MIN <=? z) && (z <=? INT_MAX) then z else INT_MIN
  | None => INT_MIN
  end.

(** [(long) x], same convention. *)
Definition double_to_long (x : float) : Z :=
  match trunc_SF (Prim2SF x) with
  | Some z => if (- 2 ^ 63 <=? z) && (z <=? 2 ^ 63 - 1) then z else - 2 ^ 63
  | None => - 2 ^ 63
  end.

(** [(unsigned int) x]. *)
Definition double_to_uint (x : float) : Z := double_to_long x mod 2 ^ 32.

(** [(double) n] for a 64-bit integer [n]; exact below 2^53. *)
Definition int_to_double (n : Z) : float :=
  if n <? 0 then PrimFloat.opp (PrimFloat.of_uint63 (Uint63.of_Z (- n)))
  else PrimFloat.of_uint63 (Uint63.of_Z n).

(** [floor] of <math.h>: a double whose binary exponent is non-negative is
    already an integer. *)
Definition floor (x : float) : float :=
  match Prim2SF x with
  | S754_finite s m e =>
      if 0 <=? e then x
      else match floor_SF (S754_finite s m e) with
           | Some 0 => if s then (-0)%float else 0%float
           | Some z => int_to_double z
           | None => x
           end
  | _ => x
  end.

(** ** Decimal output of integers, [printf("%d")] *)

Definition digit_char (d : Z) : ascii := ascii_of_N (Z.to_N (48 + d)).

Fixpoint digits_of (fuel : nat) (n : Z) (acc : string) : string :=
  match fuel with
  | O => acc
  | S fuel' =>
      let acc' := String (digit_char (n mod 10)) acc in
      if n / 10 =? 0 then acc' else digits_of fuel' (n / 10) acc'
  end.

Definition fmt_d (n : Z) : string :=
  if n <? 0 then String "-" (digits_of (Z.to_nat (Z.log2 (- n) + 2)) (- n) EmptyString)
  else digits_of (Z.to_nat (Z.log2 n + 2)) n EmptyString.

End CLib.

(* ===================================================================== *)
(** * Values, interpreter state and the state monad                       *)
(* ===================================================================== *)

Module Machine.

(** [enum value_type] and [struct value].  The C struct always carries all
    three members: after a failed [ensure_num] the evaluator still reads
    [num] of a string value, so the model keeps them all. *)
Inductive value_type : Set := VAL_NUM | VAL_STR.

Definition value_type_eqb (a b : value_type) : bool :=
  match a, b with
  | VAL_NUM, VAL_NUM | VAL_STR, VAL_STR => true
  | _, _ => false
  end.

Record value : Set := mk_value { vtype : value_type; num : float; str : string }.

(** What [calloc] and [memset(.., 0, ..)] leave in a [struct value]. *)
Definition zero_value : value := mk_value VAL_NUM 0%float "".

Definition with_num (v : value) (x : float) : value := mk_value (vtype v) x (str v).
Definition with_str (v : value) (t : string) : value := mk_value (vtype v) (num v) t.
Definition with_type (v : value) (t : value_type) : value := mk_value t (num v) (str v).

(** [struct line]. *)
Record line : Set := mk_line { number : Z; text : string }.

(** [struct var].  [array] is the heap block ([nil] for the NULL pointer). *)
Record var : Set := mk_var {
  scalar : value;
  array : list value;
  size : Z;
  name1 : ascii;
  name2 : ascii;
  is_string : bool;
  is_array : bool
}.

(** A [struct value *] handed out by [get_var_reference]: the scalar slot of
    [vars[i]], or element [k] of its array. *)
Inductive value_ref : Set :=
| RScalar (i : nat)
| RElem (i : nat) (k : nat).

(** [struct gosub_frame]. *)
Record gosub_frame : Set := mk_gosub { g_position : string; g_line_index : Z }.

(** [struct for_frame]; [f_var] is the [struct value *var] (NULL is [None]). *)
Record for_frame : Set := mk_for {
  f_var : option value_ref;
  f_end_value : float;
  f_step : float;
  f_resume_pos : string;
  f_line_index : Z;
  f_name1 : ascii;
  f_name2 : ascii;
  f_is_string : bool
}.

(** The globals of the program, and the three standard streams.

    [program_lines] holds the [line_count] entries in use, [vars] the
    [var_count] entries in use.  [gosub_stack] and [for_stack] hold the
    entries below [gosub_top] and [for_top], innermost first (entries at or
    above the top index are never read before they are overwritten).
    [last_lookup_num] and [last_lookup_idx] exist in [basic.c] only. *)
Record state : Set := mk_state {
  program_lines : list line;
  vars : list var;
  gosub_stack : list gosub_frame;
  for_stack : list for_frame;
  current_line : Z;
  statement_pos : option string;
  halted : bool;
  print_col : Z;
  last_lookup_num : Z;
  last_lookup_idx : Z;
  stdout : string;
  stderr : string;
  stdin : string;
  rng : N;
  slept : Z
}.

Definition set_program_lines (x : list line) (s : state) : state :=
  mk_state x (vars s) (gosub_stack s) (for_stack s) (current_line s)
    (statement_pos s) (halted s) (print_col s) (last_lookup_num s)
    (last_lookup_idx s) (stdout s) (stderr s) (stdin s) (rng s) (slept s).
Definition set_vars (x : list var) (s : state) : state :=
  mk_state (program_lines s) x (gosub_stack s) (for_stack s) (current_line s)
    (statement_pos s) (halted s) (print_col s) (last_lookup_num s)
    (last_lookup_idx s) (stdout s) (stderr s) (stdin s) (rng s) (slept s).
Definition set_gosub_stack (x : list gosub_frame) (s : state) : state :=
  mk_state (program_lines s) (vars s) x (for_stack s) (current_line s)
    (statement_pos s) (halted s) (print_col s) (last_lookup_num s)
    (last_lookup_idx s) (stdout s) (stderr s) (stdin s) (rng s) (slept s).
Definition set_for_stack (x : list for_frame) (s : state) : state :=
  mk_state (program_lines s) (vars s) (gosub_stack s) x (current_line s)
    (statement_pos s) (halted s) (print_col s) (last_lookup_num s)
    (last_lookup_idx s) (stdout s) (stderr s) (stdin s) (rng s) (slept s).
Definition set_current_line (x : Z) (s : state) : state :=
  mk_state (program_lines s) (vars s) (gosub_stack s) (for_stack s) x
    (statement_pos s) (halted s) (print_col s) (last_lookup_num s)
    (last_lookup_idx s) (stdout s) (stderr s) (stdin s) (rng s) (slept s).
Definition set_statement_pos (x : option string) (s : state) : state :=
  mk_state (program_lines s) (vars s) (gosub_stack s) (for_stack s)
    (current_line s) x (halted s) (print_col s) (last_lookup_num s)
    (last_lookup_idx s) (stdout s) (stderr s) (stdin s) (rng s) (slept s).
Definition set_halted (x : bool) (s : state) : state :=
  mk_state (program_lines s) (vars s) (gosub_stack s) (for_stack s)
    (current_line s) (statement_pos s) x (print_col s) (last_lookup_num s)
    (last_lookup_idx s) (stdout s) (stderr s) (stdin s) (rng s) (slept s).
Definition set_print_col (x : Z) (s : state) : state :=
  mk_state (program_lines s) (vars s) (gosub_stack s) (for_stack s)
    (current_line s) (statement_pos s) (halted s) x (last_lookup_num s)
    (last_lookup_idx s) (stdout s) (stderr s) (stdin s) (rng s) (slept s).
Definition set_last_lookup (n i : Z) (s : state) : state :=
  mk_state (program_lines s) (vars s) (gosub_stack s) (for_stack s)
    (current_line s) (statement_pos s) (halted s) (print_col s) n i
    (stdout s) (stderr s) (stdin s) (rng s) (slept s).
Definition set_stdout (x : string) (s : state) : state :=
  mk_state (program_lines s) (vars s) (gosub_stack s) (for_stack s)
    (current_line s) (statement_pos s) (halted s) (print_col s)
    (last_lookup_num s) (last_lookup_idx s) x (stderr s) (stdin s) (rng s)
    (slept s).
Definition set_stderr (x : string) (s : state) : state :=
  mk_state (program_lines s) (vars s) (gosub_stack s) (for_stack s)
    (current_line s) (statement_pos s) (halted s) (print_col s)
    (last_lookup_num s) (last_lookup_idx s) (stdout s) x (stdin s) (rng s)
    (slept s).
Definition set_stdin (x : string) (s : state) : state :=
  mk_state (program_lines s) (vars s) (gosub_stack s) (for_stack s)
    (current_line s) (statement_pos s) (halted s) (print_col s)
    (last_lookup_num s) (last_lookup_idx s) (stdout s) (stderr s) x (rng s)
    (slept s).
Definition set_rng (x : N) (s : state) : state :=
  mk_state (program_lines s) (vars s) (gosub_stack s) (for_stack s)
    (current_line s) (statement_pos s) (halted s) (print_col s)
    (last_lookup_num s) (last_lookup_idx s) (stdout s) (stderr s) (stdin s) x
    (slept s).
Definition set_slept (x : Z) (s : state) : state :=
  mk_state (program_lines s) (vars s) (gosub_stack s) (for_stack s)
    (current_line s) (statement_pos s) (halted s) (print_col s)
    (last_lookup_num s) (last_lookup_idx s) (stdout s) (stderr s) (stdin s)
    (rng s) x.

(** The static initialisers of the globals, with the given streams. *)
Definition initial_state (input : string) : state :=
  mk_state [] [] [] [] 0 None false 0 (-1) (-1) "" "" input 0%N 0.

Definition line_count (s : state) : Z := Z.of_nat (List.length (program_lines s)).
Definition var_count (s : state) : Z := Z.of_nat (List.length (vars s)).
Definition gosub_top (s : state) : Z := Z.of_nat (List.length (gosub_stack s)).
Definition for_top (s : state) : Z := Z.of_nat (List.length (for_stack s)).

(** ** What the host's C library provides *)
Record host : Type := mk_host {
  h_atof : string -> float;          (* atof *)
  h_fmt_g : float -> string;         (* sprintf(buf, "%g", x) *)
  h_sin : float -> float;
  h_cos : float -> float;
  h_tan : float -> float;
  h_atan : float -> float;
  h_exp : float -> float;
  h_log : float -> float;
  h_pow : float -> float -> float;
  h_srand : Z -> N;                  (* srand: the generator state it sets *)
  h_rand : N -> Z * N;               (* rand: result and next state *)
  h_RAND_MAX : Z;
  (* The heap.  The arguments are the variable table at the time of the
     call: what the allocator answers and what a fresh block holds depend on
     the blocks handed out so far. *)
  h_alloc : list var -> Z -> bool;   (* a block of so many cells can be had *)
  h_uninit : list var -> nat -> nat -> value;
                                     (* a cell never written: the table, the
                                        entry the block is for, the cell *)
  h_in_place : Z -> Z -> bool        (* realloc from the first number of cells
                                        to the second left the block where
                                        it was *)
}.

(** ** The monad: state passing

    [None] is a run that gives no result: the fuel of the model ran out, or
    the C program left defined behaviour with an access outside every
    object, which kills the process where the address is not mapped and
    about which nothing is claimed otherwise. *)

Definition M (A : Type) : Type := state -> option (A * state).

Definition ret {A} (a : A) : M A := fun s => Some (a, s).
Definition bind {A B} (m : M A) (k : A -> M B) : M B :=
  fun s => match m s with
           | Some (a, s') => k a s'
           | None => None
           end.
Definition out_of_fuel {A} : M A := fun _ => None.
(** An access outside every object: through a NULL block pointer, or by a
    copy that runs beyond a buffer on the stack.  No result. *)
Definition killed {A} : M A := fun _ => None.
Definition get : M state := fun s => Some (s, s).
Definition gets {A} (f : state -> A) : M A := fun s => Some (f s, s).
Definition modify (f : state -> state) : M unit := fun s => Some (tt, f s).

Declare Scope monad_scope.
Delimit Scope monad_scope with monad.
Notation "x <- m ;; k" := (bind m (fun x => k))
  (at level 61, m at next level, right associativity) : monad_scope.
Notation "m ;; k" := (bind m (fun _ => k))
  (at level 61, right associativity) : monad_scope.
Local Open Scope monad_scope.

(** *** The cursor [*p] *)

Definition cursor (s : state) : string :=
  match statement_pos s with Some p => p | None => "" end.

(** The character under the cursor, and the one [i] places further. *)
Definition peek : M ascii := gets (fun s => CLib.peek (cursor s)).
Definition peek_at (i : nat) : M ascii := gets (fun s => CLib.peek_at i (cursor s)).
(** Move the cursor [n] characters on. *)
Definition advance (n : nat) : M unit :=
  modify (fun s => set_statement_pos (Some (CLib.drop n (cursor s))) s).
Definition set_cursor (p : string) : M unit := modify (set_statement_pos (Some p)).

(** *** Output *)

Definition fputc_stdout (c : ascii) : M unit :=
  modify (fun s => set_stdout (stdout s ++ String c "") s).
Definition fputs_stdout (t : string) : M unit :=
  modify (fun s => set_stdout (stdout s ++ t) s).
Definition fputs_stderr (t : string) : M unit :=
  modify (fun s => set_stderr (stderr s ++ t) s).

Definition newline : ascii := "010"%char.
Definition tab : ascii := "009"%char.
Definition dquote : ascii := "034"%char.

(** Bounded iteration for the C loops whose trip count is known on entry. *)
Fixpoint repeatM (n : nat) (m : M unit) : M unit :=
  match n with
  | O => ret tt
  | S n' => m ;; repeatM n' m
  end.

End Machine.


(* ===================================================================== *)
(** * Functions whose text is the same in both files                      *)
(* ===================================================================== *)

Module Common.
Import Machine.

(** [skip_spaces] on the text under the cursor. *)
Fixpoint skip_spaces_str (p : string) : string :=
  match p with
  | String c p' =>
      if Ascii.eqb c " " || Ascii.eqb c tab then skip_spaces_str p' else p
  | EmptyString => p
  end.

(** Number of leading decimal digits. *)
Fixpoint span_digits (p : string) : nat :=
  match p with
  | String c p' => if CLib.isdigit c then S (span_digits p') else O
  | EmptyString => O
  end.

Definition is_sign (c : ascii) : bool := Ascii.eqb c "+" || Ascii.eqb c "-".

(** The comparison loop of [starts_with_kw]: the keyword, case-insensitive. *)
Fixpoint kw_matches (p kw : string) : bool :=
  match kw with
  | EmptyString => true
  | String k kw' =>
      Ascii.eqb (CLib.toupper (CLib.peek p)) k && kw_matches (CLib.drop 1 p) kw'
  end.

(** [name_equals] *)
Fixpoint name_equals (a b : string) : bool :=
  match a, b with
  | EmptyString, EmptyString => true
  | String x a', String y b' => Ascii.eqb (CLib.toupper x) y && name_equals a' b'
  | _, _ => false
  end.

(** [read_identifier]: the buffer contents and the text that follows. *)
Fixpoint read_identifier_str (room : nat) (p : string) : string * string :=
  match room, p with
  | S room', String c p' =>
      if CLib.isalpha c || CLib.isdigit c || Ascii.eqb c "$" then
        let (b, rest) := read_identifier_str room' p' in (String c b, rest)
      else (EmptyString, p)
  | _, _ => (EmptyString, p)
  end.

Definition last_char (s : string) : ascii :=
  CLib.peek_at (String.length s - 1) s.

Definition null_var : var := mk_var zero_value [] 0 " " " " false false.

Fixpoint list_set {A} (l : list A) (i : nat) (x : A) : list A :=
  match l, i with
  | [], _ => []
  | _ :: l', O => x :: l'
  | y :: l', S i' => y :: list_set l' i' x
  end.

Definition var_matches (n1 n2 : ascii) (is_str : bool) (v : var) : bool :=
  Ascii.eqb (name1 v) n1 && Ascii.eqb (name2 v) n2 && Bool.eqb (is_string v) is_str.

(** The first index [i < var_count] whose key matches. *)
Fixpoint find_var (vs : list var) (n1 n2 : ascii) (is_str : bool) (i : nat)
  : option nat :=
  match vs with
  | [] => None
  | v :: vs' =>
      if var_matches n1 n2 is_str v then Some i
      else find_var vs' n1 n2 is_str (S i)
  end.

Definition calloc_values (n : Z) : list value := repeat zero_value (Z.to_nat n).

(** [calloc] or [realloc] for [n] cells returns a block.  The count is an
    [int]: a negative one becomes a [size_t] that no heap can satisfy. *)
Definition alloc_ok (H : host) (vs : list var) (n : Z) : bool :=
  (0 <=? n) && h_alloc H vs n.

(** What [realloc] returns for the block [old] of entry [i], up to cell
    [upto]: the cells of the old block, then cells never written. *)
Definition grow_block (H : host) (vs : list var) (i : nat) (old : list value)
    (upto : Z) : list value :=
  (old ++ map (h_uninit H vs i)
            (seq (List.length old) (Z.to_nat upto - List.length old)))%list.

(** The number of cells of the block a [struct value *] points into when it
    was taken (0 for a scalar, which lies in the static table), and whether
    a pointer taken at [before] cells still points into the live block at
    [after] cells: the block never grew, or [realloc] left it in place. *)
Definition block_cells (r : value_ref) (s : state) : Z :=
  match r with
  | RScalar _ => 0
  | RElem i _ => size (nth i (vars s) null_var)
  end.

Definition same_block (H : host) (before after : Z) : bool :=
  (before =? after) || h_in_place H before after.

(** Reading and writing through a [struct value *].  The pointer is kept as
    the entry and the cell it was computed from and resolved against the table
    at each use, which is what the C does as long as the block has not moved
    since.  The code holds a pointer across a call that can move the block in
    one place only, [statement_let]; there the store is made only if
    [same_block] holds, and the run gives no result otherwise.  (FOR and NEXT keep pointers to scalars, which lie in the
    static table; INPUT and the evaluator use a pointer at once.) *)
Definition read_ref (r : value_ref) (s : state) : value :=
  match r with
  | RScalar i => scalar (nth i (vars s) null_var)
  | RElem i k => nth k (array (nth i (vars s) null_var)) zero_value
  end.

Definition write_ref (r : value_ref) (x : value) (s : state) : state :=
  match r with
  | RScalar i =>
      let v := nth i (vars s) null_var in
      set_vars (list_set (vars s) i
                  (mk_var x (array v) (size v) (name1 v) (name2 v)
                          (is_string v) (is_array v))) s
  | RElem i k =>
      let v := nth i (vars s) null_var in
      set_vars (list_set (vars s) i
                  (mk_var (scalar v) (list_set (array v) k x) (size v)
                          (name1 v) (name2 v) (is_string v) (is_array v))) s
  end.

(** The characters of a string literal up to the closing quote, at most
    [room] of them, and the text from there on. *)
Fixpoint string_literal (room : nat) (p : string) : string * string :=
  match room, p with
  | S room', String c p' =>
      if Ascii.eqb c dquote then (EmptyString, p)
      else let (b, rest) := string_literal room' p' in (String c b, rest)
  | _, _ => (EmptyString, p)
  end.

(** The search of [statement_for] for the table entry a pointer belongs to. *)
Definition points_into (i : nat) (v : var) (r : value_ref) : bool :=
  match r with
  | RScalar j => Nat.eqb i j
  | RElem j k => Nat.eqb i j && is_array v && (Z.of_nat k <? size v)
  end.

Fixpoint owner_of (vs : list var) (r : value_ref) (i : nat) : option var :=
  match vs with
  | [] => None
  | v :: vs' => if points_into i v r then Some v else owner_of vs' r (S i)
  end.

(** The downward search of [statement_next]: the frames from the first one
    that matches, innermost first ([nil] when the search ends at [i < 0]). *)
Fixpoint find_for_frame (no_name : bool) (n1 n2 : ascii) (st : list for_frame)
  : list for_frame :=
  match st with
  | [] => []
  | fr :: below =>
      if no_name || (Ascii.eqb (f_name1 fr) n1 && Ascii.eqb (f_name2 fr) n2)
      then st
      else find_for_frame no_name n1 n2 below
  end.

(** [sort_program]: the exchange sort of the C, on the list of entries. *)
Definition line_at (l : list line) (i : nat) : line := nth i l (mk_line 0 "").

Definition swap_lines (l : list line) (i j : nat) : list line :=
  list_set (list_set l i (line_at l j)) j (line_at l i).

(** The inner loop from [j] on, [k] turns. *)
Fixpoint sort_inner (k : nat) (i j : nat) (l : list line) : list line :=
  match k with
  | O => l
  | S k' =>
      sort_inner k' i (S j)
        (if number (line_at l j) <? number (line_at l i) then swap_lines l i j else l)
  end.

(** The outer loop from [i] on, [k] turns. *)
Fixpoint sort_outer (k : nat) (i : nat) (l : list line) : list line :=
  match k with
  | O => l
  | S k' => sort_outer k' (S i) (sort_inner (List.length l - S i) i (S i) l)
  end.

Definition sort_program (l : list line) : list line :=
  sort_outer (List.length l) 0 l.

(** The replacement loop of [add_or_replace_line]: [None] when no entry has
    the number. *)
Fixpoint replace_line (ls : list line) (number_wanted : Z) (t : string)
  : option (list line) :=
  match ls with
  | [] => None
  | l :: ls' =>
      if number l =? number_wanted then Some (mk_line (number l) t :: ls')
      else option_map (cons l) (replace_line ls' number_wanted t)
  end.

(** [while ( *p && !isspace( *p)) p++;] *)
Fixpoint skip_nonspace (p : string) : string :=
  match p with
  | String c p' => if CLib.isspace c then p else skip_nonspace p'
  | EmptyString => p
  end.

Definition skip_bom (p : string) : string :=
  if (CLib.code (CLib.peek p) =? 239) && (CLib.code (CLib.peek_at 1 p) =? 187) &&
     (CLib.code (CLib.peek_at 2 p) =? 191)
  then CLib.drop 3 p else p.

(** The outcome of [load_program]: the process has exited, or the store is
    built. *)
Inductive load_result : Set :=
| Exited (code : Z) (s : state)
| Loaded (s : state).

End Common.

(* ===================================================================== *)
(** * A reference host                                                    *)
(* ===================================================================== *)

(** A host on which programs can be run inside Rocq.  [atof] and ["%g"] are
    computed exactly (decimal literals and correctly rounded output); the
    generator is the sample [rand] of the C standard.  The transcendental
    functions are not available on this host and return NaN: programs run
    on it do not call them. *)
Module RefHost.
Import Machine.

Definition of_SF (f : spec_float) : float := SF2Prim f.

(** The double nearest to [(-1)^neg * m * 10^e]. *)
Definition decimal_to_double (neg : bool) (m e : Z) : float :=
  if m =? 0 then (if neg then (-0)%float else 0%float)
  else if 400 <? e then (if neg then neg_infinity else infinity)
  else if Z.log2 m + 1 + e <? -400 then (if neg then (-0)%float else 0%float)
  else if 0 <=? e then
    of_SF (binary_normalize prec emax ((if neg then -1 else 1) * (m * 10 ^ e)) 0 neg)
  else
    let d := 10 ^ (- e) in
    let k := Z.max 0 (65 + Z.log2 d - Z.log2 m) in
    let q := (m * 2 ^ k) / d in
    let sticky := if (m * 2 ^ k) mod d =? 0 then 0 else 1 in
    of_SF (binary_normalize prec emax ((if neg then -1 else 1) * (2 * q + sticky))
             (- k - 1) neg).

(** Leading decimal digits: their value on top of [acc], how many, the rest. *)
Fixpoint read_digits (acc : Z) (p : string) : Z * Z * string :=
  match p with
  | String c p' =>
      if CLib.isdigit c then
        let '(v, n, rest) := read_digits (10 * acc + (CLib.code c - 48)) p' in
        (v, n + 1, rest)
      else (acc, 0, p)
  | EmptyString => (acc, 0, p)
  end.

Definition strip_sign (p : string) : bool * string :=
  match p with
  | String "-" p' => (true, p')
  | String "+" p' => (false, p')
  | _ => (false, p)
  end.

(** [atof] on decimal input: white space, sign, digits with an optional
    point, an optional exponent; 0 when no number is there. *)
Definition atof (s : string) : float :=
  let (neg, p) := strip_sign (CLib.skip_isspace s) in
  let '(m1, n1, p) := read_digits 0 p in
  let '(m, n2, p) :=
    match p with
    | String "." p' => read_digits m1 p'
    | _ => (m1, 0, p)
    end in
  if n1 + n2 =? 0 then 0%float
  else
    let ex :=
      match p with
      | String c p' =>
          if Ascii.eqb c "e" || Ascii.eqb c "E" then
            let (eneg, p'') := strip_sign p' in
            let '(ev, en, _) := read_digits 0 p'' in
            if en =? 0 then 0 else if eneg then - ev else ev
          else 0
      | EmptyString => 0
      end in
    decimal_to_double neg m (ex - n2).

(** [num / den] rounded to the nearest integer, ties to even. *)
Definition round_half_even (num den : Z) : Z :=
  let q := num / den in
  let r := num mod den in
  if 2 * r <? den then q
  else if den <? 2 * r then q + 1
  else if Z.even q then q else q + 1.

(** [10^t <= num / den] *)
Definition at_least_pow10 (num den t : Z) : bool :=
  if 0 <=? t then den * 10 ^ t <=? num else den <=? num * 10 ^ (- t).

(** The decimal exponent [x] with [10^x <= num / den < 10^(x+1)]. *)
Definition decimal_exponent (num den : Z) : Z :=
  let g := ((Z.log2 num - Z.log2 den) * 30103) / 100000 in
  let g := if at_least_pow10 num den (g + 1) then g + 1 else g in
  let g := if at_least_pow10 num den (g + 1) then g + 1 else g in
  let g := if at_least_pow10 num den g then g else g - 1 in
  if at_least_pow10 num den g then g else g - 1.

Fixpoint strip_zeros_rev (r : list ascii) : list ascii :=
  match r with
  | "0"%char :: r' => strip_zeros_rev r'
  | _ => r
  end.

Definition strip_trailing_zeros (s : string) : string :=
  string_of_list_ascii (rev (strip_zeros_rev (rev (list_ascii_of_string s)))).

Fixpoint zeros (n : nat) : string :=
  match n with O => "" | S n' => String "0" (zeros n') end.

Definition with_point (int_part frac : string) : string :=
  match strip_trailing_zeros frac with
  | EmptyString => int_part
  | f => int_part ++ "." ++ f
  end.

(** [sprintf(buf, "%g", x)]: six significant digits, trailing zeros removed,
    exponent form when the decimal exponent is below -4 or at least 6. *)
Definition fmt_g (x : float) : string :=
  match Prim2SF x with
  | S754_nan => "nan"
  | S754_infinity s => if s then "-inf" else "inf"
  | S754_zero s => if s then "-0" else "0"
  | S754_finite s m e =>
      let num := if 0 <=? e then Zpos m * 2 ^ e else Zpos m in
      let den := if 0 <=? e then 1 else 2 ^ (- e) in
      let x0 := decimal_exponent num den in
      let d0 := if 0 <=? 5 - x0 then round_half_even (num * 10 ^ (5 - x0)) den
                else round_half_even num (den * 10 ^ (x0 - 5)) in
      let d := if d0 =? 1000000 then 100000 else d0 in
      let xp := if d0 =? 1000000 then x0 + 1 else x0 in
      let ds := CLib.fmt_d d in
      let body :=
        if (xp <? -4) || (6 <=? xp) then
          with_point (CLib.take 1 ds) (CLib.drop 1 ds) ++ "e" ++
          (if xp <? 0 then "-" else "+") ++
          (if Z.abs xp <? 10 then "0" else "") ++ CLib.fmt_d (Z.abs xp)
        else if 0 <=? xp then
          with_point (CLib.take (Z.to_nat (xp + 1)) ds) (CLib.drop (Z.to_nat (xp + 1)) ds)
        else
          with_point "0" (zeros (Z.to_nat (- xp - 1)) ++ ds) in
      (if s then "-" else "") ++ body
  end.

(** The sample generator of the C standard. *)
Definition srand (seed : Z) : N := Z.to_N seed.
Definition rand (g : N) : Z * N :=
  let g' := ((g * 1103515245 + 12345) mod 2 ^ 32)%N in
  (Z.of_N ((g' / 65536) mod 32768)%N, g').

Definition unavailable (_ : float) : float := nan.

(** A heap that has room for any block of up to 2^20 cells, hands out
    zeroed memory, and moves a block that grows. *)
Definition alloc (_ : list var) (n : Z) : bool := n <=? 2 ^ 20.

Definition ref_host : host :=
  mk_host atof fmt_g unavailable unavailable unavailable unavailable
          unavailable unavailable (fun _ _ => nan)
          srand rand 32767 alloc (fun _ _ _ => zero_value) (fun _ _ => false).

End RefHost.
(* ===================================================================== *)
(** * The classic interpreter ([bsdbasic.c])                              *)
(* ===================================================================== *)

Module Classic.
Import Machine Common.
Local Open Scope monad_scope.

Definition MAX_LINES : Z := 1024.
Definition MAX_LINE_LEN : Z := 256.
Definition MAX_VARS : Z := 128.
Definition MAX_GOSUB : Z := 64.
Definition MAX_FOR : Z := 32.
Definition MAX_STR_LEN : Z := 256.
Definition DEFAULT_ARRAY_SIZE : Z := 11.
Definition PRINT_WIDTH : Z := 80.

(** ** Lexical helpers *)

(** [runtime_error]: report on stderr and halt further execution. *)
Definition runtime_error (msg : string) : M unit :=
  fputs_stderr ("Error: " ++ msg ++ String newline "") ;;
  modify (set_halted true).

Definition trim_newline (s : string) : string := CLib.cut_at_newline s.

Definition skip_spaces : M unit :=
  modify (fun s => set_statement_pos (Some (skip_spaces_str (cursor s))) s).

(** The offset [q - s] that [parse_number_literal] reaches. *)
Definition number_extent (s : string) : nat :=
  let q := if is_sign (CLib.peek s) then 1%nat else 0%nat in
  let q := (q + span_digits (CLib.drop q s))%nat in
  let q := if Ascii.eqb (CLib.peek_at q s) "."
           then (q + 1 + span_digits (CLib.drop (q + 1) s))%nat else q in
  if Ascii.eqb (CLib.peek_at q s) "e" || Ascii.eqb (CLib.peek_at q s) "E" then
    let e := (q + 1)%nat in
    let e := if is_sign (CLib.peek_at e s) then (e + 1)%nat else e in
    if CLib.isdigit (CLib.peek_at e s) then (e + span_digits (CLib.drop e s))%nat
    else q
  else q.

Section WithHost.
Variable H : host.

(** [parse_number_literal]: the value and the cursor after the literal, or
    [None] for the C result 0 (cursor unchanged). *)
Definition parse_number_literal_str (s : string) : option (float * string) :=
  let q := number_extent s in
  if Nat.eqb q 0 || (Nat.eqb q 1 && is_sign (CLib.peek s)) then None
  else
    let len := if 64 <=? Z.of_nat q then 63%nat else q in
    Some (h_atof H (CLib.take len s), CLib.drop q s).

Definition parse_number_literal : M (option float) :=
  s <- get ;;
  match parse_number_literal_str (cursor s) with
  | Some (x, q) => set_cursor q ;; ret (Some x)
  | None => ret None
  end.

(** [starts_with_kw]: case-insensitive keyword followed by a delimiter. *)
Definition is_kw_delim (c : ascii) : bool :=
  Ascii.eqb c CLib.NUL || Ascii.eqb c " " || Ascii.eqb c tab ||
  Ascii.eqb c ":" || Ascii.eqb c "(" || Ascii.eqb c "$".

Definition starts_with_kw (p kw : string) : bool :=
  kw_matches p kw && is_kw_delim (CLib.peek_at (String.length kw) p).

(** [starts_with_kw_dollar]: no delimiter check. *)
Definition starts_with_kw_dollar (p kw : string) : bool := kw_matches p kw.

Definition make_num (v : float) : value := mk_value VAL_NUM v "".

Definition make_str (s : string) : value :=
  mk_value VAL_STR 0%float (CLib.take (Z.to_nat (MAX_STR_LEN - 1)) (CLib.cstr s)).

Definition ensure_num (v : value) : M unit :=
  if value_type_eqb (vtype v) VAL_NUM then ret tt
  else runtime_error "Numeric value required".

Definition ensure_str (v : value) : M unit :=
  if value_type_eqb (vtype v) VAL_STR then ret tt
  else runtime_error "String value required".

(** ** Printing *)

(** One pass of the body shared by [print_spaces] and the string case of
    [print_value]: count the column, wrap at the print width. *)
Definition count_column : M unit :=
  modify (fun s => set_print_col (print_col s + 1) s) ;;
  col <- gets print_col ;;
  if PRINT_WIDTH <=? col then
    fputc_stdout newline ;; modify (set_print_col 0)
  else ret tt.

Definition print_spaces (count : Z) : M unit :=
  repeatM (Z.to_nat count) (fputc_stdout " " ;; count_column).

Fixpoint print_string (t : string) : M unit :=
  match t with
  | EmptyString => ret tt
  | String c t' =>
      fputc_stdout c ;;
      (if Ascii.eqb c newline then modify (set_print_col 0) else count_column) ;;
      print_string t'
  end.

Definition print_value (v : value) : M unit :=
  if value_type_eqb (vtype v) VAL_STR then print_string (str v)
  else
    let buf := h_fmt_g H (num v) in
    fputs_stdout buf ;;
    modify (fun s => set_print_col (print_col s + CLib.strlen buf) s).

(** ** SLEEP *)

Definition do_sleep_ticks (ticks : float) : M unit :=
  if PrimFloat.leb ticks 0 then ret tt
  else
    let usec := CLib.double_to_long (ticks * (1000000 / 60) + 0.5)%float in
    if usec <=? 0 then ret tt
    else modify (fun s => set_slept (slept s + usec) s).

(** ** Names *)

Definition read_identifier (buf_size : Z) : M string :=
  s <- get ;;
  let (b, rest) := read_identifier_str (Z.to_nat (buf_size - 1)) (cursor s) in
  set_cursor rest ;; ret b.

(** [uppercase_name]: the two-letter key and the string flag. *)
Definition uppercase_name (src : string) : ascii * ascii * bool :=
  let len := String.length src in
  let is_str := Nat.ltb 0 len && Ascii.eqb (last_char src) "$" in
  let len := if is_str then (len - 1)%nat else len in
  if Nat.ltb len 1 then (" "%char, " "%char, is_str)
  else (CLib.toupper (CLib.peek src),
        if Nat.ltb 1 len then CLib.toupper (CLib.peek_at 1 src) else " "%char,
        is_str).


(** ** The variable table *)

(** [find_or_create_var].  The result is the index of the entry ([None] for
    the NULL result).  A [calloc] that fails leaves the entry marked as an
    array of the size asked for with a NULL block; a [realloc] that fails
    leaves the entry as it was; both report the error and return the entry.
    When an existing array is enlarged here the C only calls [realloc]: the
    new tail is not written. *)
Definition find_or_create_var (n1 n2 : ascii) (is_str want_array : bool)
    (array_size : Z) : M (option nat) :=
  s <- get ;;
  match find_var (vars s) n1 n2 is_str 0 with
  | Some i =>
      let v := nth i (vars s) null_var in
      (if want_array && negb (is_array v) then
         if alloc_ok H (vars s) array_size then
           modify (set_vars (list_set (vars s) i
             (mk_var (scalar v) (calloc_values array_size) array_size
                     (name1 v) (name2 v) (is_string v) true)))
         else
           modify (set_vars (list_set (vars s) i
             (mk_var (scalar v) [] array_size
                     (name1 v) (name2 v) (is_string v) true))) ;;
           runtime_error "Out of memory"
       else if want_array && (size v <? array_size) then
         if alloc_ok H (vars s) array_size then
           modify (set_vars (list_set (vars s) i
             (mk_var (scalar v) (grow_block H (vars s) i (array v) array_size)
                     array_size (name1 v) (name2 v) (is_string v) (is_array v))))
         else runtime_error "Out of memory"
       else ret tt) ;;
      ret (Some i)
  | None =>
      if MAX_VARS <=? var_count s then
        runtime_error "Variable table full" ;; ret None
      else
        let ok := alloc_ok H (vars s) array_size in
        let v := mk_var (if is_str then make_str "" else make_num 0)
                        (if want_array && ok then calloc_values array_size else [])
                        (if want_array then array_size else 0)
                        n1 n2 is_str want_array in
        modify (set_vars (vars s ++ [v])%list) ;;
        (if want_array && negb ok then runtime_error "Out of memory" else ret tt) ;;
        ret (Some (List.length (vars s)))
  end.

(** The end of [get_var_reference]: a slot whose tag does not fit the name
    is reset, and the pointer is returned. *)
Definition settle_slot (is_str : bool) (valp : value_ref) : M (option value_ref) :=
  cur <- gets (read_ref valp) ;;
  (if is_str && negb (value_type_eqb (vtype cur) VAL_STR) then
     modify (write_ref valp (make_str ""))
   else if negb is_str && negb (value_type_eqb (vtype cur) VAL_NUM) then
     modify (write_ref valp (make_num 0))
   else ret tt) ;;
  ret (Some valp).

(** The second half of [get_var_reference], from the call of
    [find_or_create_var] on: pick the slot, enlarge the array if the index
    is still outside it, and reset a slot whose tag does not fit the name.
    [array_index + 1] is an [int] sum.  The element is read through the
    block pointer: where that is NULL (an allocation failed before) the
    access is outside every object. *)
Definition var_slot (n1 n2 : ascii) (is_str is_arr : bool)
    (array_size array_index : Z) : M (option value_ref) :=
  r <- find_or_create_var n1 n2 is_str is_arr (if is_arr then array_size else 0) ;;
  match r with
  | None => ret None
  | Some i =>
      if is_arr then
        s <- get ;;
        let v := nth i (vars s) null_var in
        grown <- (if size v <=? array_index then
                    let cells := CLib.wrap32 (array_index + 1) in
                    if alloc_ok H (vars s) cells then
                      modify (set_vars (list_set (vars s) i
                        (mk_var (scalar v)
                                (grow_block H (vars s) i (array v) (size v)
                                 ++ calloc_values (cells - size v))%list
                                cells (name1 v) (name2 v)
                                (is_string v) (is_array v)))) ;;
                      ret true
                    else runtime_error "Out of memory" ;; ret false
                  else ret true) ;;
        if grown then
          s <- get ;;
          match array (nth i (vars s) null_var) with
          | [] => killed
          | _ :: _ => settle_slot is_str (RElem i (Z.to_nat array_index))
          end
        else ret None
      else settle_slot is_str (RScalar i)
  end.

(** The double nearest to the C constant [0.00001]. *)
Definition epsilon : float := 0x1.4f8b588e368f1p-17%float.

(** The subscript coercion [(int)(idx_val.num + 0.00001)]. *)
Definition subscript_of (x : float) : Z := CLib.double_to_int (x + epsilon)%float.

(** The allocation size requested for a subscript. *)
Definition array_size_for (array_index : Z) : Z :=
  let cells := CLib.wrap32 (array_index + 1) in
  if cells <? DEFAULT_ARRAY_SIZE then DEFAULT_ARRAY_SIZE else cells.

(** [get_var_reference]; [top] is [eval_or_expr].  The result carries the
    two out-parameters [is_array_out] and [is_string_out]. *)
Definition get_var_reference (top : M value)
  : M (option (value_ref * bool * bool)) :=
  skip_spaces ;;
  c <- peek ;;
  if negb (CLib.isalpha c) then
    runtime_error "Expected variable" ;; ret None
  else
    namebuf <- read_identifier 16 ;;
    let '(n1, n2, is_str) := uppercase_name namebuf in
    skip_spaces ;;
    c <- peek ;;
    if Ascii.eqb c "(" then
      advance 1 ;;
      idx_val <- top ;;
      ensure_num idx_val ;;
      skip_spaces ;;
      c <- peek ;;
      if negb (Ascii.eqb c ")") then
        runtime_error "Missing ')'" ;; ret None
      else
        advance 1 ;;
        let array_index := subscript_of (num idx_val) in
        if array_index <? 0 then
          runtime_error "Negative array index" ;; ret None
        else
          r <- var_slot n1 n2 is_str true (array_size_for array_index) array_index ;;
          ret (option_map (fun valp => (valp, true, is_str)) r)
    else
      r <- var_slot n1 n2 is_str false 0 (-1) ;;
      ret (option_map (fun valp => (valp, false, is_str)) r).

(** ** Intrinsic functions *)

(** The clamping and copying done by [LEFT$], [RIGHT$] and [MID$] once
    their arguments have been evaluated and converted with [(int)]. *)
Definition left_str (s : string) (len : Z) : string :=
  let slen := CLib.strlen s in
  let len := if len <? 0 then 0 else len in
  let len := if slen <? len then slen else len in
  CLib.take (Z.to_nat len) s.

Definition right_str (s : string) (len : Z) : string :=
  let slen := CLib.strlen s in
  let len := if len <? 0 then 0 else len in
  let len := if slen <? len then slen else len in
  CLib.drop (Z.to_nat (slen - len)) s.

(** [None] is the early [return make_str("")] of a start past the end.
    [start + len] is an [int] sum: for a length near [INT_MAX] it wraps
    below zero and the clamp is not taken. *)
Definition mid_str (s : string) (start len : Z) : option string :=
  let slen := CLib.strlen s in
  let start := if start <? 1 then 1 else start in
  let start := start - 1 in
  if slen <=? start then None
  else
    let len := if len <? 0 then 0 else len in
    let len := if slen <? CLib.wrap32 (start + len) then slen - start else len in
    Some (CLib.take (Z.to_nat len) (CLib.drop (Z.to_nat start) s)).

(** The copy of [MID$] runs over its buffer: [strncpy] writes [len] bytes
    into [outbuf], and [len] was not clamped. *)
Definition mid_overruns (s : string) (start len : Z) : bool :=
  let slen := CLib.strlen s in
  let start := if start <? 1 then 1 else start in
  let start := start - 1 in
  if slen <=? start then false
  else
    let len := if len <? 0 then 0 else len in
    let len := if slen <? CLib.wrap32 (start + len) then slen - start else len in
    MAX_STR_LEN <=? len.

(** The values [LEFT$] and [MID$] return for a string and the integers
    their numeric arguments were converted to. *)
Definition fn_left (s : string) (len : Z) : value := make_str (left_str s len).

Definition fn_mid (s : string) (start len : Z) : value :=
  make_str (match mid_str s start len with Some t => t | None => "" end).

(** The string case of [+]: [strncat] into the left operand. *)
Definition concat_values (left right : value) : value :=
  with_str left
    (CLib.strncat (str left) (str right)
       (MAX_STR_LEN - CLib.strlen (str left) - 1)).

(** [if ( **p == ')') ( *p)++;] *)
Definition close_paren : M unit :=
  c <- peek ;; if Ascii.eqb c ")" then advance 1 else ret tt.

Definition numeric_fn (f : float -> float) (arg : value) : M value :=
  close_paren ;; ensure_num arg ;; ret (make_num (f (num arg))).

(** [eval_function]; [top] is [eval_or_expr]. *)
Definition eval_function (top : M value) (name : string) : M value :=
  _ <- read_identifier 16 ;;
  skip_spaces ;;
  c <- peek ;;
  if negb (Ascii.eqb c "(") then
    runtime_error "Function requires '('" ;; ret (make_num 0)
  else
    advance 1 ;;
    arg <- top ;;
    skip_spaces ;;
    if name_equals name "SIN" then numeric_fn (h_sin H) arg
    else if name_equals name "COS" then numeric_fn (h_cos H) arg
    else if name_equals name "TAN" then numeric_fn (h_tan H) arg
    else if name_equals name "ATN" then numeric_fn (h_atan H) arg
    else if name_equals name "ABS" then numeric_fn PrimFloat.abs arg
    else if name_equals name "INT" then numeric_fn CLib.floor arg
    else if name_equals name "SQR" then numeric_fn PrimFloat.sqrt arg
    else if name_equals name "SGN" then
      numeric_fn (fun x => if PrimFloat.ltb 0 x then 1%float
                           else if PrimFloat.ltb x 0 then (-1)%float
                           else 0%float) arg
    else if name_equals name "EXP" then numeric_fn (h_exp H) arg
    else if name_equals name "LOG" then numeric_fn (h_log H) arg
    else if name_equals name "RND" then
      close_paren ;;
      ensure_num arg ;;
      (if PrimFloat.ltb (num arg) 0 then
         modify (set_rng (h_srand H (CLib.double_to_uint (- num arg)%float)))
       else ret tt) ;;
      g <- gets rng ;;
      let (r, g') := h_rand H g in
      modify (set_rng g') ;;
      ret (make_num (CLib.int_to_double r / CLib.int_to_double (h_RAND_MAX H))%float)
    else if name_equals name "LEN" then
      close_paren ;; ensure_str arg ;;
      ret (make_num (CLib.int_to_double (CLib.strlen (str arg))))
    else if name_equals name "VAL" then
      close_paren ;; ensure_str arg ;;
      ret (make_num (h_atof H (str arg)))
    else if name_equals name "STR$" then
      close_paren ;; ensure_num arg ;;
      ret (make_str (h_fmt_g H (num arg)))
    else if name_equals name "CHR$" then
      close_paren ;; ensure_num arg ;;
      ret (make_str (String (ascii_of_N (Z.to_N (Z.land (CLib.double_to_int (num arg)) 255))) ""))
    else if name_equals name "ASC" then
      close_paren ;; ensure_str arg ;;
      ret (make_num (CLib.int_to_double (CLib.code (CLib.peek (str arg)))))
    else if name_equals name "NOT" then
      close_paren ;; ensure_num arg ;;
      ret (make_num (CLib.int_to_double (Z.lnot (CLib.double_to_int (num arg)))))
    else if name_equals name "FRE" then
      close_paren ;; ret (make_num 32768)
    else if name_equals name "POS" then
      close_paren ;;
      col <- gets print_col ;;
      ret (make_num (CLib.int_to_double (col + 1)))
    else if name_equals name "TAB" then
      close_paren ;;
      ensure_num arg ;;
      let target := Z.rem (CLib.double_to_int (num arg)) PRINT_WIDTH in
      let target := if target <? 0 then target + PRINT_WIDTH else target in
      col <- gets print_col ;;
      (if target <? col then fputc_stdout newline else ret tt) ;;
      let cur := if target <? col then 0 else col in
      repeatM (Z.to_nat (target - cur)) (fputc_stdout " ") ;;
      modify (set_print_col (if cur <? target then target else cur)) ;;
      ret (make_str "")
    else if name_equals name "LEFT$" then
      ensure_str arg ;;
      skip_spaces ;;
      c <- peek ;;
      if negb (Ascii.eqb c ",") then
        runtime_error "LEFT$ requires two arguments" ;; ret (make_str "")
      else
        advance 1 ;;
        len_val <- top ;;
        ensure_num len_val ;;
        skip_spaces ;;
        close_paren ;;
        ret (fn_left (str arg) (CLib.double_to_int (num len_val)))
    else if name_equals name "RIGHT$" then
      ensure_str arg ;;
      skip_spaces ;;
      c <- peek ;;
      if negb (Ascii.eqb c ",") then
        runtime_error "RIGHT$ requires two arguments" ;; ret (make_str "")
      else
        advance 1 ;;
        len_val <- top ;;
        ensure_num len_val ;;
        skip_spaces ;;
        close_paren ;;
        ret (make_str (right_str (str arg) (CLib.double_to_int (num len_val))))
    else if name_equals name "MID$" then
      ensure_str arg ;;
      skip_spaces ;;
      c <- peek ;;
      if negb (Ascii.eqb c ",") then
        runtime_error "MID$ requires at least two arguments" ;; ret (make_str "")
      else
        advance 1 ;;
        start_val <- top ;;
        ensure_num start_val ;;
        let start := CLib.double_to_int (num start_val) in
        skip_spaces ;;
        let slen := CLib.strlen (str arg) in
        c <- peek ;;
        len <- (if Ascii.eqb c "," then
                  advance 1 ;;
                  len_val <- top ;;
                  ensure_num len_val ;;
                  ret (CLib.double_to_int (num len_val))
                else ret slen) ;;
        skip_spaces ;;
        close_paren ;;
        if mid_overruns (str arg) start len then killed
        else ret (fn_mid (str arg) start len)
    else if name_equals name "INSTR" then
      ensure_str arg ;;
      skip_spaces ;;
      c <- peek ;;
      if negb (Ascii.eqb c ",") then
        runtime_error "INSTR requires two arguments" ;; ret (make_num 0)
      else
        advance 1 ;;
        needle_val <- top ;;
        ensure_str needle_val ;;
        skip_spaces ;;
        close_paren ;;
        match CLib.strstr (str arg) (str needle_val) with
        | Some k => ret (make_num (CLib.int_to_double (k + 1)))
        | None => ret (make_num 0)
        end
    else
      runtime_error "Unknown function" ;; ret (make_num 0).

(** [is_function_name] *)
Definition is_function_name (p : string) : bool :=
  starts_with_kw p "SIN" || starts_with_kw p "COS" || starts_with_kw p "TAN" ||
  starts_with_kw p "ATN" || starts_with_kw p "ABS" || starts_with_kw p "INT" ||
  starts_with_kw p "SQR" || starts_with_kw p "SGN" || starts_with_kw p "EXP" ||
  starts_with_kw p "LOG" || starts_with_kw p "RND" || starts_with_kw p "LEN" ||
  starts_with_kw p "VAL" || starts_with_kw p "ASC" || starts_with_kw p "TAB" ||
  starts_with_kw p "NOT" || starts_with_kw p "FRE" || starts_with_kw p "POS" ||
  starts_with_kw p "INSTR" ||
  starts_with_kw_dollar p "STR$" || starts_with_kw_dollar p "CHR$" ||
  starts_with_kw_dollar p "LEFT$" || starts_with_kw_dollar p "RIGHT$" ||
  starts_with_kw_dollar p "MID$".

(** ** The expression evaluator

    Each C function is a body that receives the functions it calls; the
    bodies are tied together by fuel further down. *)

Definition eval_factor_body (top factor : M value) : M value :=
  skip_spaces ;;
  c <- peek ;;
  if Ascii.eqb c "(" then
    advance 1 ;;
    v <- top ;;
    skip_spaces ;;
    c <- peek ;;
    (if Ascii.eqb c ")" then advance 1 else runtime_error "Missing ')'") ;;
    ret v
  else if Ascii.eqb c dquote then
    advance 1 ;;
    s <- get ;;
    let (buf, rest) := string_literal (Z.to_nat (MAX_STR_LEN - 1)) (cursor s) in
    set_cursor rest ;;
    (if Ascii.eqb (CLib.peek rest) dquote then advance 1
     else runtime_error "Unterminated string") ;;
    ret (make_str buf)
  else if CLib.isalpha c then
    s <- get ;;
    if is_function_name (cursor s) then
      let (namebuf, _) := read_identifier_str 15 (cursor s) in
      eval_function top namebuf
    else
      vp <- get_var_reference top ;;
      match vp with
      | None => ret (make_num 0)
      | Some (r, _, _) => gets (read_ref r)
      end
  else if is_sign c then
    advance 1 ;;
    inner <- factor ;;
    ensure_num inner ;;
    ret (if Ascii.eqb c "-" then with_num inner (- num inner)%float else inner)
  else
    x <- parse_number_literal ;;
    match x with
    | Some v => ret (make_num v)
    | None => runtime_error "Syntax error in expression" ;; ret (make_num 0)
    end.

Definition eval_power_body (factor power : M value) : M value :=
  skip_spaces ;;
  left <- factor ;;
  skip_spaces ;;
  c <- peek ;;
  if Ascii.eqb c "^" then
    advance 1 ;;
    right <- power ;;
    ensure_num left ;;
    ensure_num right ;;
    ret (with_num left (h_pow H (num left) (num right)))
  else ret left.

(** One turn of the [for (;;)] of [eval_term]; [again] is the next turn. *)
Definition eval_term_loop_body (power : M value) (again : value -> M value)
    (left : value) : M value :=
  skip_spaces ;;
  c <- peek ;;
  if Ascii.eqb c "*" || Ascii.eqb c "/" then
    advance 1 ;;
    right <- power ;;
    ensure_num left ;;
    ensure_num right ;;
    again (with_num left (if Ascii.eqb c "*" then (num left * num right)%float
                          else (num left / num right)%float))
  else ret left.

Definition eval_term_body (power : M value) (loop : value -> M value) : M value :=
  skip_spaces ;;
  left <- power ;;
  loop left.

(** One turn of the [for (;;)] of [eval_expr]. *)
Definition eval_expr_loop_body (term : M value) (again : value -> M value)
    (left : value) : M value :=
  skip_spaces ;;
  c <- peek ;;
  if is_sign c then
    advance 1 ;;
    right <- term ;;
    if Ascii.eqb c "+" then
      if value_type_eqb (vtype left) VAL_STR || value_type_eqb (vtype right) VAL_STR then
        ensure_str left ;;
        ensure_str right ;;
        again (concat_values left right)
      else again (with_num left (num left + num right)%float)
    else
      ensure_num left ;;
      ensure_num right ;;
      again (with_num left (num left - num right)%float)
  else ret left.

Definition eval_expr_body (term : M value) (loop : value -> M value) : M value :=
  skip_spaces ;;
  left <- term ;;
  loop left.

(** The BASIC truth values. *)
Definition basic_bool (b : bool) : value :=
  make_num (if b then (-1)%float else 0%float).

(** The branch shared by [<>], [<], [>] and [=]: strings are compared with
    [strcmp] when either side is a string, numbers otherwise. *)
Definition compare_mixed (on_str : Z -> bool) (on_num : float -> float -> bool)
    (left right : value) : M value :=
  if value_type_eqb (vtype left) VAL_STR || value_type_eqb (vtype right) VAL_STR then
    ensure_str left ;;
    ensure_str right ;;
    ret (basic_bool (on_str (CLib.strcmp (str left) (str right))))
  else ret (basic_bool (on_num (num left) (num right))).

(** The branch of [<=] and [>=]: numbers only. *)
Definition compare_numeric (on_num : float -> float -> bool)
    (left right : value) : M value :=
  ensure_num left ;;
  ensure_num right ;;
  ret (basic_bool (on_num (num left) (num right))).

Definition eval_comparison_body (expr : M value) : M value :=
  skip_spaces ;;
  left <- expr ;;
  skip_spaces ;;
  op1 <- peek ;;
  op2 <- peek_at 1 ;;
  if Ascii.eqb op1 "<" && Ascii.eqb op2 ">" then
    advance 2 ;;
    right <- expr ;;
    compare_mixed (fun r => negb (r =? 0)) (fun a b => negb (PrimFloat.eqb a b))
                  left right
  else if Ascii.eqb op1 "<" && Ascii.eqb op2 "=" then
    advance 2 ;;
    right <- expr ;;
    compare_numeric PrimFloat.leb left right
  else if Ascii.eqb op1 ">" && Ascii.eqb op2 "=" then
    advance 2 ;;
    right <- expr ;;
    compare_numeric (fun a b => PrimFloat.leb b a) left right
  else if Ascii.eqb op1 "<" then
    advance 1 ;;
    right <- expr ;;
    compare_mixed (fun r => r <? 0) PrimFloat.ltb left right
  else if Ascii.eqb op1 ">" then
    advance 1 ;;
    right <- expr ;;
    compare_mixed (fun r => 0 <? r) (fun a b => PrimFloat.ltb b a) left right
  else if Ascii.eqb op1 "=" then
    advance 1 ;;
    right <- expr ;;
    compare_mixed (fun r => r =? 0) PrimFloat.eqb left right
  else ret left.

(** [(double)((int)a & (int)b)] and [(double)((int)a | (int)b)] *)
Definition bit_and (a b : float) : float :=
  CLib.int_to_double (Z.land (CLib.double_to_int a) (CLib.double_to_int b)).
Definition bit_or (a b : float) : float :=
  CLib.int_to_double (Z.lor (CLib.double_to_int a) (CLib.double_to_int b)).

Definition eval_and_loop_body (comparison : M value) (again : value -> M value)
    (left : value) : M value :=
  skip_spaces ;;
  s <- get ;;
  if starts_with_kw (cursor s) "AND" then
    advance 3 ;;
    right <- comparison ;;
    ensure_num left ;;
    ensure_num right ;;
    again (with_num left (bit_and (num left) (num right)))
  else ret left.

Definition eval_and_expr_body (comparison : M value) (loop : value -> M value)
  : M value :=
  skip_spaces ;;
  left <- comparison ;;
  loop left.

Definition eval_or_loop_body (and_expr : M value) (again : value -> M value)
    (left : value) : M value :=
  skip_spaces ;;
  s <- get ;;
  if starts_with_kw (cursor s) "OR" then
    advance 2 ;;
    right <- and_expr ;;
    ensure_num left ;;
    ensure_num right ;;
    again (with_num left (bit_or (num left) (num right)))
  else ret left.

Definition eval_or_expr_body (and_expr : M value) (loop : value -> M value)
  : M value :=
  skip_spaces ;;
  left <- and_expr ;;
  loop left.

(** The recursive knot.  Every call, and every turn of a loop, costs one
    unit of fuel.  (The state is an explicit argument so that a partial
    application to the fuel alone is a value.) *)
Fixpoint eval_factor (n : nat) (s : state) {struct n} : option (value * state) :=
  match n with
  | O => None
  | S n' => eval_factor_body (eval_or_expr n') (eval_factor n') s
  end
with eval_power (n : nat) (s : state) {struct n} : option (value * state) :=
  match n with
  | O => None
  | S n' => eval_power_body (eval_factor n') (eval_power n') s
  end
with eval_term_loop (n : nat) (left : value) (s : state) {struct n}
  : option (value * state) :=
  match n with
  | O => None
  | S n' => eval_term_loop_body (eval_power n') (eval_term_loop n') left s
  end
with eval_term (n : nat) (s : state) {struct n} : option (value * state) :=
  match n with
  | O => None
  | S n' => eval_term_body (eval_power n') (eval_term_loop n') s
  end
with eval_expr_loop (n : nat) (left : value) (s : state) {struct n}
  : option (value * state) :=
  match n with
  | O => None
  | S n' => eval_expr_loop_body (eval_term n') (eval_expr_loop n') left s
  end
with eval_expr (n : nat) (s : state) {struct n} : option (value * state) :=
  match n with
  | O => None
  | S n' => eval_expr_body (eval_term n') (eval_expr_loop n') s
  end
with eval_comparison (n : nat) (s : state) {struct n} : option (value * state) :=
  match n with
  | O => None
  | S n' => eval_comparison_body (eval_expr n') s
  end
with eval_and_loop (n : nat) (left : value) (s : state) {struct n}
  : option (value * state) :=
  match n with
  | O => None
  | S n' => eval_and_loop_body (eval_comparison n') (eval_and_loop n') left s
  end
with eval_and_expr (n : nat) (s : state) {struct n} : option (value * state) :=
  match n with
  | O => None
  | S n' => eval_and_expr_body (eval_comparison n') (eval_and_loop n') s
  end
with eval_or_loop (n : nat) (left : value) (s : state) {struct n}
  : option (value * state) :=
  match n with
  | O => None
  | S n' => eval_or_loop_body (eval_and_expr n') (eval_or_loop n') left s
  end
with eval_or_expr (n : nat) (s : state) {struct n} : option (value * state) :=
  match n with
  | O => None
  | S n' => eval_or_expr_body (eval_and_expr n') (eval_or_loop n') s
  end.

(** [eval_condition]: the C truth value (an [int]) of the condition. *)
Definition c_bool (b : bool) : Z := if b then 1 else 0.

Definition eval_condition (n : nat) : M Z :=
  skip_spaces ;;
  result <- eval_or_expr n ;;
  if value_type_eqb (vtype result) VAL_STR then
    ret (c_bool (0 <? CLib.strlen (str result)))
  else ret (c_bool (negb (PrimFloat.eqb (num result) 0))).

(** ** Statements

    Every statement handler is called with [p == &statement_pos]; assigning
    [statement_pos = NULL] is [set_statement_pos None]. *)

Definition statement_rem : M unit := set_cursor "".

(** [find_line_index]: the classic linear scan. *)
Fixpoint find_line_from (ls : list line) (number_wanted : Z) (i : Z) : Z :=
  match ls with
  | [] => -1
  | l :: ls' =>
      if number l =? number_wanted then i
      else find_line_from ls' number_wanted (i + 1)
  end.

Definition find_line_index (number_wanted : Z) : M Z :=
  gets (fun s => find_line_from (program_lines s) number_wanted 0).

(** The turns of the [for (;;)] of [statement_print]; the result is the
    value of [newline] when the loop is left. *)
Fixpoint statement_print_loop (n : nat) (nl : bool) : M bool :=
  match n with
  | O => out_of_fuel
  | S n' =>
      skip_spaces ;;
      c <- peek ;;
      if Ascii.eqb c CLib.NUL || Ascii.eqb c ":" then ret nl
      else
        v <- eval_or_expr n' ;;
        print_value v ;;
        skip_spaces ;;
        c <- peek ;;
        if Ascii.eqb c ";" then
          advance 1 ;; statement_print_loop n' false
        else if Ascii.eqb c "," then
          col <- gets print_col ;;
          let zone := 10 in
          let nextcol := (Z.quot col zone + 1) * zone in
          let nextcol := if nextcol <? col then col else nextcol in
          print_spaces (nextcol - col) ;;
          advance 1 ;;
          statement_print_loop n' false
        else ret true
  end.

Definition statement_print (n : nat) : M unit :=
  nl <- statement_print_loop n true ;;
  if nl then fputc_stdout newline ;; modify (set_print_col 0) else ret tt.

(** The turns of the [for (;;)] of [statement_input]. *)
Fixpoint statement_input_loop (n : nat) (prompt : string) (first_prompt : bool)
  : M unit :=
  match n with
  | O => out_of_fuel
  | S n' =>
      skip_spaces ;;
      c <- peek ;;
      if Ascii.eqb c CLib.NUL || Ascii.eqb c ":" then ret tt
      else if negb (CLib.isalpha c) then
        runtime_error "Expected variable in INPUT"
      else
        vp <- get_var_reference (eval_or_expr n') ;;
        match vp with
        | None => ret tt
        | Some (r, _, is_str) =>
            (if negb (Ascii.eqb (CLib.peek prompt) CLib.NUL) && first_prompt
             then fputs_stdout prompt else ret tt) ;;
            fputs_stdout "? " ;;
            s <- get ;;
            match CLib.fgets MAX_LINE_LEN (stdin s) with
            | None => runtime_error "Unexpected end of input"
            | Some (linebuf, rest) =>
                modify (set_stdin rest) ;;
                let linebuf := trim_newline linebuf in
                modify (write_ref r (if is_str then make_str linebuf
                                     else make_num (h_atof H linebuf))) ;;
                skip_spaces ;;
                c <- peek ;;
                if Ascii.eqb c "," then
                  advance 1 ;; statement_input_loop n' prompt false
                else ret tt
            end
        end
  end.

Definition statement_input (n : nat) : M unit :=
  skip_spaces ;;
  c <- peek ;;
  prompt <- (if Ascii.eqb c dquote then
               s <- eval_factor n ;;
               ensure_str s ;;
               skip_spaces ;;
               c <- peek ;;
               (if Ascii.eqb c ";" || Ascii.eqb c "," then advance 1 else ret tt) ;;
               ret (str s)
             else ret "") ;;
  statement_input_loop n prompt true.

(** [statement_let].  The pointer [vp] is taken before the right-hand side
    is evaluated.  When that evaluation makes [realloc] move the array the
    pointer points into, the final store goes through the stale pointer, into
    the block that was freed: the C program has left defined behaviour, and
    the run gives no result. *)
Definition statement_let (n : nat) : M unit :=
  vp <- get_var_reference (eval_or_expr n) ;;
  match vp with
  | None => ret tt
  | Some (r, _, is_str) =>
      skip_spaces ;;
      c <- peek ;;
      if negb (Ascii.eqb c "=") then runtime_error "Expected '='"
      else
        advance 1 ;;
        before <- gets (block_cells r) ;;
        rhs <- eval_or_expr n ;;
        (if is_str then ensure_str rhs else ensure_num rhs) ;;
        after <- gets (block_cells r) ;;
        if same_block H before after then
          modify (write_ref r (with_type rhs (if is_str then VAL_STR else VAL_NUM)))
        else killed
  end.

(** [while ( **p && isdigit( **p)) ( *p)++;] *)
Definition skip_digits : M unit :=
  modify (fun s => set_statement_pos
                     (Some (CLib.drop (span_digits (cursor s)) (cursor s))) s).

Definition statement_goto : M unit :=
  skip_spaces ;;
  s <- get ;;
  let line_number := CLib.atoi (cursor s) in
  skip_digits ;;
  idx <- find_line_index line_number ;;
  modify (set_current_line idx) ;;
  if idx <? 0 then runtime_error "Target line not found"
  else modify (set_statement_pos None).

Definition statement_gosub : M unit :=
  s <- get ;;
  if MAX_GOSUB <=? gosub_top s then runtime_error "GOSUB stack overflow"
  else
    skip_spaces ;;
    s <- get ;;
    let target := CLib.atoi (cursor s) in
    skip_digits ;;
    s <- get ;;
    let return_pos := cursor s in
    modify (set_gosub_stack (mk_gosub return_pos (current_line s) :: gosub_stack s)) ;;
    idx <- find_line_index target ;;
    modify (set_current_line idx) ;;
    if idx <? 0 then runtime_error "Target line not found"
    else modify (set_statement_pos None).

Definition statement_return : M unit :=
  s <- get ;;
  match gosub_stack s with
  | [] => runtime_error "RETURN without GOSUB"
  | fr :: below =>
      modify (set_gosub_stack below) ;;
      modify (set_current_line (g_line_index fr)) ;;
      set_cursor (g_position fr)
  end.

Definition statement_if (n : nat) : M unit :=
  cond_true <- eval_condition n ;;
  skip_spaces ;;
  s <- get ;;
  if negb (starts_with_kw (cursor s) "THEN") then runtime_error "Missing THEN"
  else
    advance 4 ;;
    skip_spaces ;;
    if cond_true =? 0 then set_cursor ""
    else
      c <- peek ;;
      if CLib.isdigit c then
        s <- get ;;
        let target := CLib.atoi (cursor s) in
        skip_digits ;;
        idx <- find_line_index target ;;
        modify (set_current_line idx) ;;
        if idx <? 0 then runtime_error "Target line not found"
        else modify (set_statement_pos None)
      else skip_spaces.

Definition statement_for (n : nat) : M unit :=
  s <- get ;;
  if MAX_FOR <=? for_top s then runtime_error "FOR stack overflow"
  else
    vp <- get_var_reference (eval_or_expr n) ;;
    match vp with
    | None => ret tt
    | Some (r, is_arr, is_str) =>
        if is_arr then runtime_error "FOR variable must be scalar"
        else if is_str then runtime_error "FOR variable must be numeric"
        else
          skip_spaces ;;
          c <- peek ;;
          if negb (Ascii.eqb c "=") then runtime_error "Expected '=' in FOR"
          else
            advance 1 ;;
            startv <- eval_or_expr n ;;
            ensure_num startv ;;
            skip_spaces ;;
            s <- get ;;
            if negb (starts_with_kw (cursor s) "TO") then
              runtime_error "Expected TO in FOR"
            else
              advance 2 ;;
              endv <- eval_or_expr n ;;
              ensure_num endv ;;
              skip_spaces ;;
              s <- get ;;
              stepv <- (if starts_with_kw (cursor s) "STEP" then
                          advance 4 ;;
                          stepv <- eval_or_expr n ;;
                          ensure_num stepv ;;
                          ret stepv
                        else ret (make_num 1)) ;;
              modify (write_ref r startv) ;;
              s <- get ;;
              let (n1, n2) :=
                match owner_of (vars s) r 0 with
                | Some v => (name1 v, name2 v)
                | None => (" "%char, " "%char)
                end in
              modify (set_for_stack
                        (mk_for (Some r) (num endv) (num stepv) (cursor s)
                                (current_line s) n1 n2 is_str :: for_stack s))
    end.

Definition statement_next : M unit :=
  skip_spaces ;;
  c <- peek ;;
  namebuf <- (if CLib.isalpha c then read_identifier 16 else ret "") ;;
  let '(n1, n2, _) := uppercase_name namebuf in
  s <- get ;;
  match find_for_frame (Ascii.eqb (CLib.peek namebuf) CLib.NUL) n1 n2 (for_stack s) with
  | [] => runtime_error "NEXT without FOR"
  | fr :: below =>
      modify (set_for_stack (fr :: below)) ;;
      match f_var fr with
      | None => runtime_error "Loop variable missing"
      | Some vp =>
          modify (fun s => write_ref vp
                     (with_num (read_ref vp s) (num (read_ref vp s) + f_step fr)%float) s) ;;
          v <- gets (fun s => num (read_ref vp s)) ;;
          if (PrimFloat.leb 0 (f_step fr) && PrimFloat.leb v (f_end_value fr)) ||
             (PrimFloat.ltb (f_step fr) 0 && PrimFloat.leb (f_end_value fr) v)
          then
            modify (set_current_line (f_line_index fr)) ;;
            set_cursor (f_resume_pos fr)
          else modify (set_for_stack below)
      end
  end.

(** The turns of the [for (;;)] of [statement_dim]. *)
Fixpoint statement_dim (n : nat) : M unit :=
  match n with
  | O => out_of_fuel
  | S n' =>
      skip_spaces ;;
      c <- peek ;;
      if negb (CLib.isalpha c) then runtime_error "Expected array name"
      else
        namebuf <- read_identifier 16 ;;
        let '(n1, n2, is_str) := uppercase_name namebuf in
        skip_spaces ;;
        c <- peek ;;
        if negb (Ascii.eqb c "(") then runtime_error "DIM requires size"
        else
          advance 1 ;;
          sizev <- eval_or_expr n' ;;
          ensure_num sizev ;;
          let sz := CLib.wrap32 (CLib.double_to_int (num sizev) + 1) in
          if sz <=? 0 then runtime_error "Invalid array size"
          else
            skip_spaces ;;
            c <- peek ;;
            if negb (Ascii.eqb c ")") then runtime_error "Missing ')'"
            else
              advance 1 ;;
              _ <- find_or_create_var n1 n2 is_str true sz ;;
              skip_spaces ;;
              c <- peek ;;
              if Ascii.eqb c "," then advance 1 ;; statement_dim n'
              else ret tt
  end.

Definition statement_sleep (n : nat) : M unit :=
  skip_spaces ;;
  c <- peek ;;
  if Ascii.eqb c "(" then
    advance 1 ;;
    v <- eval_or_expr n ;;
    skip_spaces ;;
    c <- peek ;;
    if Ascii.eqb c ")" then
      advance 1 ;; ensure_num v ;; do_sleep_ticks (num v)
    else runtime_error "Missing ')'"
  else
    v <- eval_or_expr n ;;
    ensure_num v ;;
    do_sleep_ticks (num v).

Definition execute_statement (n : nat) : M unit :=
  skip_spaces ;;
  s <- get ;;
  let p := cursor s in
  if Ascii.eqb (CLib.peek p) CLib.NUL then ret tt
  else if starts_with_kw p "REM" then statement_rem
  else if Ascii.eqb (CLib.peek p) "'" then statement_rem
  else if starts_with_kw p "PRINT" || Ascii.eqb (CLib.peek p) "?" then
    (if Ascii.eqb (CLib.peek p) "?" then advance 1 else advance 5) ;;
    statement_print n
  else if starts_with_kw p "INPUT" then advance 5 ;; statement_input n
  else if starts_with_kw p "LET" then advance 3 ;; statement_let n
  else if starts_with_kw p "GOTO" then advance 4 ;; statement_goto
  else if starts_with_kw p "GOSUB" then advance 5 ;; statement_gosub
  else if starts_with_kw p "RETURN" then advance 6 ;; statement_return
  else if starts_with_kw p "IF" then advance 2 ;; statement_if n
  else if starts_with_kw p "FOR" then advance 3 ;; statement_for n
  else if starts_with_kw p "NEXT" then advance 4 ;; statement_next
  else if starts_with_kw p "DIM" then advance 3 ;; statement_dim n
  else if starts_with_kw p "SLEEP" then advance 5 ;; statement_sleep n
  else if starts_with_kw p "END" || starts_with_kw p "STOP" then
    modify (set_halted true) ;; set_cursor ""
  else if CLib.isalpha (CLib.peek p) then statement_let n
  else runtime_error "Unknown statement".

(** ** The program store and the loader *)

(** [dupstr_local]: a heap copy of the text (allocation taken to succeed). *)
Definition dupstr_local (t : string) : string := t.

Definition add_or_replace_line (number_new : Z) (t : string) : M unit :=
  s <- get ;;
  match replace_line (program_lines s) number_new (dupstr_local t) with
  | Some ls => modify (set_program_lines ls)
  | None =>
      if MAX_LINES <=? line_count s then runtime_error "Program too large"
      else modify (set_program_lines
                     (program_lines s ++ [mk_line number_new (dupstr_local t)])%list)
  end.

(** The [while (fgets(...))] loop over the unread part of the file.  Every
    turn consumes at least one character, so [fuel] above the length of the
    file is never used up. *)
Fixpoint load_lines (fuel : nat) (file : string) (s : state) : load_result :=
  match fuel with
  | O => Loaded s
  | S fuel' =>
      match CLib.fgets MAX_LINE_LEN file with
      | None => Loaded s
      | Some (linebuf, rest) =>
          let linebuf := trim_newline linebuf in
          let p := skip_bom (skip_spaces_str linebuf) in
          if Ascii.eqb (CLib.peek p) CLib.NUL then load_lines fuel' rest s
          else if negb (CLib.isdigit (CLib.peek p)) then
            Exited 1 (set_stderr (stderr s ++ "Line missing number: " ++ linebuf
                                    ++ String newline "") s)
          else
            let number_new := CLib.atoi p in
            let p := skip_spaces_str (skip_nonspace p) in
            match add_or_replace_line number_new p s with
            | Some (_, s') => load_lines fuel' rest s'
            | None => Loaded s
            end
      end
  end.

(** [load_program]; [file] is the content of the file at [path], [None]
    when it cannot be opened. *)
Definition load_program (path : string) (file : option string) (s : state)
  : load_result :=
  match file with
  | None => Exited 1 (set_stderr (stderr s ++ "Cannot open " ++ path
                                    ++ String newline "") s)
  | Some content =>
      match load_lines (S (String.length content)) content s with
      | Exited c s' => Exited c s'
      | Loaded s' => Loaded (set_program_lines (sort_program (program_lines s')) s')
      end
  end.

(** ** The driver *)

(** One turn of the [while] of [run_program]; [true] asks for another. *)
Definition run_step (n : nat) : M bool :=
  s <- get ;;
  if negb (halted s) && (0 <=? current_line s) && (current_line s <? line_count s)
  then
    let start :=
      match statement_pos s with
      | Some p => p
      | None => text (line_at (program_lines s) (Z.to_nat (current_line s)))
      end in
    let p := skip_spaces_str start in
    if Ascii.eqb (CLib.peek p) CLib.NUL then
      modify (set_current_line (current_line s + 1)) ;;
      modify (set_statement_pos None) ;;
      ret true
    else
      set_cursor p ;;
      execute_statement n ;;
      s <- get ;;
      if halted s then ret false
      else
        match statement_pos s with
        | None => ret true
        | Some _ =>
            skip_spaces ;;
            c <- peek ;;
            if Ascii.eqb c ":" then advance 1 ;; ret true
            else
              skip_spaces ;;
              c <- peek ;;
              (if Ascii.eqb c CLib.NUL then
                 s <- get ;;
                 modify (set_current_line (current_line s + 1)) ;;
                 modify (set_statement_pos None)
               else ret tt) ;;
              ret true
        end
  else ret false.

Fixpoint run_loop (fuel : nat) : M unit :=
  match fuel with
  | O => out_of_fuel
  | S fuel' =>
      again <- run_step fuel' ;;
      if again then run_loop fuel' else ret tt
  end.

Definition run_program (fuel : nat) : M unit :=
  modify (set_halted false) ;;
  modify (set_current_line 0) ;;
  modify (set_statement_pos None) ;;
  modify (set_print_col 0) ;;
  run_loop fuel.

(** [main]: [argv] (with [argv[0]] the program name), the file system as a
    partial map from paths to contents, and the characters on stdin.  The
    result is the exit status and the final state; [None] while the run
    has not ended within [fuel] steps. *)
Definition main (argv : list string) (fs : string -> option string)
    (input : string) (fuel : nat) : option (Z * state) :=
  let s0 := initial_state input in
  match argv with
  | _ :: path :: _ =>
      match load_program path (fs path) s0 with
      | Exited c s => Some (c, s)
      | Loaded s =>
          match run_program fuel s with
          | Some (_, s') => Some (0, s')
          | None => None
          end
      end
  | _ =>
      Some (1, set_stderr ("Usage: " ++ nth 0 argv "" ++ " <program.bas>"
                             ++ String newline "") s0)
  end.
End WithHost.
End Classic.

(* ===================================================================== *)
(** * The PDP-11 build ([basic.c])                                        *)
(* ===================================================================== *)

Module Optimized.
Import Machine Common.
Local Open Scope monad_scope.

Definition MAX_LINES : Z := 512.
Definition MAX_LINE_LEN : Z := 128.
Definition MAX_VARS : Z := 64.
Definition MAX_GOSUB : Z := 32.
Definition MAX_FOR : Z := 16.
Definition MAX_STR_LEN : Z := 128.
Definition DEFAULT_ARRAY_SIZE : Z := 11.
Definition PRINT_WIDTH : Z := 80.

(** [runtime_error]: the message names the BASIC line when [current_line]
    is a valid index. *)
Definition runtime_error (msg : string) : M unit :=
  s <- get ;;
  (if (0 <=? current_line s) && (current_line s <? line_count s) then
     fputs_stderr ("Error at line "
                   ++ CLib.fmt_d (number (line_at (program_lines s)
                                            (Z.to_nat (current_line s))))
                   ++ ": " ++ msg ++ String newline "")
   else fputs_stderr ("Error: " ++ msg ++ String newline "")) ;;
  modify (set_halted true).

Definition trim_newline (s : string) : string := CLib.cut_at_newline s.

Definition skip_spaces : M unit :=
  modify (fun s => set_statement_pos (Some (skip_spaces_str (cursor s))) s).

(** The offset [q - s] that [parse_number_literal] reaches; [None] for the
    early [return 0] when no digit follows the optional sign. *)
Definition number_extent (s : string) : option nat :=
  let q := if is_sign (CLib.peek s) then 1%nat else 0%nat in
  if negb (CLib.isdigit (CLib.peek_at q s)) then None
  else
    let q := (q + span_digits (CLib.drop q s))%nat in
    let q := if Ascii.eqb (CLib.peek_at q s) "."
             then (q + 1 + span_digits (CLib.drop (q + 1) s))%nat else q in
    if Ascii.eqb (CLib.peek_at q s) "e" || Ascii.eqb (CLib.peek_at q s) "E" then
      let e := (q + 1)%nat in
      let e := if is_sign (CLib.peek_at e s) then (e + 1)%nat else e in
      if CLib.isdigit (CLib.peek_at e s)
      then Some (e + span_digits (CLib.drop e s))%nat
      else Some q
    else Some q.

Section WithHost.
Variable H : host.

Definition parse_number_literal_str (s : string) : option (float * string) :=
  match number_extent s with
  | None => None
  | Some q =>
      if Nat.eqb q 0 || (Nat.eqb q 1 && is_sign (CLib.peek s)) then None
      else
        let len := if MAX_LINE_LEN <=? Z.of_nat q
                   then Z.to_nat (MAX_LINE_LEN - 1) else q in
        Some (h_atof H (CLib.take len s), CLib.drop q s)
  end.

Definition parse_number_literal : M (option float) :=
  s <- get ;;
  match parse_number_literal_str (cursor s) with
  | Some (x, q) => set_cursor q ;; ret (Some x)
  | None => ret None
  end.

(** [dupstr_local]: [None] for the NULL result. *)
Definition dupstr_local (t : string) : M (option string) :=
  if MAX_LINE_LEN <=? CLib.strlen t then
    runtime_error "Line too long" ;; ret None
  else ret (Some t).

Definition is_kw_delim (c : ascii) : bool :=
  Ascii.eqb c CLib.NUL || Ascii.eqb c " " || Ascii.eqb c tab ||
  Ascii.eqb c ":" || Ascii.eqb c "(".

Definition starts_with_kw (p kw : string) : bool :=
  kw_matches p kw && is_kw_delim (CLib.peek_at (String.length kw) p).

Definition make_num (v : float) : value := mk_value VAL_NUM v "".

Definition make_str (s : string) : value :=
  mk_value VAL_STR 0%float (CLib.take (Z.to_nat (MAX_STR_LEN - 1)) (CLib.cstr s)).

Definition ensure_num (v : value) : M unit :=
  if value_type_eqb (vtype v) VAL_NUM then ret tt
  else runtime_error "Numeric value required".

Definition ensure_str (v : value) : M unit :=
  if value_type_eqb (vtype v) VAL_STR then ret tt
  else runtime_error "String value required".

(** ** Printing *)

Definition count_column : M unit :=
  modify (fun s => set_print_col (print_col s + 1) s) ;;
  col <- gets print_col ;;
  if PRINT_WIDTH <=? col then
    fputc_stdout newline ;; modify (set_print_col 0)
  else ret tt.

Definition print_spaces (count : Z) : M unit :=
  repeatM (Z.to_nat count) (fputc_stdout " " ;; count_column).

Fixpoint print_string (t : string) : M unit :=
  match t with
  | EmptyString => ret tt
  | String c t' =>
      fputc_stdout c ;;
      (if Ascii.eqb c newline then modify (set_print_col 0) else count_column) ;;
      print_string t'
  end.

Definition print_value (v : value) : M unit :=
  if value_type_eqb (vtype v) VAL_STR then print_string (str v)
  else
    let buf := h_fmt_g H (num v) in
    fputs_stdout buf ;;
    modify (fun s => set_print_col (print_col s + CLib.strlen buf) s).

(** ** Names and the variable table *)

Definition read_identifier (buf_size : Z) : M string :=
  s <- get ;;
  let (b, rest) := read_identifier_str (Z.to_nat (buf_size - 1)) (cursor s) in
  set_cursor rest ;; ret b.

Definition uppercase_name (src : string) : ascii * ascii * bool :=
  let len := String.length src in
  let is_str := Nat.ltb 0 len && Ascii.eqb (last_char src) "$" in
  let len := if is_str then (len - 1)%nat else len in
  (if Nat.ltb 0 len then CLib.toupper (CLib.peek src) else " "%char,
   if Nat.ltb 1 len then CLib.toupper (CLib.peek_at 1 src) else " "%char,
   is_str).

(** [find_or_create_var].  Here the enlarged tail is cleared with [memset].
    A [calloc] that fails leaves the entry marked as an array of the size
    asked for with a NULL block; a [realloc] that fails leaves the entry as
    it was; both report the error and return the entry. *)
Definition find_or_create_var (n1 n2 : ascii) (is_str want_array : bool)
    (array_size : Z) : M (option nat) :=
  s <- get ;;
  match find_var (vars s) n1 n2 is_str 0 with
  | Some i =>
      let v := nth i (vars s) null_var in
      (if want_array && negb (is_array v) then
         if alloc_ok H (vars s) array_size then
           modify (set_vars (list_set (vars s) i
             (mk_var (scalar v) (calloc_values array_size) array_size
                     (name1 v) (name2 v) (is_string v) true)))
         else
           modify (set_vars (list_set (vars s) i
             (mk_var (scalar v) [] array_size
                     (name1 v) (name2 v) (is_string v) true))) ;;
           runtime_error "Out of memory"
       else if want_array && (size v <? array_size) then
         if alloc_ok H (vars s) array_size then
           modify (set_vars (list_set (vars s) i
             (mk_var (scalar v)
                     (grow_block H (vars s) i (array v) (size v)
                      ++ calloc_values (array_size - size v))%list
                     array_size (name1 v) (name2 v) (is_string v) (is_array v))))
         else runtime_error "Out of memory"
       else ret tt) ;;
      ret (Some i)
  | None =>
      if MAX_VARS <=? var_count s then
        runtime_error "Variable table full" ;; ret None
      else
        let ok := alloc_ok H (vars s) array_size in
        let v := mk_var (if is_str then make_str "" else make_num 0)
                        (if want_array && ok then calloc_values array_size else [])
                        (if want_array then array_size else 0)
                        n1 n2 is_str want_array in
        modify (set_vars (vars s ++ [v])%list) ;;
        (if want_array && negb ok then runtime_error "Out of memory" else ret tt) ;;
        ret (Some (List.length (vars s)))
  end.

(** The end of [get_var_reference]: a slot whose tag does not fit the name
    is reset, and the pointer is returned. *)
Definition settle_slot (is_str : bool) (valp : value_ref) : M (option value_ref) :=
  cur <- gets (read_ref valp) ;;
  (if is_str && negb (value_type_eqb (vtype cur) VAL_STR) then
     modify (write_ref valp (make_str ""))
   else if negb is_str && negb (value_type_eqb (vtype cur) VAL_NUM) then
     modify (write_ref valp (make_num 0))
   else ret tt) ;;
  ret (Some valp).

(** The second half of [get_var_reference], from the call of
    [find_or_create_var] on.  [array_index + 1] is an [int] sum.  The
    element is read through the block pointer: where that is NULL (an
    allocation failed before) the access is outside every object. *)
Definition var_slot (n1 n2 : ascii) (is_str is_arr : bool)
    (array_size array_index : Z) : M (option value_ref) :=
  r <- find_or_create_var n1 n2 is_str is_arr array_size ;;
  match r with
  | None => ret None
  | Some i =>
      if is_arr then
        s <- get ;;
        let v := nth i (vars s) null_var in
        grown <- (if size v <=? array_index then
                    let cells := CLib.wrap32 (array_index + 1) in
                    if alloc_ok H (vars s) cells then
                      modify (set_vars (list_set (vars s) i
                        (mk_var (scalar v)
                                (grow_block H (vars s) i (array v) (size v)
                                 ++ calloc_values (cells - size v))%list
                                cells (name1 v) (name2 v)
                                (is_string v) (is_array v)))) ;;
                      ret true
                    else runtime_error "Out of memory" ;; ret false
                  else ret true) ;;
        if grown then
          s <- get ;;
          match array (nth i (vars s) null_var) with
          | [] => killed
          | _ :: _ => settle_slot is_str (RElem i (Z.to_nat array_index))
          end
        else ret None
      else settle_slot is_str (RScalar i)
  end.

(** The subscript coercion [(int)(idx_val.num + 0.00001)]. *)
Definition subscript_of (x : float) : Z :=
  CLib.double_to_int (x + Classic.epsilon)%float.

Definition array_size_for (array_index : Z) : Z :=
  let cells := CLib.wrap32 (array_index + 1) in
  if cells <? DEFAULT_ARRAY_SIZE then DEFAULT_ARRAY_SIZE else cells.

(** [get_var_reference]; [top] is [eval_expr]. *)
Definition get_var_reference (top : M value)
  : M (option (value_ref * bool * bool)) :=
  skip_spaces ;;
  c <- peek ;;
  if negb (CLib.isalpha c) then
    runtime_error "Expected variable" ;; ret None
  else
    namebuf <- read_identifier 8 ;;
    let '(n1, n2, is_str) := uppercase_name namebuf in
    skip_spaces ;;
    c <- peek ;;
    if Ascii.eqb c "(" then
      advance 1 ;;
      idx_val <- top ;;
      ensure_num idx_val ;;
      skip_spaces ;;
      c <- peek ;;
      if negb (Ascii.eqb c ")") then
        runtime_error "Missing ')'" ;; ret None
      else
        advance 1 ;;
        let array_index := subscript_of (num idx_val) in
        if array_index <? 0 then
          runtime_error "Negative array index" ;; ret None
        else
          r <- var_slot n1 n2 is_str true (array_size_for array_index) array_index ;;
          ret (option_map (fun valp => (valp, true, is_str)) r)
    else
      r <- var_slot n1 n2 is_str false 0 (-1) ;;
      ret (option_map (fun valp => (valp, false, is_str)) r).

(** ** Intrinsic functions *)

Definition numeric_fn (f : float -> float) (arg : value) : M value :=
  ensure_num arg ;; ret (make_num (f (num arg))).

(** [eval_function]; [top] is [eval_expr]. *)
Definition eval_function (top : M value) (name : string) : M value :=
  _ <- read_identifier 8 ;;
  skip_spaces ;;
  c <- peek ;;
  if negb (Ascii.eqb c "(") then
    runtime_error "Function requires '('" ;; ret (make_num 0)
  else
    advance 1 ;;
    arg <- top ;;
    skip_spaces ;;
    c <- peek ;;
    (if Ascii.eqb c ")" then advance 1 else runtime_error "Missing ')'") ;;
    if name_equals name "ABS" then numeric_fn PrimFloat.abs arg
    else if name_equals name "INT" then numeric_fn CLib.floor arg
    else if name_equals name "SQR" then numeric_fn PrimFloat.sqrt arg
    else if name_equals name "SGN" then
      numeric_fn (fun x => if PrimFloat.ltb 0 x then 1%float
                           else if PrimFloat.ltb x 0 then (-1)%float
                           else 0%float) arg
    else if name_equals name "SIN" then numeric_fn (h_sin H) arg
    else if name_equals name "COS" then numeric_fn (h_cos H) arg
    else if name_equals name "TAN" then numeric_fn (h_tan H) arg
    else if name_equals name "EXP" then numeric_fn (h_exp H) arg
    else if name_equals name "LOG" then numeric_fn (h_log H) arg
    else if name_equals name "RND" then
      ensure_num arg ;;
      (if PrimFloat.ltb (num arg) 0 then
         modify (set_rng (h_srand H (CLib.double_to_uint (- num arg)%float)))
       else ret tt) ;;
      g <- gets rng ;;
      let (r, g') := h_rand H g in
      modify (set_rng g') ;;
      ret (make_num (CLib.int_to_double r / CLib.int_to_double (h_RAND_MAX H))%float)
    else if name_equals name "LEN" then
      ensure_str arg ;;
      ret (make_num (CLib.int_to_double (CLib.strlen (str arg))))
    else if name_equals name "VAL" then
      ensure_str arg ;;
      ret (make_num (h_atof H (str arg)))
    else if name_equals name "STR" || name_equals name "STR$" then
      ensure_num arg ;;
      ret (make_str (h_fmt_g H (num arg)))
    else if name_equals name "CHR" || name_equals name "CHR$" then
      ensure_num arg ;;
      ret (make_str (String (ascii_of_N (Z.to_N (Z.land (CLib.double_to_int (num arg)) 255))) ""))
    else if name_equals name "ASC" then
      ensure_str arg ;;
      ret (make_num (CLib.int_to_double (CLib.code (CLib.peek (str arg)))))
    else if name_equals name "TAB" then
      ensure_num arg ;;
      let target := Z.rem (CLib.double_to_int (num arg)) PRINT_WIDTH in
      let target := if target <? 0 then target + PRINT_WIDTH else target in
      col <- gets print_col ;;
      (if target <? col then fputc_stdout newline else ret tt) ;;
      let cur := if target <? col then 0 else col in
      repeatM (Z.to_nat (target - cur)) (fputc_stdout " ") ;;
      modify (set_print_col (if cur <? target then target else cur)) ;;
      ret (make_str "")
    else
      runtime_error "Unknown function" ;; ret (make_num 0).

(** The test of [eval_factor] for an intrinsic name. *)
Definition is_function_name (p : string) : bool :=
  starts_with_kw p "SIN" || starts_with_kw p "COS" || starts_with_kw p "TAN" ||
  starts_with_kw p "ABS" || starts_with_kw p "INT" || starts_with_kw p "SQR" ||
  starts_with_kw p "SGN" || starts_with_kw p "EXP" || starts_with_kw p "LOG" ||
  starts_with_kw p "RND" || starts_with_kw p "LEN" || starts_with_kw p "VAL" ||
  starts_with_kw p "STR" || starts_with_kw p "CHR" || starts_with_kw p "ASC" ||
  starts_with_kw p "TAB".

(** ** The expression evaluator *)

Definition eval_factor_body (top factor : M value) : M value :=
  skip_spaces ;;
  c <- peek ;;
  if Ascii.eqb c "(" then
    advance 1 ;;
    v <- top ;;
    skip_spaces ;;
    c <- peek ;;
    (if Ascii.eqb c ")" then advance 1 else runtime_error "Missing ')'") ;;
    ret v
  else if Ascii.eqb c dquote then
    advance 1 ;;
    s <- get ;;
    let (buf, rest) := string_literal (Z.to_nat (MAX_STR_LEN - 1)) (cursor s) in
    set_cursor rest ;;
    (if Ascii.eqb (CLib.peek rest) dquote then advance 1
     else runtime_error "Unterminated string") ;;
    ret (make_str buf)
  else if CLib.isalpha c then
    s <- get ;;
    if is_function_name (cursor s) then
      let (namebuf, _) := read_identifier_str 7 (cursor s) in
      eval_function top namebuf
    else
      vp <- get_var_reference top ;;
      match vp with
      | None => ret (make_num 0)
      | Some (r, _, _) => gets (read_ref r)
      end
  else if is_sign c then
    advance 1 ;;
    inner <- factor ;;
    ensure_num inner ;;
    ret (if Ascii.eqb c "-" then with_num inner (- num inner)%float else inner)
  else
    x <- parse_number_literal ;;
    match x with
    | Some v => ret (make_num v)
    | None => runtime_error "Syntax error in expression" ;; ret (make_num 0)
    end.

Definition eval_power_body (factor power : M value) : M value :=
  skip_spaces ;;
  left <- factor ;;
  skip_spaces ;;
  c <- peek ;;
  if Ascii.eqb c "^" then
    advance 1 ;;
    right <- power ;;
    ensure_num left ;;
    ensure_num right ;;
    ret (with_num left (h_pow H (num left) (num right)))
  else ret left.

Definition eval_term_loop_body (power : M value) (again : value -> M value)
    (left : value) : M value :=
  skip_spaces ;;
  c <- peek ;;
  if Ascii.eqb c "*" || Ascii.eqb c "/" then
    advance 1 ;;
    right <- power ;;
    ensure_num left ;;
    ensure_num right ;;
    again (with_num left (if Ascii.eqb c "*" then (num left * num right)%float
                          else (num left / num right)%float))
  else ret left.

Definition eval_term_body (power : M value) (loop : value -> M value) : M value :=
  skip_spaces ;;
  left <- power ;;
  loop left.

Definition eval_expr_loop_body (term : M value) (again : value -> M value)
    (left : value) : M value :=
  skip_spaces ;;
  c <- peek ;;
  if is_sign c then
    advance 1 ;;
    right <- term ;;
    if Ascii.eqb c "+" then
      if value_type_eqb (vtype left) VAL_STR || value_type_eqb (vtype right) VAL_STR then
        ensure_str left ;;
        ensure_str right ;;
        again (with_str left
                 (CLib.strncat (str left) (str right)
                    (MAX_STR_LEN - CLib.strlen (str left) - 1)))
      else again (with_num left (num left + num right)%float)
    else
      ensure_num left ;;
      ensure_num right ;;
      again (with_num left (num left - num right)%float)
  else ret left.

Definition eval_expr_body (term : M value) (loop : value -> M value) : M value :=
  skip_spaces ;;
  left <- term ;;
  loop left.

Fixpoint eval_factor (n : nat) (s : state) {struct n} : option (value * state) :=
  match n with
  | O => None
  | S n' => eval_factor_body (eval_expr n') (eval_factor n') s
  end
with eval_power (n : nat) (s : state) {struct n} : option (value * state) :=
  match n with
  | O => None
  | S n' => eval_power_body (eval_factor n') (eval_power n') s
  end
with eval_term_loop (n : nat) (left : value) (s : state) {struct n}
  : option (value * state) :=
  match n with
  | O => None
  | S n' => eval_term_loop_body (eval_power n') (eval_term_loop n') left s
  end
with eval_term (n : nat) (s : state) {struct n} : option (value * state) :=
  match n with
  | O => None
  | S n' => eval_term_body (eval_power n') (eval_term_loop n') s
  end
with eval_expr_loop (n : nat) (left : value) (s : state) {struct n}
  : option (value * state) :=
  match n with
  | O => None
  | S n' => eval_expr_loop_body (eval_term n') (eval_expr_loop n') left s
  end
with eval_expr (n : nat) (s : state) {struct n} : option (value * state) :=
  match n with
  | O => None
  | S n' => eval_expr_body (eval_term n') (eval_expr_loop n') s
  end.

(** The C truth value of a relational expression. *)
Definition c_bool (b : bool) : Z := if b then 1 else 0.

(** [eval_condition]: the relational operators exist here only, and their
    result is the C [int] the comparison yields. *)
Definition eval_condition (n : nat) : M Z :=
  skip_spaces ;;
  left <- eval_expr n ;;
  skip_spaces ;;
  op1 <- peek ;;
  op2 <- peek_at 1 ;;
  if Ascii.eqb op1 "<" && Ascii.eqb op2 ">" then
    advance 2 ;;
    right <- eval_expr n ;;
    if value_type_eqb (vtype left) VAL_STR || value_type_eqb (vtype right) VAL_STR then
      ensure_str left ;;
      ensure_str right ;;
      ret (c_bool (negb (CLib.strcmp (str left) (str right) =? 0)))
    else ret (c_bool (negb (PrimFloat.eqb (num left) (num right))))
  else if Ascii.eqb op1 "<" && Ascii.eqb op2 "=" then
    advance 2 ;;
    right <- eval_expr n ;;
    ensure_num left ;;
    ensure_num right ;;
    ret (c_bool (PrimFloat.leb (num left) (num right)))
  else if Ascii.eqb op1 ">" && Ascii.eqb op2 "=" then
    advance 2 ;;
    right <- eval_expr n ;;
    ensure_num left ;;
    ensure_num right ;;
    ret (c_bool (PrimFloat.leb (num right) (num left)))
  else if Ascii.eqb op1 "<" || Ascii.eqb op1 ">" || Ascii.eqb op1 "=" then
    advance 1 ;;
    right <- eval_expr n ;;
    if value_type_eqb (vtype left) VAL_STR || value_type_eqb (vtype right) VAL_STR then
      ensure_str left ;;
      ensure_str right ;;
      let result := CLib.strcmp (str left) (str right) in
      ret (c_bool (if Ascii.eqb op1 "<" then result <? 0
                   else if Ascii.eqb op1 ">" then 0 <? result
                   else result =? 0))
    else
      ret (c_bool (if Ascii.eqb op1 "<" then PrimFloat.ltb (num left) (num right)
                   else if Ascii.eqb op1 ">" then PrimFloat.ltb (num right) (num left)
                   else PrimFloat.eqb (num left) (num right)))
  else
    ret (if value_type_eqb (vtype left) VAL_STR
         then c_bool (0 <? CLib.strlen (str left))
         else c_bool (negb (PrimFloat.eqb (num left) 0))).

(** ** Line lookup: binary search with a one-slot cache *)

(** The [while (low <= high)] loop; the result is the index found, or -1.
    The interval shrinks at every turn, so [fuel] above the number of lines
    is never used up. *)
Fixpoint bsearch (fuel : nat) (ls : list line) (number_wanted : Z) (low high : Z)
  : Z :=
  match fuel with
  | O => -1
  | S fuel' =>
      if low <=? high then
        let mid := Z.quot (low + high) 2 in
        let here := number (line_at ls (Z.to_nat mid)) in
        if here =? number_wanted then mid
        else if here <? number_wanted
             then bsearch fuel' ls number_wanted (mid + 1) high
             else bsearch fuel' ls number_wanted low (mid - 1)
      else -1
  end.

Definition find_line_index (number_wanted : Z) : M Z :=
  s <- get ;;
  if number_wanted =? last_lookup_num s then ret (last_lookup_idx s)
  else
    let r := bsearch (S (List.length (program_lines s))) (program_lines s)
                     number_wanted 0 (line_count s - 1) in
    (if 0 <=? r then modify (set_last_lookup number_wanted r) else ret tt) ;;
    ret r.

(** ** Statements *)

Definition statement_rem : M unit := set_cursor "".

Fixpoint statement_print_loop (n : nat) (nl : bool) : M bool :=
  match n with
  | O => out_of_fuel
  | S n' =>
      skip_spaces ;;
      c <- peek ;;
      if Ascii.eqb c CLib.NUL || Ascii.eqb c ":" then ret nl
      else
        v <- eval_expr n' ;;
        print_value v ;;
        skip_spaces ;;
        c <- peek ;;
        if Ascii.eqb c ";" then
          advance 1 ;; statement_print_loop n' false
        else if Ascii.eqb c "," then
          col <- gets print_col ;;
          print_spaces ((Z.quot col 10 + 1) * 10 - col) ;;
          advance 1 ;;
          statement_print_loop n' false
        else ret true
  end.

Definition statement_print (n : nat) : M unit :=
  nl <- statement_print_loop n true ;;
  if nl then fputc_stdout newline ;; modify (set_print_col 0) else ret tt.

Fixpoint statement_input_loop (n : nat) (prompt : string) (first_prompt : bool)
  : M unit :=
  match n with
  | O => out_of_fuel
  | S n' =>
      skip_spaces ;;
      c <- peek ;;
      if Ascii.eqb c CLib.NUL || Ascii.eqb c ":" then ret tt
      else if negb (CLib.isalpha c) then
        runtime_error "Expected variable in INPUT"
      else
        vp <- get_var_reference (eval_expr n') ;;
        match vp with
        | None => ret tt
        | Some (r, _, is_str) =>
            (if negb (Ascii.eqb (CLib.peek prompt) CLib.NUL) && first_prompt
             then fputs_stdout prompt else ret tt) ;;
            fputs_stdout "? " ;;
            s <- get ;;
            match CLib.fgets MAX_LINE_LEN (stdin s) with
            | None => runtime_error "Unexpected end of input"
            | Some (linebuf, rest) =>
                modify (set_stdin rest) ;;
                let linebuf := trim_newline linebuf in
                modify (write_ref r (if is_str then make_str linebuf
                                     else make_num (h_atof H linebuf))) ;;
                skip_spaces ;;
                c <- peek ;;
                if Ascii.eqb c "," then
                  advance 1 ;; statement_input_loop n' prompt false
                else ret tt
            end
        end
  end.

Definition statement_input (n : nat) : M unit :=
  skip_spaces ;;
  c <- peek ;;
  prompt <- (if Ascii.eqb c dquote then
               s <- eval_factor n ;;
               ensure_str s ;;
               skip_spaces ;;
               c <- peek ;;
               (if Ascii.eqb c ";" || Ascii.eqb c "," then advance 1 else ret tt) ;;
               ret (str s)
             else ret "") ;;
  statement_input_loop n prompt true.

(** [statement_let].  The pointer [vp] is taken before the right-hand side
    is evaluated.  When that evaluation makes [realloc] move the array the
    pointer points into, the final store goes through the stale pointer, into
    the block that was freed: the C program has left defined behaviour, and
    the run gives no result. *)
Definition statement_let (n : nat) : M unit :=
  vp <- get_var_reference (eval_expr n) ;;
  match vp with
  | None => ret tt
  | Some (r, _, is_str) =>
      skip_spaces ;;
      c <- peek ;;
      if negb (Ascii.eqb c "=") then runtime_error "Expected '='"
      else
        advance 1 ;;
        before <- gets (block_cells r) ;;
        rhs <- eval_expr n ;;
        (if is_str then ensure_str rhs else ensure_num rhs) ;;
        after <- gets (block_cells r) ;;
        if same_block H before after then modify (write_ref r rhs)
        else killed
  end.

Definition skip_digits : M unit :=
  modify (fun s => set_statement_pos
                     (Some (CLib.drop (span_digits (cursor s)) (cursor s))) s).

Definition statement_goto : M unit :=
  skip_spaces ;;
  s <- get ;;
  let line_number := CLib.atoi (cursor s) in
  skip_digits ;;
  idx <- find_line_index line_number ;;
  modify (set_current_line idx) ;;
  if idx <? 0 then runtime_error "Target line not found"
  else modify (set_statement_pos None).

Definition statement_gosub : M unit :=
  s <- get ;;
  if MAX_GOSUB <=? gosub_top s then runtime_error "GOSUB stack overflow"
  else
    skip_spaces ;;
    s <- get ;;
    let target := CLib.atoi (cursor s) in
    skip_digits ;;
    s <- get ;;
    let return_pos := cursor s in
    modify (set_gosub_stack (mk_gosub return_pos (current_line s) :: gosub_stack s)) ;;
    idx <- find_line_index target ;;
    modify (set_current_line idx) ;;
    if idx <? 0 then runtime_error "Target line not found"
    else modify (set_statement_pos None).

Definition statement_return : M unit :=
  s <- get ;;
  match gosub_stack s with
  | [] => runtime_error "RETURN without GOSUB"
  | fr :: below =>
      modify (set_gosub_stack below) ;;
      modify (set_current_line (g_line_index fr)) ;;
      set_cursor (g_position fr)
  end.

Definition statement_if (n : nat) : M unit :=
  cond_true <- eval_condition n ;;
  skip_spaces ;;
  s <- get ;;
  if negb (starts_with_kw (cursor s) "THEN") then runtime_error "Missing THEN"
  else
    advance 4 ;;
    skip_spaces ;;
    if cond_true =? 0 then set_cursor ""
    else
      c <- peek ;;
      if CLib.isdigit c then
        s <- get ;;
        let target := CLib.atoi (cursor s) in
        skip_digits ;;
        idx <- find_line_index target ;;
        modify (set_current_line idx) ;;
        if idx <? 0 then runtime_error "Target line not found"
        else modify (set_statement_pos None)
      else skip_spaces.

Definition statement_for (n : nat) : M unit :=
  s <- get ;;
  if MAX_FOR <=? for_top s then runtime_error "FOR stack overflow"
  else
    vp <- get_var_reference (eval_expr n) ;;
    match vp with
    | None => ret tt
    | Some (r, is_arr, is_str) =>
        if is_arr then runtime_error "FOR variable must be scalar"
        else if is_str then runtime_error "FOR variable must be numeric"
        else
          skip_spaces ;;
          c <- peek ;;
          if negb (Ascii.eqb c "=") then runtime_error "Expected '=' in FOR"
          else
            advance 1 ;;
            startv <- eval_expr n ;;
            ensure_num startv ;;
            skip_spaces ;;
            s <- get ;;
            if negb (starts_with_kw (cursor s) "TO") then
              runtime_error "Expected TO in FOR"
            else
              advance 2 ;;
              endv <- eval_expr n ;;
              ensure_num endv ;;
              skip_spaces ;;
              s <- get ;;
              stepv <- (if starts_with_kw (cursor s) "STEP" then
                          advance 4 ;;
                          stepv <- eval_expr n ;;
                          ensure_num stepv ;;
                          ret stepv
                        else ret (make_num 1)) ;;
              modify (write_ref r startv) ;;
              s <- get ;;
              let (n1, n2) :=
                match owner_of (vars s) r 0 with
                | Some v => (name1 v, name2 v)
                | None => (" "%char, " "%char)
                end in
              modify (set_for_stack
                        (mk_for (Some r) (num endv) (num stepv) (cursor s)
                                (current_line s) n1 n2 is_str :: for_stack s))
    end.

Definition statement_next : M unit :=
  skip_spaces ;;
  c <- peek ;;
  namebuf <- (if CLib.isalpha c then read_identifier 8 else ret "") ;;
  let '(n1, n2, _) := uppercase_name namebuf in
  s <- get ;;
  match find_for_frame (Ascii.eqb (CLib.peek namebuf) CLib.NUL) n1 n2 (for_stack s) with
  | [] => runtime_error "NEXT without FOR"
  | fr :: below =>
      modify (set_for_stack (fr :: below)) ;;
      match f_var fr with
      | None => runtime_error "Loop variable missing"
      | Some vp =>
          modify (fun s => write_ref vp
                     (with_num (read_ref vp s) (num (read_ref vp s) + f_step fr)%float) s) ;;
          v <- gets (fun s => num (read_ref vp s)) ;;
          if (PrimFloat.leb 0 (f_step fr) && PrimFloat.leb v (f_end_value fr)) ||
             (PrimFloat.ltb (f_step fr) 0 && PrimFloat.leb (f_end_value fr) v)
          then
            modify (set_current_line (f_line_index fr)) ;;
            set_cursor (f_resume_pos fr)
          else modify (set_for_stack below)
      end
  end.

Fixpoint statement_dim (n : nat) : M unit :=
  match n with
  | O => out_of_fuel
  | S n' =>
      skip_spaces ;;
      c <- peek ;;
      if negb (CLib.isalpha c) then runtime_error "Expected array name"
      else
        namebuf <- read_identifier 8 ;;
        let '(n1, n2, is_str) := uppercase_name namebuf in
        skip_spaces ;;
        c <- peek ;;
        if negb (Ascii.eqb c "(") then runtime_error "DIM requires size"
        else
          advance 1 ;;
          sizev <- eval_expr n' ;;
          ensure_num sizev ;;
          let sz := CLib.wrap32 (CLib.double_to_int (num sizev) + 1) in
          if sz <=? 0 then runtime_error "Invalid array size"
          else
            skip_spaces ;;
            c <- peek ;;
            if negb (Ascii.eqb c ")") then runtime_error "Missing ')'"
            else
              advance 1 ;;
              _ <- find_or_create_var n1 n2 is_str true sz ;;
              skip_spaces ;;
              c <- peek ;;
              if Ascii.eqb c "," then advance 1 ;; statement_dim n'
              else ret tt
  end.

Definition statement_end : M unit :=
  modify (set_halted true) ;; set_cursor "".

Definition execute_statement (n : nat) : M unit :=
  skip_spaces ;;
  s <- get ;;
  let p := cursor s in
  if Ascii.eqb (CLib.peek p) CLib.NUL then ret tt
  else if starts_with_kw p "REM" || Ascii.eqb (CLib.peek p) "'" then statement_rem
  else if starts_with_kw p "PRINT" || Ascii.eqb (CLib.peek p) "?" then
    (if Ascii.eqb (CLib.peek p) "?" then advance 1 else advance 5) ;;
    statement_print n
  else if starts_with_kw p "INPUT" then advance 5 ;; statement_input n
  else if starts_with_kw p "LET" then advance 3 ;; statement_let n
  else if starts_with_kw p "GOTO" then advance 4 ;; statement_goto
  else if starts_with_kw p "GOSUB" then advance 5 ;; statement_gosub
  else if starts_with_kw p "RETURN" then advance 6 ;; statement_return
  else if starts_with_kw p "IF" then advance 2 ;; statement_if n
  else if starts_with_kw p "FOR" then advance 3 ;; statement_for n
  else if starts_with_kw p "NEXT" then advance 4 ;; statement_next
  else if starts_with_kw p "DIM" then advance 3 ;; statement_dim n
  else if starts_with_kw p "END" || starts_with_kw p "STOP" then statement_end
  else if CLib.isalpha (CLib.peek p) then statement_let n
  else runtime_error "Unknown statement".

(** ** The loader and the driver *)

(** [add_or_replace_line].  A NULL text (which the driver would dereference)
    is kept as the empty text; [dupstr_local] cannot return it for a line
    that came through the 128-byte read buffer. *)
Definition add_or_replace_line (number_new : Z) (t : string) : M unit :=
  s <- get ;;
  match replace_line (program_lines s) number_new "" with
  | Some _ =>
      d <- dupstr_local t ;;
      s <- get ;;
      match replace_line (program_lines s) number_new
              (match d with Some t' => t' | None => "" end) with
      | Some ls => modify (set_program_lines ls)
      | None => ret tt
      end
  | None =>
      if MAX_LINES <=? line_count s then runtime_error "Program too large"
      else
        d <- dupstr_local t ;;
        s <- get ;;
        modify (set_program_lines
                  (program_lines s
                   ++ [mk_line number_new (match d with Some t' => t' | None => "" end)])%list)
  end.

Fixpoint load_lines (fuel : nat) (file : string) (s : state) : load_result :=
  match fuel with
  | O => Loaded s
  | S fuel' =>
      match CLib.fgets MAX_LINE_LEN file with
      | None => Loaded s
      | Some (linebuf, rest) =>
          if (MAX_LINE_LEN - 1 <=? CLib.strlen linebuf) &&
             negb (Ascii.eqb (CLib.peek_at (Z.to_nat (MAX_LINE_LEN - 2)) linebuf) newline)
          then
            Exited 1 (set_stderr (stderr s ++ "Line too long (max "
                                    ++ CLib.fmt_d MAX_LINE_LEN ++ " chars)"
                                    ++ String newline "") s)
          else
            let linebuf := trim_newline linebuf in
            let p := skip_bom (skip_spaces_str linebuf) in
            if Ascii.eqb (CLib.peek p) CLib.NUL then load_lines fuel' rest s
            else if negb (CLib.isdigit (CLib.peek p)) then
              Exited 1 (set_stderr (stderr s ++ "Line missing number: " ++ linebuf
                                      ++ String newline "") s)
            else
              let number_new := CLib.atoi p in
              if (number_new <? 0) || (65535 <? number_new) then
                Exited 1 (set_stderr (stderr s ++ "Line number out of range: "
                                        ++ CLib.fmt_d number_new
                                        ++ String newline "") s)
              else
                let p := skip_spaces_str (skip_nonspace p) in
                match add_or_replace_line number_new p s with
                | Some (_, s') => load_lines fuel' rest s'
                | None => Loaded s
                end
      end
  end.

Definition load_program (path : string) (file : option string) (s : state)
  : load_result :=
  match file with
  | None => Exited 1 (set_stderr (stderr s ++ "Cannot open " ++ path
                                    ++ String newline "") s)
  | Some content =>
      match load_lines (S (String.length content)) content s with
      | Exited c s' => Exited c s'
      | Loaded s' => Loaded (set_program_lines (sort_program (program_lines s')) s')
      end
  end.

Definition run_step (n : nat) : M bool :=
  s <- get ;;
  if negb (halted s) && (0 <=? current_line s) && (current_line s <? line_count s)
  then
    let start :=
      match statement_pos s with
      | Some p => p
      | None => text (line_at (program_lines s) (Z.to_nat (current_line s)))
      end in
    let p := skip_spaces_str start in
    if Ascii.eqb (CLib.peek p) CLib.NUL then
      modify (set_current_line (current_line s + 1)) ;;
      modify (set_statement_pos None) ;;
      ret true
    else
      set_cursor p ;;
      execute_statement n ;;
      s <- get ;;
      if halted s then ret false
      else
        match statement_pos s with
        | None => ret true
        | Some _ =>
            skip_spaces ;;
            c <- peek ;;
            if Ascii.eqb c ":" then advance 1 ;; ret true
            else
              skip_spaces ;;
              c <- peek ;;
              (if Ascii.eqb c CLib.NUL then
                 s <- get ;;
                 modify (set_current_line (current_line s + 1)) ;;
                 modify (set_statement_pos None)
               else ret tt) ;;
              ret true
        end
  else ret false.

Fixpoint run_loop (fuel : nat) : M unit :=
  match fuel with
  | O => out_of_fuel
  | S fuel' =>
      again <- run_step fuel' ;;
      if again then run_loop fuel' else ret tt
  end.

Definition run_program (fuel : nat) : M unit :=
  modify (set_halted false) ;;
  modify (set_current_line 0) ;;
  modify (set_statement_pos None) ;;
  modify (set_print_col 0) ;;
  run_loop fuel.

(** [cleanup_program]: the heap blocks are released and both counts reset. *)
Definition cleanup_program : M unit :=
  modify (set_program_lines []) ;; modify (set_vars []).

Definition main (argv : list string) (fs : string -> option string)
    (input : string) (fuel : nat) : option (Z * state) :=
  let s0 := initial_state input in
  match argv with
  | _ :: path :: _ =>
      match load_program path (fs path) s0 with
      | Exited c s => Some (c, s)
      | Loaded s =>
          match (run_program fuel ;; cleanup_program) s with
          | Some (_, s') => Some (0, s')
          | None => None
          end
      end
  | _ =>
      Some (1, set_stderr ("Usage: " ++ nth 0 argv "" ++ " <program.bas>"
                             ++ String newline "") s0)
  end.

End WithHost.
End Optimized.

(* ===================================================================== *)
(** * Vocabulary of the properties                                        *)
(* ===================================================================== *)

Import Machine Common.

(** The two builds, and the functions both have. *)
Inductive build : Set := ClassicBuild | Pdp11Build.

Definition main (b : build) (H : host)
  : list string -> (string -> option string) -> string -> nat -> option (Z * state) :=
  match b with
  | ClassicBuild => Classic.main H
  | Pdp11Build => Optimized.main H
  end.

Definition run_step (b : build) (H : host) : nat -> M bool :=
  match b with
  | ClassicBuild => Classic.run_step H
  | Pdp11Build => Optimized.run_step H
  end.

Definition runtime_error (b : build) : string -> M unit :=
  match b with
  | ClassicBuild => Classic.runtime_error
  | Pdp11Build => Optimized.runtime_error
  end.

Definition statement_gosub (b : build) : M unit :=
  match b with
  | ClassicBuild => Classic.statement_gosub
  | Pdp11Build => Optimized.statement_gosub
  end.

Definition statement_for (b : build) (H : host) : nat -> M unit :=
  match b with
  | ClassicBuild => Classic.statement_for H
  | Pdp11Build => Optimized.statement_for H
  end.

(** The expression evaluator the statement handlers call: [eval_or_expr]
    in bsdbasic.c, [eval_expr] in basic.c. *)
Definition expression (b : build) (H : host) : nat -> M value :=
  match b with
  | ClassicBuild => Classic.eval_or_expr H
  | Pdp11Build => Optimized.eval_expr H
  end.

Definition starts_with_kw (b : build) : string -> string -> bool :=
  match b with
  | ClassicBuild => Classic.starts_with_kw
  | Pdp11Build => Optimized.starts_with_kw
  end.

Definition get_var_reference (b : build) (H : host) (top : M value)
  : M (option (value_ref * bool * bool)) :=
  match b with
  | ClassicBuild => Classic.get_var_reference H top
  | Pdp11Build => Optimized.get_var_reference H top
  end.

Definition ensure_num (b : build) : value -> M unit :=
  match b with
  | ClassicBuild => Classic.ensure_num
  | Pdp11Build => Optimized.ensure_num
  end.

Definition statement_next (b : build) : M unit :=
  match b with
  | ClassicBuild => Classic.statement_next
  | Pdp11Build => Optimized.statement_next
  end.

Definition uppercase_name (b : build) : string -> ascii * ascii * bool :=
  match b with
  | ClassicBuild => Classic.uppercase_name
  | Pdp11Build => Optimized.uppercase_name
  end.

Definition MAX_GOSUB (b : build) : Z :=
  match b with
  | ClassicBuild => Classic.MAX_GOSUB
  | Pdp11Build => Optimized.MAX_GOSUB
  end.

Definition MAX_FOR (b : build) : Z :=
  match b with
  | ClassicBuild => Classic.MAX_FOR
  | Pdp11Build => Optimized.MAX_FOR
  end.

(** [sizeof(namebuf)] in the statement handlers. *)
Definition namebuf_size (b : build) : Z :=
  match b with ClassicBuild => 16 | Pdp11Build => 8 end.

(** The state after [skip_spaces(p)] and after [*p += k]. *)
Definition skip_spaces_st (s : state) : state :=
  set_statement_pos (Some (skip_spaces_str (cursor s))) s.

Definition advance_st (k : nat) (s : state) : state :=
  set_statement_pos (Some (CLib.drop k (cursor s))) s.

(** A runtime error was raised between [s] and [s']. *)
Definition raised (msg : string) (s s' : state) : Prop :=
  halted s' = true /\
  exists pre, stderr s' = pre ++ "Error: " ++ msg ++ String newline "".

(** ** What the evaluator leaves alone *)

(** The part of the state that only statements change: the program, the
    two stacks, the line index, the lookup cache and the input; a raised
    error stays raised and a cursor stays a cursor. *)
Definition same_control (s s' : state) : Prop :=
  program_lines s' = program_lines s /\
  gosub_stack s' = gosub_stack s /\
  for_stack s' = for_stack s /\
  current_line s' = current_line s /\
  last_lookup_num s' = last_lookup_num s /\
  last_lookup_idx s' = last_lookup_idx s /\
  stdin s' = stdin s /\
  (halted s = true -> halted s' = true) /\
  (statement_pos s <> None -> statement_pos s' <> None).

(** A computation that leaves that part alone. *)
Definition keeps {A} (m : M A) : Prop :=
  forall s a s', m s = Some (a, s') -> same_control s s'.

(** ** Programs as text

    In the programs below a backquote stands for the double quote of BASIC;
    the lines are joined with newlines. *)
Fixpoint requote (s : string) : string :=
  match s with
  | EmptyString => EmptyString
  | String c s' => String (if Ascii.eqb c "`" then dquote else c) (requote s')
  end.

Fixpoint basic_text (lines : list string) : string :=
  match lines with
  | [] => ""
  | l :: lines' => requote l ++ String newline (basic_text lines')
  end.

(** A file system that holds one program, under every path. *)
Definition one_file (lines : list string) (path : string) : option string :=
  Some (basic_text lines).

(** Standard output and standard error of a run of [main] on a program. *)
Definition output_of (b : build) (lines : list string) (input : string)
    (fuel : nat) : option (Z * string * string) :=
  match main b RefHost.ref_host ["basic"; "prog.bas"] (one_file lines) input fuel with
  | Some (code, s) => Some (code, stdout s, stderr s)
  | None => None
  end.

(** The state in which the driver starts on a loaded program. *)
Definition loaded_state (b : build) (lines : list string) : option state :=
  match b with
  | ClassicBuild =>
      match Classic.load_program "prog.bas" (Some (basic_text lines)) (initial_state "") with
      | Loaded s => Some s
      | Exited _ _ => None
      end
  | Pdp11Build =>
      match Optimized.load_program "prog.bas" (Some (basic_text lines)) (initial_state "") with
      | Loaded s => Some s
      | Exited _ _ => None
      end
  end.

(** [k] turns of the driver loop, each with fuel [n] for its statement. *)
Fixpoint steps (b : build) (H : host) (n k : nat) (s : state) : option state :=
  match k with
  | O => Some s
  | S k' =>
      match run_step b H n s with
      | Some (_, s') => steps b H n k' s'
      | None => None
      end
  end.

(** A state whose cursor is at the start of the given text. *)
Definition at_text (t : string) : state :=
  set_statement_pos (Some (requote t)) (initial_state "").

(** ** Comparisons *)

(** The six relational operators of the grammar. *)
Inductive rel_op : Set := OpEq | OpNe | OpLe | OpGe | OpLt | OpGt.

(** The operator at the head of a text (longest match) and its length. *)
Definition rel_op_at (p : string) : option (rel_op * nat) :=
  let c1 := CLib.peek p in
  let c2 := CLib.peek_at 1 p in
  if Ascii.eqb c1 "<" then
    if Ascii.eqb c2 ">" then Some (OpNe, 2%nat)
    else if Ascii.eqb c2 "=" then Some (OpLe, 2%nat)
    else Some (OpLt, 1%nat)
  else if Ascii.eqb c1 ">" then
    if Ascii.eqb c2 "=" then Some (OpGe, 2%nat) else Some (OpGt, 1%nat)
  else if Ascii.eqb c1 "=" then Some (OpEq, 1%nat)
  else None.

(** The comparison holds: numbers as IEEE doubles, strings in the
    lexicographic order of their character codes. *)
Definition num_holds (op : rel_op) (a b : float) : bool :=
  match op with
  | OpEq => PrimFloat.eqb a b
  | OpNe => negb (PrimFloat.eqb a b)
  | OpLe => PrimFloat.leb a b
  | OpGe => PrimFloat.leb b a
  | OpLt => PrimFloat.ltb a b
  | OpGt => PrimFloat.ltb b a
  end.

Definition str_holds (op : rel_op) (a b : string) : bool :=
  match op with
  | OpEq => CLib.strcmp a b =? 0
  | OpNe => negb (CLib.strcmp a b =? 0)
  | OpLe => CLib.strcmp a b <=? 0
  | OpGe => 0 <=? CLib.strcmp a b
  | OpLt => CLib.strcmp a b <? 0
  | OpGt => 0 <? CLib.strcmp a b
  end.

Definition holds (op : rel_op) (l r : value) : bool :=
  match vtype l with
  | VAL_NUM => num_holds op (num l) (num r)
  | VAL_STR => str_holds op (str l) (str r)
  end.

(** The operand types for which the comparison raises no error: two
    numbers, or two strings under an operator other than [<=] and [>=]. *)
Definition comparable (op : rel_op) (l r : value) : bool :=
  match vtype l, vtype r with
  | VAL_NUM, VAL_NUM => true
  | VAL_STR, VAL_STR => match op with OpLe | OpGe => false | _ => true end
  | _, _ => false
  end.

(** ** FOR and NEXT *)

(** The name that follows NEXT: whether there is one, its two-letter key,
    and the text after it. *)
Definition next_operand (b : build) (s : state) : bool * ascii * ascii * string :=
  let p := skip_spaces_str (cursor s) in
  let named := CLib.isalpha (CLib.peek p) in
  let (namebuf, rest) :=
    if named then read_identifier_str (Z.to_nat (namebuf_size b - 1)) p else ("", p) in
  let '(n1, n2, _) := uppercase_name b namebuf in
  (named, n1, n2, rest).

(** A frame is the one NEXT is looking for. *)
Definition frame_matches (named : bool) (n1 n2 : ascii) (fr : for_frame) : bool :=
  negb named || (Ascii.eqb (f_name1 fr) n1 && Ascii.eqb (f_name2 fr) n2).

(** The loop goes round again. *)
Definition loop_continues (fr : for_frame) (v : float) : bool :=
  (PrimFloat.leb 0 (f_step fr) && PrimFloat.leb v (f_end_value fr)) ||
  (PrimFloat.ltb (f_step fr) 0 && PrimFloat.leb (f_end_value fr) v).

(** ** The program store *)

(** Strictly increasing line numbers. *)
Definition increasing (ls : list line) : Prop :=
  StronglySorted (fun a b => number a < number b) ls.

(** The numbers of the entries are pairwise different, by index. *)
Definition distinct_numbers (ls : list line) : Prop :=
  forall a b, (a < List.length ls)%nat -> (b < List.length ls)%nat -> a <> b ->
  number (line_at ls a) <> number (line_at ls b).

(** Line numbers as the loader of [basic.c] admits them. *)
Definition numbers_in_range (ls : list line) : Prop :=
  Forall (fun l => 0 <= number l <= 65535) ls.

(** The cache holds either its initial content or a pair that is right. *)
Definition cache_ok (s : state) : Prop :=
  (last_lookup_num s = -1 /\ last_lookup_idx s = -1) \/
  (0 <= last_lookup_idx s < line_count s /\
   number (line_at (program_lines s) (Z.to_nat (last_lookup_idx s)))
   = last_lookup_num s).

(** What the line lookup of a build relies on (the linear scan: nothing). *)
Definition store_ok (b : build) (s : state) : Prop :=
  match b with
  | ClassicBuild => True
  | Pdp11Build =>
      increasing (program_lines s) /\ numbers_in_range (program_lines s) /\ cache_ok s
  end.

(** The classic lookup as a pure function. *)
Definition linear_lookup (ls : list line) (n : Z) : Z := Classic.find_line_from ls n 0.

(** A sequence of lookups through the cache, results in order. *)
Fixpoint lookups (qs : list Z) : M (list Z) :=
  match qs with
  | [] => ret []
  | q :: qs' =>
      bind (Optimized.find_line_index q) (fun r =>
      bind (lookups qs') (fun rs => ret (r :: rs)))
  end.

(** [r] is the answer to a lookup of [n]: the one index that carries the
    number, or -1 when no line does. *)
Definition index_of_number (ls : list line) (n r : Z) : Prop :=
  (r = -1 /\ Forall (fun l => number l <> n) ls) \/
  (0 <= r < Z.of_nat (List.length ls) /\
   number (line_at ls (Z.to_nat r)) = n /\
   forall k, (k < List.length ls)%nat -> number (line_at ls k) = n -> Z.of_nat k = r).

(** ** The process *)

(** [load_program] returns to [main]: it has not called [exit]. *)
Definition load_returns (b : build) (path : string) (file : option string)
    (s : state) : bool :=
  match b with
  | ClassicBuild =>
      match Classic.load_program path file s with
      | Loaded _ => true
      | Exited _ _ => false
      end
  | Pdp11Build =>
      match Optimized.load_program path file s with
      | Loaded _ => true
      | Exited _ _ => false
      end
  end.

(** The run takes place: a path is given and the load returns. *)
Definition run_takes_place (b : build) (argv : list string)
    (fs : string -> option string) (input : string) : bool :=
  match argv with
  | _ :: path :: _ => load_returns b path (fs path) (initial_state input)
  | _ => false
  end.

(** ** The print column *)

(** The column counter is inside the print width. *)
Definition in_print_width (s : state) : bool :=
  (0 <=? print_col s) && (print_col s <? 80).

(** ** Subscripts *)

(** The coercion as the specification words it: [floor(x + 0.00001)]. *)
Definition floor_subscript (x : float) : option Z :=
  CLib.floor_SF (Prim2SF (x + Classic.epsilon)%float).

(** ** FOR

    What [statement_for] has done between [s] and [s'] when it entered the
    loop, in the order of the code: the loop variable was resolved to the
    scalar numeric reference [r]; after [=] the start expression gave
    [startv]; after [TO] the end expression gave [endv]; the step is that of
    the STEP clause or 1; [startv] was stored through [r]; and one frame was
    pushed that resumes at the cursor where the statement ended, on the line
    being run, named after the variable that owns [r].  No comparison of the
    start value with the end value takes part. *)
Definition enters_loop (b : build) (H : host) (n : nat) (s s' : state) : Prop :=
  exists (r : value_ref) (startv endv : value) (step : float)
         (s1 s2 s3 s4 s5 s6 : state) (n1 n2 : ascii),
    get_var_reference b H (expression b H n) s = Some (Some (r, false, false), s1) /\
    CLib.peek (cursor (skip_spaces_st s1)) = "="%char /\
    expression b H n (advance_st 1 (skip_spaces_st s1)) = Some (startv, s2) /\
    ensure_num b startv s2 = Some (tt, s3) /\
    starts_with_kw b (cursor (skip_spaces_st s3)) "TO" = true /\
    expression b H n (advance_st 2 (skip_spaces_st s3)) = Some (endv, s4) /\
    ensure_num b endv s4 = Some (tt, s5) /\
    (if starts_with_kw b (cursor (skip_spaces_st s5)) "STEP"
     then exists stepv s5',
         expression b H n (advance_st 4 (skip_spaces_st s5)) = Some (stepv, s5') /\
         ensure_num b stepv s5' = Some (tt, s6) /\
         step = num stepv
     else step = 1%float /\ s6 = skip_spaces_st s5) /\
    match owner_of (vars (write_ref r startv s6)) r 0 with
    | Some v => (name1 v, name2 v)
    | None => (" "%char, " "%char)
    end = (n1, n2) /\
    s' = set_for_stack
           (mk_for (Some r) (num endv) step (cursor s6) (current_line s)
                   n1 n2 false :: for_stack s)
           (write_ref r startv s6).

(** The state a computation leaves. *)
Definition state_after {A} (m : M A) (s : state) : state :=
  match m s with Some (_, s') => s' | None => s end.

(** ** Calls of the string functions

    [eval_function] is entered with the cursor at the name.  It reads the
    name again (into 16 bytes), skips blanks and wants a parenthesis: the
    first argument is evaluated in the state behind that. *)
Definition after_name_st (s : state) : state :=
  skip_spaces_st
    (set_statement_pos (Some (snd (read_identifier_str 15 (cursor s)))) s).

(** [if ( **p == ')') ( *p)++;] *)
Definition close_paren_st (s : state) : state :=
  if Ascii.eqb (CLib.peek (cursor s)) ")" then advance_st 1 s else s.

(** The state [s] with the cursor at the text [p]. *)
Definition at_cursor (p : string) (s : state) : state :=
  set_statement_pos (Some p) s.

(** The text [p] continues no expression: behind its blanks there is no
    [^], [*], [/], [+] or [-]. *)
Definition ends_expression (p : string) : bool :=
  let c := CLib.peek (skip_spaces_str p) in
  negb (Ascii.eqb c "^" || Ascii.eqb c "*" || Ascii.eqb c "/" || is_sign c).

(** ** Programs that are run below *)

(** Comparisons as PRINT items and as an operand. *)
Definition comparison_program : list string :=
  ["10 PRINT 1<2;(2<1)+5;`A`<>`B`"].

Definition print_comparison_program : list string := ["10 PRINT 1<2"].

(** The examples of the manual for AND and OR, and a condition that
    combines two comparisons. *)
Definition logic_program : list string :=
  ["10 PRINT 5 AND 3;5 OR 2"; "20 IF 5>3 AND 2<4 THEN PRINT `YES`"].

Definition condition_program : list string :=
  ["10 IF 5>3 AND 2<4 THEN PRINT `YES`"].

(** A jump to a line that does not exist. *)
Definition missing_target_program : list string :=
  ["10 PRINT `A`"; "20 GOTO 99"; "30 PRINT `B`"].

(** A program that ends with END, one with STOP, one that runs off its
    last line. *)
Definition end_program : list string := ["10 PRINT `A`"; "20 END"; "30 PRINT `B`"].
Definition stop_program : list string := ["10 PRINT `A`"; "20 STOP"; "30 PRINT `B`"].
Definition plain_program : list string := ["10 PRINT `A`"].

(** A line without a number. *)
Definition unnumbered_program : list string := ["PRINT 1"].

(** Seventy-eight characters, then a number. *)
Definition wide_program : list string :=
  ["10 PRINT `123456789012345678901234567890123456789012345678901234567890123456789012345678`;12345;";
   "20 PRINT `X`"].

(** A loop whose start lies beyond its end. *)
Definition for_program : list string :=
  ["10 FOR I=1 TO 0"; "20 PRINT `BODY`"; "30 NEXT I"; "40 PRINT `DONE`"].

(** Nested loops closed by the outer NEXT alone. *)
Definition nested_program : list string :=
  ["10 FOR I=1 TO 2"; "20 FOR J=1 TO 2"; "30 PRINT I;J;` `;"; "40 NEXT I"].

(** Subscript -1. *)
Definition negative_subscript_program : list string :=
  ["10 A(0)=7 : A(-1)=3 : PRINT A(0)"].

(** An array that grows after its first use. *)
Definition growing_array_program : list string := ["10 A(0)=1 : PRINT A(11)"].

(** A host whose fresh heap cells are not zero. *)
Definition dirty_host : host :=
  mk_host RefHost.atof RefHost.fmt_g RefHost.unavailable RefHost.unavailable
          RefHost.unavailable RefHost.unavailable RefHost.unavailable
          RefHost.unavailable (fun _ _ => nan) RefHost.srand RefHost.rand 32767
          RefHost.alloc (fun _ _ _ => Classic.make_num 42) (fun _ _ => false).


(** A GOSUB to a line that does not exist. *)
Definition missing_gosub_program : list string := ["10 GOSUB 99"].

(** The driver about to run the first statement of a loaded program. *)
Definition ready (b : build) (lines : list string) : option state :=
  option_map
    (fun s => set_print_col 0 (set_statement_pos None
                (set_current_line 0 (set_halted false s))))
    (loaded_state b lines).

(** The state after [k] statements of a program. *)
Definition after_statements (b : build) (lines : list string) (k : nat)
  : option state :=
  match ready b lines with
  | Some s => steps b RefHost.ref_host 100%nat k s
  | None => None
  end.

(** A line of text followed by a newline. *)
Definition ln (t : string) : string := t ++ String newline "".

(** ** States that the statements below start from *)

Definition state_or_start (o : option state) : state :=
  match o with Some s => s | None => initial_state "" end.

Definition null_frame : for_frame :=
  mk_for None 0%float 0%float "" 0 " " " " false.

(** [nested_program] about to run the operand of [NEXT I]: two frames on
    the FOR stack, that of J above that of I. *)
Definition nested_at_next (b : build) : state :=
  set_statement_pos (Some " I") (state_or_start (after_statements b nested_program 3)).

(** [missing_gosub_program] about to run the operand of [GOSUB 99]. *)
Definition gosub_at_operand (b : build) : state :=
  set_statement_pos (Some " 99")
    (set_current_line 0 (state_or_start (loaded_state b missing_gosub_program))).

(** The store of a loaded program with the lines 10, 20 and 30. *)
Definition three_line_store : state :=
  state_or_start (loaded_state Pdp11Build missing_target_program).

(* ===================================================================== *)
(** * Further vocabulary: the functions both builds have, by build        *)
(* ===================================================================== *)

Definition print_value (b : build) (H : host) : value -> M unit :=
  match b with
  | ClassicBuild => Classic.print_value H
  | Pdp11Build => Optimized.print_value H
  end.

Definition print_spaces (b : build) : Z -> M unit :=
  match b with
  | ClassicBuild => Classic.print_spaces
  | Pdp11Build => Optimized.print_spaces
  end.

Definition eval_function (b : build) (H : host) : M value -> string -> M value :=
  match b with
  | ClassicBuild => Classic.eval_function H
  | Pdp11Build => Optimized.eval_function H
  end.

Definition make_str (b : build) : string -> value :=
  match b with
  | ClassicBuild => Classic.make_str
  | Pdp11Build => Optimized.make_str
  end.

Definition MAX_STR_LEN (b : build) : Z :=
  match b with
  | ClassicBuild => Classic.MAX_STR_LEN
  | Pdp11Build => Optimized.MAX_STR_LEN
  end.

Definition statement_return (b : build) : M unit :=
  match b with
  | ClassicBuild => Classic.statement_return
  | Pdp11Build => Optimized.statement_return
  end.

Definition statement_goto (b : build) : M unit :=
  match b with
  | ClassicBuild => Classic.statement_goto
  | Pdp11Build => Optimized.statement_goto
  end.

Definition MAX_LINES (b : build) : Z :=
  match b with
  | ClassicBuild => Classic.MAX_LINES
  | Pdp11Build => Optimized.MAX_LINES
  end.

Definition MAX_VARS (b : build) : Z :=
  match b with
  | ClassicBuild => Classic.MAX_VARS
  | Pdp11Build => Optimized.MAX_VARS
  end.

Definition add_or_replace_line (b : build) : Z -> string -> M unit :=
  match b with
  | ClassicBuild => Classic.add_or_replace_line
  | Pdp11Build => Optimized.add_or_replace_line
  end.

Definition load_program (b : build) : string -> option string -> state -> load_result :=
  match b with
  | ClassicBuild => Classic.load_program
  | Pdp11Build => Optimized.load_program
  end.

Definition find_or_create_var (b : build) (H : host)
  : ascii -> ascii -> bool -> bool -> Z -> M (option nat) :=
  match b with
  | ClassicBuild => Classic.find_or_create_var H
  | Pdp11Build => Optimized.find_or_create_var H
  end.

(** ** Printing *)

(** The column [TAB] moves to: [(int)x % PRINT_WIDTH], made non-negative. *)
Definition tab_target (x : float) : Z :=
  let target := Z.rem (CLib.double_to_int x) 80 in
  if target <? 0 then target + 80 else target.

(** ** Names *)

Definition read_identifier (b : build) : Z -> M string :=
  match b with
  | ClassicBuild => Classic.read_identifier
  | Pdp11Build => Optimized.read_identifier
  end.

(** The characters [read_identifier] accepts. *)
Definition is_identifier_char (c : ascii) : bool :=
  CLib.isalpha c || CLib.isdigit c || Ascii.eqb c "$".

Fixpoint all_chars (f : ascii -> bool) (t : string) : bool :=
  match t with
  | EmptyString => true
  | String c t' => f c && all_chars f t'
  end.

(** Programs that call CHR$ and CHR. *)
Definition chr_dollar_program : list string := ["10 PRINT CHR$(65);`.`"].
Definition chr_program : list string := ["10 PRINT CHR(65);`.`"].

(** ** Invariants of a run *)

(** A computation that returns keeps the invariant [P]. *)
Definition preserves (P : state -> Prop) {A} (m : M A) : Prop :=
  forall s a s', m s = Some (a, s') -> P s -> P s'.

(** Both control stacks are within their arrays. *)
Definition stacks_within (b : build) (s : state) : Prop :=
  gosub_top s <= MAX_GOSUB b /\ for_top s <= MAX_FOR b.

Definition execute_statement (b : build) (H : host) : nat -> M unit :=
  match b with
  | ClassicBuild => Classic.execute_statement H
  | Pdp11Build => Optimized.execute_statement H
  end.

(** A subroutine call and its return. *)
Definition gosub_program : list string := ["10 GOSUB 30"; "20 END"; "30 RETURN"].

(** [gosub_program] about to run the operand of [GOSUB 30]. *)
Definition gosub_at_30 (b : build) : state :=
  set_statement_pos (Some " 30")
    (set_current_line 0 (state_or_start (loaded_state b gosub_program))).

(** ** The variable table *)

(** The block of an entry has exactly the number of cells the entry
    records, unless it is NULL (no array yet, or an allocation that failed). *)
Definition wf_var (v : var) : Prop :=
  0 <= size v /\ (array v = [] \/ size v = Z.of_nat (List.length (array v))).

(** The table is within its array, and every block has the recorded size. *)
Definition vars_ok (b : build) (s : state) : Prop :=
  var_count s <= MAX_VARS b /\ Forall wf_var (vars s).

(** A [struct value *] that points at a scalar of the table or at a cell
    inside the array of an entry. *)
Definition ref_valid (r : value_ref) (s : state) : Prop :=
  match r with
  | RScalar i => (i < List.length (vars s))%nat
  | RElem i k =>
      (i < List.length (vars s))%nat /\
      (k < List.length (array (nth i (vars s) null_var)))%nat
  end.

(** What [find_or_create_var] leaves: a table that has not shrunk, and an
    index inside it. *)
Definition found_var (s s' : state) (r : option nat) : Prop :=
  (List.length (vars s) <= List.length (vars s'))%nat /\
  match r with
  | Some i => (i < List.length (vars s'))%nat
  | None => True
  end.

(** ** The program store *)

Definition MAX_LINE_LEN (b : build) : Z :=
  match b with
  | ClassicBuild => Classic.MAX_LINE_LEN
  | Pdp11Build => Optimized.MAX_LINE_LEN
  end.

(** The entries have pairwise different numbers and fit the store. *)
Definition store_within (b : build) (s : state) : Prop :=
  NoDup (map number (program_lines s)) /\ line_count s <= MAX_LINES b.

(** The exchange of two positions, on indices. *)
Definition transpose (i j x : nat) : nat :=
  if Nat.eqb x j then i else if Nat.eqb x i then j else x.

(** A program given out of order, with one number twice. *)
Definition unordered_program : list string :=
  ["30 PRINT `C`"; "10 PRINT `A`"; "20 PRINT `X`"; "20 PRINT `B`"].

(** The store holds the program [L], in the shape the lookup of the build
    relies on. *)
Definition store_is (b : build) (L : list line) (s : state) : Prop :=
  program_lines s = L /\ store_ok b s.

(** ** The variable table as a map from names *)

(** The key [find_or_create_var] compares: the two characters and the
    string flag. *)
Definition var_key (v : var) : ascii * ascii * bool :=
  (name1 v, name2 v, is_string v).

(** ** Jumps *)

(** What a jump to the line numbered [target] leaves, from [s0] (whose
    store is searched) to [s']: the index the linear scan answers is the
    current line; either it is the index of the line with that number and
    the next statement is the first of that line, or no line has the number,
    the index is -1 and the error is reported. *)
Definition jumped (target : Z) (s0 s' : state) : Prop :=
  let k := linear_lookup (program_lines s0) target in
  current_line s' = k /\
  program_lines s' = program_lines s0 /\
  ((0 <= k < line_count s0 /\
    number (line_at (program_lines s0) (Z.to_nat k)) = target /\
    statement_pos s' = None /\ halted s' = halted s0 /\ stderr s' = stderr s0) \/
   (k = -1 /\
    Forall (fun l => number l <> target) (program_lines s0) /\
    halted s' = true /\
    stderr s' = stderr s0 ++ "Error: Target line not found" ++ String newline "")).

(** The fields a jump does not touch. *)
Definition same_data (s s' : state) : Prop :=
  vars s' = vars s /\ gosub_stack s' = gosub_stack s /\ for_stack s' = for_stack s /\
  stdout s' = stdout s /\ stdin s' = stdin s /\ print_col s' = print_col s.

Definition statement_if (b : build) (H : host) : nat -> M unit :=
  match b with
  | ClassicBuild => Classic.statement_if H
  | Pdp11Build => Optimized.statement_if H
  end.

Definition eval_condition (b : build) (H : host) : nat -> M Z :=
  match b with
  | ClassicBuild => Classic.eval_condition H
  | Pdp11Build => Optimized.eval_condition H
  end.

(** What IF leaves, from the state [s1] in which its condition was
    evaluated to [c]: [q] is the text from THEN on, [p] the text behind
    THEN. *)
Definition if_outcome (b : build) (c : Z) (s1 s' : state) : Prop :=
  let q := skip_spaces_str (cursor s1) in
  let p := skip_spaces_str (CLib.drop 4 q) in
  if negb (starts_with_kw b q "THEN") then
    halted s' = true /\ same_control s1 s' /\ same_data s1 s'
  else if c =? 0 then s' = set_statement_pos (Some "") s1
  else if CLib.isdigit (CLib.peek p) then
    jumped (CLib.atoi p) s1 s' /\ same_data s1 s'
  else s' = set_statement_pos (Some p) s1.

(** An IF whose condition is false, with more statements behind it on its
    line. *)
Definition if_false_program : list string :=
  ["10 IF 1 > 2 THEN PRINT `A`: PRINT `B`"; "20 PRINT `C`"].

Definition if_true_program : list string :=
  ["10 IF 1 < 2 THEN PRINT `A`: PRINT `B`"; "20 PRINT `C`"].

(** The text the driver starts a turn on: the saved cursor, or the text of
    the current line. *)
Definition turn_text (s : state) : string :=
  skip_spaces_str
    (match statement_pos s with
     | Some p => p
     | None => text (line_at (program_lines s) (Z.to_nat (current_line s)))
     end).

(** [if_false_program] loaded in the classic build, about to run line 10. *)
Definition at_false_if : state :=
  state_or_start (loaded_state ClassicBuild if_false_program).

(** What a cell added by [realloc] holds: whatever the heap held in the
    classic build, zero where [memset] clears the new tail. *)
Definition new_cell (b : build) (H : host) (vs : list var) (i k : nat) : value :=
  match b with
  | ClassicBuild => h_uninit H vs i k
  | Pdp11Build => zero_value
  end.

(** A table whose first entry is the array A of eleven cells. *)
Definition with_array_A : state :=
  state_after (find_or_create_var Pdp11Build RefHost.ref_host "A" " " false true 11)
    (initial_state "").

(** ** The lookup of a line, by build *)

Definition find_line_index (b : build) : Z -> M Z :=
  match b with
  | ClassicBuild => Classic.find_line_index
  | Pdp11Build => Optimized.find_line_index
  end.

(** The store as the loader leaves it once all lines are in: sorted. *)
Definition sorted_store (s : state) : state :=
  set_program_lines (sort_program (program_lines s)) s.

(** Three lines in order, to which a line 5 is added. *)
Definition three_lines : state :=
  set_program_lines [mk_line 10 "A"; mk_line 20 "B"; mk_line 30 "C"]
    (initial_state "").

(* ===================================================================== *)
(** * Basic facts                                                         *)
(* ===================================================================== *)

(** Normalise applications of the state setters and projections. *)
Ltac state_norm :=
  cbv [set_program_lines set_vars set_gosub_stack set_for_stack set_current_line
       set_statement_pos set_halted set_print_col set_last_lookup set_stdout
       set_stderr set_stdin set_rng set_slept
       program_lines vars gosub_stack for_stack current_line statement_pos
       halted print_col last_lookup_num last_lookup_idx stdout stderr stdin
       rng slept modify cursor].

(** Case analysis on the scrutinees of the hypothesis that says a
    computation returned. *)
Ltac split_run Hrun :=
  repeat match type of Hrun with
         | context [match ?x with _ => _ end] =>
             let E := fresh "E" in destruct x eqn:E; try discriminate Hrun
         end.

(** ** The primitives of the monad *)

Lemma run_get (s : state) : get s = Some (s, s).
Proof. reflexivity. Qed.

Lemma bind_inv {A B} (m : M A) (k : A -> M B) (s s' : state) (b : B) :
  bind m k s = Some (b, s') ->
  exists a s1, m s = Some (a, s1) /\ k a s1 = Some (b, s').
Proof.
  unfold bind. destruct (m s) as [[a s1]|]; [|discriminate].
  intros E. exists a, s1. split; [reflexivity | exact E].
Qed.

Lemma bind_run_get {A} (k : state -> M A) (s : state) :
  bind get k s = k s s.
Proof. reflexivity. Qed.

Lemma run_advance (k : nat) (s : state) : advance k s = Some (tt, advance_st k s).
Proof. reflexivity. Qed.

Lemma run_peek (s : state) : peek s = Some (CLib.peek (cursor s), s).
Proof. reflexivity. Qed.

Lemma run_peek_at (i : nat) (s : state) :
  peek_at i s = Some (CLib.peek_at i (cursor s), s).
Proof. reflexivity. Qed.

Lemma run_classic_skip_spaces (s : state) :
  Classic.skip_spaces s = Some (tt, skip_spaces_st s).
Proof. reflexivity. Qed.

Lemma run_pdp11_skip_spaces (s : state) :
  Optimized.skip_spaces s = Some (tt, skip_spaces_st s).
Proof. reflexivity. Qed.

Lemma cursor_skip_spaces_st (s : state) :
  cursor (skip_spaces_st s) = skip_spaces_str (cursor s).
Proof. destruct s; reflexivity. Qed.

Lemma cursor_advance_st (k : nat) (s : state) :
  cursor (advance_st k s) = CLib.drop k (cursor s).
Proof. destruct s; reflexivity. Qed.

(** ** Texts *)

Lemma take_drop (n : nat) (s : string) : CLib.take n s ++ CLib.drop n s = s.
Proof.
  revert s. induction n as [|n IH]; intros [|c s]; simpl; try reflexivity.
  rewrite IH. reflexivity.
Qed.

Lemma take_all (n : nat) (s : string) :
  (String.length s <= n)%nat -> CLib.take n s = s.
Proof.
  revert s. induction n as [|n IH]; intros [|c s]; simpl; intros Hn;
    try reflexivity; try lia.
  rewrite IH by lia. reflexivity.
Qed.

Lemma length_take (n : nat) (s : string) :
  String.length (CLib.take n s) = Nat.min n (String.length s).
Proof.
  revert s. induction n as [|n IH]; intros [|c s]; simpl; try reflexivity.
  rewrite IH. reflexivity.
Qed.

Lemma length_drop (n : nat) (s : string) :
  String.length (CLib.drop n s) = (String.length s - n)%nat.
Proof.
  revert s. induction n as [|n IH]; intros [|c s]; simpl; try reflexivity.
  apply IH.
Qed.

(** A text without NUL is its own C string, and so are its parts. *)
Lemma cstr_take (n : nat) (s : string) :
  CLib.cstr s = s -> CLib.cstr (CLib.take n s) = CLib.take n s.
Proof.
  revert s. induction n as [|n IH]; intros [|c s]; simpl; try reflexivity.
  destruct (Ascii.eqb c CLib.NUL); [discriminate|].
  intros Hs. injection Hs as Hs. rewrite IH by exact Hs. reflexivity.
Qed.

Lemma cstr_drop (n : nat) (s : string) :
  CLib.cstr s = s -> CLib.cstr (CLib.drop n s) = CLib.drop n s.
Proof.
  revert s. induction n as [|n IH]; intros [|c s]; simpl; try (intros; assumption).
  destruct (Ascii.eqb c CLib.NUL); [discriminate|].
  intros Hs. injection Hs as Hs. apply IH, Hs.
Qed.

Lemma isalpha_not_NUL (c : ascii) :
  CLib.isalpha c = true -> Ascii.eqb c CLib.NUL = false.
Proof.
  intros H. destruct (Ascii.eqb_spec c CLib.NUL) as [->|]; [discriminate | reflexivity].
Qed.

Lemma read_identifier_head (room : nat) (p : string) :
  CLib.isalpha (CLib.peek p) = true ->
  CLib.peek (fst (read_identifier_str (S room) p)) = CLib.peek p.
Proof.
  destruct p as [|c p]; simpl; [discriminate|].
  intros Hc. rewrite Hc. simpl.
  destruct (read_identifier_str room p). reflexivity.
Qed.

(** ** [int] arithmetic *)

Lemma wrap32_id (z : Z) : CLib.INT_MIN <= z <= CLib.INT_MAX -> CLib.wrap32 z = z.
Proof.
  unfold CLib.wrap32, CLib.INT_MIN, CLib.INT_MAX. intros Hz.
  rewrite Z.mod_small; lia.
Qed.

Lemma wrap32_range (z : Z) : CLib.INT_MIN <= CLib.wrap32 z <= CLib.INT_MAX.
Proof.
  unfold CLib.wrap32, CLib.INT_MIN, CLib.INT_MAX.
  pose proof (Z.mod_pos_bound (z + 2 ^ 31) (2 ^ 32) ltac:(lia)). lia.
Qed.

Lemma double_to_int_range (x : float) :
  CLib.INT_MIN <= CLib.double_to_int x <= CLib.INT_MAX.
Proof.
  unfold CLib.double_to_int.
  destruct (CLib.trunc_SF (Prim2SF x)) as [z|];
    [|unfold CLib.INT_MIN, CLib.INT_MAX; lia].
  destruct (Z.leb_spec CLib.INT_MIN z), (Z.leb_spec z CLib.INT_MAX); cbn [andb];
    unfold CLib.INT_MIN, CLib.INT_MAX in *; lia.
Qed.

(** ** More runs of primitives *)

Lemma run_classic_read_identifier (s : state) :
  Classic.read_identifier 16 s
  = Some (fst (read_identifier_str 15 (cursor s)),
          set_statement_pos (Some (snd (read_identifier_str 15 (cursor s)))) s).
Proof.
  unfold Classic.read_identifier. rewrite bind_run_get.
  change (Z.to_nat (16 - 1)) with 15%nat.
  destruct (read_identifier_str 15 (cursor s)) as [b rest]. reflexivity.
Qed.

Lemma run_classic_close_paren (s : state) :
  Classic.close_paren s = Some (tt, close_paren_st s).
Proof.
  unfold Classic.close_paren, close_paren_st, bind. rewrite run_peek.
  destruct (Ascii.eqb _ _); reflexivity.
Qed.

Lemma run_classic_ensure_str (v : value) (s : state) :
  vtype v = VAL_STR -> Classic.ensure_str v s = Some (tt, s).
Proof. intros E. unfold Classic.ensure_str. rewrite E. reflexivity. Qed.

Lemma run_classic_ensure_num (v : value) (s : state) :
  vtype v = VAL_NUM -> Classic.ensure_num v s = Some (tt, s).
Proof. intros E. unfold Classic.ensure_num. rewrite E. reflexivity. Qed.

(** The tests of the function name against the table of names. *)
Ltac name_tests :=
  repeat match goal with
         | |- context [name_equals ?a ?b] =>
             let v := eval vm_compute in (name_equals a b) in
             change (name_equals a b) with v
         end;
  cbv beta iota.

(** One step of a run in the goal: the first computation of a bind. *)
Ltac run_first := unfold bind at 1.

(** ** The cursor of a state *)

Lemma cursor_at (p : string) (s : state) : cursor (at_cursor p s) = p.
Proof. reflexivity. Qed.

Lemma at_cursor_at (p q : string) (s : state) :
  at_cursor p (at_cursor q s) = at_cursor p s.
Proof. reflexivity. Qed.

Lemma skip_spaces_at (p : string) (s : state) :
  skip_spaces_st (at_cursor p s) = at_cursor (skip_spaces_str p) s.
Proof. reflexivity. Qed.

Lemma advance_at (k : nat) (p : string) (s : state) :
  advance_st k (at_cursor p s) = at_cursor (CLib.drop k p) s.
Proof. reflexivity. Qed.

Lemma skip_spaces_here (s : state) :
  skip_spaces_st s = at_cursor (skip_spaces_str (cursor s)) s.
Proof. reflexivity. Qed.

Lemma advance_here (k : nat) (s : state) :
  advance_st k s = at_cursor (CLib.drop k (cursor s)) s.
Proof. reflexivity. Qed.

Lemma skip_spaces_str_idem (p : string) :
  skip_spaces_str (skip_spaces_str p) = skip_spaces_str p.
Proof.
  induction p as [|c p IH]; [reflexivity|].
  cbn [skip_spaces_str].
  destruct (Ascii.eqb c " " || Ascii.eqb c tab) eqn:E; [exact IH|].
  cbn [skip_spaces_str]. rewrite E. reflexivity.
Qed.

(* ===================================================================== *)
(** * The evaluator does not touch the control state                      *)
(* ===================================================================== *)

Lemma same_control_refl (s : state) : same_control s s.
Proof. unfold same_control. tauto. Qed.

Lemma same_control_trans (s1 s2 s3 : state) :
  same_control s1 s2 -> same_control s2 s3 -> same_control s1 s3.
Proof.
  unfold same_control. intros H1 H2.
  destruct H1 as (?&?&?&?&?&?&?&?&?), H2 as (?&?&?&?&?&?&?&?&?).
  repeat split; try congruence; auto.
Qed.

Lemma keeps_ret {A} (a : A) : keeps (ret a).
Proof. intros s a' s' E. injection E as _ <-. apply same_control_refl. Qed.

Lemma keeps_bind {A B} (m : M A) (k : A -> M B) :
  keeps m -> (forall a, keeps (k a)) -> keeps (bind m k).
Proof.
  intros Hm Hk s b s' E. unfold bind in E.
  destruct (m s) as [[a s1]|] eqn:Em; [|discriminate].
  eapply same_control_trans; [eapply Hm, Em | eapply Hk, E].
Qed.

Lemma keeps_gets {A} (f : state -> A) : keeps (gets f).
Proof. intros s a s' E. injection E as _ <-. apply same_control_refl. Qed.

Lemma keeps_get : keeps get.
Proof. intros s a s' E. injection E as _ <-. apply same_control_refl. Qed.

Lemma keeps_out_of_fuel {A} : keeps (@out_of_fuel A).
Proof. intros s a s' E. discriminate. Qed.

Lemma keeps_killed {A} : keeps (@killed A).
Proof. intros s a s' E. discriminate. Qed.

Lemma keeps_modify (f : state -> state) :
  (forall s, same_control s (f s)) -> keeps (modify f).
Proof. intros Hf s a s' E. injection E as _ <-. apply Hf. Qed.

Ltac same_control_tac :=
  let s := fresh "s" in
  intros s; destruct s; unfold same_control; cbn;
  repeat split; try reflexivity; try (intros; assumption); try discriminate.

Lemma keeps_set_cursor (p : string) : keeps (set_cursor p).
Proof. apply keeps_modify. same_control_tac. Qed.

Lemma keeps_advance (k : nat) : keeps (advance k).
Proof. apply keeps_modify. same_control_tac. Qed.

Lemma keeps_peek : keeps peek.
Proof. apply keeps_gets. Qed.

Lemma keeps_peek_at (i : nat) : keeps (peek_at i).
Proof. apply keeps_gets. Qed.

Lemma keeps_fputc_stdout (c : ascii) : keeps (fputc_stdout c).
Proof. apply keeps_modify. same_control_tac. Qed.

Lemma keeps_fputs_stdout (t : string) : keeps (fputs_stdout t).
Proof. apply keeps_modify. same_control_tac. Qed.

Lemma keeps_fputs_stderr (t : string) : keeps (fputs_stderr t).
Proof. apply keeps_modify. same_control_tac. Qed.

Lemma keeps_set_halted : keeps (modify (set_halted true)).
Proof. apply keeps_modify. same_control_tac. Qed.

Lemma keeps_set_vars (f : state -> list var) : keeps (modify (fun s => set_vars (f s) s)).
Proof. apply keeps_modify. same_control_tac. Qed.

Lemma keeps_set_vars' (vs : list var) : keeps (modify (set_vars vs)).
Proof. apply keeps_modify. same_control_tac. Qed.

Lemma keeps_write_ref (r : value_ref) (x : value) : keeps (modify (write_ref r x)).
Proof. apply keeps_modify. intros s. destruct r; destruct s; unfold same_control; cbn; repeat split; auto. Qed.

Lemma keeps_set_print_col (f : state -> Z) :
  keeps (modify (fun s => set_print_col (f s) s)).
Proof. apply keeps_modify. same_control_tac. Qed.

Lemma keeps_set_print_col' (c : Z) : keeps (modify (set_print_col c)).
Proof. apply keeps_modify. same_control_tac. Qed.

Lemma keeps_set_rng (g : N) : keeps (modify (set_rng g)).
Proof. apply keeps_modify. same_control_tac. Qed.

Lemma keeps_repeatM (n : nat) (m : M unit) : keeps m -> keeps (repeatM n m).
Proof.
  intros Hm. induction n as [|n IH]; simpl.
  - apply keeps_ret.
  - apply keeps_bind; [exact Hm | intros; exact IH].
Qed.

Create HintDb keeps.

#[local] Hint Resolve keeps_ret keeps_gets keeps_get keeps_out_of_fuel keeps_killed
  keeps_set_cursor
  keeps_advance keeps_peek keeps_peek_at keeps_fputc_stdout keeps_fputs_stdout
  keeps_fputs_stderr keeps_set_halted keeps_set_vars keeps_set_vars' keeps_write_ref
  keeps_set_print_col keeps_set_print_col' keeps_set_rng keeps_repeatM : keeps.

(** Decompose a monadic term along its binds and branches. *)
Ltac keeps_step :=
  match goal with
  | |- keeps (bind _ _) => apply keeps_bind; [|intros]
  | |- keeps (if ?c then _ else _) => destruct c
  | |- keeps (match ?x with _ => _ end) => destruct x
  | |- keeps (let (_, _) := ?x in _) => destruct x
  | |- forall _, _ => intros
  | |- keeps _ => solve [auto with keeps]
  end.

Ltac keeps_tac := repeat keeps_step.

Lemma keeps_classic_skip_spaces : keeps Classic.skip_spaces.
Proof. apply keeps_modify. same_control_tac. Qed.

Lemma keeps_classic_runtime_error (msg : string) : keeps (Classic.runtime_error msg).
Proof. unfold Classic.runtime_error. keeps_tac. Qed.

#[local] Hint Resolve keeps_classic_skip_spaces keeps_classic_runtime_error : keeps.

Lemma keeps_classic_ensure_num (v : value) : keeps (Classic.ensure_num v).
Proof. unfold Classic.ensure_num. keeps_tac. Qed.

Lemma keeps_classic_ensure_str (v : value) : keeps (Classic.ensure_str v).
Proof. unfold Classic.ensure_str. keeps_tac. Qed.

Lemma keeps_classic_read_identifier (n : Z) : keeps (Classic.read_identifier n).
Proof. unfold Classic.read_identifier. keeps_tac. Qed.

#[local] Hint Resolve keeps_classic_ensure_num keeps_classic_ensure_str
  keeps_classic_read_identifier : keeps.

Section ClassicKeeps.
Variable H : host.

Lemma keeps_classic_parse_number_literal : keeps (Classic.parse_number_literal H).
Proof. unfold Classic.parse_number_literal. keeps_tac. Qed.

Lemma keeps_classic_find_or_create_var n1 n2 is_str want sz :
  keeps (Classic.find_or_create_var H n1 n2 is_str want sz).
Proof. unfold Classic.find_or_create_var. keeps_tac. Qed.

#[local] Hint Resolve keeps_classic_parse_number_literal keeps_classic_find_or_create_var : keeps.

Lemma keeps_classic_settle_slot is_str valp :
  keeps (Classic.settle_slot is_str valp).
Proof. unfold Classic.settle_slot. keeps_tac. Qed.

#[local] Hint Resolve keeps_classic_settle_slot : keeps.

Lemma keeps_classic_var_slot n1 n2 is_str is_arr sz idx :
  keeps (Classic.var_slot H n1 n2 is_str is_arr sz idx).
Proof. unfold Classic.var_slot. keeps_tac. Qed.

#[local] Hint Resolve keeps_classic_var_slot : keeps.

Lemma keeps_classic_get_var_reference (top : M value) :
  keeps top -> keeps (Classic.get_var_reference H top).
Proof. intros Ht. unfold Classic.get_var_reference. keeps_tac. Qed.

Lemma keeps_classic_close_paren : keeps Classic.close_paren.
Proof. unfold Classic.close_paren. keeps_tac. Qed.

#[local] Hint Resolve keeps_classic_get_var_reference keeps_classic_close_paren : keeps.

Lemma keeps_classic_numeric_fn f arg : keeps (Classic.numeric_fn f arg).
Proof. unfold Classic.numeric_fn. keeps_tac. Qed.

#[local] Hint Resolve keeps_classic_numeric_fn : keeps.

Lemma keeps_classic_eval_function (top : M value) (name : string) :
  keeps top -> keeps (Classic.eval_function H top name).
Proof. intros Ht. unfold Classic.eval_function. keeps_tac. Qed.


#[local] Hint Resolve keeps_classic_eval_function : keeps.

Lemma keeps_classic_eval_factor_body (top factor : M value) :
  keeps top -> keeps factor -> keeps (Classic.eval_factor_body H top factor).
Proof. intros Ht Hf. unfold Classic.eval_factor_body. keeps_tac. Qed.

Lemma keeps_classic_eval_power_body (factor power : M value) :
  keeps factor -> keeps power -> keeps (Classic.eval_power_body H factor power).
Proof. intros Hf Hp. unfold Classic.eval_power_body. keeps_tac. Qed.

Lemma keeps_classic_eval_term_loop_body power again left :
  keeps power -> (forall v, keeps (again v)) ->
  keeps (Classic.eval_term_loop_body power again left).
Proof. intros Hp Ha. unfold Classic.eval_term_loop_body. keeps_tac. Qed.

Lemma keeps_classic_eval_term_body power loop :
  keeps power -> (forall v, keeps (loop v)) -> keeps (Classic.eval_term_body power loop).
Proof. intros Hp Hl. unfold Classic.eval_term_body. keeps_tac. Qed.

Lemma keeps_classic_eval_expr_loop_body term again left :
  keeps term -> (forall v, keeps (again v)) ->
  keeps (Classic.eval_expr_loop_body term again left).
Proof. intros Hp Ha. unfold Classic.eval_expr_loop_body. keeps_tac. Qed.

Lemma keeps_classic_eval_expr_body term loop :
  keeps term -> (forall v, keeps (loop v)) -> keeps (Classic.eval_expr_body term loop).
Proof. intros Hp Hl. unfold Classic.eval_expr_body. keeps_tac. Qed.

Lemma keeps_classic_eval_comparison_body expr :
  keeps expr -> keeps (Classic.eval_comparison_body expr).
Proof.
  intros He.
  unfold Classic.eval_comparison_body, Classic.compare_mixed, Classic.compare_numeric.
  keeps_tac.
Qed.

Lemma keeps_classic_eval_and_loop_body cmp again left :
  keeps cmp -> (forall v, keeps (again v)) ->
  keeps (Classic.eval_and_loop_body cmp again left).
Proof. intros Hp Ha. unfold Classic.eval_and_loop_body. keeps_tac. Qed.

Lemma keeps_classic_eval_and_expr_body cmp loop :
  keeps cmp -> (forall v, keeps (loop v)) -> keeps (Classic.eval_and_expr_body cmp loop).
Proof. intros Hp Hl. unfold Classic.eval_and_expr_body. keeps_tac. Qed.

Lemma keeps_classic_eval_or_loop_body a again left :
  keeps a -> (forall v, keeps (again v)) ->
  keeps (Classic.eval_or_loop_body a again left).
Proof. intros Hp Ha. unfold Classic.eval_or_loop_body. keeps_tac. Qed.

Lemma keeps_classic_eval_or_expr_body a loop :
  keeps a -> (forall v, keeps (loop v)) -> keeps (Classic.eval_or_expr_body a loop).
Proof. intros Hp Hl. unfold Classic.eval_or_expr_body. keeps_tac. Qed.

(** The evaluator leaves the control part of the state alone. *)
Lemma keeps_classic_evaluator (n : nat) :
  keeps (Classic.eval_factor H n) /\
  keeps (Classic.eval_power H n) /\
  (forall v, keeps (Classic.eval_term_loop H n v)) /\
  keeps (Classic.eval_term H n) /\
  (forall v, keeps (Classic.eval_expr_loop H n v)) /\
  keeps (Classic.eval_expr H n) /\
  keeps (Classic.eval_comparison H n) /\
  (forall v, keeps (Classic.eval_and_loop H n v)) /\
  keeps (Classic.eval_and_expr H n) /\
  (forall v, keeps (Classic.eval_or_loop H n v)) /\
  keeps (Classic.eval_or_expr H n).
Proof.
  induction n as [|n IH].
  - repeat match goal with |- _ /\ _ => split end;
      intros; intros s a s' E; discriminate E.
  - destruct IH as (Hf & Hp & Htl & Ht & Hel & He & Hc & Hal & Ha & Hol & Ho).
    repeat match goal with |- _ /\ _ => split end; intros.
    + apply (keeps_classic_eval_factor_body _ _ Ho Hf).
    + apply (keeps_classic_eval_power_body _ _ Hf Hp).
    + apply (keeps_classic_eval_term_loop_body _ _ _ Hp Htl).
    + apply (keeps_classic_eval_term_body _ _ Hp Htl).
    + apply (keeps_classic_eval_expr_loop_body _ _ _ Ht Hel).
    + apply (keeps_classic_eval_expr_body _ _ Ht Hel).
    + apply (keeps_classic_eval_comparison_body _ He).
    + apply (keeps_classic_eval_and_loop_body _ _ _ Hc Hal).
    + apply (keeps_classic_eval_and_expr_body _ _ Hc Hal).
    + apply (keeps_classic_eval_or_loop_body _ _ _ Ha Hol).
    + apply (keeps_classic_eval_or_expr_body _ _ Ha Hol).
Qed.

End ClassicKeeps.


Lemma keeps_pdp11_skip_spaces : keeps Optimized.skip_spaces.
Proof. apply keeps_modify. same_control_tac. Qed.

Lemma keeps_pdp11_runtime_error (msg : string) : keeps (Optimized.runtime_error msg).
Proof. unfold Optimized.runtime_error. keeps_tac. Qed.

#[local] Hint Resolve keeps_pdp11_skip_spaces keeps_pdp11_runtime_error : keeps.

Lemma keeps_pdp11_ensure_num (v : value) : keeps (Optimized.ensure_num v).
Proof. unfold Optimized.ensure_num. keeps_tac. Qed.

Lemma keeps_pdp11_ensure_str (v : value) : keeps (Optimized.ensure_str v).
Proof. unfold Optimized.ensure_str. keeps_tac. Qed.

Lemma keeps_pdp11_read_identifier (n : Z) : keeps (Optimized.read_identifier n).
Proof. unfold Optimized.read_identifier. keeps_tac. Qed.

#[local] Hint Resolve keeps_pdp11_ensure_num keeps_pdp11_ensure_str
  keeps_pdp11_read_identifier : keeps.

Section Pdp11Keeps.
Variable H : host.

Lemma keeps_pdp11_parse_number_literal : keeps (Optimized.parse_number_literal H).
Proof. unfold Optimized.parse_number_literal. keeps_tac. Qed.

Lemma keeps_pdp11_find_or_create_var n1 n2 is_str want sz :
  keeps (Optimized.find_or_create_var H n1 n2 is_str want sz).
Proof. unfold Optimized.find_or_create_var. keeps_tac. Qed.

#[local] Hint Resolve keeps_pdp11_parse_number_literal keeps_pdp11_find_or_create_var : keeps.

Lemma keeps_pdp11_settle_slot is_str valp :
  keeps (Optimized.settle_slot is_str valp).
Proof. unfold Optimized.settle_slot. keeps_tac. Qed.

#[local] Hint Resolve keeps_pdp11_settle_slot : keeps.

Lemma keeps_pdp11_var_slot n1 n2 is_str is_arr sz idx :
  keeps (Optimized.var_slot H n1 n2 is_str is_arr sz idx).
Proof. unfold Optimized.var_slot. keeps_tac. Qed.

#[local] Hint Resolve keeps_pdp11_var_slot : keeps.

Lemma keeps_pdp11_get_var_reference (top : M value) :
  keeps top -> keeps (Optimized.get_var_reference H top).
Proof. intros Ht. unfold Optimized.get_var_reference. keeps_tac. Qed.

#[local] Hint Resolve keeps_pdp11_get_var_reference : keeps.

Lemma keeps_pdp11_numeric_fn f arg : keeps (Optimized.numeric_fn f arg).
Proof. unfold Optimized.numeric_fn. keeps_tac. Qed.

#[local] Hint Resolve keeps_pdp11_numeric_fn : keeps.

Lemma keeps_pdp11_eval_function (top : M value) (name : string) :
  keeps top -> keeps (Optimized.eval_function H top name).
Proof. intros Ht. unfold Optimized.eval_function. keeps_tac. Qed.


#[local] Hint Resolve keeps_pdp11_eval_function : keeps.

Lemma keeps_pdp11_eval_factor_body (top factor : M value) :
  keeps top -> keeps factor -> keeps (Optimized.eval_factor_body H top factor).
Proof. intros Ht Hf. unfold Optimized.eval_factor_body. keeps_tac. Qed.

Lemma keeps_pdp11_eval_power_body (factor power : M value) :
  keeps factor -> keeps power -> keeps (Optimized.eval_power_body H factor power).
Proof. intros Hf Hp. unfold Optimized.eval_power_body. keeps_tac. Qed.

Lemma keeps_pdp11_eval_term_loop_body power again left :
  keeps power -> (forall v, keeps (again v)) ->
  keeps (Optimized.eval_term_loop_body power again left).
Proof. intros Hp Ha. unfold Optimized.eval_term_loop_body. keeps_tac. Qed.

Lemma keeps_pdp11_eval_term_body power loop :
  keeps power -> (forall v, keeps (loop v)) -> keeps (Optimized.eval_term_body power loop).
Proof. intros Hp Hl. unfold Optimized.eval_term_body. keeps_tac. Qed.

Lemma keeps_pdp11_eval_expr_loop_body term again left :
  keeps term -> (forall v, keeps (again v)) ->
  keeps (Optimized.eval_expr_loop_body term again left).
Proof. intros Hp Ha. unfold Optimized.eval_expr_loop_body. keeps_tac. Qed.

Lemma keeps_pdp11_eval_expr_body term loop :
  keeps term -> (forall v, keeps (loop v)) -> keeps (Optimized.eval_expr_body term loop).
Proof. intros Hp Hl. unfold Optimized.eval_expr_body. keeps_tac. Qed.

(** The evaluator leaves the control part of the state alone. *)
Lemma keeps_pdp11_evaluator (n : nat) :
  keeps (Optimized.eval_factor H n) /\
  keeps (Optimized.eval_power H n) /\
  (forall v, keeps (Optimized.eval_term_loop H n v)) /\
  keeps (Optimized.eval_term H n) /\
  (forall v, keeps (Optimized.eval_expr_loop H n v)) /\
  keeps (Optimized.eval_expr H n).
Proof.
  induction n as [|n IH].
  - repeat match goal with |- _ /\ _ => split end;
      intros; intros s a s' E; discriminate E.
  - destruct IH as (Hf & Hp & Htl & Ht & Hel & He).
    repeat match goal with |- _ /\ _ => split end; intros.
    + apply (keeps_pdp11_eval_factor_body _ _ He Hf).
    + apply (keeps_pdp11_eval_power_body _ _ Hf Hp).
    + apply (keeps_pdp11_eval_term_loop_body _ _ _ Hp Htl).
    + apply (keeps_pdp11_eval_term_body _ _ Hp Htl).
    + apply (keeps_pdp11_eval_expr_loop_body _ _ _ Ht Hel).
    + apply (keeps_pdp11_eval_expr_body _ _ Ht Hel).
Qed.

End Pdp11Keeps.


Lemma keeps_classic_eval_or_expr (H : host) (n : nat) : keeps (Classic.eval_or_expr H n).
Proof. apply (keeps_classic_evaluator H n). Qed.

Lemma keeps_pdp11_eval_expr (H : host) (n : nat) : keeps (Optimized.eval_expr H n).
Proof. apply (keeps_pdp11_evaluator H n). Qed.

#[local] Hint Resolve keeps_classic_eval_or_expr keeps_classic_get_var_reference
  keeps_pdp11_eval_expr keeps_pdp11_get_var_reference : keeps.
(* ===================================================================== *)
(** * The loader leaves a sorted store                                    *)
(* ===================================================================== *)

Lemma length_list_set {A} (l : list A) (i : nat) (x : A) :
  List.length (list_set l i x) = List.length l.
Proof.
  revert i. induction l as [|y l IH]; intros [|i]; simpl; auto.
Qed.

Lemma nth_list_set {A} (l : list A) (i k : nat) (x d : A) :
  (i < List.length l)%nat ->
  nth k (list_set l i x) d = if Nat.eqb k i then x else nth k l d.
Proof.
  revert i k. induction l as [|y l IH]; intros i k Hi; simpl in Hi; [lia|].
  destruct i as [|i], k as [|k]; simpl; try reflexivity.
  apply IH. lia.
Qed.

Lemma length_swap_lines (l : list line) (i j : nat) :
  List.length (swap_lines l i j) = List.length l.
Proof. unfold swap_lines. now rewrite !length_list_set. Qed.

Lemma line_at_swap_lines (l : list line) (i j k : nat) :
  (i < List.length l)%nat -> (j < List.length l)%nat ->
  line_at (swap_lines l i j) k
  = if Nat.eqb k j then line_at l i
    else if Nat.eqb k i then line_at l j else line_at l k.
Proof.
  intros Hi Hj. unfold swap_lines, line_at.
  rewrite nth_list_set by (rewrite length_list_set; exact Hj).
  destruct (Nat.eqb k j); [reflexivity|].
  apply nth_list_set. exact Hi.
Qed.

(** The numbers of a store are pairwise different, by index. *)
Lemma distinct_swap_lines (l : list line) (i j : nat) :
  (i < List.length l)%nat -> (j < List.length l)%nat ->
  distinct_numbers l -> distinct_numbers (swap_lines l i j).
Proof.
  intros Hi Hj Hd a b Ha Hb Hab.
  rewrite length_swap_lines in Ha, Hb.
  rewrite !line_at_swap_lines by assumption.
  destruct (Nat.eqb_spec a j), (Nat.eqb_spec a i), (Nat.eqb_spec b j),
    (Nat.eqb_spec b i); subst; try (exfalso; lia); apply Hd; lia.
Qed.

(** One run of the inner loop for the position [i], from [j] to the end:
    the least number of the positions from [i] on comes to [i], the
    positions before [i] are left alone, and the entries from [i] on are
    those that were there. *)
Lemma sort_inner_spec (n i : nat) :
  forall (k j : nat) (l : list line),
  List.length l = n -> (i < j)%nat -> (j + k = n)%nat ->
  (forall a, (i < a < j)%nat -> number (line_at l i) <= number (line_at l a)) ->
  List.length (sort_inner k i j l) = n /\
  (forall a, (i < a < n)%nat ->
     number (line_at (sort_inner k i j l) i)
     <= number (line_at (sort_inner k i j l) a)) /\
  (forall a, (a < i)%nat -> line_at (sort_inner k i j l) a = line_at l a) /\
  (forall Q : line -> Prop,
     (forall a, (i <= a < n)%nat -> Q (line_at l a)) ->
     forall a, (i <= a < n)%nat -> Q (line_at (sort_inner k i j l) a)) /\
  (distinct_numbers l -> distinct_numbers (sort_inner k i j l)).
Proof.
  induction k as [|k IH]; intros j l Hlen Hij Hjk Hmin; cbn [sort_inner].
  - repeat split; auto. intros a Ha. apply Hmin. lia.
  - set (l1 := if number (line_at l j) <? number (line_at l i)
               then swap_lines l i j else l).
    assert (Hi : (i < List.length l)%nat) by lia.
    assert (Hj : (j < List.length l)%nat) by lia.
    assert (Hlen1 : List.length l1 = n).
    { unfold l1. destruct (_ <? _); [rewrite length_swap_lines|]; exact Hlen. }
    assert (Hmin1 : forall a, (i < a < S j)%nat ->
                      number (line_at l1 i) <= number (line_at l1 a)).
    { intros a Ha. unfold l1.
      destruct (Z.ltb_spec (number (line_at l j)) (number (line_at l i))) as [Hlt|Hge].
      - rewrite !line_at_swap_lines by assumption.
        rewrite Nat.eqb_refl.
        destruct (Nat.eqb_spec i j); [lia|].
        destruct (Nat.eqb_spec a j); [lia|].
        destruct (Nat.eqb_spec a i); [lia|].
        specialize (Hmin a). lia.
      - destruct (Nat.eq_dec a j) as [->|Hne]; [lia|]. apply Hmin. lia. }
    destruct (IH (S j) l1 Hlen1 ltac:(lia) ltac:(lia) Hmin1)
      as (Hl' & Hm' & Hp' & Hq' & Hd').
    split; [exact Hl'|]. split; [exact Hm'|]. split; [|split].
    + intros a Ha. rewrite Hp' by exact Ha. unfold l1.
      destruct (_ <? _); [|reflexivity].
      rewrite line_at_swap_lines by assumption.
      destruct (Nat.eqb_spec a j); [lia|].
      destruct (Nat.eqb_spec a i); [lia|]. reflexivity.
    + intros Q HQ. apply Hq'. intros a Ha. unfold l1.
      destruct (_ <? _); [|apply HQ; exact Ha].
      rewrite line_at_swap_lines by assumption.
      destruct (Nat.eqb_spec a j); [apply HQ; lia|].
      destruct (Nat.eqb_spec a i); apply HQ; lia.
    + intros Hd. apply Hd'. unfold l1.
      destruct (_ <? _); [apply distinct_swap_lines; assumption | exact Hd].
Qed.

(** The outer loop from the position [i] on: when every entry before [i] is
    at most every later entry, the store ends in order. *)
Lemma sort_outer_spec (n : nat) :
  forall (k i : nat) (l : list line),
  List.length l = n -> (i + k = n)%nat ->
  (forall a b, (a < b < n)%nat -> (a < i)%nat ->
     number (line_at l a) <= number (line_at l b)) ->
  List.length (sort_outer k i l) = n /\
  (forall a b, (a < b < n)%nat ->
     number (line_at (sort_outer k i l) a)
     <= number (line_at (sort_outer k i l) b)) /\
  (forall Q : line -> Prop,
     (forall a, (a < n)%nat -> Q (line_at l a)) ->
     forall a, (a < n)%nat -> Q (line_at (sort_outer k i l) a)) /\
  (distinct_numbers l -> distinct_numbers (sort_outer k i l)).
Proof.
  induction k as [|k IH]; intros i l Hlen Hik Hpre; cbn [sort_outer].
  - repeat split; auto. intros a b Hab. apply Hpre; lia.
  - rewrite Hlen.
    destruct (sort_inner_spec n i (n - S i) (S i) l Hlen
                ltac:(lia) ltac:(lia) ltac:(intros a Ha; lia))
      as (Hl1 & Hm1 & Hp1 & Hq1 & Hd1).
    set (l1 := sort_inner (n - S i) i (S i) l) in *.
    assert (Hpre1 : forall a b, (a < b < n)%nat -> (a < S i)%nat ->
                      number (line_at l1 a) <= number (line_at l1 b)).
    { intros a b Hab Ha.
      destruct (Nat.eq_dec a i) as [->|Hne]; [apply Hm1; lia|].
      rewrite (Hp1 a) by lia.
      destruct (Nat.lt_ge_cases b i) as [Hb|Hb].
      - rewrite (Hp1 b) by lia. apply Hpre; lia.
      - apply (Hq1 (fun x => number (line_at l a) <= number x)); [|lia].
        intros c Hc. apply Hpre; lia. }
    destruct (IH (S i) l1 Hl1 ltac:(lia) Hpre1) as (Hl' & Hs' & Hq' & Hd').
    split; [exact Hl'|]. split; [exact Hs'|]. split.
    + intros Q HQ. apply Hq'. intros a Ha.
      destruct (Nat.lt_ge_cases a i) as [Hlt|Hge].
      * rewrite (Hp1 a) by exact Hlt. apply HQ. exact Ha.
      * apply (Hq1 Q); [|lia]. intros c Hc. apply HQ. lia.
    + intros Hd. apply Hd', Hd1, Hd.
Qed.

Lemma increasing_of_index (l : list line) :
  (forall a b, (a < b < List.length l)%nat ->
     number (line_at l a) < number (line_at l b)) ->
  increasing l.
Proof.
  unfold increasing, line_at.
  induction l as [|x l IH]; intros Hlt; constructor.
  - apply IH. intros a b Hab. apply (Hlt (S a) (S b)). simpl. lia.
  - apply Forall_forall. intros y Hy.
    destruct (In_nth l y (mk_line 0 "") Hy) as (k & Hk & <-).
    apply (Hlt 0%nat (S k)). simpl. lia.
Qed.

Lemma distinct_of_NoDup (l : list line) :
  NoDup (map number l) -> distinct_numbers l.
Proof.
  intros Hnd a b Ha Hb Hab E. apply Hab.
  apply (proj1 (NoDup_nth (map number l) (number (mk_line 0 ""))) Hnd);
    rewrite ?length_map; try assumption.
  rewrite !map_nth. exact E.
Qed.

(** [sort_program] on entries with pairwise different numbers. *)
Lemma sort_program_increasing (l : list line) :
  NoDup (map number l) -> numbers_in_range l ->
  increasing (sort_program l) /\ numbers_in_range (sort_program l).
Proof.
  intros Hnd Hr. unfold sort_program.
  destruct (sort_outer_spec (List.length l) (List.length l) 0 l eq_refl eq_refl
              ltac:(intros a b _ Ha; lia)) as (Hlen & Hsorted & Hq & Hd).
  split.
  - apply increasing_of_index. rewrite Hlen. intros a b Hab.
    pose proof (Hsorted a b Hab) as Hle.
    pose proof (Hd (distinct_of_NoDup l Hnd) a b) as Hne.
    rewrite Hlen in Hne. specialize (Hne ltac:(lia) ltac:(lia) ltac:(lia)). lia.
  - unfold numbers_in_range in *. apply Forall_forall. intros y Hy.
    destruct (In_nth _ y (mk_line 0 "") Hy) as (k & Hk & <-).
    rewrite Hlen in Hk.
    apply (Hq (fun x => 0 <= number x <= 65535)); [|exact Hk].
    intros a Ha. rewrite Forall_forall in Hr. apply Hr, nth_In. exact Ha.
Qed.

Lemma replace_line_numbers (ls ls' : list line) (n : Z) (t : string) :
  replace_line ls n t = Some ls' -> map number ls' = map number ls.
Proof.
  revert ls'. induction ls as [|l ls IH]; intros ls'; simpl; [discriminate|].
  destruct (number l =? n).
  - intros E. injection E as <-. reflexivity.
  - destruct (replace_line ls n t) as [r|]; [|discriminate].
    intros E. injection E as <-. simpl. f_equal. apply IH. reflexivity.
Qed.

Lemma replace_line_none (ls : list line) (n : Z) (t : string) :
  replace_line ls n t = None -> Forall (fun l => number l <> n) ls.
Proof.
  induction ls as [|l ls IH]; simpl; intros E; constructor.
  - destruct (Z.eqb_spec (number l) n); [discriminate | assumption].
  - destruct (number l =? n); [discriminate|].
    destruct (replace_line ls n t); [discriminate | apply IH; reflexivity].
Qed.

Lemma keeps_pdp11_dupstr_local (t : string) : keeps (Optimized.dupstr_local t).
Proof. unfold Optimized.dupstr_local. keeps_tac. Qed.

(** What the loader maintains while it reads: pairwise different numbers
    in the admitted range, and the lookup cache as initialised. *)
Lemma add_or_replace_line_numbers (n : Z) (t : string) (s s' : state) (u : unit) :
  0 <= n <= 65535 ->
  NoDup (map number (program_lines s)) ->
  numbers_in_range (program_lines s) ->
  Optimized.add_or_replace_line n t s = Some (u, s') ->
  NoDup (map number (program_lines s')) /\
  numbers_in_range (program_lines s') /\
  last_lookup_num s' = last_lookup_num s /\
  last_lookup_idx s' = last_lookup_idx s.
Proof.
  intros Hn Hnd Hr. unfold Optimized.add_or_replace_line.
  rewrite bind_run_get.
  destruct (replace_line (program_lines s) n "") as [ls0|] eqn:Hrep.
  - intros Hrun. apply bind_inv in Hrun. destruct Hrun as (d & s1 & Ed & Hrun).
    apply keeps_pdp11_dupstr_local in Ed.
    destruct Ed as (Hp & _ & _ & _ & Hcn & Hci & _).
    rewrite bind_run_get in Hrun.
    destruct (replace_line (program_lines s1) n _) as [ls|] eqn:Hrep1.
    + injection Hrun as _ <-. destruct s1; cbn in *.
      apply replace_line_numbers in Hrep1.
      split; [rewrite Hrep1, Hp; exact Hnd|].
      split; [|split; assumption].
      unfold numbers_in_range in *.
      rewrite <- Hp in Hr.
      apply (proj1 (Forall_map number (fun z => 0 <= z <= 65535) ls)).
      rewrite Hrep1.
      apply (proj2 (Forall_map number (fun z => 0 <= z <= 65535) _)). exact Hr.
    + injection Hrun as _ <-. rewrite Hp. repeat split; assumption.
  - destruct (Optimized.MAX_LINES <=? line_count s).
    + intros Hrun. apply keeps_pdp11_runtime_error in Hrun.
      destruct Hrun as (Hp & _ & _ & _ & Hcn & Hci & _).
      rewrite Hp. repeat split; assumption.
    + intros Hrun. apply bind_inv in Hrun. destruct Hrun as (d & s1 & Ed & Hrun).
      apply keeps_pdp11_dupstr_local in Ed.
      destruct Ed as (Hp & _ & _ & _ & Hcn & Hci & _).
      rewrite bind_run_get in Hrun.
      injection Hrun as _ <-. destruct s1; cbn in *. subst.
      apply replace_line_none in Hrep.
      split; [|split; [|split; reflexivity]].
      * rewrite map_app. cbn. apply NoDup_app; [exact Hnd | repeat constructor; auto |].
        intros x Hx [<-|[]]. apply in_map_iff in Hx. destruct Hx as (l & El & Hl).
        rewrite Forall_forall in Hrep. exact (Hrep l Hl El).
      * apply Forall_app. split; [exact Hr|]. repeat constructor; cbn; lia.
Qed.

Lemma load_lines_numbers (fuel : nat) :
  forall (file : string) (s s' : state),
  NoDup (map number (program_lines s)) ->
  numbers_in_range (program_lines s) ->
  Optimized.load_lines fuel file s = Loaded s' ->
  NoDup (map number (program_lines s')) /\
  numbers_in_range (program_lines s') /\
  last_lookup_num s' = last_lookup_num s /\
  last_lookup_idx s' = last_lookup_idx s.
Proof.
  induction fuel as [|fuel IH]; intros file s s' Hnd Hr; cbn [Optimized.load_lines].
  - intros E. injection E as <-. auto.
  - destruct (CLib.fgets Optimized.MAX_LINE_LEN file) as [[linebuf rest]|];
      [|intros E; injection E as <-; auto].
    destruct (_ && _); [discriminate|].
    destruct (Ascii.eqb _ CLib.NUL); [apply IH; assumption|].
    destruct (negb _); [discriminate|].
    destruct (_ || _) eqn:Hrange; [discriminate|].
    apply orb_false_iff in Hrange. destruct Hrange as (Hlo & Hhi).
    apply Z.ltb_ge in Hlo, Hhi.
    destruct (Optimized.add_or_replace_line _ _ s) as [[u s1]|] eqn:Hadd;
      [|intros E; injection E as <-; auto].
    apply add_or_replace_line_numbers in Hadd; [|lia|assumption|assumption].
    destruct Hadd as (Hnd1 & Hr1 & Hcn & Hci).
    intros E. apply IH in E; [|assumption|assumption].
    destruct E as (Hnd' & Hr' & Hcn' & Hci').
    repeat split; try assumption; congruence.
Qed.

(** Every successful load of [basic.c] from the initial state leaves a
    store the lookup can rely on. *)
Lemma load_program_store_ok (path : string) (file : option string)
    (input : string) (s : state) :
  Optimized.load_program path file (initial_state input) = Loaded s ->
  increasing (program_lines s) /\ numbers_in_range (program_lines s) /\ cache_ok s.
Proof.
  unfold Optimized.load_program. destruct file as [content|]; [|discriminate].
  destruct (Optimized.load_lines _ content _) as [c s1|s1] eqn:Hload; [discriminate|].
  intros E. injection E as <-.
  apply load_lines_numbers in Hload; [|constructor|constructor].
  destruct Hload as (Hnd & Hr & Hcn & Hci).
  destruct (sort_program_increasing _ Hnd Hr) as (Hinc & Hr').
  destruct s1; cbn in *. repeat split; try assumption.
  left. split; assumption.
Qed.

(* ===================================================================== *)
(** * Line lookup: the binary search with its cache refines the scan      *)
(* ===================================================================== *)

Lemma increasing_nth (ls : list line) :
  increasing ls ->
  forall i j, (i < j < List.length ls)%nat ->
  number (line_at ls i) < number (line_at ls j).
Proof.
  unfold line_at.
  induction 1 as [|a ls Hs IH Ha]; intros i j Hij; simpl in *; [lia|].
  destruct j as [|j]; [lia|].
  destruct i as [|i].
  - rewrite Forall_forall in Ha. apply Ha. apply nth_In. lia.
  - apply IH. lia.
Qed.

Lemma increasing_nth_le (ls : list line) :
  increasing ls ->
  forall i j, (i <= j < List.length ls)%nat ->
  number (line_at ls i) <= number (line_at ls j).
Proof.
  intros Hs i j Hij.
  destruct (Nat.eq_dec i j) as [->|Hne]; [lia|].
  pose proof (increasing_nth ls Hs i j). lia.
Qed.

Lemma find_line_from_absent (ls : list line) (n i : Z) :
  Forall (fun l => number l <> n) ls -> Classic.find_line_from ls n i = -1.
Proof.
  intros Hall. revert i.
  induction Hall as [|l ls Hl _ IH]; intros i; simpl.
  - reflexivity.
  - destruct (Z.eqb_spec (number l) n) as [E|_]; [contradiction | apply IH].
Qed.

(** The linear scan returns the first index that carries the number. *)
Lemma find_line_from_first (ls : list line) (n : Z) :
  forall (k : nat) (i : Z),
  (k < List.length ls)%nat ->
  number (line_at ls k) = n ->
  (forall k', (k' < k)%nat -> number (line_at ls k') <> n) ->
  Classic.find_line_from ls n i = i + Z.of_nat k.
Proof.
  unfold line_at.
  induction ls as [|l ls IH]; intros k i Hk Hn Hfirst; simpl in *; [lia|].
  destruct k as [|k].
  - rewrite Hn, Z.eqb_refl. lia.
  - destruct (Z.eqb_spec (number l) n) as [E|_].
    + exfalso. apply (Hfirst 0%nat); [lia | exact E].
    + rewrite (IH k (i + 1)); [lia | lia | exact Hn |].
      intros k' Hk'. apply (Hfirst (S k')). lia.
Qed.

Lemma find_line_from_unique (ls : list line) (n : Z) (k : nat) :
  increasing ls ->
  (k < List.length ls)%nat ->
  number (line_at ls k) = n ->
  Classic.find_line_from ls n 0 = Z.of_nat k.
Proof.
  intros Hs Hk Hn.
  rewrite (find_line_from_first ls n k 0 Hk Hn); [lia|].
  intros k' Hk'. pose proof (increasing_nth ls Hs k' k). lia.
Qed.

(** What the binary search returns on a window of a sorted store. *)
Lemma bsearch_spec (ls : list line) (n : Z) :
  increasing ls ->
  forall (fuel : nat) (low high : Z),
  0 <= low -> high < Z.of_nat (List.length ls) ->
  high - low + 1 <= Z.of_nat fuel ->
  let r := Optimized.bsearch fuel ls n low high in
  (r = -1 /\ forall i, low <= i <= high -> number (line_at ls (Z.to_nat i)) <> n) \/
  (low <= r <= high /\ number (line_at ls (Z.to_nat r)) = n).
Proof.
  intros Hs. induction fuel as [|fuel IH]; intros low high Hlow Hhigh Hfuel; simpl.
  - left. split; [reflexivity | intros; lia].
  - destruct (Z.leb_spec low high) as [Hle|Hgt]; [|left; split; [reflexivity | intros; lia]].
    assert (Hmid : Z.quot (low + high) 2 = (low + high) / 2)
      by (apply Z.quot_div_nonneg; lia).
    rewrite Hmid. set (mid := (low + high) / 2).
    assert (Hm : low <= mid <= high)
      by (unfold mid; split; [apply Z.div_le_lower_bound | apply Z.div_le_upper_bound]; lia).
    destruct (Z.eqb_spec (number (line_at ls (Z.to_nat mid))) n) as [E|NE].
    + right. split; [lia | exact E].
    + destruct (Z.ltb_spec (number (line_at ls (Z.to_nat mid))) n) as [Hlt|Hge].
      * destruct (IH (mid + 1) high) as [[Hr Hnone]|[Hr Hn]]; try lia.
        left. split; [exact Hr|]. intros i Hi.
        destruct (Z_le_gt_dec i mid) as [Him|Him]; [|apply Hnone; lia].
        pose proof (increasing_nth_le ls Hs (Z.to_nat i) (Z.to_nat mid)). lia.
      * destruct (IH low (mid - 1)) as [[Hr Hnone]|[Hr Hn]]; try lia.
        left. split; [exact Hr|]. intros i Hi.
        destruct (Z_lt_ge_dec i mid) as [Him|Him]; [apply Hnone; lia|].
        pose proof (increasing_nth_le ls Hs (Z.to_nat mid) (Z.to_nat i)). lia.
Qed.

Lemma absent_from_window (ls : list line) (n : Z) :
  (forall i, 0 <= i <= Z.of_nat (List.length ls) - 1 ->
             number (line_at ls (Z.to_nat i)) <> n) ->
  Forall (fun l => number l <> n) ls.
Proof.
  intros Hnone. apply Forall_forall. intros l Hin.
  destruct (In_nth ls l (mk_line 0 "") Hin) as [k [Hk Hl]].
  specialize (Hnone (Z.of_nat k)). rewrite Nat2Z.id in Hnone.
  unfold line_at in Hnone. rewrite Hl in Hnone. apply Hnone. lia.
Qed.

(** On a sorted store the binary search and the linear scan agree. *)
Lemma bsearch_is_linear_scan (ls : list line) (n : Z) :
  increasing ls ->
  Optimized.bsearch (S (List.length ls)) ls n 0 (Z.of_nat (List.length ls) - 1)
  = Classic.find_line_from ls n 0.
Proof.
  intros Hs.
  pose proof (bsearch_spec ls n Hs (S (List.length ls)) 0 (Z.of_nat (List.length ls) - 1))
    as Hb.
  cbv zeta in Hb.
  set (r := Optimized.bsearch _ _ _ _ _) in *.
  destruct Hb as [[Hr Hnone]|[Hr Hn]]; try lia.
  - rewrite Hr. symmetry. apply find_line_from_absent, absent_from_window, Hnone.
  - rewrite (find_line_from_unique ls n (Z.to_nat r) Hs); [lia | lia | exact Hn].
Qed.

Lemma find_line_index_refines (s : state) (n : Z) :
  increasing (program_lines s) -> numbers_in_range (program_lines s) -> cache_ok s ->
  exists s',
    Optimized.find_line_index n s
      = Some (Classic.find_line_from (program_lines s) n 0, s') /\
    program_lines s' = program_lines s /\ cache_ok s' /\
    (s' = s \/ s' = set_last_lookup n (Classic.find_line_from (program_lines s) n 0) s).
Proof.
  intros Hs Hnn Hc.
  unfold Optimized.find_line_index, bind, get.
  destruct (Z.eqb_spec n (last_lookup_num s)) as [E|NE].
  - exists s. cbn. repeat split; auto.
    destruct Hc as [[Hnum Hidx]|[Hidx Hnum]].
    + rewrite Hidx. rewrite find_line_from_absent; [reflexivity|].
      eapply Forall_impl; [|exact Hnn]. cbn. intros l Hl. lia.
    + rewrite (find_line_from_unique _ n (Z.to_nat (last_lookup_idx s)) Hs).
      * rewrite Z2Nat.id by lia. reflexivity.
      * unfold line_count in Hidx. lia.
      * congruence.
  - unfold line_count. rewrite (bsearch_is_linear_scan _ n Hs).
    set (r := Classic.find_line_from (program_lines s) n 0).
    destruct (Z.leb_spec 0 r) as [Hr|Hr]; cbn.
    + eexists. split; [reflexivity|]. cbn. repeat split; auto.
      right. cbn.
      pose proof (bsearch_spec _ n Hs (S (List.length (program_lines s))) 0
                    (Z.of_nat (List.length (program_lines s)) - 1)) as Hb.
      cbv zeta in Hb. rewrite (bsearch_is_linear_scan _ n Hs) in Hb. fold r in Hb.
      destruct Hb as [[Hb _]|[Hb1 Hb2]]; try lia.
      unfold line_count. cbn. split; [lia | exact Hb2].
    + exists s. repeat split; auto.
Qed.

(** On a sorted store the scan returns the one index of the number. *)
Lemma linear_lookup_is_index (ls : list line) (n : Z) :
  increasing ls -> index_of_number ls n (linear_lookup ls n).
Proof.
  intros Hs. unfold linear_lookup, index_of_number.
  rewrite <- (bsearch_is_linear_scan ls n Hs).
  pose proof (bsearch_spec ls n Hs (S (List.length ls)) 0 (Z.of_nat (List.length ls) - 1))
    as Hb.
  cbv zeta in Hb.
  set (r := Optimized.bsearch _ _ _ _ _) in *.
  destruct Hb as [[Hr Hnone]|[Hr Hn]]; try lia.
  - left. split; [exact Hr | apply absent_from_window, Hnone].
  - right. split; [lia|]. split; [exact Hn|].
    intros k Hk Hkn.
    destruct (Z.lt_trichotomy (Z.of_nat k) r) as [Hlt|[Heq|Hgt]]; [|exact Heq|].
    + pose proof (increasing_nth ls Hs k (Z.to_nat r)). lia.
    + pose proof (increasing_nth ls Hs (Z.to_nat r) k). lia.
Qed.

Lemma lookups_refine_scan (qs : list Z) :
  forall s : state,
  increasing (program_lines s) -> numbers_in_range (program_lines s) -> cache_ok s ->
  exists s',
    lookups qs s = Some (map (linear_lookup (program_lines s)) qs, s') /\
    program_lines s' = program_lines s /\ cache_ok s'.
Proof.
  induction qs as [|q qs IH]; intros s Hs Hnn Hc; simpl.
  - exists s. repeat split; assumption.
  - destruct (find_line_index_refines s q Hs Hnn Hc) as [s1 [Hq [Hpl [Hc1 _]]]].
    destruct (IH s1) as [s2 [Hqs [Hpl2 Hc2]]]; try (rewrite Hpl; assumption); trivial.
    exists s2. unfold bind. rewrite Hq, Hqs, Hpl. unfold ret, linear_lookup.
    repeat split; try assumption. congruence.
Qed.

(** C9.  On a store with strictly increasing line numbers in the range the
    loader admits, and from a cache that is in its initial state or was
    filled by earlier lookups, every sequence of lookups through the binary
    search and its one-slot cache returns what the linear scan of the classic
    interpreter returns; each answer is the one index of the line with the
    requested number, or -1 when there is none; the store is not changed.
    Every successful load of basic.c leaves such a store and cache. *)
Theorem lookup_refines_linear_scan :
  (forall (s : state) (qs : list Z),
     increasing (program_lines s) ->
     numbers_in_range (program_lines s) ->
     cache_ok s ->
     exists s',
       lookups qs s = Some (map (linear_lookup (program_lines s)) qs, s') /\
       program_lines s' = program_lines s /\
       cache_ok s' /\
       Forall (fun q => index_of_number (program_lines s) q
                          (linear_lookup (program_lines s) q)) qs) /\
  (forall (path : string) (file : option string) (input : string) (s : state),
     Optimized.load_program path file (initial_state input) = Loaded s ->
     increasing (program_lines s) /\ numbers_in_range (program_lines s) /\
     cache_ok s).
Proof.
  split; [|exact load_program_store_ok].
  intros s qs Hs Hnn Hc.
  destruct (lookups_refine_scan qs s Hs Hnn Hc) as [s' [Hrun [Hpl Hc']]].
  exists s'. repeat split; try assumption.
  apply Forall_forall. intros q _. apply linear_lookup_is_index, Hs.
Qed.

(** Five lookups on the store of the lines 10, 20 and 30: a hit, the same
    number again through the cache, a miss, and two more hits. *)
Lemma lookup_refines_linear_scan_witness :
  exists s',
    lookups [20; 20; 99; 10; 30] three_line_store
    = Some (map (linear_lookup (program_lines three_line_store))
                [20; 20; 99; 10; 30], s') /\
    program_lines s' = program_lines three_line_store /\
    cache_ok s' /\
    Forall (fun q => index_of_number (program_lines three_line_store) q
                       (linear_lookup (program_lines three_line_store) q))
           [20; 20; 99; 10; 30].
Proof.
  apply (proj1 lookup_refines_linear_scan three_line_store [20; 20; 99; 10; 30]).
  - vm_compute. repeat constructor.
  - vm_compute. repeat constructor; discriminate.
  - left. split; vm_compute; reflexivity.
Defined.

(* ===================================================================== *)
(** * GOSUB to a line that does not exist                                 *)
(* ===================================================================== *)

Lemma classic_gosub_missing (s : state) :
  gosub_top s < Classic.MAX_GOSUB ->
  let p := skip_spaces_str (cursor s) in
  Forall (fun l => number l <> CLib.atoi p) (program_lines s) ->
  exists s',
    Classic.statement_gosub s = Some (tt, s') /\
    gosub_stack s'
    = mk_gosub (CLib.drop (span_digits p) p) (current_line s) :: gosub_stack s /\
    halted s' = true /\
    current_line s' = -1 /\
    stderr s' = stderr s ++ "Error: Target line not found" ++ String newline "".
Proof.
  intros Htop p Habs.
  unfold Classic.statement_gosub, bind, get.
  destruct (Z.leb_spec Classic.MAX_GOSUB (gosub_top s)) as [Hge|_]; [lia|].
  cbn. fold p.
  rewrite (find_line_from_absent _ _ _ Habs). cbn.
  eexists. split; [reflexivity|]. cbn. repeat split.
Qed.

Lemma pdp11_gosub_missing (s : state) :
  gosub_top s < Optimized.MAX_GOSUB ->
  increasing (program_lines s) -> numbers_in_range (program_lines s) -> cache_ok s ->
  let p := skip_spaces_str (cursor s) in
  Forall (fun l => number l <> CLib.atoi p) (program_lines s) ->
  exists s',
    Optimized.statement_gosub s = Some (tt, s') /\
    gosub_stack s'
    = mk_gosub (CLib.drop (span_digits p) p) (current_line s) :: gosub_stack s /\
    halted s' = true /\
    current_line s' = -1 /\
    stderr s' = stderr s ++ "Error: Target line not found" ++ String newline "".
Proof.
  intros Htop Hs Hnn Hc p Habs.
  unfold Optimized.statement_gosub, bind, get.
  destruct (Z.leb_spec Optimized.MAX_GOSUB (gosub_top s)) as [Hge|_]; [lia|].
  unfold Optimized.skip_spaces, Optimized.skip_digits, modify.
  set (s1 := set_gosub_stack _ _).
  destruct (find_line_index_refines s1 (CLib.atoi p)) as [s2 [Hfind [Hpl [_ Hs2]]]].
  { exact Hs. } { exact Hnn. }
  { destruct s; exact Hc. }
  change (program_lines s1) with (program_lines s) in Hfind, Hs2.
  rewrite (find_line_from_absent _ _ _ Habs) in Hfind, Hs2.
  replace (CLib.atoi (cursor (set_statement_pos (Some (skip_spaces_str (cursor s))) s)))
    with (CLib.atoi p) by (destruct s; reflexivity).
  rewrite Hfind.
  assert (Hs2' : s2 = s1 \/ (s2 = set_last_lookup (CLib.atoi p) (-1) s1)) by exact Hs2.
  clear Hs2 Hfind.
  unfold Optimized.runtime_error, bind, get, fputs_stderr, modify.
  cbn -[s1].
  destruct Hs2' as [-> | ->]; eexists; (split; [reflexivity|]);
    subst s1 p; destruct s; cbn; repeat split.
Qed.

(** C10.  GOSUB with room on its stack and a target number that no line
    carries: the return frame (current line index, cursor after the number)
    is on the GOSUB stack when "Target line not found" is reported, so the
    stack is one entry deeper after the failed statement. *)
Theorem gosub_pushes_before_lookup_fails (b : build) (s : state) :
  gosub_top s < MAX_GOSUB b ->
  store_ok b s ->
  let p := skip_spaces_str (cursor s) in
  Forall (fun l => number l <> CLib.atoi p) (program_lines s) ->
  exists s',
    statement_gosub b s = Some (tt, s') /\
    gosub_stack s'
    = mk_gosub (CLib.drop (span_digits p) p) (current_line s) :: gosub_stack s /\
    gosub_top s' = gosub_top s + 1 /\
    halted s' = true /\
    stderr s' = stderr s ++ "Error: Target line not found" ++ String newline "".
Proof.
  intros Htop Hok p Habs.
  assert (Hcore : exists s',
    statement_gosub b s = Some (tt, s') /\
    gosub_stack s'
    = mk_gosub (CLib.drop (span_digits p) p) (current_line s) :: gosub_stack s /\
    halted s' = true /\
    current_line s' = -1 /\
    stderr s' = stderr s ++ "Error: Target line not found" ++ String newline "").
  { destruct b; cbn in Htop, Hok |- *.
    - apply classic_gosub_missing; assumption.
    - destruct Hok as [Hs [Hnn Hc]]. apply pdp11_gosub_missing; assumption. }
  destruct Hcore as [s' [Hrun [Hst [Hh [_ He]]]]].
  exists s'. repeat split; try assumption.
  unfold gosub_top. rewrite Hst. cbn [List.length]. lia.
Qed.

(** [10 GOSUB 99] in the PDP-11 build. *)
Lemma gosub_pushes_before_lookup_fails_witness :
  exists s',
    statement_gosub Pdp11Build (gosub_at_operand Pdp11Build) = Some (tt, s') /\
    gosub_stack s'
    = mk_gosub (CLib.drop (span_digits (skip_spaces_str (cursor (gosub_at_operand Pdp11Build))))
                  (skip_spaces_str (cursor (gosub_at_operand Pdp11Build))))
               (current_line (gosub_at_operand Pdp11Build))
        :: gosub_stack (gosub_at_operand Pdp11Build) /\
    gosub_top s' = gosub_top (gosub_at_operand Pdp11Build) + 1 /\
    halted s' = true /\
    stderr s' = stderr (gosub_at_operand Pdp11Build)
                  ++ "Error: Target line not found" ++ String newline "".
Proof.
  apply (gosub_pushes_before_lookup_fails Pdp11Build (gosub_at_operand Pdp11Build)).
  - vm_compute. reflexivity.
  - split; [|split].
    + vm_compute. repeat constructor.
    + vm_compute. repeat constructor; discriminate.
    + left. split; vm_compute; reflexivity.
  - vm_compute. repeat constructor. discriminate.
Defined.

(* ===================================================================== *)
(** * NEXT                                                                *)
(* ===================================================================== *)

Lemma find_for_frame_skips (no_name : bool) (n1 n2 : ascii)
    (above : list for_frame) (fr : for_frame) (below : list for_frame) :
  forallb (fun f => negb (frame_matches (negb no_name) n1 n2 f)) above = true ->
  frame_matches (negb no_name) n1 n2 fr = true ->
  find_for_frame no_name n1 n2 (above ++ fr :: below) = fr :: below.
Proof.
  unfold frame_matches. rewrite negb_involutive.
  induction above as [|f above IH]; simpl; intros Hab Hfr.
  - rewrite Hfr. reflexivity.
  - apply andb_true_iff in Hab. destruct Hab as [Hf Hab].
    apply negb_true_iff in Hf. rewrite Hf. apply IH; assumption.
Qed.

Lemma find_for_frame_none (no_name : bool) (n1 n2 : ascii) (st : list for_frame) :
  forallb (fun f => negb (frame_matches (negb no_name) n1 n2 f)) st = true ->
  find_for_frame no_name n1 n2 st = [].
Proof.
  unfold frame_matches. rewrite negb_involutive.
  induction st as [|f st IH]; simpl; intros Hab; [reflexivity|].
  apply andb_true_iff in Hab. destruct Hab as [Hf Hab].
  apply negb_true_iff in Hf. rewrite Hf. apply IH; assumption.
Qed.

(** The test [namebuf[0] == 0] of [statement_next] says whether a name was
    read. *)
Lemma next_no_name_flag (b : build) (p : string) :
  Ascii.eqb
    (CLib.peek (fst (if CLib.isalpha (CLib.peek p)
                     then read_identifier_str (Z.to_nat (namebuf_size b - 1)) p
                     else ("", p))))
    CLib.NUL
  = negb (CLib.isalpha (CLib.peek p)).
Proof.
  destruct (CLib.isalpha (CLib.peek p)) eqn:Ha; simpl; [|reflexivity].
  assert (exists r, Z.to_nat (namebuf_size b - 1) = S r) as [r ->]
    by (destruct b; simpl; eexists; reflexivity).
  rewrite read_identifier_head by exact Ha.
  apply isalpha_not_NUL, Ha.
Qed.



Lemma classic_next_selection (s : state) :
  let '(named, n1, n2, rest) := next_operand ClassicBuild s in
  let s0 := set_statement_pos (Some rest) s in
  (forall above fr below vp,
     for_stack s = (above ++ fr :: below)%list ->
     forallb (fun f => negb (frame_matches named n1 n2 f)) above = true ->
     frame_matches named n1 n2 fr = true ->
     f_var fr = Some vp ->
     let s1 := set_for_stack (fr :: below) s0 in
     let s2 := write_ref vp (with_num (read_ref vp s1)
                               (num (read_ref vp s1) + f_step fr)%float) s1 in
     Classic.statement_next s
     = Some (tt, if loop_continues fr (num (read_ref vp s2))
                 then set_statement_pos (Some (f_resume_pos fr))
                        (set_current_line (f_line_index fr) s2)
                 else set_for_stack below s2)) /\
  (forallb (fun f => negb (frame_matches named n1 n2 f)) (for_stack s) = true ->
   Classic.statement_next s = Classic.runtime_error "NEXT without FOR" s0).
Proof.
  unfold next_operand.
  pose proof (next_no_name_flag ClassicBuild (skip_spaces_str (cursor s))) as Hflag.
  unfold Classic.statement_next, Classic.skip_spaces, Classic.read_identifier,
    bind, peek, gets, get, modify, ret, set_cursor.
  destruct s as [pl vs gs fs cl sp hl pc ln li so se si rg sl].
  cbn -[find_for_frame read_identifier_str skip_spaces_str
        Classic.uppercase_name Z.to_nat Classic.runtime_error] in *.
  set (p := skip_spaces_str _) in *.
  destruct (CLib.isalpha (CLib.peek p)) eqn:Hnamed;
    cbn -[find_for_frame read_identifier_str skip_spaces_str
          Classic.uppercase_name Z.to_nat Classic.runtime_error] in *.
  - destruct (read_identifier_str _ p) as [namebuf rest] eqn:Hname.
    cbn -[find_for_frame Classic.uppercase_name Classic.runtime_error] in *.
    destruct (Classic.uppercase_name namebuf) as [[n1 n2] is_str] eqn:Hup.
    rewrite Hflag. split.
    + intros above fr below vp -> Hab Hfr Hvar.
      state_norm.
      rewrite (find_for_frame_skips false n1 n2 above fr below Hab Hfr), Hvar.
      unfold loop_continues. state_norm.
      match goal with |- context [if ?c then _ else _] => destruct c end; reflexivity.
    + intros Hnone. state_norm.
      rewrite (find_for_frame_none false n1 n2 fs Hnone). reflexivity.
  - destruct (Classic.uppercase_name "") as [[n1 n2] is_str] eqn:Hup. split.
    + intros above fr below vp -> Hab Hfr Hvar.
      state_norm.
      rewrite (find_for_frame_skips true n1 n2 above fr below Hab Hfr), Hvar.
      unfold loop_continues. state_norm.
      match goal with |- context [if ?c then _ else _] => destruct c end; reflexivity.
    + intros Hnone. state_norm.
      rewrite (find_for_frame_none true n1 n2 fs Hnone). reflexivity.
Qed.

Lemma pdp11_next_selection (s : state) :
  let '(named, n1, n2, rest) := next_operand Pdp11Build s in
  let s0 := set_statement_pos (Some rest) s in
  (forall above fr below vp,
     for_stack s = (above ++ fr :: below)%list ->
     forallb (fun f => negb (frame_matches named n1 n2 f)) above = true ->
     frame_matches named n1 n2 fr = true ->
     f_var fr = Some vp ->
     let s1 := set_for_stack (fr :: below) s0 in
     let s2 := write_ref vp (with_num (read_ref vp s1)
                               (num (read_ref vp s1) + f_step fr)%float) s1 in
     Optimized.statement_next s
     = Some (tt, if loop_continues fr (num (read_ref vp s2))
                 then set_statement_pos (Some (f_resume_pos fr))
                        (set_current_line (f_line_index fr) s2)
                 else set_for_stack below s2)) /\
  (forallb (fun f => negb (frame_matches named n1 n2 f)) (for_stack s) = true ->
   Optimized.statement_next s = Optimized.runtime_error "NEXT without FOR" s0).
Proof.
  unfold next_operand.
  pose proof (next_no_name_flag Pdp11Build (skip_spaces_str (cursor s))) as Hflag.
  unfold Optimized.statement_next, Optimized.skip_spaces, Optimized.read_identifier,
    bind, peek, gets, get, modify, ret, set_cursor.
  destruct s as [pl vs gs fs cl sp hl pc ln li so se si rg sl].
  cbn -[find_for_frame read_identifier_str skip_spaces_str
        Optimized.uppercase_name Z.to_nat Optimized.runtime_error] in *.
  set (p := skip_spaces_str _) in *.
  destruct (CLib.isalpha (CLib.peek p)) eqn:Hnamed;
    cbn -[find_for_frame read_identifier_str skip_spaces_str
          Optimized.uppercase_name Z.to_nat Optimized.runtime_error] in *.
  - destruct (read_identifier_str _ p) as [namebuf rest] eqn:Hname.
    cbn -[find_for_frame Optimized.uppercase_name Optimized.runtime_error] in *.
    destruct (Optimized.uppercase_name namebuf) as [[n1 n2] is_str] eqn:Hup.
    rewrite Hflag. split.
    + intros above fr below vp -> Hab Hfr Hvar.
      state_norm.
      rewrite (find_for_frame_skips false n1 n2 above fr below Hab Hfr), Hvar.
      unfold loop_continues. state_norm.
      match goal with |- context [if ?c then _ else _] => destruct c end; reflexivity.
    + intros Hnone. state_norm.
      rewrite (find_for_frame_none false n1 n2 fs Hnone). reflexivity.
  - destruct (Optimized.uppercase_name "") as [[n1 n2] is_str] eqn:Hup. split.
    + intros above fr below vp -> Hab Hfr Hvar.
      state_norm.
      rewrite (find_for_frame_skips true n1 n2 above fr below Hab Hfr), Hvar.
      unfold loop_continues. state_norm.
      match goal with |- context [if ?c then _ else _] => destruct c end; reflexivity.
    + intros Hnone. state_norm.
      rewrite (find_for_frame_none true n1 n2 fs Hnone). reflexivity.
Qed.

(** C5.  NEXT without a name takes the innermost frame; NEXT with a name
    takes the first frame, from the top of the FOR stack down, whose saved
    two-letter name is that of the operand, and discards the frames above
    it.  The step is added to the loop variable; when [step >= 0] and
    [v <= end], or [step < 0] and [v >= end], the frame stays and control
    resumes at its saved line index and cursor, otherwise the frame is
    popped and control falls through.  With no matching frame the error is
    "NEXT without FOR". *)
Theorem next_frame_selection (b : build) (s : state)
    (named : bool) (n1 n2 : ascii) (rest : string) :
  next_operand b s = (named, n1, n2, rest) ->
  let s0 := set_statement_pos (Some rest) s in
  (forall above fr below vp,
     for_stack s = (above ++ fr :: below)%list ->
     forallb (fun f => negb (frame_matches named n1 n2 f)) above = true ->
     frame_matches named n1 n2 fr = true ->
     f_var fr = Some vp ->
     let s1 := set_for_stack (fr :: below) s0 in
     let s2 := write_ref vp (with_num (read_ref vp s1)
                               (num (read_ref vp s1) + f_step fr)%float) s1 in
     statement_next b s
     = Some (tt, if loop_continues fr (num (read_ref vp s2))
                 then set_statement_pos (Some (f_resume_pos fr))
                        (set_current_line (f_line_index fr) s2)
                 else set_for_stack below s2)) /\
  (forallb (fun f => negb (frame_matches named n1 n2 f)) (for_stack s) = true ->
   statement_next b s = runtime_error b "NEXT without FOR" s0) /\
  (named = false -> forall fr, frame_matches named n1 n2 fr = true).
Proof.
  intros Hop.
  destruct b.
  - pose proof (classic_next_selection s) as Hsel. rewrite Hop in Hsel.
    destruct Hsel as [Hfound Hnone]. repeat split; try assumption.
    intros ->. reflexivity.
  - pose proof (pdp11_next_selection s) as Hsel. rewrite Hop in Hsel.
    destruct Hsel as [Hfound Hnone]. repeat split; try assumption.
    intros ->. reflexivity.
Qed.

(** [NEXT I] with the frame of J above the frame of I: the frame of J is
    discarded, I becomes 2, and the run resumes after [FOR I=1 TO 2]. *)
Lemma next_frame_selection_witness :
  option_map (fun r => (map f_name1 (for_stack (snd r)), current_line (snd r),
                        statement_pos (snd r), map num (map scalar (vars (snd r)))))
    (statement_next ClassicBuild (nested_at_next ClassicBuild))
  = Some (["I"%char], 0, Some "", [2%float; 1%float]).
Proof.
  assert (Hop : next_operand ClassicBuild (nested_at_next ClassicBuild)
                = (true, "I"%char, " "%char, "")) by (vm_compute; reflexivity).
  assert (Hst : for_stack (nested_at_next ClassicBuild)
                = ([nth 0 (for_stack (nested_at_next ClassicBuild)) null_frame]
                   ++ nth 1 (for_stack (nested_at_next ClassicBuild)) null_frame
                   :: [])%list) by (vm_compute; reflexivity).
  rewrite (proj1 (next_frame_selection ClassicBuild (nested_at_next ClassicBuild)
                    true "I" " " "" Hop) _ _ _ (RScalar 0) Hst);
    vm_compute; reflexivity.
Defined.

(* ===================================================================== *)
(** * Comparisons                                                         *)
(* ===================================================================== *)

Section Comparison.
Variable H : host.

Lemma classic_comparison_value (n : nat) (s s1 s2 : state) (l r : value)
    (op : rel_op) (k : nat) :
  Classic.eval_expr H n (skip_spaces_st s) = Some (l, s1) ->
  rel_op_at (skip_spaces_str (cursor s1)) = Some (op, k) ->
  Classic.eval_expr H n (advance_st k (skip_spaces_st s1)) = Some (r, s2) ->
  comparable op l r = true ->
  Classic.eval_comparison H (S n) s
  = Some (Classic.make_num (if holds op l r then (-1)%float else 0%float), s2).
Proof.
  intros Hl Hop Hr Hty.
  cbn [Classic.eval_comparison].
  unfold Classic.eval_comparison_body, bind.
  rewrite run_classic_skip_spaces, Hl, run_classic_skip_spaces, run_peek, run_peek_at,
    cursor_skip_spaces_st.
  unfold rel_op_at in Hop.
  set (p := skip_spaces_str (cursor s1)) in *.
  destruct (Ascii.eqb (CLib.peek p) "<") eqn:E1;
  destruct (Ascii.eqb (CLib.peek_at 1 p) ">") eqn:E2;
  destruct (Ascii.eqb (CLib.peek_at 1 p) "=") eqn:E3;
  destruct (Ascii.eqb (CLib.peek p) ">") eqn:E4;
  destruct (Ascii.eqb (CLib.peek p) "=") eqn:E5;
  cbn [andb] ; try discriminate Hop;
  injection Hop as <- <-; rewrite run_advance, Hr;
  unfold comparable, holds in *;
  unfold Classic.compare_mixed, Classic.compare_numeric, Classic.ensure_num,
    Classic.ensure_str, bind, ret, Classic.basic_bool;
  destruct (vtype l), (vtype r); try discriminate Hty; cbn; try reflexivity.
Qed.

Lemma c_bool_01 (b : bool) : Optimized.c_bool b = 0 \/ Optimized.c_bool b = 1.
Proof. destruct b; [right | left]; reflexivity. Qed.

Lemma pdp11_condition_is_c_truth (n : nat) (s s' : state) (r : Z) :
  Optimized.eval_condition H n s = Some (r, s') -> r = 0 \/ r = 1.
Proof.
  unfold Optimized.eval_condition, bind, Optimized.skip_spaces, modify, peek, peek_at,
    gets, advance, Optimized.ensure_num, Optimized.ensure_str, Optimized.runtime_error,
    get, fputs_stderr, ret.
  intros Hrun.
  split_run Hrun;
    injection Hrun as <- _; apply c_bool_01.
Qed.

End Comparison.

Lemma comparison_program_output :
  output_of ClassicBuild comparison_program "" 100%nat = Some (0, ln "-15-1", "").
Proof. vm_compute. reflexivity. Qed.

(** C1, as amended.  In the classic interpreter a comparison of two
    operands that evaluate, with types that raise no error, is the number
    -1.0 when it holds and 0.0 when it does not, and the evaluation leaves the
    state where the right operand left it; the value is an expression value
    like any other (a PRINT item, an operand of [+]).  The PDP-11 build has
    relational operators in IF conditions only, where the result is the C
    truth value 1 or 0. *)
Theorem comparison_truth_values (H : host) :
  (forall (n : nat) (s s1 s2 : state) (l r : value) (op : rel_op) (k : nat),
     Classic.eval_expr H n (skip_spaces_st s) = Some (l, s1) ->
     rel_op_at (skip_spaces_str (cursor s1)) = Some (op, k) ->
     Classic.eval_expr H n (advance_st k (skip_spaces_st s1)) = Some (r, s2) ->
     comparable op l r = true ->
     Classic.eval_comparison H (S n) s
     = Some (Classic.make_num (if holds op l r then (-1)%float else 0%float), s2)) /\
  output_of ClassicBuild comparison_program "" 100%nat = Some (0, ln "-15-1", "") /\
  (forall (n : nat) (s s' : state) (r : Z),
     Optimized.eval_condition H n s = Some (r, s') -> r = 0 \/ r = 1).
Proof.
  split; [|split].
  - apply classic_comparison_value.
  - exact comparison_program_output.
  - apply pdp11_condition_is_c_truth.
Qed.

(** The comparison [1<2] evaluated by the classic interpreter. *)
Lemma comparison_truth_values_witness :
  Classic.eval_comparison RefHost.ref_host 21%nat (at_text "1<2")
  = Some (Classic.make_num (-1)%float,
          set_statement_pos (Some "") (initial_state "")).
Proof.
  refine (proj1 (comparison_truth_values RefHost.ref_host) 20%nat (at_text "1<2")
            (set_statement_pos (Some "<2") (initial_state ""))
            (set_statement_pos (Some "") (initial_state ""))
            (Classic.make_num 1) (Classic.make_num 2) OpLt 1%nat _ _ _ _);
    vm_compute; reflexivity.
Defined.

(** In the PDP-11 build the condition [1<2] is the C integer 1, and a
    comparison is not a PRINT item: the statement prints its left operand
    and the rest of the line is an unknown statement. *)
Lemma comparison_on_pdp11_is_c_int :
  option_map fst (Optimized.eval_condition RefHost.ref_host 50%nat (at_text "1<2")) = Some 1 /\
  output_of Pdp11Build print_comparison_program "" 100
  = Some (0, ln "1", ln "Error at line 10: Unknown statement").
Proof. split; vm_compute; reflexivity. Qed.

(* ===================================================================== *)
(** * AND and OR                                                          *)
(* ===================================================================== *)

Section Logical.
Variable H : host.

(** [a AND b] with nothing but this one AND at its level. *)
Lemma classic_and_value (n : nat) (left right : value) (s s1 s2 : state) :
  Classic.eval_comparison H (S n) (skip_spaces_st s) = Some (left, s1) ->
  Classic.starts_with_kw (skip_spaces_str (cursor s1)) "AND" = true ->
  Classic.eval_comparison H n (advance_st 3 (skip_spaces_st s1)) = Some (right, s2) ->
  Classic.starts_with_kw (skip_spaces_str (cursor s2)) "AND" = false ->
  vtype left = VAL_NUM -> vtype right = VAL_NUM -> (0 < n)%nat ->
  Classic.eval_and_expr H (S (S n)) s
  = Some (with_num left
            (CLib.int_to_double
               (Z.land (CLib.double_to_int (num left))
                       (CLib.double_to_int (num right)))),
          skip_spaces_st s2).
Proof.
  intros Hl Hkw Hr Hend Htl Htr Hn.
  destruct n as [|n]; [lia|].
  cbn [Classic.eval_and_expr].
  unfold Classic.eval_and_expr_body, bind.
  rewrite run_classic_skip_spaces, Hl.
  cbn [Classic.eval_and_loop].
  unfold Classic.eval_and_loop_body at 1. unfold bind.
  rewrite run_classic_skip_spaces, run_get, cursor_skip_spaces_st, Hkw, run_advance, Hr.
  unfold Classic.ensure_num. rewrite Htl, Htr. cbn [value_type_eqb].
  unfold ret at 1 2.
  unfold Classic.eval_and_loop_body, bind.
  rewrite run_classic_skip_spaces, run_get, cursor_skip_spaces_st, Hend.
  reflexivity.
Qed.

(** [a OR b] with nothing but this one OR at its level. *)
Lemma classic_or_value (n : nat) (left right : value) (s s1 s2 : state) :
  Classic.eval_and_expr H (S n) (skip_spaces_st s) = Some (left, s1) ->
  Classic.starts_with_kw (skip_spaces_str (cursor s1)) "OR" = true ->
  Classic.eval_and_expr H n (advance_st 2 (skip_spaces_st s1)) = Some (right, s2) ->
  Classic.starts_with_kw (skip_spaces_str (cursor s2)) "OR" = false ->
  vtype left = VAL_NUM -> vtype right = VAL_NUM -> (0 < n)%nat ->
  Classic.eval_or_expr H (S (S n)) s
  = Some (with_num left
            (CLib.int_to_double
               (Z.lor (CLib.double_to_int (num left))
                      (CLib.double_to_int (num right)))),
          skip_spaces_st s2).
Proof.
  intros Hl Hkw Hr Hend Htl Htr Hn.
  destruct n as [|n]; [lia|].
  cbn [Classic.eval_or_expr].
  unfold Classic.eval_or_expr_body, bind.
  rewrite run_classic_skip_spaces, Hl.
  cbn [Classic.eval_or_loop].
  unfold Classic.eval_or_loop_body at 1. unfold bind.
  rewrite run_classic_skip_spaces, run_get, cursor_skip_spaces_st, Hkw, run_advance, Hr.
  unfold Classic.ensure_num. rewrite Htl, Htr. cbn [value_type_eqb].
  unfold ret at 1 2.
  unfold Classic.eval_or_loop_body, bind.
  rewrite run_classic_skip_spaces, run_get, cursor_skip_spaces_st, Hend.
  reflexivity.
Qed.

(** A string operand of AND or OR raises "Numeric value required". *)
Lemma classic_and_needs_numbers (n : nat) (left right : value) (s s1 : state) :
  Classic.starts_with_kw (skip_spaces_str (cursor s)) "AND" = true ->
  Classic.eval_comparison H n (advance_st 3 (skip_spaces_st s)) = Some (right, s1) ->
  vtype left = VAL_STR \/ vtype right = VAL_STR ->
  exists s2,
    raised "Numeric value required" s1 s2 /\
    Classic.eval_and_loop H (S n) left s
    = Classic.eval_and_loop H n
        (with_num left (Classic.bit_and (num left) (num right))) s2.
Proof.
  intros Hkw Hr Hty.
  cbn [Classic.eval_and_loop].
  unfold Classic.eval_and_loop_body, bind.
  rewrite run_classic_skip_spaces, run_get, cursor_skip_spaces_st, Hkw, run_advance, Hr.
  unfold Classic.ensure_num, Classic.runtime_error, bind, fputs_stderr, modify, ret.
  destruct (vtype left), (vtype right); cbn;
    try (destruct Hty; discriminate);
    eexists; (split; [|reflexivity]); split; try reflexivity;
    destruct s1; cbn; eexists; reflexivity.
Qed.

Lemma classic_or_needs_numbers (n : nat) (left right : value) (s s1 : state) :
  Classic.starts_with_kw (skip_spaces_str (cursor s)) "OR" = true ->
  Classic.eval_and_expr H n (advance_st 2 (skip_spaces_st s)) = Some (right, s1) ->
  vtype left = VAL_STR \/ vtype right = VAL_STR ->
  exists s2,
    raised "Numeric value required" s1 s2 /\
    Classic.eval_or_loop H (S n) left s
    = Classic.eval_or_loop H n
        (with_num left (Classic.bit_or (num left) (num right))) s2.
Proof.
  intros Hkw Hr Hty.
  cbn [Classic.eval_or_loop].
  unfold Classic.eval_or_loop_body, bind.
  rewrite run_classic_skip_spaces, run_get, cursor_skip_spaces_st, Hkw, run_advance, Hr.
  unfold Classic.ensure_num, Classic.runtime_error, bind, fputs_stderr, modify, ret.
  destruct (vtype left), (vtype right); cbn;
    try (destruct Hty; discriminate);
    eexists; (split; [|reflexivity]); split; try reflexivity;
    destruct s1; cbn; eexists; reflexivity.
Qed.

End Logical.

Lemma logic_program_output :
  output_of ClassicBuild logic_program "" 100%nat = Some (0, ln "17" ++ ln "YES", "").
Proof. vm_compute. reflexivity. Qed.

(** C6, as amended.  In the classic interpreter [a AND b] and [a OR b] on
    two numeric operands are the number whose value is the bitwise AND, or
    OR, of the integer truncations of the operands; a string operand raises
    "Numeric value required"; [5 AND 3] is 1, [5 OR 2] is 7, and an IF
    condition may combine comparisons with them.  (The PDP-11 build has
    neither operator.) *)
Theorem logical_operators_are_bitwise (H : host) :
  (forall (n : nat) (left right : value) (s s1 s2 : state),
     Classic.eval_comparison H (S n) (skip_spaces_st s) = Some (left, s1) ->
     Classic.starts_with_kw (skip_spaces_str (cursor s1)) "AND" = true ->
     Classic.eval_comparison H n (advance_st 3 (skip_spaces_st s1)) = Some (right, s2) ->
     Classic.starts_with_kw (skip_spaces_str (cursor s2)) "AND" = false ->
     vtype left = VAL_NUM -> vtype right = VAL_NUM -> (0 < n)%nat ->
     Classic.eval_and_expr H (S (S n)) s
     = Some (with_num left
               (CLib.int_to_double
                  (Z.land (CLib.double_to_int (num left))
                          (CLib.double_to_int (num right)))),
             skip_spaces_st s2)) /\
  (forall (n : nat) (left right : value) (s s1 s2 : state),
     Classic.eval_and_expr H (S n) (skip_spaces_st s) = Some (left, s1) ->
     Classic.starts_with_kw (skip_spaces_str (cursor s1)) "OR" = true ->
     Classic.eval_and_expr H n (advance_st 2 (skip_spaces_st s1)) = Some (right, s2) ->
     Classic.starts_with_kw (skip_spaces_str (cursor s2)) "OR" = false ->
     vtype left = VAL_NUM -> vtype right = VAL_NUM -> (0 < n)%nat ->
     Classic.eval_or_expr H (S (S n)) s
     = Some (with_num left
               (CLib.int_to_double
                  (Z.lor (CLib.double_to_int (num left))
                         (CLib.double_to_int (num right)))),
             skip_spaces_st s2)) /\
  (forall (n : nat) (left right : value) (s s1 : state),
     Classic.starts_with_kw (skip_spaces_str (cursor s)) "AND" = true ->
     Classic.eval_comparison H n (advance_st 3 (skip_spaces_st s)) = Some (right, s1) ->
     vtype left = VAL_STR \/ vtype right = VAL_STR ->
     exists s2,
       raised "Numeric value required" s1 s2 /\
       Classic.eval_and_loop H (S n) left s
       = Classic.eval_and_loop H n
           (with_num left (Classic.bit_and (num left) (num right))) s2) /\
  (forall (n : nat) (left right : value) (s s1 : state),
     Classic.starts_with_kw (skip_spaces_str (cursor s)) "OR" = true ->
     Classic.eval_and_expr H n (advance_st 2 (skip_spaces_st s)) = Some (right, s1) ->
     vtype left = VAL_STR \/ vtype right = VAL_STR ->
     exists s2,
       raised "Numeric value required" s1 s2 /\
       Classic.eval_or_loop H (S n) left s
       = Classic.eval_or_loop H n
           (with_num left (Classic.bit_or (num left) (num right))) s2) /\
  output_of ClassicBuild logic_program "" 100%nat = Some (0, ln "17" ++ ln "YES", "").
Proof.
  split; [|split; [|split; [|split]]].
  - apply classic_and_value.
  - apply classic_or_value.
  - apply classic_and_needs_numbers.
  - apply classic_or_needs_numbers.
  - exact logic_program_output.
Qed.

(** [5 AND 3] evaluated by the classic interpreter. *)
Lemma logical_operators_are_bitwise_witness :
  Classic.eval_and_expr RefHost.ref_host 22%nat (at_text "5 AND 3")
  = Some (Classic.make_num 1, set_statement_pos (Some "") (initial_state "")).
Proof.
  refine (proj1 (logical_operators_are_bitwise RefHost.ref_host) 20%nat
            (Classic.make_num 5) (Classic.make_num 3) (at_text "5 AND 3")
            (set_statement_pos (Some "AND 3") (initial_state ""))
            (set_statement_pos (Some "") (initial_state ""))
            _ _ _ _ _ _ _);
    try (vm_compute; reflexivity).
  lia.
Defined.

(** The PDP-11 build knows neither operator: the expression ends before
    AND, so the IF statement misses its THEN, and PRINT prints the left
    operand only. *)
Lemma logical_operators_absent_on_pdp11 :
  output_of Pdp11Build condition_program "" 100%nat
  = Some (0, "", ln "Error at line 10: Missing THEN") /\
  output_of Pdp11Build logic_program "" 100%nat
  = Some (0, ln "5", ln "Error at line 10: Expected '='").
Proof. split; vm_compute; reflexivity. Qed.

(* ===================================================================== *)
(** * LEFT$ and MID$                                                      *)
(* ===================================================================== *)

Lemma classic_make_str_id (s : string) :
  CLib.cstr s = s -> CLib.strlen s <= Classic.MAX_STR_LEN - 1 ->
  str (Classic.make_str s) = s.
Proof.
  intros Hc Hlen. unfold Classic.make_str. cbn [str]. rewrite Hc.
  apply take_all. unfold CLib.strlen, Classic.MAX_STR_LEN in *. lia.
Qed.

(** ** The copies, for arguments inside the string *)

Lemma classic_left_str_take (s : string) (n : Z) :
  0 <= n <= CLib.strlen s -> Classic.left_str s n = CLib.take (Z.to_nat n) s.
Proof.
  intros Hn. unfold Classic.left_str.
  destruct (Z.ltb_spec n 0); [lia|].
  destruct (Z.ltb_spec (CLib.strlen s) n); [lia|]. reflexivity.
Qed.

Lemma classic_right_str_drop (s : string) (n : Z) :
  0 <= n <= CLib.strlen s ->
  Classic.right_str s (CLib.strlen s - n) = CLib.drop (Z.to_nat n) s.
Proof.
  intros Hn. unfold Classic.right_str.
  destruct (Z.ltb_spec (CLib.strlen s - n) 0); [lia|].
  destruct (Z.ltb_spec (CLib.strlen s) (CLib.strlen s - n)); [lia|].
  f_equal. lia.
Qed.

Lemma drop_all (s : string) : CLib.drop (String.length s) s = "".
Proof. induction s; simpl; auto. Qed.

(** [MID$(s, n + 1)]: the text behind the first [n] characters. *)
Lemma classic_mid_str_rest (s : string) (n : Z) :
  CLib.strlen s <= Classic.MAX_STR_LEN - 1 ->
  0 <= n <= CLib.strlen s ->
  match Classic.mid_str s (n + 1) (CLib.strlen s) with Some t => t | None => "" end
  = CLib.drop (Z.to_nat n) s.
Proof.
  intros Hlen Hn. unfold Classic.mid_str.
  destruct (Z.ltb_spec (n + 1) 1); [lia|].
  replace (n + 1 - 1) with n by lia.
  destruct (Z.leb_spec (CLib.strlen s) n) as [Hend|Hin].
  - assert (Z.to_nat n = String.length s) as -> by (unfold CLib.strlen in *; lia).
    symmetry. apply drop_all.
  - destruct (Z.ltb_spec (CLib.strlen s) 0); [unfold CLib.strlen in *; lia|].
    rewrite wrap32_id
      by (unfold CLib.INT_MIN, CLib.INT_MAX, Classic.MAX_STR_LEN in *; lia).
    destruct (Z.ltb_spec (CLib.strlen s) (n + CLib.strlen s));
      apply take_all; rewrite length_drop; unfold CLib.strlen; lia.
Qed.

(** A length that is no more than [INT_MAX - 255] is clamped before the
    copy: nothing is written outside [outbuf]. *)
Lemma classic_mid_fits (s : string) (start len : Z) :
  CLib.strlen s <= Classic.MAX_STR_LEN - 1 ->
  len <= CLib.INT_MAX - 255 ->
  CLib.INT_MIN <= start <= CLib.INT_MAX ->
  Classic.mid_overruns s start len = false.
Proof.
  intros Hlen Hl Hs. unfold Classic.mid_overruns.
  set (st := ((if start <? 1 then 1 else start) - 1)%Z).
  assert (Hst : 0 <= st) by (subst st; destruct (Z.ltb_spec start 1); lia).
  destruct (Z.leb_spec (CLib.strlen s) st) as [|Hin]; [reflexivity|].
  set (ln := (if len <? 0 then 0 else len)%Z).
  assert (Hln : 0 <= ln <= CLib.INT_MAX - 255)
    by (subst ln; destruct (Z.ltb_spec len 0); unfold CLib.INT_MAX in *; lia).
  rewrite wrap32_id
    by (unfold CLib.INT_MIN, CLib.INT_MAX, Classic.MAX_STR_LEN in *; lia).
  unfold Classic.MAX_STR_LEN in *.
  destruct (Z.ltb_spec (CLib.strlen s) (st + ln)); apply Z.leb_gt; lia.
Qed.


(** ** Calls, as the evaluator runs them *)

(** Reduce the tests the lexer makes on a text whose head is known. *)
Ltac text_norm :=
  cbn [skip_spaces_str String.append CLib.peek CLib.peek_at CLib.drop Ascii.eqb
       Bool.eqb orb andb negb is_sign tab dquote fst snd].

(** Bring the state in the goal to the form [at_cursor p s]. *)
Ltac cursor_norm :=
  repeat match goal with
         | |- context [set_statement_pos (Some ?p) ?s] =>
             change (set_statement_pos (Some p) s) with (at_cursor p s)
         end;
  rewrite ?skip_spaces_here, ?advance_here, ?at_cursor_at, ?cursor_at.

(** Run the first computation of the goal with the equation [L]. *)
Ltac run_with L :=
  unfold bind at 1; rewrite L; cbv beta iota; cursor_norm; text_norm.

Section Calls.
Variable H : host.
Variables top factor : M value.

(** From the factor to the first argument of the call. *)
Ltac enter_call name :=
  unfold Classic.eval_factor_body;
  run_with run_classic_skip_spaces;
  run_with run_peek;
  match goal with
  | |- context [CLib.isalpha ?c] =>
      let v := eval vm_compute in (CLib.isalpha c) in
      change (CLib.isalpha c) with v
  end;
  cbv beta iota;
  rewrite bind_run_get, cursor_at;
  match goal with
  | |- context [Classic.is_function_name ?p] =>
      change (Classic.is_function_name p) with true;
      match goal with
      | |- context [read_identifier_str 15 p] =>
          let q := eval cbn [CLib.drop String.length] in
                     (CLib.drop (String.length name) p) in
          change (read_identifier_str 15 p) with (name, q)
      end
  end;
  cbv beta iota;
  unfold Classic.eval_function; name_tests;
  unfold bind at 1; rewrite run_classic_read_identifier; cbv beta iota;
  rewrite !cursor_at;
  match goal with
  | |- context [read_identifier_str 15 ?p] =>
      let q := eval cbn [CLib.drop String.length] in
                 (CLib.drop (String.length name) p) in
      change (read_identifier_str 15 p) with (name, q)
  end;
  cursor_norm; text_norm;
  run_with run_classic_skip_spaces;
  run_with run_peek;
  run_with run_advance.

Lemma classic_call_left (s s1 s2 : state) (p1 p2 rest : string) (a lenv : value) :
  top (at_cursor p1 s) = Some (a, s1) ->
  vtype a = VAL_STR ->
  cursor s1 = "," ++ p2 ->
  top (at_cursor p2 s1) = Some (lenv, s2) ->
  vtype lenv = VAL_NUM ->
  cursor s2 = ")" ++ rest ->
  Classic.eval_factor_body H top factor (at_cursor ("LEFT$(" ++ p1) s)
  = Some (Classic.fn_left (str a) (CLib.double_to_int (num lenv)), at_cursor rest s2).
Proof.
  intros Ha Hta Hc1 Hl Htl Hc2.
  enter_call "LEFT$".
  run_with Ha.
  run_with run_classic_skip_spaces.
  run_with (fun s => run_classic_ensure_str _ s Hta).
  run_with run_classic_skip_spaces.
  rewrite Hc1. text_norm.
  run_with run_peek.
  run_with run_advance.
  run_with Hl.
  run_with (fun s => run_classic_ensure_num _ s Htl).
  run_with run_classic_skip_spaces.
  rewrite Hc2. text_norm.
  run_with run_classic_close_paren.
  reflexivity.
Qed.

Lemma classic_call_right (s s1 s2 : state) (p1 p2 rest : string) (a lenv : value) :
  top (at_cursor p1 s) = Some (a, s1) ->
  vtype a = VAL_STR ->
  cursor s1 = "," ++ p2 ->
  top (at_cursor p2 s1) = Some (lenv, s2) ->
  vtype lenv = VAL_NUM ->
  cursor s2 = ")" ++ rest ->
  Classic.eval_factor_body H top factor (at_cursor ("RIGHT$(" ++ p1) s)
  = Some (Classic.make_str (Classic.right_str (str a) (CLib.double_to_int (num lenv))),
          at_cursor rest s2).
Proof.
  intros Ha Hta Hc1 Hl Htl Hc2.
  enter_call "RIGHT$".
  run_with Ha.
  run_with run_classic_skip_spaces.
  run_with (fun s => run_classic_ensure_str _ s Hta).
  run_with run_classic_skip_spaces.
  rewrite Hc1. text_norm.
  run_with run_peek.
  run_with run_advance.
  run_with Hl.
  run_with (fun s => run_classic_ensure_num _ s Htl).
  run_with run_classic_skip_spaces.
  rewrite Hc2. text_norm.
  run_with run_classic_close_paren.
  reflexivity.
Qed.

(** [MID$] with two arguments: the length is that of the string. *)
Lemma classic_call_mid_rest (s s1 s2 : state) (p1 p2 rest : string)
    (a startv : value) :
  top (at_cursor p1 s) = Some (a, s1) ->
  vtype a = VAL_STR ->
  cursor s1 = "," ++ p2 ->
  top (at_cursor p2 s1) = Some (startv, s2) ->
  vtype startv = VAL_NUM ->
  cursor s2 = ")" ++ rest ->
  CLib.strlen (str a) <= Classic.MAX_STR_LEN - 1 ->
  Classic.eval_factor_body H top factor (at_cursor ("MID$(" ++ p1) s)
  = Some (Classic.fn_mid (str a) (CLib.double_to_int (num startv))
            (CLib.strlen (str a)),
          at_cursor rest s2).
Proof.
  intros Ha Hta Hc1 Hl Htl Hc2 Hlen.
  enter_call "MID$".
  run_with Ha.
  run_with run_classic_skip_spaces.
  run_with (fun s => run_classic_ensure_str _ s Hta).
  run_with run_classic_skip_spaces.
  rewrite Hc1. text_norm.
  run_with run_peek.
  run_with run_advance.
  run_with Hl.
  run_with (fun s => run_classic_ensure_num _ s Htl).
  run_with run_classic_skip_spaces.
  rewrite Hc2. text_norm.
  run_with run_peek.
  unfold bind at 1. unfold ret at 1. cbv beta iota.
  run_with run_classic_skip_spaces.
  run_with run_classic_close_paren.
  rewrite classic_mid_fits.
  - reflexivity.
  - exact Hlen.
  - unfold Classic.MAX_STR_LEN, CLib.INT_MAX in *. lia.
  - apply double_to_int_range.
Qed.

(** [MID$] with three arguments.  A length the clamp does not catch is
    copied as it is, and the process does not survive the copy. *)
Lemma classic_call_mid (s s1 s2 s3 : state) (p1 p2 p3 rest : string)
    (a startv lenv : value) :
  top (at_cursor p1 s) = Some (a, s1) ->
  vtype a = VAL_STR ->
  cursor s1 = "," ++ p2 ->
  top (at_cursor p2 s1) = Some (startv, s2) ->
  vtype startv = VAL_NUM ->
  cursor s2 = "," ++ p3 ->
  top (at_cursor p3 s2) = Some (lenv, s3) ->
  vtype lenv = VAL_NUM ->
  cursor s3 = ")" ++ rest ->
  Classic.eval_factor_body H top factor (at_cursor ("MID$(" ++ p1) s)
  = if Classic.mid_overruns (str a) (CLib.double_to_int (num startv))
         (CLib.double_to_int (num lenv))
    then None
    else Some (Classic.fn_mid (str a) (CLib.double_to_int (num startv))
                 (CLib.double_to_int (num lenv)),
               at_cursor rest s3).
Proof.
  intros Ha Hta Hc1 Hl Htl Hc2 Hl3 Htl3 Hc3.
  enter_call "MID$".
  run_with Ha.
  run_with run_classic_skip_spaces.
  run_with (fun s => run_classic_ensure_str _ s Hta).
  run_with run_classic_skip_spaces.
  rewrite Hc1. text_norm.
  run_with run_peek.
  run_with run_advance.
  run_with Hl.
  run_with (fun s => run_classic_ensure_num _ s Htl).
  run_with run_classic_skip_spaces.
  rewrite Hc2. text_norm.
  run_with run_peek.
  unfold bind at 1.
  run_with run_advance.
  run_with Hl3.
  run_with (fun s => run_classic_ensure_num _ s Htl3).
  unfold ret at 1. cbv beta iota.
  run_with run_classic_skip_spaces.
  rewrite Hc3. text_norm.
  run_with run_classic_close_paren.
  destruct (Classic.mid_overruns _ _ _); reflexivity.
Qed.

End Calls.

Section Sums.
Variable H : host.

Lemma skip_spaces_st_idem (s : state) :
  skip_spaces_st (skip_spaces_st s) = skip_spaces_st s.
Proof.
  rewrite (skip_spaces_here (skip_spaces_st s)), cursor_skip_spaces_st,
    skip_spaces_str_idem.
  reflexivity.
Qed.

(** A factor that no [^], [*] or [/] follows is a term. *)
Lemma classic_term_of_factor (n : nat) (s s' : state) (v : value) :
  Classic.eval_factor H n (skip_spaces_st s) = Some (v, s') ->
  (let c := CLib.peek (skip_spaces_str (cursor s')) in
   Ascii.eqb c "^" || Ascii.eqb c "*" || Ascii.eqb c "/") = false ->
  Classic.eval_term H (S (S n)) s = Some (v, skip_spaces_st s').
Proof.
  intros Hf Hc. cbv zeta in Hc.
  apply orb_false_elim in Hc as [Hc Hdiv]. apply orb_false_elim in Hc as [Hpow Hmul].
  cbn [Classic.eval_term Classic.eval_power Classic.eval_term_loop].
  unfold Classic.eval_term_body, Classic.eval_power_body, Classic.eval_term_loop_body.
  unfold bind at 1. rewrite run_classic_skip_spaces. cbv beta iota.
  unfold bind at 1. unfold bind at 1. rewrite run_classic_skip_spaces. cbv beta iota.
  rewrite skip_spaces_st_idem.
  unfold bind at 1. rewrite Hf. cbv beta iota.
  unfold bind at 1. rewrite run_classic_skip_spaces. cbv beta iota.
  unfold bind at 1. rewrite run_peek, cursor_skip_spaces_st, Hpow. cbv beta iota.
  unfold ret at 1. cbv beta iota.
  unfold bind at 1. rewrite run_classic_skip_spaces, skip_spaces_st_idem. cbv beta iota.
  unfold bind at 1. rewrite run_peek, cursor_skip_spaces_st, Hmul, Hdiv. reflexivity.
Qed.

(** Two string terms with a [+] between them, and no sign behind. *)
Lemma classic_sum_of_strings (n : nat) (s s1 s2 : state) (l r : value) :
  Classic.eval_term H (S (S n)) (skip_spaces_st s) = Some (l, s1) ->
  CLib.peek (skip_spaces_str (cursor s1)) = "+"%char ->
  Classic.eval_term H (S n) (advance_st 1 (skip_spaces_st s1)) = Some (r, s2) ->
  vtype l = VAL_STR ->
  vtype r = VAL_STR ->
  is_sign (CLib.peek (skip_spaces_str (cursor s2))) = false ->
  Classic.eval_expr H (S (S (S n))) s
  = Some (Classic.concat_values l r, skip_spaces_st s2).
Proof.
  intros Hl Hplus Hr Htl Htr Hend.
  cbn [Classic.eval_expr Classic.eval_expr_loop].
  unfold Classic.eval_expr_body, Classic.eval_expr_loop_body at 1.
  unfold bind at 1. rewrite run_classic_skip_spaces. cbv beta iota.
  unfold bind at 1. rewrite Hl. cbv beta iota.
  unfold bind at 1. rewrite run_classic_skip_spaces. cbv beta iota.
  unfold bind at 1. rewrite run_peek, cursor_skip_spaces_st, Hplus. cbv beta iota.
  change (is_sign "+") with true. cbv beta iota.
  unfold bind at 1. rewrite run_advance. cbv beta iota.
  unfold bind at 1. rewrite Hr. cbv beta iota.
  change (Ascii.eqb "+" "+") with true. cbv beta iota.
  rewrite Htl. cbn [value_type_eqb orb]. cbv beta iota.
  unfold bind at 1. rewrite (run_classic_ensure_str _ _ Htl). cbv beta iota.
  unfold bind at 1. rewrite (run_classic_ensure_str _ _ Htr). cbv beta iota.
  unfold Classic.eval_expr_loop_body.
  unfold bind at 1. rewrite run_classic_skip_spaces. cbv beta iota.
  unfold bind at 1. rewrite run_peek, cursor_skip_spaces_st, Hend. reflexivity.
Qed.

End Sums.




(* ===================================================================== *)
(** * FOR                                                                 *)
(* ===================================================================== *)

Lemma bind_assoc {A B C} (m : M A) (f : A -> M B) (k : B -> M C) (s : state) :
  bind (bind m f) k s = bind m (fun a => bind (f a) k) s.
Proof. unfold bind. destruct (m s) as [[a s1]|]; reflexivity. Qed.

(** The primitive steps of a run, read as equations on states. *)
Ltac run_prims :=
  repeat match goal with
         | E : get _ = Some _ |- _ => rewrite run_get in E; inversion E; subst; clear E
         | E : advance _ _ = Some _ |- _ => rewrite run_advance in E; inversion E; subst; clear E
         | E : Classic.skip_spaces _ = Some _ |- _ =>
             rewrite run_classic_skip_spaces in E; inversion E; subst; clear E
         | E : Optimized.skip_spaces _ = Some _ |- _ =>
             rewrite run_pdp11_skip_spaces in E; inversion E; subst; clear E
         | E : peek _ = Some _ |- _ => rewrite run_peek in E; inversion E; subst; clear E
         | E : ret _ _ = Some _ |- _ => unfold ret in E; inversion E; subst; clear E
         | E : modify _ _ = Some _ |- _ => unfold modify in E; inversion E; subst; clear E
         end.

(** One step of a run that returned: split a bind, recording that its
    first part kept the control state; or decide a branch. *)
Ltac run_inv Hrun Hsc :=
  lazymatch type of Hrun with
  | bind (bind _ _) _ _ = Some _ => rewrite bind_assoc in Hrun
  | bind (if ?c then _ else _) _ _ = Some _ => destruct c eqn:?
  | bind ?m ?k ?s = Some _ =>
      let a := fresh "a" in
      let s1 := fresh "s" in
      let E := fresh "E" in
      let K := fresh "K" in
      apply bind_inv in Hrun; destruct Hrun as (a & s1 & E & Hrun);
      assert (K : same_control s s1)
        by (refine ((_ : keeps m) s a s1 E); auto with keeps);
      pose proof (same_control_trans _ _ _ Hsc K); clear Hsc K;
      match goal with Hn : same_control _ s1 |- _ => rename Hn into Hsc end
  | (if ?c then _ else _) _ = Some _ => destruct c eqn:?
  | match ?x with _ => _ end _ = Some _ => destruct x eqn:?
  | (let (_, _) := ?x in _) _ = Some _ => destruct x eqn:?
  end.

Lemma classic_runtime_error_halts (msg : string) (s s' : state) (u : unit) :
  Classic.runtime_error msg s = Some (u, s') -> halted s' = true.
Proof. intros E. injection E as _ <-. destruct s; reflexivity. Qed.

Lemma pdp11_runtime_error_halts (msg : string) (s s' : state) (u : unit) :
  Optimized.runtime_error msg s = Some (u, s') -> halted s' = true.
Proof.
  unfold Optimized.runtime_error, bind, get, fputs_stderr, modify.
  destruct (_ && _); intros E; injection E as _ <-; destruct s; reflexivity.
Qed.

(** Split a run that returned along its binds and branches. *)
Ltac run_split Hrun :=
  repeat match type of Hrun with
         | bind ?m ?k ?s = Some _ =>
             let a := fresh "a" in
             let s1 := fresh "s" in
             let E := fresh "E" in
             apply bind_inv in Hrun; destruct Hrun as (a & s1 & E & Hrun)
         | (if ?c then _ else _) _ = Some _ => destruct c eqn:?
         | match ?x with _ => _ end _ = Some _ => destruct x eqn:?
         | (let (_, _) := ?x in _) _ = Some _ => destruct x eqn:?
         end.

Section ForStatement.
Variable H : host.

(** [find_or_create_var] and [get_var_reference] return NULL only after
    they have raised an error. *)
Lemma classic_find_or_create_var_null n1 n2 is_str want sz (s s' : state) :
  Classic.find_or_create_var H n1 n2 is_str want sz s = Some (None, s') ->
  halted s' = true.
Proof.
  unfold Classic.find_or_create_var. intros Hrun. run_split Hrun;
    unfold ret in Hrun; inversion Hrun; subst.
  eapply classic_runtime_error_halts; eassumption.
Qed.

Lemma classic_var_slot_null n1 n2 is_str is_arr sz idx (s s' : state) :
  Classic.var_slot H n1 n2 is_str is_arr sz idx s = Some (None, s') ->
  halted s' = true.
Proof.
  unfold Classic.var_slot, Classic.settle_slot, killed. intros Hrun.
  run_split Hrun; run_prims;
    try discriminate;
    try (unfold ret in Hrun; inversion Hrun; subst);
    try (eapply classic_find_or_create_var_null; eassumption);
    try (eapply classic_runtime_error_halts; eassumption).
  match goal with
  | E : _ = Some (false, _) |- _ =>
      run_split E; run_prims; try discriminate
  end.
  eapply classic_runtime_error_halts; eassumption.
Qed.

Lemma classic_get_var_reference_null (top : M value) (s s' : state) :
  Classic.get_var_reference H top s = Some (None, s') -> halted s' = true.
Proof.
  unfold Classic.get_var_reference. intros Hrun. run_split Hrun;
    unfold ret in Hrun; inversion Hrun; subst;
    try (eapply classic_runtime_error_halts; eassumption);
    match goal with
    | E : Classic.var_slot _ _ _ _ _ _ _ _ = Some (?r, _) |- _ =>
        destruct r; [discriminate | eapply classic_var_slot_null; eassumption]
    end.
Qed.

Lemma pdp11_find_or_create_var_null n1 n2 is_str want sz (s s' : state) :
  Optimized.find_or_create_var H n1 n2 is_str want sz s = Some (None, s') ->
  halted s' = true.
Proof.
  unfold Optimized.find_or_create_var. intros Hrun. run_split Hrun;
    unfold ret in Hrun; inversion Hrun; subst.
  eapply pdp11_runtime_error_halts; eassumption.
Qed.

Lemma pdp11_var_slot_null n1 n2 is_str is_arr sz idx (s s' : state) :
  Optimized.var_slot H n1 n2 is_str is_arr sz idx s = Some (None, s') ->
  halted s' = true.
Proof.
  unfold Optimized.var_slot, Optimized.settle_slot, killed. intros Hrun.
  run_split Hrun; run_prims;
    try discriminate;
    try (unfold ret in Hrun; inversion Hrun; subst);
    try (eapply pdp11_find_or_create_var_null; eassumption);
    try (eapply pdp11_runtime_error_halts; eassumption).
  match goal with
  | E : _ = Some (false, _) |- _ =>
      run_split E; run_prims; try discriminate
  end.
  eapply pdp11_runtime_error_halts; eassumption.
Qed.

Lemma pdp11_get_var_reference_null (top : M value) (s s' : state) :
  Optimized.get_var_reference H top s = Some (None, s') -> halted s' = true.
Proof.
  unfold Optimized.get_var_reference. intros Hrun. run_split Hrun;
    unfold ret in Hrun; inversion Hrun; subst;
    try (eapply pdp11_runtime_error_halts; eassumption);
    match goal with
    | E : Optimized.var_slot _ _ _ _ _ _ _ _ = Some (?r, _) |- _ =>
        destruct r; [discriminate | eapply pdp11_var_slot_null; eassumption]
    end.
Qed.

Lemma cursor_write_ref (r : value_ref) (x : value) (s : state) :
  cursor (write_ref r x s) = cursor s.
Proof. destruct r, s; reflexivity. Qed.

(** The end of both proofs: the pieces of the run, in order. *)
Ltac for_entered :=
  run_prims;
  repeat match goal with u : unit |- _ => destruct u end;
  match goal with
  | Hsc : same_control ?s (write_ref ?r ?x ?s6) |- _ =>
      destruct Hsc as (_ & _ & Hfs & Hcl & _);
      rewrite Hfs, Hcl, cursor_write_ref
  end;
  match goal with
  | Hne : negb (Ascii.eqb ?c "=") = false |- _ =>
      apply negb_false_iff, Ascii.eqb_eq in Hne
  end;
  match goal with
  | Hto : negb ?c = false |- _ => apply negb_false_iff in Hto
  end;
  do 12 eexists;
  split; [eassumption|]; split; [eassumption|]; split; [eassumption|];
  split; [eassumption|]; split; [eassumption|]; split; [eassumption|];
  split; [eassumption|];
  match goal with
  | Hb : _ (cursor ?c) "STEP" = _ |- _ => cbn [starts_with_kw]; rewrite Hb
  end;
  (split; [first [split; reflexivity
                 | do 2 eexists; split; [eassumption | split; [eassumption | reflexivity]]]|]);
  split; [eassumption | reflexivity].

Lemma classic_for_enters (n : nat) (s s' : state) :
  Classic.statement_for H n s = Some (tt, s') ->
  halted s' = false ->
  enters_loop ClassicBuild H n s s'.
Proof.
  intros Hrun Hlive.
  pose proof (same_control_refl s) as Hsc.
  unfold Classic.statement_for in Hrun.
  repeat run_inv Hrun Hsc;
    try (apply classic_runtime_error_halts in Hrun; congruence).
  1, 2: unfold enters_loop;
    cbn [get_var_reference expression ensure_num starts_with_kw];
    for_entered.
  run_prims. apply classic_get_var_reference_null in E0. congruence.
Qed.

Lemma pdp11_for_enters (n : nat) (s s' : state) :
  Optimized.statement_for H n s = Some (tt, s') ->
  halted s' = false ->
  enters_loop Pdp11Build H n s s'.
Proof.
  intros Hrun Hlive.
  pose proof (same_control_refl s) as Hsc.
  unfold Optimized.statement_for in Hrun.
  repeat run_inv Hrun Hsc;
    try (apply pdp11_runtime_error_halts in Hrun; congruence).
  1, 2: unfold enters_loop;
    cbn [get_var_reference expression ensure_num starts_with_kw];
    for_entered.
  run_prims. apply pdp11_get_var_reference_null in E0. congruence.
Qed.

(** The other way round: with room on the stack, the pieces of
    [enters_loop] are all it takes. *)
Lemma same_control_skip_spaces_st (s : state) : same_control s (skip_spaces_st s).
Proof. destruct s; unfold same_control; cbn; repeat split; auto; discriminate. Qed.

Lemma same_control_advance_st (k : nat) (s : state) :
  same_control s (advance_st k s).
Proof. destruct s; unfold same_control; cbn; repeat split; auto; discriminate. Qed.

Lemma same_control_write_ref (r : value_ref) (x : value) (s : state) :
  same_control s (write_ref r x s).
Proof. destruct r; destruct s; unfold same_control; cbn; repeat split; auto. Qed.

(** The control state at the end of a piece that ran, from the state
    before the blanks and the keyword in front of it. *)
Lemma same_control_from_keyword (k : nat) (s s' : state) :
  same_control (advance_st k (skip_spaces_st s)) s' -> same_control s s'.
Proof.
  intros K.
  exact (same_control_trans _ _ _ (same_control_skip_spaces_st s)
           (same_control_trans _ _ _ (same_control_advance_st k _) K)).
Qed.

Ltac kept E :=
  lazymatch type of E with
  | ?m ?s = Some (?a, ?s') =>
      let K := fresh "K" in
      assert (K : same_control s s')
        by (refine ((_ : keeps m) s a s' E); auto with keeps);
      try apply same_control_from_keyword in K
  end.

Ltac chain_control :=
  repeat match goal with
         | K : same_control ?a ?b |- same_control ?a _ =>
             apply (same_control_trans _ _ _ K); clear K
         end;
  first [apply same_control_refl | apply same_control_skip_spaces_st].

(** The steps of the statement, run with the pieces. *)
Ltac for_steps :=
  repeat first
    [ rewrite bind_run_get
    | progress rewrite ?run_classic_skip_spaces, ?run_pdp11_skip_spaces,
        ?run_peek, ?run_advance
    | match goal with
      | E : ?m ?s = Some _ |- context [?m ?s] => rewrite E
      | E : ?c = _ |- context [if ?c then _ else _] => rewrite E
      | E : ?c = _ |- context [if negb ?c then _ else _] => rewrite E
      end
    | progress cbn [negb Ascii.eqb Bool.eqb]
    | progress cbv beta iota
    | progress unfold bind at 1 ].

Lemma classic_enters_for (n : nat) (s s' : state) :
  for_top s < Classic.MAX_FOR ->
  enters_loop ClassicBuild H n s s' ->
  Classic.statement_for H n s = Some (tt, s').
Proof.
  intros Hroom (r & startv & endv & step & s1 & s2 & s3 & s4 & s5 & s6 & n1 & n2 &
                Hv & Heq & Hs & Hsn & Hto & He & Hen & Hstep & Hown & ->).
  cbn [get_var_reference expression ensure_num starts_with_kw] in *.
  assert (Hsc : same_control s (write_ref r startv s6)).
  { kept Hv. kept Hs. kept Hsn. kept He. kept Hen.
    destruct (Classic.starts_with_kw (cursor (skip_spaces_st s5)) "STEP").
    - destruct Hstep as (stepv & s5' & Hx & Hy & _). kept Hx. kept Hy.
      apply (fun K => same_control_trans _ _ _ K (same_control_write_ref r startv s6)).
      chain_control.
    - destruct Hstep as [_ ->].
      apply (fun K => same_control_trans _ _ _ K (same_control_write_ref r startv _)).
      chain_control. }
  destruct Hsc as (_ & _ & Hfs & Hcl & _).
  unfold Classic.statement_for.
  rewrite bind_run_get.
  destruct (Z.leb_spec Classic.MAX_FOR (for_top s)); [lia|].
  apply Ascii.eqb_eq in Heq.
  for_steps.
  destruct (Classic.starts_with_kw (cursor (skip_spaces_st s5)) "STEP").
  - destruct Hstep as (stepv & s5' & Hx & Hy & ->).
    rewrite run_advance, Hx, Hy. unfold ret, modify, get. cbv beta iota.
    rewrite Hown, Hfs, Hcl, cursor_write_ref. reflexivity.
  - destruct Hstep as [-> ->]. unfold ret, modify, get. cbv beta iota.
    rewrite Hown, Hfs, Hcl, cursor_write_ref. reflexivity.
Qed.

Lemma pdp11_enters_for (n : nat) (s s' : state) :
  for_top s < Optimized.MAX_FOR ->
  enters_loop Pdp11Build H n s s' ->
  Optimized.statement_for H n s = Some (tt, s').
Proof.
  intros Hroom (r & startv & endv & step & s1 & s2 & s3 & s4 & s5 & s6 & n1 & n2 &
                Hv & Heq & Hs & Hsn & Hto & He & Hen & Hstep & Hown & ->).
  cbn [get_var_reference expression ensure_num starts_with_kw] in *.
  assert (Hsc : same_control s (write_ref r startv s6)).
  { kept Hv. kept Hs. kept Hsn. kept He. kept Hen.
    destruct (Optimized.starts_with_kw (cursor (skip_spaces_st s5)) "STEP").
    - destruct Hstep as (stepv & s5' & Hx & Hy & _). kept Hx. kept Hy.
      apply (fun K => same_control_trans _ _ _ K (same_control_write_ref r startv s6)).
      chain_control.
    - destruct Hstep as [_ ->].
      apply (fun K => same_control_trans _ _ _ K (same_control_write_ref r startv _)).
      chain_control. }
  destruct Hsc as (_ & _ & Hfs & Hcl & _).
  unfold Optimized.statement_for.
  rewrite bind_run_get.
  destruct (Z.leb_spec Optimized.MAX_FOR (for_top s)); [lia|].
  apply Ascii.eqb_eq in Heq.
  for_steps.
  destruct (Optimized.starts_with_kw (cursor (skip_spaces_st s5)) "STEP").
  - destruct Hstep as (stepv & s5' & Hx & Hy & ->).
    rewrite run_advance, Hx, Hy. unfold ret, modify, get. cbv beta iota.
    rewrite Hown, Hfs, Hcl, cursor_write_ref. reflexivity.
  - destruct Hstep as [-> ->]. unfold ret, modify, get. cbv beta iota.
    rewrite Hown, Hfs, Hcl, cursor_write_ref. reflexivity.
Qed.

End ForStatement.

Lemma for_program_output (b : build) :
  output_of b for_program "" 100%nat = Some (0, ln "BODY" ++ ln "DONE", "").
Proof. destruct b; vm_compute; reflexivity. Qed.

(** C4.  FOR makes no test of the start value against the end value.  In
    both builds, whenever [statement_for] returns without having raised an
    error it has stored the start value in the variable and pushed one frame
    for the line being run, whatever the start, end and step are.  And that
    is all the statement depends on: with room on the FOR stack, once the
    variable is resolved and the start, end and step expressions are
    evaluated as numbers, [statement_for] returns that very state, in which
    the start value is stored and the frame pushed; no relation between the
    values can keep it from entering the loop.  The program
    [10 FOR I=1 TO 0 / 20 PRINT "BODY" / 30 NEXT I / 40 PRINT "DONE"]
    prints BODY once, then DONE. *)
Theorem for_has_no_initial_check (b : build) (H : host) :
  (forall (n : nat) (s s' : state),
     statement_for b H n s = Some (tt, s') ->
     halted s' = false ->
     enters_loop b H n s s') /\
  (forall (n : nat) (s s' : state),
     for_top s < MAX_FOR b ->
     enters_loop b H n s s' ->
     statement_for b H n s = Some (tt, s') /\
     for_top s' = for_top s + 1) /\
  output_of b for_program "" 100%nat = Some (0, ln "BODY" ++ ln "DONE", "").
Proof.
  split; [|split; [|apply for_program_output]].
  - intros n s s' Hrun Hlive.
    destruct b; [apply classic_for_enters | apply pdp11_for_enters]; assumption.
  - intros n s s' Hroom Hin. split.
    + destruct b; [apply classic_enters_for | apply pdp11_enters_for]; assumption.
    + destruct Hin as (r & startv & endv & step & s1 & s2 & s3 & s4 & s5 & s6 &
                       n1 & n2 & _ & _ & _ & _ & _ & _ & _ & _ & _ & ->).
      unfold for_top. destruct (write_ref r startv s6); cbn [for_stack set_for_stack List.length].
      lia.
Qed.

(** [FOR I=1 TO 0] entered from the start of a run. *)
Lemma for_has_no_initial_check_witness :
  enters_loop ClassicBuild RefHost.ref_host 50
    (at_text " I=1 TO 0")
    (state_after (statement_for ClassicBuild RefHost.ref_host 50)
                 (at_text " I=1 TO 0")).
Proof.
  apply (proj1 (for_has_no_initial_check ClassicBuild RefHost.ref_host));
    vm_compute; reflexivity.
Defined.
(* ===================================================================== *)
(** * The print column                                                    *)
(* ===================================================================== *)

(** The paths that count one character at a time keep the column inside
    the print width. *)
Lemma classic_count_column_in_width (s s' : state) (u : unit) :
  in_print_width s = true ->
  Classic.count_column s = Some (u, s') -> in_print_width s' = true.
Proof.
  unfold in_print_width. intros Hin. destruct s. revert Hin.
  cbv [Classic.count_column bind gets fputc_stdout ret Classic.PRINT_WIDTH].
  state_norm. intros Hin.
  match goal with
  | |- context [if ?c then _ else _] => destruct c eqn:Hw
  end; intros E; injection E as _ <-; lia.
Qed.

Lemma pdp11_count_column_in_width (s s' : state) (u : unit) :
  in_print_width s = true ->
  Optimized.count_column s = Some (u, s') -> in_print_width s' = true.
Proof. exact (classic_count_column_in_width s s' u). Qed.

Lemma classic_print_string_in_width (t : string) (s s' : state) (u : unit) :
  in_print_width s = true ->
  Classic.print_string t s = Some (u, s') -> in_print_width s' = true.
Proof.
  revert s. induction t as [|c t IH]; intros s Hin E.
  - injection E as _ <-. exact Hin.
  - cbn [Classic.print_string] in E.
    apply bind_inv in E. destruct E as (u1 & s1 & E1 & E).
    apply bind_inv in E. destruct E as (u2 & s2 & E2 & E).
    apply (IH s2); [|exact E].
    assert (Hin1 : in_print_width s1 = true).
    { injection E1 as _ <-. destruct s; exact Hin. }
    destruct (Ascii.eqb c newline).
    + injection E2 as _ <-. destruct s1; reflexivity.
    + eapply classic_count_column_in_width; eassumption.
Qed.

Lemma pdp11_print_string_in_width (t : string) (s s' : state) (u : unit) :
  in_print_width s = true ->
  Optimized.print_string t s = Some (u, s') -> in_print_width s' = true.
Proof. exact (classic_print_string_in_width t s s' u). Qed.

Lemma classic_print_spaces_in_width (count : Z) (s s' : state) (u : unit) :
  in_print_width s = true ->
  Classic.print_spaces count s = Some (u, s') -> in_print_width s' = true.
Proof.
  unfold Classic.print_spaces. generalize (Z.to_nat count) as k.
  intros k. revert s. induction k as [|k IH]; intros s Hin E.
  - injection E as _ <-. exact Hin.
  - cbn [repeatM] in E.
    apply bind_inv in E. destruct E as (u1 & s1 & E1 & E).
    apply (IH s1); [|exact E].
    apply bind_inv in E1. destruct E1 as (u0 & s0 & E0 & E1).
    eapply classic_count_column_in_width; [|exact E1].
    injection E0 as _ <-. destruct s; exact Hin.
Qed.

Lemma pdp11_print_spaces_in_width (count : Z) (s s' : state) (u : unit) :
  in_print_width s = true ->
  Optimized.print_spaces count s = Some (u, s') -> in_print_width s' = true.
Proof. exact (classic_print_spaces_in_width count s s' u). Qed.

(** C3.  The numeric branch of [print_value] adds the length of the
    formatted number to the column without the wrap of the other paths.
    After the first statement of
    [10 PRINT "<78 characters>";12345; / 20 PRINT "X"]
    the column is 83 in both builds, the run is not halted and line 20 is
    the next to run; before that statement the column is inside the width. *)
Theorem print_column_leaves_width (b : build) :
  option_map in_print_width (ready b wide_program) = Some true /\
  option_map (fun s => (print_col s, in_print_width s, halted s, current_line s))
    (after_statements b wide_program 1) = Some (83, false, false, 1).
Proof. destruct b; split; vm_compute; reflexivity. Qed.
(* ===================================================================== *)
(** * The exit code                                                       *)
(* ===================================================================== *)

(** Every [exit] of the loader is [exit(1)]. *)
Lemma classic_load_lines_exit (fuel : nat) (file : string) (s s' : state) (c : Z) :
  Classic.load_lines fuel file s = Exited c s' -> c = 1.
Proof.
  revert file s. induction fuel as [|fuel IH]; intros file s; simpl; [discriminate|].
  destruct (CLib.fgets Classic.MAX_LINE_LEN file) as [[linebuf rest]|]; [|discriminate].
  repeat match goal with
         | |- context [if ?c then _ else _] => destruct c
         | |- context [match ?x with _ => _ end] => destruct x as [[? ?]|]
         end;
    try discriminate; try (intros E; injection E as <- _; reflexivity); try apply IH.
Qed.

Lemma pdp11_load_lines_exit (fuel : nat) (file : string) (s s' : state) (c : Z) :
  Optimized.load_lines fuel file s = Exited c s' -> c = 1.
Proof.
  revert file s. induction fuel as [|fuel IH]; intros file s; simpl; [discriminate|].
  destruct (CLib.fgets Optimized.MAX_LINE_LEN file) as [[linebuf rest]|]; [|discriminate].
  repeat match goal with
         | |- context [if ?c then _ else _] => destruct c
         | |- context [match ?x with _ => _ end] => destruct x as [[? ?]|]
         end;
    try discriminate; try (intros E; injection E as <- _; reflexivity); try apply IH.
Qed.

(** Programs that end by END, by STOP and by running off the last line. *)
Lemma normal_completion_exits_zero (b : build) :
  output_of b end_program "" 100%nat = Some (0, ln "A", "") /\
  output_of b stop_program "" 100%nat = Some (0, ln "A", "") /\
  output_of b plain_program "" 100%nat = Some (0, ln "A", "").
Proof. destruct b; repeat split; vm_compute; reflexivity. Qed.

(** A line without a number stops the load. *)
Lemma load_error_exits_one (b : build) :
  output_of b unnumbered_program "" 100%nat
  = Some (1, "", ln "Line missing number: PRINT 1").
Proof. destruct b; vm_compute; reflexivity. Qed.

(** C2, as amended.  When [main] returns, the exit code is 1 if no program
    path was given or the loader called [exit], and 0 in every other case:
    once the program is loaded the run always ends with code 0, also when a
    runtime error ended it. *)
Theorem exit_status (b : build) (H : host) (argv : list string)
    (fs : string -> option string) (input : string) (fuel : nat)
    (code : Z) (s : state) :
  main b H argv fs input fuel = Some (code, s) ->
  code = if run_takes_place b argv fs input then 0 else 1.
Proof.
  unfold main, run_takes_place, load_returns.
  destruct b; unfold Classic.main, Optimized.main;
    destruct argv as [|a0 [|path argv]]; try (intros E; injection E as <- _; reflexivity).
  - unfold Classic.load_program.
    destruct (fs path) as [content|]; [|intros E; injection E as <- _; reflexivity].
    destruct (Classic.load_lines _ content _) as [c s1|s1] eqn:El.
    + intros E; injection E as <- _. eapply classic_load_lines_exit, El.
    + destruct (Classic.run_program H fuel _) as [[? ?]|]; [|discriminate].
      intros E; injection E as <- _; reflexivity.
  - unfold Optimized.load_program.
    destruct (fs path) as [content|]; [|intros E; injection E as <- _; reflexivity].
    destruct (Optimized.load_lines _ content _) as [c s1|s1] eqn:El.
    + intros E; injection E as <- _. eapply pdp11_load_lines_exit, El.
    + destruct (bind _ _ _) as [[? ?]|]; [|discriminate].
      intros E; injection E as <- _; reflexivity.
Qed.

(** The program that ends with END, from [main] to its exit code. *)
Lemma exit_status_witness :
  0 = if run_takes_place ClassicBuild ["basic"; "prog.bas"]
         (one_file end_program) "" then 0 else 1.
Proof.
  refine (exit_status ClassicBuild RefHost.ref_host ["basic"; "prog.bas"]
            (one_file end_program) "" 100%nat 0
            (state_after (fun s => Classic.run_program RefHost.ref_host 100 s)
               (match loaded_state ClassicBuild end_program with
                | Some s => s
                | None => initial_state ""
                end)) _).
  vm_compute. reflexivity.
Defined.

(** A run that a runtime error ends: GOTO to a line that does not exist.
    The message is on the error stream and the exit code is 0. *)
Lemma runtime_error_exits_zero :
  output_of ClassicBuild missing_target_program "" 100%nat
  = Some (0, ln "A", ln "Error: Target line not found") /\
  output_of Pdp11Build missing_target_program "" 100%nat
  = Some (0, ln "A", ln "Error: Target line not found").
Proof. split; vm_compute; reflexivity. Qed.
(* ===================================================================== *)
(** * Subscripts                                                          *)
(* ===================================================================== *)

Lemma some_eq {A} (a b : A) : Some a = Some b -> a = b.
Proof. congruence. Qed.

(** Where the floor is not negative and fits an [int], the conversion of
    the code, which truncates, gives the floor. *)
Lemma subscript_of_is_floor (x : float) (k : Z) :
  floor_subscript x = Some k -> 0 <= k <= CLib.INT_MAX ->
  Classic.subscript_of x = k.
Proof.
  unfold floor_subscript, Classic.subscript_of, CLib.double_to_int.
  destruct (Prim2SF (x + Classic.epsilon)) as [sg| | |sg m e];
    cbn [CLib.floor_SF CLib.trunc_SF]; try discriminate.
  - intros E Hk. injection E as <-. reflexivity.
  - assert (Hpow : forall z, 0 < 2 ^ z \/ 2 ^ z = 0).
    { intros z. destruct (Z.le_gt_cases 0 z) as [Hz|Hz].
      - left. apply Z.pow_pos_nonneg; lia.
      - right. apply Z.pow_neg_r. exact Hz. }
    destruct (0 <=? e) eqn:He.
    + apply Z.leb_le in He.
      assert (0 < Z.pos m * 2 ^ e)
        by (apply Z.mul_pos_pos; [lia | apply Z.pow_pos_nonneg; lia]).
      destruct sg; intros E Hk; apply some_eq in E; subst k; [lia|].
      replace ((CLib.INT_MIN <=? _) && (_ <=? CLib.INT_MAX)) with true;
        [reflexivity|].
      symmetry. apply andb_true_iff. unfold CLib.INT_MIN, CLib.INT_MAX in *.
      split; apply Z.leb_le; lia.
    + apply Z.leb_gt in He.
      assert (Hd : 0 < 2 ^ (- e)) by (apply Z.pow_pos_nonneg; lia).
      destruct sg; intros E Hk; apply some_eq in E; subst k.
      * exfalso.
        assert (Z.neg m / 2 ^ (- e) < 0)
          by (apply Z.div_lt_upper_bound; lia).
        lia.
      * replace ((CLib.INT_MIN <=? _) && (_ <=? CLib.INT_MAX)) with true;
          [reflexivity|].
        symmetry. apply andb_true_iff. unfold CLib.INT_MIN, CLib.INT_MAX in *.
        split; apply Z.leb_le; lia.
Qed.

(** The array of a variable grown without clearing: where fresh heap cells
    hold the number 42, bsdbasic.c prints 42 for the element never
    assigned and basic.c, which clears the tail, prints 0. *)
Lemma grown_tail_is_not_cleared :
  option_map (fun r => stdout (snd r))
    (main ClassicBuild dirty_host ["basic"; "prog.bas"]
       (one_file growing_array_program) "" 100%nat) = Some (ln "42") /\
  option_map (fun r => stdout (snd r))
    (main Pdp11Build dirty_host ["basic"; "prog.bas"]
       (one_file growing_array_program) "" 100%nat) = Some (ln "0").
Proof. split; vm_compute; reflexivity. Qed.

(** C7.  The subscript is converted by the C cast, which truncates toward
    zero, not by [floor]: for the subscript -1 the floor of -1 + 0.00001 is
    -1 and the code computes 0, so [A(-1)] is element 0 and no error is
    raised.  The program [10 A(0)=7 : A(-1)=3 : PRINT A(0)] prints 3 in both
    builds, with nothing on the error stream. *)
Theorem negative_subscript_is_element_zero (b : build) :
  floor_subscript (-1)%float = Some (-1) /\
  Classic.subscript_of (-1)%float = 0 /\
  Optimized.subscript_of (-1)%float = 0 /\
  output_of b negative_subscript_program "" 100%nat = Some (0, ln "3", "").
Proof. destruct b; repeat split; vm_compute; reflexivity. Qed.

(* ===================================================================== *)
(** * Printing: what the column counter does                              *)
(* ===================================================================== *)

Lemma count_column_step (s : state) :
  in_print_width s = true ->
  exists s',
    Classic.count_column s = Some (tt, s') /\
    print_col s' = (print_col s + 1) mod 80 /\
    same_control s s'.
Proof.
  unfold in_print_width. intros Hin. destruct s.
  cbv [Classic.count_column bind gets fputc_stdout ret Classic.PRINT_WIDTH].
  state_norm. cbn [Machine.print_col] in Hin.
  match goal with
  | |- context [if ?c then _ else _] => destruct c eqn:Hw
  end; eexists; (split; [reflexivity|]); split;
    try (unfold same_control; cbn; repeat split; auto; fail).
  - match goal with
    | |- _ = (?x + 1) mod 80 => replace (x + 1) with 80 by lia
    end. reflexivity.
  - rewrite Z.mod_small by lia. reflexivity.
Qed.

Lemma repeat_count_column (k : nat) :
  forall s : state,
  in_print_width s = true ->
  exists s',
    repeatM k (bind (fputc_stdout " ") (fun _ => Classic.count_column)) s
    = Some (tt, s') /\
    print_col s' = (print_col s + Z.of_nat k) mod 80 /\
    same_control s s'.
Proof.
  induction k as [|k IH]; intros s Hin.
  - exists s. split; [reflexivity|]. split; [|apply same_control_refl].
    unfold in_print_width in Hin. rewrite Z.add_0_r, Z.mod_small by lia. reflexivity.
  - cbn [repeatM].
    set (s0 := set_stdout (stdout s ++ String " " "") s).
    assert (Hin0 : in_print_width s0 = true) by (destruct s; exact Hin).
    destruct (count_column_step s0 Hin0) as (s1 & E1 & Hc1 & Hk1).
    assert (Hin1 : in_print_width s1 = true).
    { unfold in_print_width. rewrite Hc1.
      pose proof (Z.mod_pos_bound (print_col s0 + 1) 80). lia. }
    destruct (IH s1 Hin1) as (s' & E' & Hc' & Hk').
    exists s'. split; [|split].
    + unfold bind at 1 2. unfold fputc_stdout at 1. unfold modify at 1.
      fold s0. rewrite E1. exact E'.
    + rewrite Hc', Hc1.
      replace (print_col s0) with (print_col s) by (destruct s; reflexivity).
      rewrite Zplus_mod_idemp_l. f_equal. lia.
    + eapply same_control_trans; [|exact Hk'].
      eapply same_control_trans; [|exact Hk1].
      destruct s; unfold same_control; cbn; repeat split; auto.
Qed.

(** X1.  [print_spaces] from a column inside the print width always
    returns, and leaves the column at (column + count) modulo 80 (a negative
    count prints nothing), so again inside the width; the program, the
    stacks and the current line are left alone.  For the count that PRINT
    uses at a comma the new column is a multiple of 10. *)
Theorem print_spaces_advances_column (b : build) (count : Z) (s : state) :
  in_print_width s = true ->
  exists s',
    print_spaces b count s = Some (tt, s') /\
    print_col s' = (print_col s + Z.max 0 count) mod 80 /\
    in_print_width s' = true /\
    same_control s s' /\
    (count = (Z.quot (print_col s) 10 + 1) * 10 - print_col s ->
     print_col s' mod 10 = 0).
Proof.
  intros Hin.
  destruct (repeat_count_column (Z.to_nat count) s Hin) as (s' & E & Hc & Hk).
  assert (Hcol : print_col s' = (print_col s + Z.max 0 count) mod 80).
  { rewrite Hc. f_equal. lia. }
  exists s'. split; [destruct b; exact E|].
  split; [exact Hcol|]. split; [|split; [exact Hk|]].
  - unfold in_print_width. rewrite Hcol.
    pose proof (Z.mod_pos_bound (print_col s + Z.max 0 count) 80). lia.
  - intros ->. rewrite Hcol. unfold in_print_width in Hin.
    replace (Z.max 0 _) with ((print_col s ÷ 10 + 1) * 10 - print_col s)
      by (pose proof (Z.quot_rem' (print_col s) 10);
          pose proof (Z.rem_bound_pos (print_col s) 10); lia).
    replace (print_col s + _) with ((print_col s ÷ 10 + 1) * 10) by lia.
    pose proof (Z.quot_pos (print_col s) 10).
    assert (0 <= print_col s ÷ 10 < 8).
    { split; [apply Z.quot_pos; lia|]. apply Z.quot_lt_upper_bound; lia. }
    assert (Hq : print_col s ÷ 10 = 0 \/ print_col s ÷ 10 = 1 \/ print_col s ÷ 10 = 2 \/
                 print_col s ÷ 10 = 3 \/ print_col s ÷ 10 = 4 \/ print_col s ÷ 10 = 5 \/
                 print_col s ÷ 10 = 6 \/ print_col s ÷ 10 = 7) by lia.
    destruct Hq as [->|[->|[->|[->|[->|[->|[->| ->]]]]]]]; reflexivity.
Qed.

(** The column 75, and the comma of PRINT from there. *)
Lemma print_spaces_advances_column_witness :
  exists s',
    print_spaces ClassicBuild 5 (set_print_col 75 (initial_state "")) = Some (tt, s') /\
    print_col s' = (print_col (set_print_col 75 (initial_state "")) + Z.max 0 5) mod 80 /\
    in_print_width s' = true /\
    same_control (set_print_col 75 (initial_state "")) s' /\
    (5 = (Z.quot (print_col (set_print_col 75 (initial_state ""))) 10 + 1) * 10
         - print_col (set_print_col 75 (initial_state "")) ->
     print_col s' mod 10 = 0).
Proof.
  apply (print_spaces_advances_column ClassicBuild 5 (set_print_col 75 (initial_state ""))).
  reflexivity.
Defined.

(** X2.  Printing a string value keeps the column inside the print width:
    [print_value] on a value of type string, started inside the width, ends
    inside the width, in both builds. *)
Theorem string_print_stays_in_width (b : build) (H : host) (v : value)
    (s s' : state) (u : unit) :
  vtype v = VAL_STR ->
  in_print_width s = true ->
  print_value b H v s = Some (u, s') ->
  in_print_width s' = true.
Proof.
  intros Hv Hin.
  destruct b; cbn [print_value]; unfold Classic.print_value, Optimized.print_value;
    rewrite Hv; cbn [value_type_eqb]; intros E.
  - eapply classic_print_string_in_width; eassumption.
  - eapply pdp11_print_string_in_width; eassumption.
Qed.

(** The string HELLO printed from column 78. *)
Lemma string_print_stays_in_width_witness :
  in_print_width
    (state_after (print_value ClassicBuild RefHost.ref_host (Classic.make_str "HELLO"))
                 (set_print_col 78 (initial_state ""))) = true.
Proof.
  apply (string_print_stays_in_width ClassicBuild RefHost.ref_host
           (Classic.make_str "HELLO") (set_print_col 78 (initial_state "")) _ tt);
    vm_compute; reflexivity.
Defined.

Lemma tab_target_in_width (x : float) : 0 <= tab_target x < 80.
Proof.
  unfold tab_target.
  pose proof (Z.rem_bound_abs (CLib.double_to_int x) 80).
  destruct (Z.ltb_spec (Z.rem (CLib.double_to_int x) 80) 0); lia.
Qed.

(** The column [TAB] stores, whatever the column was. *)
Lemma tab_column (x : float) (col : Z) :
  let target := Z.rem (CLib.double_to_int x) 80 in
  let target := if target <? 0 then target + 80 else target in
  let cur := if target <? col then 0 else col in
  (if cur <? target then target else cur) = tab_target x.
Proof.
  cbv zeta. fold (tab_target x).
  pose proof (tab_target_in_width x).
  destruct (Z.ltb_spec (tab_target x) col);
    match goal with |- (if ?c then _ else _) = _ => destruct c eqn:Hc end; lia.
Qed.

(** Replace the tests of [eval_function] on the name TAB by their values. *)
Ltac name_is_tab Hrun :=
  repeat match type of Hrun with
         | context [name_equals "TAB" ?k] =>
             let r := eval vm_compute in (name_equals "TAB" k) in
             change (name_equals "TAB" k) with r in Hrun
         end;
  cbv beta iota delta [orb] in Hrun.

Lemma print_col_set_print_col (c : Z) (s : state) :
  print_col (set_print_col c s) = c.
Proof. destruct s; reflexivity. Qed.

Lemma classic_tab_sets_column (H : host) (top : M value) (s s' : state) (v : value) :
  Classic.eval_function H top "TAB" s = Some (v, s') ->
  halted s' = false ->
  exists arg s1 s2,
    top s1 = Some (arg, s2) /\
    print_col s' = tab_target (num arg) /\
    v = Classic.make_str "".
Proof.
  unfold Classic.eval_function. intros Hrun Hlive.
  name_is_tab Hrun.
  run_split Hrun; run_prims.
  - apply classic_runtime_error_halts in E2. congruence.
  - do 3 eexists. split; [eassumption|]. split; [|reflexivity].
    rewrite print_col_set_print_col. apply tab_column.
Qed.

Lemma pdp11_tab_sets_column (H : host) (top : M value) (s s' : state) (v : value) :
  Optimized.eval_function H top "TAB" s = Some (v, s') ->
  halted s' = false ->
  exists arg s1 s2,
    top s1 = Some (arg, s2) /\
    print_col s' = tab_target (num arg) /\
    v = Optimized.make_str "".
Proof.
  unfold Optimized.eval_function. intros Hrun Hlive.
  name_is_tab Hrun.
  run_split Hrun; run_prims.
  - apply pdp11_runtime_error_halts in E2. congruence.
  - do 3 eexists. split; [eassumption|]. split; [|reflexivity].
    rewrite print_col_set_print_col. apply tab_column.
Qed.

(** X3.  [TAB(x)] that returns without an error leaves the print column at
    [(int)x] modulo 80, made non-negative, whatever the column was before
    (also when a number had pushed it past the width), and its value is the
    empty string. *)
Theorem tab_sets_column (b : build) (H : host) (top : M value)
    (s s' : state) (v : value) :
  eval_function b H top "TAB" s = Some (v, s') ->
  halted s' = false ->
  exists arg s1 s2,
    top s1 = Some (arg, s2) /\
    print_col s' = tab_target (num arg) /\
    in_print_width s' = true /\
    v = make_str b "".
Proof.
  intros Hrun Hlive.
  assert (Hcore : exists arg s1 s2,
             top s1 = Some (arg, s2) /\
             print_col s' = tab_target (num arg) /\ v = make_str b "").
  { destruct b; [eapply classic_tab_sets_column | eapply pdp11_tab_sets_column];
      eassumption. }
  destruct Hcore as (arg & s1 & s2 & Htop & Hcol & Hv).
  exists arg, s1, s2. repeat split; try assumption.
  unfold in_print_width. rewrite Hcol.
  pose proof (tab_target_in_width (num arg)). lia.
Qed.

(** [TAB(-3)] from column 83. *)
Lemma tab_sets_column_witness :
  exists arg s1 s2,
    ret (Classic.make_num (-3)) s1 = Some (arg, s2) /\
    print_col (state_after (eval_function ClassicBuild RefHost.ref_host
                              (ret (Classic.make_num (-3))) "TAB")
                 (set_print_col 83 (at_text "TAB(-3)")))
    = tab_target (num arg) /\
    in_print_width (state_after (eval_function ClassicBuild RefHost.ref_host
                                   (ret (Classic.make_num (-3))) "TAB")
                      (set_print_col 83 (at_text "TAB(-3)"))) = true /\
    Classic.make_str "" = make_str ClassicBuild "".
Proof.
  apply (tab_sets_column ClassicBuild RefHost.ref_host (ret (Classic.make_num (-3)))
           (set_print_col 83 (at_text "TAB(-3)")));
    vm_compute; reflexivity.
Defined.

(* ===================================================================== *)
(** * String values                                                       *)
(* ===================================================================== *)

Lemma length_cstr (s : string) : (String.length (CLib.cstr s) <= String.length s)%nat.
Proof.
  induction s as [|c s IH]; simpl; [lia|].
  destruct (Ascii.eqb c CLib.NUL); simpl; lia.
Qed.

Lemma cstr_cstr (s : string) : CLib.cstr (CLib.cstr s) = CLib.cstr s.
Proof.
  induction s as [|c s IH]; simpl; [reflexivity|].
  destruct (Ascii.eqb c CLib.NUL) eqn:E; simpl; [reflexivity|].
  rewrite E, IH. reflexivity.
Qed.

Lemma length_append (a b : string) :
  String.length (a ++ b) = (String.length a + String.length b)%nat.
Proof. induction a as [|c a IH]; simpl; [reflexivity | rewrite IH; reflexivity]. Qed.

(** X4.  A string value never exceeds its buffer: what [make_str] stores
    is a C string of at most [MAX_STR_LEN - 1] characters, and the [strncat]
    of [+] on two strings, with the room the code computes, keeps a left
    operand that fits within [MAX_STR_LEN - 1] characters. *)
Theorem string_values_fit (b : build) :
  (forall t : string,
     CLib.strlen (str (make_str b t)) <= MAX_STR_LEN b - 1 /\
     CLib.cstr (str (make_str b t)) = str (make_str b t)) /\
  (forall l r : value,
     CLib.strlen (str l) <= MAX_STR_LEN b - 1 ->
     CLib.strlen (CLib.strncat (str l) (str r)
                    (MAX_STR_LEN b - CLib.strlen (str l) - 1))
     <= MAX_STR_LEN b - 1) /\
  (forall l r : value,
     CLib.strlen (str l) <= Classic.MAX_STR_LEN - 1 ->
     CLib.strlen (str (Classic.concat_values l r)) <= Classic.MAX_STR_LEN - 1).
Proof.
  assert (Hcat : forall cap (l r : value),
            CLib.strlen (str l) <= cap - 1 ->
            CLib.strlen (CLib.strncat (str l) (str r) (cap - CLib.strlen (str l) - 1))
            <= cap - 1).
  { intros cap l r Hl. unfold CLib.strncat, CLib.strlen in *.
    rewrite length_append, length_take. lia. }
  split; [|split].
  - intros t.
    assert (Hm : forall cap, CLib.strlen (CLib.take (Z.to_nat (cap - 1)) (CLib.cstr t))
                             <= Z.max 0 (cap - 1)).
    { intros cap. unfold CLib.strlen. rewrite length_take. lia. }
    destruct b; cbn [make_str MAX_STR_LEN];
      unfold Classic.make_str, Optimized.make_str; cbn [str]; split;
      try (apply cstr_take, cstr_cstr).
    + specialize (Hm Classic.MAX_STR_LEN). unfold Classic.MAX_STR_LEN in *. lia.
    + specialize (Hm Optimized.MAX_STR_LEN). unfold Optimized.MAX_STR_LEN in *. lia.
  - intros l r. apply Hcat.
  - intros l r Hl. unfold Classic.concat_values.
    destruct l as [ty x t]; cbn [with_str str] in *.
    apply (Hcat Classic.MAX_STR_LEN (mk_value ty x t) r). exact Hl.
Qed.

(** ** LEFT$ and RIGHT$ *)

Lemma classic_left_right_value (s : string) (n : Z) :
  CLib.cstr s = s ->
  CLib.strlen s <= Classic.MAX_STR_LEN - 1 ->
  0 <= n <= CLib.strlen s ->
  Classic.concat_values
    (Classic.fn_left s n)
    (Classic.make_str (Classic.right_str s (CLib.strlen s - n)))
  = Classic.make_str s.
Proof.
  intros Hc Hlen Hn.
  unfold Classic.concat_values, Classic.fn_left.
  rewrite classic_left_str_take, classic_right_str_drop by exact Hn.
  assert (Hs : str (Classic.make_str s) = s) by (apply classic_make_str_id; assumption).
  assert (Hl : str (Classic.make_str (CLib.take (Z.to_nat n) s)) = CLib.take (Z.to_nat n) s).
  { apply classic_make_str_id.
    - apply cstr_take, Hc.
    - unfold CLib.strlen in *. rewrite length_take. lia. }
  assert (Hr : str (Classic.make_str (CLib.drop (Z.to_nat n) s)) = CLib.drop (Z.to_nat n) s).
  { apply classic_make_str_id.
    - apply cstr_drop, Hc.
    - unfold CLib.strlen in *. rewrite length_drop. lia. }
  rewrite Hl, Hr. unfold CLib.strncat.
  rewrite (take_all _ (CLib.drop (Z.to_nat n) s)).
  - rewrite take_drop.
    unfold with_str, Classic.make_str. cbn [vtype num]. f_equal.
    symmetry. exact Hs.
  - unfold CLib.strlen, Classic.MAX_STR_LEN in *.
    rewrite length_take, length_drop. lia.
Qed.

(** X5.  The expression [LEFT$(e1,e2)+RIGHT$(e3,e4)], evaluated by
    [eval_expr]: when [e1] and [e3] evaluate to the same string [s] (a C
    string that fits the value buffer), [e2] to a number whose integer part
    [n] lies in [0 .. LEN(s)] and [e4] to a number whose integer part is
    [LEN(s) - n], and no operator follows the call of RIGHT$, the value of
    the expression is the string value [s], and the cursor is behind the
    expression. *)
Theorem left_right_rejoin (H : host) (n : nat) (s s1 s2 s3 s4 : state)
    (p1 p2 p3 p4 rest : string) (a lenv b cnt : value) :
  Classic.eval_or_expr H (S n) (at_cursor p1 s) = Some (a, s1) ->
  cursor s1 = "," ++ p2 ->
  Classic.eval_or_expr H (S n) (at_cursor p2 s1) = Some (lenv, s2) ->
  cursor s2 = ")+RIGHT$(" ++ p3 ->
  Classic.eval_or_expr H n (at_cursor p3 s2) = Some (b, s3) ->
  cursor s3 = "," ++ p4 ->
  Classic.eval_or_expr H n (at_cursor p4 s3) = Some (cnt, s4) ->
  cursor s4 = ")" ++ rest ->
  ends_expression rest = true ->
  vtype a = VAL_STR -> vtype lenv = VAL_NUM ->
  vtype b = VAL_STR -> vtype cnt = VAL_NUM ->
  str b = str a ->
  CLib.cstr (str a) = str a ->
  CLib.strlen (str a) <= Classic.MAX_STR_LEN - 1 ->
  0 <= CLib.double_to_int (num lenv) <= CLib.strlen (str a) ->
  CLib.double_to_int (num cnt)
  = CLib.strlen (str a) - CLib.double_to_int (num lenv) ->
  Classic.eval_expr H (5 + n) (at_cursor ("LEFT$(" ++ p1) s)
  = Some (Classic.make_str (str a), at_cursor (skip_spaces_str rest) s4).
Proof.
  intros Ha Hc1 Hl Hc2 Hb Hc3 Hst Hc4 Hend Hta Htl Htb Hts Hba Hcs Hlen Hn Hcnt.
  pose proof (classic_call_left H (Classic.eval_or_expr H (S n))
                (Classic.eval_factor H (S n)) s s1 s2 p1 p2 ("+RIGHT$(" ++ p3) a lenv
                Ha Hta Hc1 Hl Htl Hc2) as Hleft.
  pose proof (classic_call_right H (Classic.eval_or_expr H n)
                (Classic.eval_factor H n) s2 s3 s4 p3 p4 rest b cnt
                Hb Htb Hc3 Hst Hts Hc4) as Hright.
  unfold ends_expression in Hend. apply negb_true_iff in Hend.
  apply orb_false_elim in Hend as [Hops Hsign].
  pose proof (classic_term_of_factor H (S (S n)) (at_cursor ("LEFT$(" ++ p1) s)
                _ _ Hleft eq_refl) as Tl.
  pose proof (classic_term_of_factor H (S n) (at_cursor ("RIGHT$(" ++ p3) s2)
                _ _ Hright Hops) as Tr.
  change (5 + n)%nat with (S (S (S (S (S n))))).
  rewrite (classic_sum_of_strings H (S (S n)) _ _ _ _ _ Tl eq_refl Tr eq_refl eq_refl).
  - rewrite Hba, Hcnt, classic_left_right_value by assumption.
    rewrite skip_spaces_st_idem, skip_spaces_at. reflexivity.
  - rewrite cursor_skip_spaces_st, cursor_at, skip_spaces_str_idem. exact Hsign.
Qed.

(** HELLO split after its second character. *)
Lemma left_right_rejoin_witness :
  Classic.eval_expr RefHost.ref_host 25
    (at_text "LEFT$(`HELLO`,2)+RIGHT$(`HELLO`,3)")
  = Some (Classic.make_str "HELLO", at_cursor "" (initial_state "")).
Proof.
  refine (left_right_rejoin RefHost.ref_host 20 (initial_state "")
            (at_cursor (requote ",2)+RIGHT$(`HELLO`,3)") (initial_state ""))
            (at_cursor (requote ")+RIGHT$(`HELLO`,3)") (initial_state ""))
            (at_cursor ",3)" (initial_state ""))
            (at_cursor ")" (initial_state ""))
            (requote "`HELLO`,2)+RIGHT$(`HELLO`,3)") (requote "2)+RIGHT$(`HELLO`,3)")
            (requote "`HELLO`,3)") "3)" ""
            (Classic.make_str "HELLO") (Classic.make_num 2)
            (Classic.make_str "HELLO") (Classic.make_num 3)
            _ _ _ _ _ _ _ _ _ _ _ _ _ _ _ _ _ _).
  all: try (vm_compute; reflexivity).
  all: vm_compute; try split; discriminate.
Defined.

(** ** The edges of the arguments *)

Lemma classic_left_low (s : string) (n : Z) :
  n <= 0 -> str (Classic.fn_left s n) = "".
Proof.
  intros Hn. unfold Classic.fn_left, Classic.left_str.
  assert (Hnonneg : 0 <= CLib.strlen s) by (unfold CLib.strlen; lia).
  destruct (Z.ltb_spec n 0).
  - destruct (Z.ltb_spec (CLib.strlen s) 0); [lia|]. reflexivity.
  - assert (n = 0) as -> by lia.
    destruct (Z.ltb_spec (CLib.strlen s) 0); [lia|]. reflexivity.
Qed.

Lemma classic_left_high (s : string) (n : Z) :
  CLib.cstr s = s -> CLib.strlen s <= Classic.MAX_STR_LEN - 1 ->
  CLib.strlen s <= n -> str (Classic.fn_left s n) = s.
Proof.
  intros Hc Hlen Hn.
  assert (Hs : str (Classic.make_str s) = s) by (apply classic_make_str_id; assumption).
  assert (Hnonneg : 0 <= CLib.strlen s) by (unfold CLib.strlen; lia).
  unfold Classic.fn_left, Classic.left_str.
  destruct (Z.ltb_spec n 0); [lia|].
  destruct (Z.ltb_spec (CLib.strlen s) n).
  - rewrite take_all by (unfold CLib.strlen; lia). exact Hs.
  - assert (n = CLib.strlen s) as -> by lia.
    rewrite take_all by (unfold CLib.strlen; lia). exact Hs.
Qed.

Lemma classic_right_low (s : string) (n : Z) :
  n <= 0 -> str (Classic.make_str (Classic.right_str s n)) = "".
Proof.
  intros Hn. unfold Classic.right_str.
  assert (Hnonneg : 0 <= CLib.strlen s) by (unfold CLib.strlen; lia).
  assert (Hz : (if CLib.strlen s <? (if n <? 0 then 0 else n)
                then CLib.strlen s else if n <? 0 then 0 else n) = 0).
  { destruct (Z.ltb_spec n 0).
    - destruct (Z.ltb_spec (CLib.strlen s) 0); lia.
    - destruct (Z.ltb_spec (CLib.strlen s) n); lia. }
  cbv zeta. rewrite Hz, Z.sub_0_r.
  unfold CLib.strlen. rewrite Nat2Z.id, drop_all. reflexivity.
Qed.

Lemma classic_right_high (s : string) (n : Z) :
  CLib.cstr s = s -> CLib.strlen s <= Classic.MAX_STR_LEN - 1 ->
  CLib.strlen s <= n -> str (Classic.make_str (Classic.right_str s n)) = s.
Proof.
  intros Hc Hlen Hn.
  assert (Hs : str (Classic.make_str s) = s) by (apply classic_make_str_id; assumption).
  assert (Hnonneg : 0 <= CLib.strlen s) by (unfold CLib.strlen; lia).
  unfold Classic.right_str.
  assert (Hz : (if CLib.strlen s <? (if n <? 0 then 0 else n)
                then CLib.strlen s else if n <? 0 then 0 else n) = CLib.strlen s).
  { destruct (Z.ltb_spec n 0); [lia|].
    destruct (Z.ltb_spec (CLib.strlen s) n); lia. }
  cbv zeta. rewrite Hz, Z.sub_diag. exact Hs.
Qed.

Lemma classic_mid_past (s : string) (start len : Z) :
  CLib.strlen s < start -> str (Classic.fn_mid s start len) = "".
Proof.
  intros Hst. unfold Classic.fn_mid, Classic.mid_str.
  assert (Hnonneg : 0 <= CLib.strlen s) by (unfold CLib.strlen; lia).
  destruct (Z.ltb_spec start 1); [lia|].
  destruct (Z.leb_spec (CLib.strlen s) (start - 1)); [reflexivity | lia].
Qed.

Lemma classic_mid_low (s : string) (start : Z) :
  CLib.cstr s = s -> CLib.strlen s <= Classic.MAX_STR_LEN - 1 ->
  start <= 1 -> str (Classic.fn_mid s start (CLib.strlen s)) = s.
Proof.
  intros Hc Hlen Hst.
  assert (Hnonneg : 0 <= CLib.strlen s) by (unfold CLib.strlen; lia).
  assert (E : Classic.mid_str s start (CLib.strlen s)
              = Classic.mid_str s (0 + 1) (CLib.strlen s)).
  { unfold Classic.mid_str. destruct (Z.ltb_spec start 1); [reflexivity|].
    replace start with 1 by lia. reflexivity. }
  unfold Classic.fn_mid. rewrite E, classic_mid_str_rest by lia.
  apply classic_make_str_id; assumption.
Qed.

(** [MID$] from the first character is [LEFT$]. *)
Lemma classic_mid_is_left (s : string) (start len : Z) :
  CLib.strlen s <= Classic.MAX_STR_LEN - 1 ->
  start <= 1 -> CLib.INT_MIN <= len <= CLib.INT_MAX ->
  Classic.mid_overruns s start len = false /\
  Classic.fn_mid s start len = Classic.fn_left s len.
Proof.
  intros Hlen Hst Hl.
  assert (Hnonneg : 0 <= CLib.strlen s) by (unfold CLib.strlen; lia).
  unfold Classic.mid_overruns, Classic.fn_mid, Classic.mid_str, Classic.fn_left,
    Classic.left_str.
  assert (Hz : (if start <? 1 then 1 else start) - 1 = 0)
    by (destruct (Z.ltb_spec start 1); lia).
  cbv zeta. rewrite Hz.
  destruct (Z.leb_spec (CLib.strlen s) 0).
  - split; [reflexivity|].
    assert (He : s = "") by (destruct s; [reflexivity | unfold CLib.strlen in *; simpl in *; lia]).
    subst s. destruct (Z.to_nat _); reflexivity.
  - rewrite Z.add_0_l, wrap32_id
      by (destruct (Z.ltb_spec len 0); unfold CLib.INT_MIN, CLib.INT_MAX in *; lia).
    cbn [Z.to_nat CLib.drop]. unfold Classic.MAX_STR_LEN in *.
    destruct (Z.ltb_spec (CLib.strlen s) (if len <? 0 then 0 else len)).
    + replace (CLib.strlen s - 0) with (CLib.strlen s) by lia.
      split; [apply Z.leb_gt; lia | reflexivity].
    + split; [apply Z.leb_gt; lia | reflexivity].
Qed.

(** X6.  The string functions at the edges of their arguments, as
    [eval_factor] evaluates the calls.  For a call with a string [s] (a C
    string that fits the value buffer) and a number whose integer part is
    [k]: LEFT$, RIGHT$ and MID$ all return a value and leave the cursor
    behind the closing parenthesis; for [k <= 0] LEFT$ and RIGHT$ give the
    empty string and MID$ the whole of [s]; for [k >= LEN(s)] LEFT$ and
    RIGHT$ give the whole of [s]; for [k > LEN(s)] MID$ gives the empty
    string.  And a call of MID$ with three arguments whose start is 1 or
    less returns what LEFT$ returns for the same count. *)
Theorem string_functions_clamp (H : host) (n : nat) :
  (forall (s s1 s2 : state) (p1 p2 rest : string) (a cnt : value),
     Classic.eval_or_expr H n (at_cursor p1 s) = Some (a, s1) ->
     cursor s1 = "," ++ p2 ->
     Classic.eval_or_expr H n (at_cursor p2 s1) = Some (cnt, s2) ->
     cursor s2 = ")" ++ rest ->
     vtype a = VAL_STR -> vtype cnt = VAL_NUM ->
     CLib.cstr (str a) = str a ->
     CLib.strlen (str a) <= Classic.MAX_STR_LEN - 1 ->
     exists l r m : value,
       Classic.eval_factor H (S n) (at_cursor ("LEFT$(" ++ p1) s)
       = Some (l, at_cursor rest s2) /\
       Classic.eval_factor H (S n) (at_cursor ("RIGHT$(" ++ p1) s)
       = Some (r, at_cursor rest s2) /\
       Classic.eval_factor H (S n) (at_cursor ("MID$(" ++ p1) s)
       = Some (m, at_cursor rest s2) /\
       (CLib.double_to_int (num cnt) <= 0 ->
        str l = "" /\ str r = "" /\ str m = str a) /\
       (CLib.strlen (str a) <= CLib.double_to_int (num cnt) ->
        str l = str a /\ str r = str a) /\
       (CLib.strlen (str a) < CLib.double_to_int (num cnt) -> str m = "")) /\
  (forall (s s1 s2 s3 : state) (p1 p2 p3 rest : string) (a startv lenv : value),
     Classic.eval_or_expr H n (at_cursor p1 s) = Some (a, s1) ->
     cursor s1 = "," ++ p2 ->
     Classic.eval_or_expr H n (at_cursor p2 s1) = Some (startv, s2) ->
     cursor s2 = "," ++ p3 ->
     Classic.eval_or_expr H n (at_cursor p3 s2) = Some (lenv, s3) ->
     cursor s3 = ")" ++ rest ->
     vtype a = VAL_STR -> vtype startv = VAL_NUM -> vtype lenv = VAL_NUM ->
     CLib.strlen (str a) <= Classic.MAX_STR_LEN - 1 ->
     CLib.double_to_int (num startv) <= 1 ->
     Classic.eval_factor H (S n) (at_cursor ("MID$(" ++ p1) s)
     = Some (Classic.fn_left (str a) (CLib.double_to_int (num lenv)),
             at_cursor rest s3)).
Proof.
  split.
  - intros s s1 s2 p1 p2 rest a cnt Ha Hc1 Hk Hc2 Hta Htk Hcs Hlen.
    exists (Classic.fn_left (str a) (CLib.double_to_int (num cnt))),
           (Classic.make_str (Classic.right_str (str a) (CLib.double_to_int (num cnt)))),
           (Classic.fn_mid (str a) (CLib.double_to_int (num cnt)) (CLib.strlen (str a))).
    cbn [Classic.eval_factor].
    split; [apply classic_call_left with (s1 := s1) (p2 := p2); assumption|].
    split; [apply classic_call_right with (s1 := s1) (p2 := p2); assumption|].
    split; [apply classic_call_mid_rest with (s1 := s1) (p2 := p2); assumption|].
    split; [|split].
    + intros Hlow. split; [apply classic_left_low; exact Hlow|].
      split; [apply classic_right_low; exact Hlow|].
      apply classic_mid_low; [assumption | assumption | lia].
    + intros Hhigh.
      split; [apply classic_left_high | apply classic_right_high]; assumption.
    + apply classic_mid_past.
  - intros s s1 s2 s3 p1 p2 p3 rest a startv lenv Ha Hc1 Hst Hc2 Hl Hc3
      Hta Hts Htl Hlen Hlow.
    cbn [Classic.eval_factor].
    rewrite (classic_call_mid H _ _ s s1 s2 s3 p1 p2 p3 rest a startv lenv)
      by assumption.
    destruct (classic_mid_is_left (str a) (CLib.double_to_int (num startv))
                (CLib.double_to_int (num lenv)) Hlen Hlow
                (double_to_int_range _)) as [-> ->].
    reflexivity.
Qed.

(** The calls on HELLO with a count of 9. *)
Lemma string_functions_clamp_witness :
  exists l r m : value,
    Classic.eval_factor RefHost.ref_host 21 (at_text "LEFT$(`HELLO`,9)")
    = Some (l, at_cursor "" (initial_state "")) /\
    Classic.eval_factor RefHost.ref_host 21 (at_text "RIGHT$(`HELLO`,9)")
    = Some (r, at_cursor "" (initial_state "")) /\
    Classic.eval_factor RefHost.ref_host 21 (at_text "MID$(`HELLO`,9)")
    = Some (m, at_cursor "" (initial_state "")) /\
    str l = "HELLO" /\ str r = "HELLO" /\ str m = "".
Proof.
  destruct (proj1 (string_functions_clamp RefHost.ref_host 20) (initial_state "")
              (at_cursor ",9)" (initial_state "")) (at_cursor ")" (initial_state ""))
              (requote "`HELLO`,9)") "9)" ""
              (Classic.make_str "HELLO") (Classic.make_num 9)
              ltac:(vm_compute; reflexivity) eq_refl
              ltac:(vm_compute; reflexivity) eq_refl eq_refl eq_refl eq_refl
              ltac:(vm_compute; discriminate))
    as (l & r & m & Hl & Hr & Hm & _ & Hhigh & Hpast).
  exists l, r, m.
  split; [exact Hl|]. split; [exact Hr|]. split; [exact Hm|].
  destruct Hhigh as [El Er]; [vm_compute; discriminate|].
  split; [exact El|]. split; [exact Er|].
  apply Hpast. vm_compute. reflexivity.
Defined.

(* ===================================================================== *)
(** * Identifiers and names                                               *)
(* ===================================================================== *)

Lemma read_identifier_str_spec (room : nat) :
  forall p : string,
  let (name, rest) := read_identifier_str room p in
  name ++ rest = p /\
  (String.length name <= room)%nat /\
  all_chars is_identifier_char name = true /\
  ((String.length name < room)%nat -> is_identifier_char (CLib.peek rest) = false).
Proof.
  induction room as [|room IH]; intros p.
  - simpl. repeat split; auto. lia.
  - destruct p as [|c p]; simpl.
    + repeat split; auto. lia.
    + fold (is_identifier_char c).
      destruct (is_identifier_char c) eqn:Hc.
      * specialize (IH p). destruct (read_identifier_str room p) as [name rest].
        destruct IH as (Ha & Hb & Hc' & Hd).
        simpl. rewrite Ha, Hc, Hc'. repeat split; auto; try lia.
        intros Hlt. apply Hd. lia.
      * simpl. repeat split; auto; lia.
Qed.

(** X7.  [read_identifier] never overruns its buffer and loses no text:
    the name it stores, followed by the text the cursor is left at, is the
    text the cursor was at; the name has at most [buf_size - 1] characters,
    all of them letters, digits or [$]; and when the name is shorter than
    that, the character under the cursor is none of these.  Nothing but the
    cursor is changed. *)
Theorem read_identifier_fits (b : build) (buf_size : Z) (s : state) :
  exists name s',
    read_identifier b buf_size s = Some (name, s') /\
    (name ++ cursor s')%string = cursor s /\
    CLib.strlen name <= Z.max 0 (buf_size - 1) /\
    all_chars is_identifier_char name = true /\
    (CLib.strlen name < buf_size - 1 ->
     is_identifier_char (CLib.peek (cursor s')) = false) /\
    s' = set_statement_pos (Some (cursor s')) s.
Proof.
  pose proof (read_identifier_str_spec (Z.to_nat (buf_size - 1)) (cursor s)) as Hspec.
  destruct (read_identifier_str (Z.to_nat (buf_size - 1)) (cursor s))
    as [name rest] eqn:Hread.
  destruct Hspec as (Ha & Hb & Hc & Hd).
  exists name, (set_statement_pos (Some rest) s).
  assert (Hcur : cursor (set_statement_pos (Some rest) s) = rest)
    by (destruct s; reflexivity).
  rewrite Hcur.
  split; [|split; [exact Ha | split; [|split; [exact Hc | split]]]].
  - destruct b; cbn [read_identifier];
      unfold Classic.read_identifier, Optimized.read_identifier;
      rewrite bind_run_get, Hread; reflexivity.
  - unfold CLib.strlen. lia.
  - intros Hlt. apply Hd. unfold CLib.strlen in Hlt. lia.
  - reflexivity.
Qed.

Lemma last_char_tail (c1 c2 : ascii) (t : string) :
  t <> "" -> last_char (String c1 (String c2 t)) = last_char t.
Proof.
  intros Ht. unfold last_char, CLib.peek_at.
  destruct t as [|c3 t]; [contradiction|].
  cbn [String.length]. rewrite !Nat.sub_succ, !Nat.sub_0_r. reflexivity.
Qed.

(** X8.  Only the first two characters of a name, in upper case, and a
    final [$] are significant: a name of three characters or more has the
    key (first letter, second character, ends in [$]); a name of two
    characters has the second character in its key unless that is the [$];
    a name of one letter has a blank second character. *)
Theorem names_use_two_characters (b : build) (c1 c2 : ascii) (t : string) :
  (t <> "" ->
   uppercase_name b (String c1 (String c2 t))
   = (CLib.toupper c1, CLib.toupper c2, Ascii.eqb (last_char t) "$")) /\
  (c2 <> "$"%char ->
   uppercase_name b (String c1 (String c2 ""))
   = (CLib.toupper c1, CLib.toupper c2, false)) /\
  uppercase_name b (String c1 (String "$" "")) = (CLib.toupper c1, " "%char, true) /\
  (c1 <> "$"%char ->
   uppercase_name b (String c1 "") = (CLib.toupper c1, " "%char, false)).
Proof.
  split; [|split; [|split]].
  - intros Ht.
    destruct b; cbn [uppercase_name];
      unfold Classic.uppercase_name, Optimized.uppercase_name;
      rewrite (last_char_tail c1 c2 t Ht);
      destruct t as [|c3 t]; try contradiction;
      cbn [String.length]; destruct (Ascii.eqb (last_char (String c3 t)) "$");
      reflexivity.
  - intros Hc2. apply Ascii.eqb_neq in Hc2.
    destruct b; cbn [uppercase_name];
      unfold Classic.uppercase_name, Optimized.uppercase_name, last_char;
      cbn [String.length Nat.sub CLib.peek_at CLib.drop CLib.peek Nat.ltb Nat.leb andb];
      rewrite Hc2; reflexivity.
  - destruct b; reflexivity.
  - intros Hc1. apply Ascii.eqb_neq in Hc1.
    destruct b; cbn [uppercase_name];
      unfold Classic.uppercase_name, Optimized.uppercase_name, last_char;
      cbn [String.length Nat.sub CLib.peek_at CLib.drop CLib.peek Nat.ltb Nat.leb andb];
      rewrite Hc1; reflexivity.
Qed.

(** X9.  In basic.c a text that starts with [STR$] or [CHR$] is not a call
    of an intrinsic function: the test of [eval_factor] asks for a
    delimiter after [STR] and [CHR], and [$] is none in that file.  The two
    functions are reached as [STR(] and [CHR(]: a program that prints
    CHR$(65) and a dot prints only the dot there, and A and the dot with
    CHR(65).  In bsdbasic.c the names with [$] are calls, and the same
    program prints A and the dot. *)
Theorem dollar_functions_unreachable_on_pdp11 (rest : string) :
  Optimized.is_function_name ("STR$" ++ rest) = false /\
  Optimized.is_function_name ("CHR$" ++ rest) = false /\
  Optimized.is_function_name ("STR(" ++ rest) = true /\
  Optimized.is_function_name ("CHR(" ++ rest) = true /\
  Classic.is_function_name ("STR$" ++ rest) = true /\
  Classic.is_function_name ("CHR$" ++ rest) = true /\
  output_of Pdp11Build chr_dollar_program "" 100%nat = Some (0, ln ".", "") /\
  output_of Pdp11Build chr_program "" 100%nat = Some (0, ln "A.", "") /\
  output_of ClassicBuild chr_dollar_program "" 100%nat = Some (0, ln "A.", "").
Proof.
  repeat match goal with |- _ /\ _ => split end;
    try reflexivity; vm_compute; reflexivity.
Qed.

(* ===================================================================== *)
(** * GOSUB, RETURN and the stacks                                        *)
(* ===================================================================== *)

Lemma classic_gosub_return (s : state) :
  gosub_top s < Classic.MAX_GOSUB ->
  let p := skip_spaces_str (cursor s) in
  let k := linear_lookup (program_lines s) (CLib.atoi p) in
  0 <= k ->
  exists s1 s2,
    Classic.statement_gosub s = Some (tt, s1) /\
    current_line s1 = k /\ statement_pos s1 = None /\ halted s1 = halted s /\
    gosub_top s1 = gosub_top s + 1 /\
    Classic.statement_return s1 = Some (tt, s2) /\
    gosub_stack s2 = gosub_stack s /\ current_line s2 = current_line s /\
    statement_pos s2 = Some (CLib.drop (span_digits p) p) /\
    halted s2 = halted s /\ vars s2 = vars s /\ for_stack s2 = for_stack s /\
    program_lines s2 = program_lines s.
Proof.
  intros Htop p k Hk.
  unfold Classic.statement_gosub, bind, get.
  destruct (Z.leb_spec Classic.MAX_GOSUB (gosub_top s)) as [Hge|_]; [lia|].
  cbn. fold p. fold (linear_lookup (program_lines s) (CLib.atoi p)). fold k.
  destruct (Z.ltb_spec k 0) as [Hneg|_]; [lia|].
  unfold gosub_top in *. destruct s; cbn in *.
  eexists. eexists. split; [reflexivity|].
  cbn. repeat split; try reflexivity. lia.
Qed.

Lemma pdp11_gosub_return (s : state) :
  gosub_top s < Optimized.MAX_GOSUB ->
  increasing (program_lines s) -> numbers_in_range (program_lines s) -> cache_ok s ->
  let p := skip_spaces_str (cursor s) in
  let k := linear_lookup (program_lines s) (CLib.atoi p) in
  0 <= k ->
  exists s1 s2,
    Optimized.statement_gosub s = Some (tt, s1) /\
    current_line s1 = k /\ statement_pos s1 = None /\ halted s1 = halted s /\
    gosub_top s1 = gosub_top s + 1 /\
    Optimized.statement_return s1 = Some (tt, s2) /\
    gosub_stack s2 = gosub_stack s /\ current_line s2 = current_line s /\
    statement_pos s2 = Some (CLib.drop (span_digits p) p) /\
    halted s2 = halted s /\ vars s2 = vars s /\ for_stack s2 = for_stack s /\
    program_lines s2 = program_lines s.
Proof.
  intros Htop Hs Hnn Hc p k Hk.
  unfold Optimized.statement_gosub, bind, get.
  destruct (Z.leb_spec Optimized.MAX_GOSUB (gosub_top s)) as [Hge|_]; [lia|].
  unfold Optimized.skip_spaces, Optimized.skip_digits, modify.
  set (s1 := set_gosub_stack _ _).
  destruct (find_line_index_refines s1 (CLib.atoi p)) as [s2 [Hfind [Hpl [_ Hs2]]]].
  { exact Hs. } { exact Hnn. }
  { destruct s; exact Hc. }
  change (program_lines s1) with (program_lines s) in Hfind, Hs2.
  fold (linear_lookup (program_lines s) (CLib.atoi p)) in Hfind, Hs2. fold k in Hfind, Hs2.
  replace (CLib.atoi (cursor (set_statement_pos (Some (skip_spaces_str (cursor s))) s)))
    with (CLib.atoi p) by (destruct s; reflexivity).
  rewrite Hfind.
  destruct (Z.ltb_spec k 0) as [Hneg|_]; [lia|].
  assert (Hs2' : s2 = s1 \/ s2 = set_last_lookup (CLib.atoi p) k s1) by exact Hs2.
  clear Hs2 Hfind.
  unfold Optimized.statement_return, bind, get, modify, set_cursor.
  unfold gosub_top in *.
  destruct Hs2' as [-> | ->]; subst s1 p; destruct s; cbn in *;
    (eexists; eexists; split; [reflexivity|]);
    cbn; repeat split; try reflexivity; lia.
Qed.

(** X10.  GOSUB to a line that exists, followed by RETURN: GOSUB moves to
    the index of the target line with one more frame on its stack, and the
    RETURN that follows puts back the line that was running, with the cursor
    just after the digits of the GOSUB operand, and the GOSUB stack as it
    was; variables, FOR stack and program are untouched. *)
Theorem gosub_return_round_trip (b : build) (s : state) :
  gosub_top s < MAX_GOSUB b ->
  store_ok b s ->
  let p := skip_spaces_str (cursor s) in
  let k := linear_lookup (program_lines s) (CLib.atoi p) in
  0 <= k ->
  exists s1 s2,
    statement_gosub b s = Some (tt, s1) /\
    current_line s1 = k /\ statement_pos s1 = None /\ halted s1 = halted s /\
    gosub_top s1 = gosub_top s + 1 /\
    statement_return b s1 = Some (tt, s2) /\
    gosub_stack s2 = gosub_stack s /\ current_line s2 = current_line s /\
    statement_pos s2 = Some (CLib.drop (span_digits p) p) /\
    halted s2 = halted s /\ vars s2 = vars s /\ for_stack s2 = for_stack s /\
    program_lines s2 = program_lines s.
Proof.
  intros Htop Hok p k Hk.
  destruct b; cbn in Htop, Hok |- *.
  - apply classic_gosub_return; assumption.
  - destruct Hok as (Hs & Hnn & Hc). apply pdp11_gosub_return; assumption.
Qed.

(** [10 GOSUB 30] and the [RETURN] of line 30, in the PDP-11 build. *)
Lemma gosub_return_round_trip_witness :
  exists s1 s2,
    statement_gosub Pdp11Build (gosub_at_30 Pdp11Build) = Some (tt, s1) /\
    current_line s1 = 2 /\
    statement_return Pdp11Build s1 = Some (tt, s2) /\
    current_line s2 = 0 /\ statement_pos s2 = Some "" /\
    gosub_stack s2 = [].
Proof.
  destruct (gosub_return_round_trip Pdp11Build (gosub_at_30 Pdp11Build))
    as (s1 & s2 & Hg & Hl & _ & _ & _ & Hr & Hst & Hl2 & Hp2 & _).
  - vm_compute. reflexivity.
  - split; [|split].
    + vm_compute. repeat constructor.
    + vm_compute. repeat constructor; discriminate.
    + left. split; vm_compute; reflexivity.
  - vm_compute. discriminate.
  - exists s1, s2. repeat split; assumption.
Defined.

(** ** The stacks stay within their arrays *)

Lemma preserves_ret (P : state -> Prop) {A} (a : A) : preserves P (ret a).
Proof. intros s x s' E HP. injection E as _ <-. exact HP. Qed.

Lemma preserves_bind (P : state -> Prop) {A B} (m : M A) (k : A -> M B) :
  preserves P m -> (forall a, preserves P (k a)) -> preserves P (bind m k).
Proof.
  intros Hm Hk s b s' E HP.
  apply bind_inv in E. destruct E as (a & s1 & E1 & E2).
  eapply Hk; [exact E2|]. eapply Hm; eassumption.
Qed.

Lemma preserves_get (P : state -> Prop) : preserves P get.
Proof. intros s x s' E HP. injection E as _ <-. exact HP. Qed.

Lemma preserves_gets (P : state -> Prop) {A} (f : state -> A) : preserves P (gets f).
Proof. intros s x s' E HP. injection E as _ <-. exact HP. Qed.

Lemma preserves_out_of_fuel (P : state -> Prop) {A} : preserves P (@out_of_fuel A).
Proof. intros s x s' E. discriminate. Qed.

Lemma preserves_modify (P : state -> Prop) (f : state -> state) :
  (forall s, P s -> P (f s)) -> preserves P (modify f).
Proof. intros Hf s x s' E HP. injection E as _ <-. apply Hf, HP. Qed.

Lemma stacks_within_same (b : build) (s s' : state) :
  gosub_stack s' = gosub_stack s -> for_stack s' = for_stack s ->
  stacks_within b s -> stacks_within b s'.
Proof.
  unfold stacks_within, gosub_top, for_top. intros -> ->. auto.
Qed.

Lemma preserves_stacks_of_keeps (b : build) {A} (m : M A) :
  keeps m -> preserves (stacks_within b) m.
Proof.
  intros Hk s a s' E. destruct (Hk s a s' E) as (_ & Hg & Hf & _).
  apply stacks_within_same; assumption.
Qed.

Create HintDb pres.
#[local] Hint Resolve preserves_ret preserves_get preserves_gets
  preserves_out_of_fuel : pres.

(** Decompose a computation along its binds and branches; the leaves are
    computations known to keep the control state, or to touch neither
    stack. *)
Ltac pres_step :=
  match goal with
  | |- preserves _ (bind _ _) => apply preserves_bind; [|intros]
  | |- preserves _ (if ?c then _ else _) => destruct c
  | |- preserves _ (match ?x with _ => _ end) => destruct x
  | |- preserves _ (let (_, _) := ?x in _) => destruct x
  | |- forall _, _ => intros
  | |- preserves _ _ => assumption
  | |- preserves _ _ => solve [auto with pres]
  | |- preserves (stacks_within _) _ =>
      apply preserves_stacks_of_keeps; solve [auto with keeps]
  | |- preserves (stacks_within _) (modify _) =>
      apply preserves_modify;
      let s := fresh "s" in let Hs := fresh "Hs" in
      intros s Hs; destruct s; exact Hs
  end.

Ltac pres_tac := repeat pres_step.

Lemma find_for_frame_length (no_name : bool) (n1 n2 : ascii) (st : list for_frame) :
  (List.length (find_for_frame no_name n1 n2 st) <= List.length st)%nat.
Proof.
  induction st as [|fr st IH]; simpl; [lia|].
  destruct (_ || _); simpl; lia.
Qed.

Lemma keeps_classic_eval_factor (H : host) (n : nat) : keeps (Classic.eval_factor H n).
Proof. apply (keeps_classic_evaluator H n). Qed.

Lemma keeps_pdp11_eval_factor (H : host) (n : nat) : keeps (Optimized.eval_factor H n).
Proof. apply (keeps_pdp11_evaluator H n). Qed.

#[local] Hint Resolve keeps_classic_eval_factor keeps_pdp11_eval_factor
  keeps_classic_find_or_create_var keeps_classic_var_slot
  keeps_pdp11_find_or_create_var keeps_pdp11_var_slot : keeps.

(** The primitive steps of a run, [gets] included. *)
Ltac run_steps :=
  repeat first
    [ progress run_prims
    | match goal with
      | E : gets _ _ = Some _ |- _ => unfold gets in E; inversion E; subst; clear E
      | E : set_cursor _ _ = Some _ |- _ =>
          unfold set_cursor, modify in E; inversion E; subst; clear E
      end ].

Section ClassicStacks.
Variable H : host.

Lemma keeps_classic_count_column : keeps Classic.count_column.
Proof. unfold Classic.count_column. keeps_tac. Qed.

Lemma keeps_classic_print_string (t : string) : keeps (Classic.print_string t).
Proof.
  induction t as [|c t IH]; cbn [Classic.print_string]; keeps_tac;
    auto using keeps_classic_count_column.
Qed.

Lemma keeps_classic_print_spaces (count : Z) : keeps (Classic.print_spaces count).
Proof.
  unfold Classic.print_spaces. apply keeps_repeatM. keeps_tac.
  apply keeps_classic_count_column.
Qed.

Lemma keeps_classic_print_value (v : value) : keeps (Classic.print_value H v).
Proof.
  unfold Classic.print_value. keeps_tac. apply keeps_classic_print_string.
Qed.

Lemma keeps_classic_eval_condition (n : nat) : keeps (Classic.eval_condition H n).
Proof. unfold Classic.eval_condition. keeps_tac. Qed.

#[local] Hint Resolve keeps_classic_print_spaces keeps_classic_print_value
  keeps_classic_eval_condition keeps_classic_eval_or_expr : keeps.

Lemma pres_classic_statement_print (n : nat) : preserves (stacks_within ClassicBuild) (Classic.statement_print H n).
Proof.
  assert (Hloop : forall n nl, preserves (stacks_within ClassicBuild) (Classic.statement_print_loop H n nl)).
  { clear n. induction n as [|n IH]; intros nl; cbn [Classic.statement_print_loop];
      pres_tac; try apply IH. }
  unfold Classic.statement_print. pres_tac; try apply Hloop.
Qed.

Lemma pres_classic_statement_input (n : nat) : preserves (stacks_within ClassicBuild) (Classic.statement_input H n).
Proof.
  assert (Hloop : forall n prompt first,
             preserves (stacks_within ClassicBuild) (Classic.statement_input_loop H n prompt first)).
  { clear n. induction n as [|n IH]; intros prompt first;
      cbn [Classic.statement_input_loop]; pres_tac; try apply IH. }
  unfold Classic.statement_input. pres_tac; try apply Hloop. 
Qed.

Lemma pres_classic_statement_let (n : nat) : preserves (stacks_within ClassicBuild) (Classic.statement_let H n).
Proof. unfold Classic.statement_let. pres_tac. Qed.

Lemma pres_classic_statement_goto : preserves (stacks_within ClassicBuild) Classic.statement_goto.
Proof.
  unfold Classic.statement_goto, Classic.skip_digits, Classic.find_line_index. pres_tac.
Qed.

Lemma pres_classic_statement_if (n : nat) : preserves (stacks_within ClassicBuild) (Classic.statement_if H n).
Proof.
  unfold Classic.statement_if, Classic.skip_digits, Classic.find_line_index. pres_tac.
Qed.

Lemma pres_classic_statement_dim (n : nat) : preserves (stacks_within ClassicBuild) (Classic.statement_dim H n).
Proof.
  induction n as [|n IH]; cbn [Classic.statement_dim]; pres_tac. 
Qed.

Lemma pres_classic_statement_sleep (n : nat) : preserves (stacks_within ClassicBuild) (Classic.statement_sleep H n).
Proof. unfold Classic.statement_sleep, Classic.do_sleep_ticks. pres_tac. Qed.

Lemma pres_classic_statement_gosub : preserves (stacks_within ClassicBuild) Classic.statement_gosub.
Proof.
  assert (Hrest : forall target,
             preserves (stacks_within ClassicBuild)
               (bind (Classic.find_line_index target) (fun idx =>
                bind (modify (set_current_line idx)) (fun _ =>
                if idx <? 0 then Classic.runtime_error "Target line not found"
                else modify (set_statement_pos None))))).
  { intros target. unfold Classic.find_line_index. pres_tac. }
  intros s u s' Hrun (Hg & Hf).
  unfold Classic.statement_gosub, Classic.skip_digits in Hrun.
  rewrite bind_run_get in Hrun.
  destruct (Z.leb_spec Classic.MAX_GOSUB (gosub_top s)) as [Hfull|Hroom].
  - apply keeps_classic_runtime_error in Hrun.
    destruct Hrun as (_ & Hg' & Hf' & _).
    apply (stacks_within_same ClassicBuild s s' Hg' Hf'). split; assumption.
  - do 5 (apply bind_inv in Hrun;
          let a := fresh "a" in let s1 := fresh "s" in let E := fresh "E" in
          destruct Hrun as (a & s1 & E & Hrun)).
    run_steps.
    eapply Hrest; [exact Hrun|].
    unfold stacks_within, gosub_top, for_top in *.
    destruct s; cbn in *. split; lia.
Qed.

Lemma pres_classic_statement_return : preserves (stacks_within ClassicBuild) Classic.statement_return.
Proof.
  intros s u s' Hrun (Hg & Hf).
  unfold Classic.statement_return in Hrun.
  rewrite bind_run_get in Hrun.
  destruct (gosub_stack s) as [|fr below] eqn:Hst.
  - apply keeps_classic_runtime_error in Hrun.
    destruct Hrun as (_ & Hg' & Hf' & _).
    apply (stacks_within_same ClassicBuild s s' Hg' Hf'). split; assumption.
  - injection Hrun as _ <-.
    unfold stacks_within, gosub_top, for_top in *. rewrite Hst in Hg.
    destruct s; cbn in *. split; lia.
Qed.

Lemma pres_classic_statement_for (n : nat) :
  preserves (stacks_within ClassicBuild) (Classic.statement_for H n).
Proof.
  intros s u s' Hrun (Hg & Hf).
  pose proof (same_control_refl s) as Hsc.
  unfold Classic.statement_for in Hrun.
  repeat run_inv Hrun Hsc;
    try (apply keeps_classic_runtime_error in Hrun;
         pose proof (same_control_trans _ _ _ Hsc Hrun) as (_ & Hg' & Hf' & _);
         apply (stacks_within_same ClassicBuild s s' Hg' Hf'); split; assumption).
  1, 2: run_prims;
    destruct Hsc as (_ & Hg' & Hf' & _);
    apply Z.leb_gt in Heqb;
    unfold stacks_within, gosub_top, for_top in *;
    match goal with
    | |- context [set_for_stack _ ?x] => destruct x
    end; cbn in *; rewrite Hg', Hf'; split; lia.
  run_prims. destruct Hsc as (_ & Hg' & Hf' & _).
  eapply stacks_within_same; [exact Hg' | exact Hf' | split; assumption].
Qed.

Lemma stacks_write_ref (r : value_ref) (x : value) (s : state) :
  gosub_stack (write_ref r x s) = gosub_stack s /\
  for_stack (write_ref r x s) = for_stack s.
Proof. destruct r, s; split; reflexivity. Qed.

Lemma pres_classic_statement_next :
  preserves (stacks_within ClassicBuild) Classic.statement_next.
Proof.
  intros s u s' Hrun (Hg & Hf).
  unfold Classic.statement_next in Hrun.
  run_split Hrun; run_steps.
  all: repeat match goal with
       | E : (if ?c then Classic.read_identifier ?k else ret ?d) _ = Some _ |- _ =>
           let K := fresh "K" in
           assert (K : keeps (if c then Classic.read_identifier k else ret d))
             by keeps_tac;
           apply K in E; clear K;
           destruct E as (_ & ? & ? & _)
       | E : Classic.runtime_error _ _ = Some _ |- _ =>
           apply keeps_classic_runtime_error in E;
           destruct E as (_ & ? & ? & _)
       end.
  all: match goal with
       | Hfind : find_for_frame ?nn ?a ?b (for_stack ?x) = _ |- _ =>
           pose proof (find_for_frame_length nn a b (for_stack x)) as Hlen;
           rewrite Hfind in Hlen; cbn [List.length] in Hlen
       end.
  all: unfold stacks_within, gosub_top, for_top in *.
  all: try match goal with v : value_ref |- _ => destruct v end.
  all: match goal with
       | Hfind : find_for_frame _ _ _ (for_stack ?x) = _ |- _ => destruct x
       end; cbn in *; subst.
  all: repeat match goal with Heq : _ = _ |- _ => rewrite Heq end.
  all: cbn [List.length gosub_stack for_stack] in *; split; lia.
Qed.

Lemma pres_classic_execute_statement (n : nat) :
  preserves (stacks_within ClassicBuild) (Classic.execute_statement H n).
Proof.
  unfold Classic.execute_statement, Classic.statement_rem.
  pres_tac;
    auto using pres_classic_statement_print, pres_classic_statement_input,
      pres_classic_statement_let, pres_classic_statement_goto,
      pres_classic_statement_gosub, pres_classic_statement_return,
      pres_classic_statement_if, pres_classic_statement_for,
      pres_classic_statement_next, pres_classic_statement_dim,
      pres_classic_statement_sleep.
Qed.

Lemma pres_classic_run_step (n : nat) :
  preserves (stacks_within ClassicBuild) (Classic.run_step H n).
Proof.
  unfold Classic.run_step. pres_tac; apply pres_classic_execute_statement.
Qed.

End ClassicStacks.

Section Pdp11Stacks.
Variable H : host.

Lemma keeps_pdp11_count_column : keeps Optimized.count_column.
Proof. unfold Optimized.count_column. keeps_tac. Qed.

Lemma keeps_pdp11_print_string (t : string) : keeps (Optimized.print_string t).
Proof.
  induction t as [|c t IH]; cbn [Optimized.print_string]; keeps_tac;
    auto using keeps_pdp11_count_column.
Qed.

Lemma keeps_pdp11_print_spaces (count : Z) : keeps (Optimized.print_spaces count).
Proof.
  unfold Optimized.print_spaces. apply keeps_repeatM. keeps_tac.
  apply keeps_pdp11_count_column.
Qed.

Lemma keeps_pdp11_print_value (v : value) : keeps (Optimized.print_value H v).
Proof.
  unfold Optimized.print_value. keeps_tac. apply keeps_pdp11_print_string.
Qed.

Lemma keeps_pdp11_eval_condition (n : nat) : keeps (Optimized.eval_condition H n).
Proof. unfold Optimized.eval_condition. keeps_tac. Qed.

#[local] Hint Resolve keeps_pdp11_print_spaces keeps_pdp11_print_value
  keeps_pdp11_eval_condition keeps_pdp11_eval_expr : keeps.

Lemma pres_pdp11_statement_print (n : nat) : preserves (stacks_within Pdp11Build) (Optimized.statement_print H n).
Proof.
  assert (Hloop : forall n nl, preserves (stacks_within Pdp11Build) (Optimized.statement_print_loop H n nl)).
  { clear n. induction n as [|n IH]; intros nl; cbn [Optimized.statement_print_loop];
      pres_tac; try apply IH. }
  unfold Optimized.statement_print. pres_tac; try apply Hloop.
Qed.

Lemma pres_pdp11_statement_input (n : nat) : preserves (stacks_within Pdp11Build) (Optimized.statement_input H n).
Proof.
  assert (Hloop : forall n prompt first,
             preserves (stacks_within Pdp11Build) (Optimized.statement_input_loop H n prompt first)).
  { clear n. induction n as [|n IH]; intros prompt first;
      cbn [Optimized.statement_input_loop]; pres_tac; try apply IH. }
  unfold Optimized.statement_input. pres_tac; try apply Hloop. 
Qed.

Lemma pres_pdp11_statement_let (n : nat) : preserves (stacks_within Pdp11Build) (Optimized.statement_let H n).
Proof. unfold Optimized.statement_let. pres_tac. Qed.

Lemma pres_pdp11_statement_goto : preserves (stacks_within Pdp11Build) Optimized.statement_goto.
Proof.
  unfold Optimized.statement_goto, Optimized.skip_digits, Optimized.find_line_index. pres_tac.
Qed.

Lemma pres_pdp11_statement_if (n : nat) : preserves (stacks_within Pdp11Build) (Optimized.statement_if H n).
Proof.
  unfold Optimized.statement_if, Optimized.skip_digits, Optimized.find_line_index. pres_tac.
Qed.

Lemma pres_pdp11_statement_dim (n : nat) : preserves (stacks_within Pdp11Build) (Optimized.statement_dim H n).
Proof.
  induction n as [|n IH]; cbn [Optimized.statement_dim]; pres_tac. 
Qed.

Lemma pres_pdp11_statement_gosub : preserves (stacks_within Pdp11Build) Optimized.statement_gosub.
Proof.
  assert (Hrest : forall target,
             preserves (stacks_within Pdp11Build)
               (bind (Optimized.find_line_index target) (fun idx =>
                bind (modify (set_current_line idx)) (fun _ =>
                if idx <? 0 then Optimized.runtime_error "Target line not found"
                else modify (set_statement_pos None))))).
  { intros target. unfold Optimized.find_line_index. pres_tac. }
  intros s u s' Hrun (Hg & Hf).
  unfold Optimized.statement_gosub, Optimized.skip_digits in Hrun.
  rewrite bind_run_get in Hrun.
  destruct (Z.leb_spec Optimized.MAX_GOSUB (gosub_top s)) as [Hfull|Hroom].
  - apply keeps_pdp11_runtime_error in Hrun.
    destruct Hrun as (_ & Hg' & Hf' & _).
    apply (stacks_within_same Pdp11Build s s' Hg' Hf'). split; assumption.
  - do 5 (apply bind_inv in Hrun;
          let a := fresh "a" in let s1 := fresh "s" in let E := fresh "E" in
          destruct Hrun as (a & s1 & E & Hrun)).
    run_steps.
    eapply Hrest; [exact Hrun|].
    unfold stacks_within, gosub_top, for_top in *.
    destruct s; cbn in *. split; lia.
Qed.

Lemma pres_pdp11_statement_return : preserves (stacks_within Pdp11Build) Optimized.statement_return.
Proof.
  intros s u s' Hrun (Hg & Hf).
  unfold Optimized.statement_return in Hrun.
  rewrite bind_run_get in Hrun.
  destruct (gosub_stack s) as [|fr below] eqn:Hst.
  - apply keeps_pdp11_runtime_error in Hrun.
    destruct Hrun as (_ & Hg' & Hf' & _).
    apply (stacks_within_same Pdp11Build s s' Hg' Hf'). split; assumption.
  - injection Hrun as _ <-.
    unfold stacks_within, gosub_top, for_top in *. rewrite Hst in Hg.
    destruct s; cbn in *. split; lia.
Qed.

Lemma pres_pdp11_statement_for (n : nat) :
  preserves (stacks_within Pdp11Build) (Optimized.statement_for H n).
Proof.
  intros s u s' Hrun (Hg & Hf).
  pose proof (same_control_refl s) as Hsc.
  unfold Optimized.statement_for in Hrun.
  repeat run_inv Hrun Hsc;
    try (apply keeps_pdp11_runtime_error in Hrun;
         pose proof (same_control_trans _ _ _ Hsc Hrun) as (_ & Hg' & Hf' & _);
         apply (stacks_within_same Pdp11Build s s' Hg' Hf'); split; assumption).
  1, 2: run_prims;
    destruct Hsc as (_ & Hg' & Hf' & _);
    apply Z.leb_gt in Heqb;
    unfold stacks_within, gosub_top, for_top in *;
    match goal with
    | |- context [set_for_stack _ ?x] => destruct x
    end; cbn in *; rewrite Hg', Hf'; split; lia.
  run_prims. destruct Hsc as (_ & Hg' & Hf' & _).
  eapply stacks_within_same; [exact Hg' | exact Hf' | split; assumption].
Qed.

Lemma pres_pdp11_statement_next :
  preserves (stacks_within Pdp11Build) Optimized.statement_next.
Proof.
  intros s u s' Hrun (Hg & Hf).
  unfold Optimized.statement_next in Hrun.
  run_split Hrun; run_steps.
  all: repeat match goal with
       | E : (if ?c then Optimized.read_identifier ?k else ret ?d) _ = Some _ |- _ =>
           let K := fresh "K" in
           assert (K : keeps (if c then Optimized.read_identifier k else ret d))
             by keeps_tac;
           apply K in E; clear K;
           destruct E as (_ & ? & ? & _)
       | E : Optimized.runtime_error _ _ = Some _ |- _ =>
           apply keeps_pdp11_runtime_error in E;
           destruct E as (_ & ? & ? & _)
       end.
  all: match goal with
       | Hfind : find_for_frame ?nn ?a ?b (for_stack ?x) = _ |- _ =>
           pose proof (find_for_frame_length nn a b (for_stack x)) as Hlen;
           rewrite Hfind in Hlen; cbn [List.length] in Hlen
       end.
  all: unfold stacks_within, gosub_top, for_top in *.
  all: try match goal with v : value_ref |- _ => destruct v end.
  all: match goal with
       | Hfind : find_for_frame _ _ _ (for_stack ?x) = _ |- _ => destruct x
       end; cbn in *; subst.
  all: repeat match goal with Heq : _ = _ |- _ => rewrite Heq end.
  all: cbn [List.length gosub_stack for_stack] in *; split; lia.
Qed.

Lemma pres_pdp11_execute_statement (n : nat) :
  preserves (stacks_within Pdp11Build) (Optimized.execute_statement H n).
Proof.
  unfold Optimized.execute_statement, Optimized.statement_rem, Optimized.statement_end.
  pres_tac;
    auto using pres_pdp11_statement_print, pres_pdp11_statement_input,
      pres_pdp11_statement_let, pres_pdp11_statement_goto,
      pres_pdp11_statement_gosub, pres_pdp11_statement_return,
      pres_pdp11_statement_if, pres_pdp11_statement_for,
      pres_pdp11_statement_next, pres_pdp11_statement_dim.
Qed.

Lemma pres_pdp11_run_step (n : nat) :
  preserves (stacks_within Pdp11Build) (Optimized.run_step H n).
Proof.
  unfold Optimized.run_step. pres_tac; apply pres_pdp11_execute_statement.
Qed.

End Pdp11Stacks.

Lemma pres_classic_load_lines (b : build) (fuel : nat) :
  forall (file : string) (s s' : state),
  Classic.load_lines fuel file s = Loaded s' ->
  stacks_within b s -> stacks_within b s'.
Proof.
  induction fuel as [|fuel IH]; intros file s s'; cbn [Classic.load_lines].
  - intros E. injection E as <-. auto.
  - destruct (CLib.fgets Classic.MAX_LINE_LEN file) as [[linebuf rest]|];
      [|intros E; injection E as <-; auto].
    destruct (Ascii.eqb _ CLib.NUL); [apply IH|].
    destruct (negb _); [discriminate|].
    destruct (Classic.add_or_replace_line _ _ s) as [[u s1]|] eqn:Hadd;
      [|intros E; injection E as <-; auto].
    intros E HP. apply (IH _ _ _ E).
    revert Hadd HP. generalize s u s1.
    change (preserves (stacks_within b)
              (Classic.add_or_replace_line (CLib.atoi (skip_bom (skip_spaces_str
                 (Classic.trim_newline linebuf))))
                 (skip_spaces_str (skip_nonspace (skip_bom (skip_spaces_str
                    (Classic.trim_newline linebuf))))))).
    unfold Classic.add_or_replace_line. destruct b; pres_tac.
Qed.

Lemma pres_pdp11_load_lines (b : build) (fuel : nat) :
  forall (file : string) (s s' : state),
  Optimized.load_lines fuel file s = Loaded s' ->
  stacks_within b s -> stacks_within b s'.
Proof.
  induction fuel as [|fuel IH]; intros file s s'; cbn [Optimized.load_lines].
  - intros E. injection E as <-. auto.
  - destruct (CLib.fgets Optimized.MAX_LINE_LEN file) as [[linebuf rest]|];
      [|intros E; injection E as <-; auto].
    destruct (_ && _); [discriminate|].
    destruct (Ascii.eqb _ CLib.NUL); [apply IH|].
    destruct (negb _); [discriminate|].
    destruct (_ || _); [discriminate|].
    destruct (Optimized.add_or_replace_line _ _ s) as [[u s1]|] eqn:Hadd;
      [|intros E; injection E as <-; auto].
    intros E HP. apply (IH _ _ _ E).
    revert Hadd HP. generalize s u s1.
    change (preserves (stacks_within b)
              (Optimized.add_or_replace_line (CLib.atoi (skip_bom (skip_spaces_str
                 (Optimized.trim_newline linebuf))))
                 (skip_spaces_str (skip_nonspace (skip_bom (skip_spaces_str
                    (Optimized.trim_newline linebuf))))))).
    unfold Optimized.add_or_replace_line, Optimized.dupstr_local. destruct b; pres_tac.
Qed.

Lemma load_program_stacks (b : build) (path : string) (file : option string)
    (input : string) (s : state) :
  load_program b path file (initial_state input) = Loaded s -> stacks_within b s.
Proof.
  assert (H0 : stacks_within b (initial_state input))
    by (destruct b; split; vm_compute; discriminate).
  destruct b; cbn [load_program];
    unfold Classic.load_program, Optimized.load_program;
    (destruct file as [content|]; [|discriminate]).
  - destruct (Classic.load_lines _ content _) as [c s1|s1] eqn:Hl; [discriminate|].
    intros E. injection E as <-.
    apply (pres_classic_load_lines ClassicBuild) in Hl; [|exact H0].
    destruct s1; exact Hl.
  - destruct (Optimized.load_lines _ content _) as [c s1|s1] eqn:Hl; [discriminate|].
    intros E. injection E as <-.
    apply (pres_pdp11_load_lines Pdp11Build) in Hl; [|exact H0].
    destruct s1; exact Hl.
Qed.

(** X11.  The GOSUB stack and the FOR stack never leave their arrays: a
    loaded program starts with both stacks within [MAX_GOSUB] and [MAX_FOR]
    entries, and every turn of the driver loop, whatever statement it runs
    and however it ends, leaves them within these bounds; so does every
    sequence of turns. *)
Theorem stacks_stay_within (b : build) (H : host) (n : nat) :
  (forall path file input s,
     load_program b path file (initial_state input) = Loaded s ->
     stacks_within b s) /\
  (forall s again s',
     run_step b H n s = Some (again, s') ->
     stacks_within b s -> stacks_within b s') /\
  (forall k s s',
     steps b H n k s = Some s' ->
     stacks_within b s -> stacks_within b s').
Proof.
  assert (Hstep : forall s again s',
             run_step b H n s = Some (again, s') ->
             stacks_within b s -> stacks_within b s').
  { intros s again s' E HP.
    destruct b; cbn [run_step] in E.
    - eapply pres_classic_run_step; eassumption.
    - eapply pres_pdp11_run_step; eassumption. }
  split; [apply load_program_stacks|]. split; [exact Hstep|].
  induction k as [|k IH]; intros s s'; cbn [steps].
  - intros E. injection E as <-. auto.
  - destruct (run_step b H n s) as [[again s1]|] eqn:E1; [|discriminate].
    intros E HP. apply (IH _ _ E). eapply Hstep; eassumption.
Qed.

(* ===================================================================== *)
(** * The variable table: bounds                                          *)
(* ===================================================================== *)

Lemma find_var_bound (vs : list var) (n1 n2 : ascii) (is_str : bool) :
  forall (start i : nat),
  find_var vs n1 n2 is_str start = Some i ->
  (start <= i < start + List.length vs)%nat.
Proof.
  induction vs as [|v vs IH]; intros start i; simpl; [discriminate|].
  destruct (var_matches n1 n2 is_str v).
  - intros E. injection E as <-. lia.
  - intros E. apply IH in E. lia.
Qed.

Lemma Forall_list_set {A} (P : A -> Prop) (l : list A) (i : nat) (x : A) :
  Forall P l -> P x -> Forall P (list_set l i x).
Proof.
  intros Hl Hx. revert i.
  induction Hl as [|y l Hy Hl IH]; intros [|i]; simpl; constructor; auto.
Qed.

Lemma wf_var_nth (vs : list var) (i : nat) :
  Forall wf_var vs -> wf_var (nth i vs null_var).
Proof.
  intros Hvs. destruct (Nat.lt_ge_cases i (List.length vs)) as [Hi|Hi].
  - rewrite Forall_forall in Hvs. apply Hvs, nth_In, Hi.
  - rewrite nth_overflow by exact Hi. unfold wf_var. cbn.
    split; [lia | left; reflexivity].
Qed.

Lemma length_calloc_values (n : Z) :
  List.length (calloc_values n) = Z.to_nat n.
Proof. unfold calloc_values. apply repeat_length. Qed.

Lemma wf_var_write (v : var) (k : nat) (x : value) :
  wf_var v ->
  wf_var (mk_var (scalar v) (list_set (array v) k x) (size v) (name1 v) (name2 v)
            (is_string v) (is_array v)) /\
  wf_var (mk_var x (array v) (size v) (name1 v) (name2 v) (is_string v) (is_array v)).
Proof.
  intros (H0 & Hv). unfold wf_var. cbn. rewrite length_list_set.
  repeat split; try exact H0; try exact Hv.
  destruct Hv as [-> | Hv]; [left; reflexivity | right; exact Hv].
Qed.

Lemma vars_ok_write_ref (b : build) (r : value_ref) (x : value) (s : state) :
  vars_ok b s -> vars_ok b (write_ref r x s).
Proof.
  intros (Hc & Hw). pose proof (wf_var_nth (vars s)) as Hn.
  unfold vars_ok, var_count in *.
  destruct r as [i|i k]; destruct s; cbn in *;
    rewrite length_list_set; (split; [exact Hc|]);
    apply Forall_list_set; try exact Hw;
    specialize (Hn i Hw).
  - apply (wf_var_write _ 0 x Hn).
  - apply (wf_var_write _ k x Hn).
Qed.

Lemma nth_list_set_any {A} (l : list A) (i k : nat) (x d : A) :
  nth k (list_set l i x) d
  = if Nat.eqb k i && Nat.ltb i (List.length l) then x else nth k l d.
Proof.
  revert i k. induction l as [|y l IH]; intros i k; simpl.
  - rewrite andb_false_r. reflexivity.
  - destruct i as [|i], k as [|k]; simpl; try reflexivity.
    rewrite IH. reflexivity.
Qed.

(** Writing through a pointer changes no length. *)
Lemma write_ref_lengths (r : value_ref) (x : value) (s : state) :
  List.length (vars (write_ref r x s)) = List.length (vars s) /\
  forall i, List.length (array (nth i (vars (write_ref r x s)) null_var))
            = List.length (array (nth i (vars s) null_var)).
Proof.
  destruct r as [j|j k]; destruct s; cbn; rewrite length_list_set;
    (split; [reflexivity|]); intros i; rewrite nth_list_set_any;
    destruct (Nat.eqb_spec i j) as [->|]; cbn [andb]; try reflexivity;
    destruct (Nat.ltb j (List.length vars0)); cbn; rewrite ?length_list_set;
    reflexivity.
Qed.

Lemma ref_valid_write_ref (r r' : value_ref) (x : value) (s : state) :
  ref_valid r s -> ref_valid r (write_ref r' x s).
Proof.
  destruct (write_ref_lengths r' x s) as (Hl & Ha).
  unfold ref_valid. destruct r as [i|i k]; rewrite Hl, ?Ha; auto.
Qed.

Lemma classic_runtime_error_vars (msg : string) (s s' : state) (u : unit) :
  Classic.runtime_error msg s = Some (u, s') -> vars s' = vars s.
Proof. intros E. injection E as _ <-. destruct s; reflexivity. Qed.

Lemma pdp11_runtime_error_vars (msg : string) (s s' : state) (u : unit) :
  Optimized.runtime_error msg s = Some (u, s') -> vars s' = vars s.
Proof.
  unfold Optimized.runtime_error, bind, get, fputs_stderr, modify.
  destruct (_ && _); intros E; injection E as _ <-; destruct s; reflexivity.
Qed.

Lemma vars_ok_same (b : build) (s s' : state) :
  vars s' = vars s -> vars_ok b s -> vars_ok b s'.
Proof. unfold vars_ok, var_count. intros ->. auto. Qed.

Lemma length_grow_block (H : host) (vs : list var) (i : nat) (old : list value)
    (upto : Z) :
  List.length (grow_block H vs i old upto)
  = Nat.max (List.length old) (Z.to_nat upto).
Proof.
  unfold grow_block. rewrite length_app, length_map, length_seq. lia.
Qed.

(** An entry put in the place of another one. *)
Lemma vars_ok_list_set (b : build) (s : state) (i : nat) (v : var) :
  vars_ok b s -> wf_var v -> vars_ok b (set_vars (list_set (vars s) i v) s).
Proof.
  intros (Hc & Hw) Hv. unfold vars_ok, var_count in *. destruct s; cbn in *.
  rewrite length_list_set. split; [exact Hc|].
  apply Forall_list_set; assumption.
Qed.

(** The blocks the table functions make. *)
Lemma wf_fresh_block (x : value) (sz : Z) n1 n2 is_str is_arr :
  0 <= sz -> wf_var (mk_var x (calloc_values sz) sz n1 n2 is_str is_arr).
Proof.
  intros Hsz. unfold wf_var. cbn. rewrite length_calloc_values. split; [|right]; lia.
Qed.

Lemma wf_null_block (x : value) (sz : Z) n1 n2 is_str is_arr :
  0 <= sz -> wf_var (mk_var x [] sz n1 n2 is_str is_arr).
Proof. intros Hsz. unfold wf_var. cbn. split; [lia | left; reflexivity]. Qed.

Lemma wf_grown_block (H : host) (vs : list var) (i : nat) (v : var) (x : value)
    (sz : Z) n1 n2 is_str is_arr :
  wf_var v -> size v <= sz ->
  wf_var (mk_var x (grow_block H vs i (array v) sz) sz n1 n2 is_str is_arr).
Proof.
  intros (H0 & Hv) Hsz. unfold wf_var. cbn. rewrite length_grow_block.
  split; [lia|]. right. destruct Hv as [-> | Hv]; cbn [List.length]; lia.
Qed.

Lemma wf_cleared_block (H : host) (vs : list var) (i : nat) (v : var) (x : value)
    (sz : Z) n1 n2 is_str is_arr :
  wf_var v -> size v <= sz ->
  wf_var (mk_var x (grow_block H vs i (array v) (size v)
                    ++ calloc_values (sz - size v))%list
                 sz n1 n2 is_str is_arr).
Proof.
  intros (H0 & Hv) Hsz. unfold wf_var. cbn.
  rewrite length_app, length_grow_block, length_calloc_values.
  split; [lia|]. right. destruct Hv as [-> | Hv]; cbn [List.length]; lia.
Qed.

Lemma length_set_vars_list_set (s : state) (i : nat) (v : var) :
  List.length (vars (set_vars (list_set (vars s) i v) s)) = List.length (vars s).
Proof. destruct s; cbn. apply length_list_set. Qed.

Lemma vars_set_vars (vs : list var) (s : state) : vars (set_vars vs s) = vs.
Proof. destruct s; reflexivity. Qed.

(** The table after one entry was replaced, and after none was. *)
Lemma table_entry_replaced (b : build) (s s' : state) (i : nat) (v : var) :
  vars_ok b s -> (i < List.length (vars s))%nat ->
  vars s' = list_set (vars s) i v -> wf_var v ->
  vars_ok b s' /\ found_var s s' (Some i).
Proof.
  intros (Hc & Hw) Hi E Hv. unfold vars_ok, found_var, var_count in *.
  rewrite E, length_list_set.
  split; [split; [exact Hc | apply Forall_list_set; assumption] | lia].
Qed.

Lemma table_unchanged (b : build) (s s' : state) (r : option nat) :
  vars_ok b s ->
  match r with Some i => (i < List.length (vars s))%nat | None => True end ->
  vars s' = vars s ->
  vars_ok b s' /\ found_var s s' r.
Proof.
  intros Hok Hi E. unfold vars_ok, found_var, var_count in *. rewrite E.
  split; [exact Hok | split; [lia | exact Hi]].
Qed.

Lemma table_entry_added (b : build) (s s' : state) (v : var) :
  vars_ok b s -> var_count s < MAX_VARS b ->
  vars s' = (vars s ++ [v])%list -> wf_var v ->
  vars_ok b s' /\ found_var s s' (Some (List.length (vars s))).
Proof.
  intros (Hc & Hw) Hroom E Hv. unfold vars_ok, found_var, var_count in *.
  rewrite E, length_app. cbn [List.length].
  split; [split; [lia|] | lia].
  apply Forall_app. split; [exact Hw | constructor; [exact Hv | constructor]].
Qed.

(** The equations on the table that a run of a table function leaves. *)
Ltac table_facts :=
  repeat match goal with
         | E : Classic.runtime_error _ _ = Some _ |- _ =>
             apply classic_runtime_error_vars in E
         | E : Optimized.runtime_error _ _ = Some _ |- _ =>
             apply pdp11_runtime_error_vars in E
         | E : (_ && _) = true |- _ => apply andb_prop in E; destruct E
         | E : (_ <? _) = true |- _ => apply Z.ltb_lt in E
         | E : (_ <=? _) = true |- _ => apply Z.leb_le in E
         | E : (_ <? _) = false |- _ => apply Z.ltb_ge in E
         | E : (_ <=? _) = false |- _ => apply Z.leb_gt in E
         end.

Ltac table_eq :=
  repeat match goal with
         | E : vars ?s = _ |- vars ?s = _ => rewrite E; clear E
         end;
  rewrite ?vars_set_vars; reflexivity.

Ltac wf_block Hwi :=
  first [ apply wf_fresh_block; lia
        | apply wf_null_block; lia
        | apply wf_grown_block; [exact Hwi | lia]
        | apply wf_cleared_block; [exact Hwi | lia] ].

Lemma classic_find_or_create_var_ok (H : host) n1 n2 is_str want sz
    (s s' : state) (r : option nat) :
  0 <= sz -> vars_ok ClassicBuild s ->
  Classic.find_or_create_var H n1 n2 is_str want sz s = Some (r, s') ->
  vars_ok ClassicBuild s' /\ found_var s s' r.
Proof.
  intros Hsz Hok. unfold Classic.find_or_create_var.
  rewrite bind_run_get.
  destruct (find_var (vars s) n1 n2 is_str 0) as [i|] eqn:Hfind.
  - apply find_var_bound in Hfind.
    pose proof (wf_var_nth (vars s) i (proj2 Hok)) as Hwi.
    intros E. run_split E; run_steps.
    match goal with E : _ = Some (_, _) |- _ => run_split E; run_steps end;
      table_facts;
      first [ eapply table_unchanged; [exact Hok | cbn; lia | table_eq]
            | eapply table_entry_replaced;
              [exact Hok | lia | table_eq | wf_block Hwi] ].
  - destruct (Z.leb_spec Classic.MAX_VARS (var_count s)) as [Hfull|Hroom].
    + intros E. run_split E; run_steps. table_facts.
      eapply table_unchanged; [exact Hok | exact I | table_eq].
    + intros E. run_split E; run_steps.
      match goal with E : _ = Some (_, _) |- _ => run_split E; run_steps end;
        table_facts;
        (eapply table_entry_added; [exact Hok | exact Hroom | table_eq |]);
        destruct want; cbn [andb]; try destruct (alloc_ok _ _ _);
        first [apply wf_fresh_block; lia | apply wf_null_block; lia].
Qed.

Lemma pdp11_find_or_create_var_ok (H : host) n1 n2 is_str want sz
    (s s' : state) (r : option nat) :
  0 <= sz -> vars_ok Pdp11Build s ->
  Optimized.find_or_create_var H n1 n2 is_str want sz s = Some (r, s') ->
  vars_ok Pdp11Build s' /\ found_var s s' r.
Proof.
  intros Hsz Hok. unfold Optimized.find_or_create_var.
  rewrite bind_run_get.
  destruct (find_var (vars s) n1 n2 is_str 0) as [i|] eqn:Hfind.
  - apply find_var_bound in Hfind.
    pose proof (wf_var_nth (vars s) i (proj2 Hok)) as Hwi.
    intros E. run_split E; run_steps.
    match goal with E : _ = Some (_, _) |- _ => run_split E; run_steps end;
      table_facts;
      first [ eapply table_unchanged; [exact Hok | cbn; lia | table_eq]
            | eapply table_entry_replaced;
              [exact Hok | lia | table_eq | wf_block Hwi] ].
  - destruct (Z.leb_spec Optimized.MAX_VARS (var_count s)) as [Hfull|Hroom].
    + intros E. run_split E; run_steps. table_facts.
      eapply table_unchanged; [exact Hok | exact I | table_eq].
    + intros E. run_split E; run_steps.
      match goal with E : _ = Some (_, _) |- _ => run_split E; run_steps end;
        table_facts;
        (eapply table_entry_added; [exact Hok | exact Hroom | table_eq |]);
        destruct want; cbn [andb]; try destruct (alloc_ok _ _ _);
        first [apply wf_fresh_block; lia | apply wf_null_block; lia].
Qed.

(** [array_index + 1] for an index that is an [int]: where the sum is not
    negative it has not wrapped. *)
Lemma wrap32_succ (idx : Z) :
  0 <= idx <= CLib.INT_MAX -> 0 <= CLib.wrap32 (idx + 1) ->
  CLib.wrap32 (idx + 1) = idx + 1.
Proof.
  unfold CLib.wrap32, CLib.INT_MAX. intros Hi Hw.
  destruct (Z.eq_dec idx (2 ^ 31 - 1)) as [->|Hne].
  - exfalso. replace (2 ^ 31 - 1 + 1 + 2 ^ 31) with (1 * 2 ^ 32) in Hw by lia.
    rewrite Z.mod_mul in Hw by lia. lia.
  - rewrite Z.mod_small; lia.
Qed.

Lemma alloc_ok_nonneg (H : host) (vs : list var) (n : Z) :
  alloc_ok H vs n = true -> 0 <= n.
Proof. unfold alloc_ok. intros E. apply andb_prop in E. lia. Qed.

Lemma ref_valid_same (r : value_ref) (s s' : state) :
  vars s' = vars s -> ref_valid r s -> ref_valid r s'.
Proof. unfold ref_valid. intros ->. auto. Qed.

Lemma classic_settle_slot_ok (is_str : bool) (valp : value_ref) (s s' : state)
    (r : option value_ref) :
  vars_ok ClassicBuild s -> ref_valid valp s ->
  Classic.settle_slot is_str valp s = Some (r, s') ->
  vars_ok ClassicBuild s' /\
  match r with Some valp => ref_valid valp s' | None => True end.
Proof.
  intros Hok Hv E. unfold Classic.settle_slot in E.
  run_split E; run_steps.
  match goal with E : _ = Some (_, _) |- _ => run_split E; run_steps end;
    auto using vars_ok_write_ref, ref_valid_write_ref.
Qed.

Lemma pdp11_settle_slot_ok (is_str : bool) (valp : value_ref) (s s' : state)
    (r : option value_ref) :
  vars_ok Pdp11Build s -> ref_valid valp s ->
  Optimized.settle_slot is_str valp s = Some (r, s') ->
  vars_ok Pdp11Build s' /\
  match r with Some valp => ref_valid valp s' | None => True end.
Proof.
  intros Hok Hv E. unfold Optimized.settle_slot in E.
  run_split E; run_steps.
  match goal with E : _ = Some (_, _) |- _ => run_split E; run_steps end;
    auto using vars_ok_write_ref, ref_valid_write_ref.
Qed.

(** The block of entry [i] after the growth step of [var_slot]: when the
    step succeeds and the block is not NULL, the index is inside it. *)
Lemma grown_block_holds (b : build) (H : host) (i : nat) (idx : Z) (s s' : state)
    (v' : var) :
  vars_ok b s -> (i < List.length (vars s))%nat ->
  0 <= idx <= CLib.INT_MAX ->
  let v := nth i (vars s) null_var in
  size v <= idx ->
  alloc_ok H (vars s) (CLib.wrap32 (idx + 1)) = true ->
  v' = mk_var (scalar v)
         (grow_block H (vars s) i (array v) (size v)
          ++ calloc_values (CLib.wrap32 (idx + 1) - size v))%list
         (CLib.wrap32 (idx + 1)) (name1 v) (name2 v) (is_string v) (is_array v) ->
  vars s' = list_set (vars s) i v' ->
  vars_ok b s' /\ (i < List.length (vars s'))%nat /\
  (Z.to_nat idx < List.length (array (nth i (vars s') null_var)))%nat.
Proof.
  intros Hok Hi Hidx v Hsize Halloc -> E.
  apply alloc_ok_nonneg in Halloc.
  pose proof (wrap32_succ idx Hidx Halloc) as Hw.
  pose proof (wf_var_nth (vars s) i (proj2 Hok)) as Hwi. fold v in Hwi.
  assert (Hwf : wf_var (mk_var (scalar v)
                 (grow_block H (vars s) i (array v) (size v)
                  ++ calloc_values (CLib.wrap32 (idx + 1) - size v))%list
                 (CLib.wrap32 (idx + 1)) (name1 v) (name2 v) (is_string v)
                 (is_array v)))
    by (apply wf_cleared_block; [exact Hwi | lia]).
  destruct (table_entry_replaced b s s' i _ Hok Hi E Hwf) as (Hok' & _ & Hi').
  split; [exact Hok' | split; [exact Hi'|]].
  rewrite E, nth_list_set by exact Hi. rewrite Nat.eqb_refl.
  destruct Hwf as (_ & [Hnil | Hlen]); cbn [array size] in *.
  - exfalso. apply (f_equal (@List.length value)) in Hnil.
    rewrite length_app, length_grow_block, length_calloc_values in Hnil.
    cbn [List.length] in Hnil. destruct Hwi as (H0 & _). lia.
  - lia.
Qed.

Lemma classic_var_slot_ok (H : host) n1 n2 is_str is_arr sz idx
    (s s' : state) (r : option value_ref) :
  vars_ok ClassicBuild s ->
  0 <= sz ->
  (is_arr = true -> 0 <= idx <= CLib.INT_MAX) ->
  Classic.var_slot H n1 n2 is_str is_arr sz idx s = Some (r, s') ->
  vars_ok ClassicBuild s' /\
  match r with Some valp => ref_valid valp s' | None => True end.
Proof.
  intros Hok Hsz Hidx. unfold Classic.var_slot. intros E.
  apply bind_inv in E. destruct E as (ri & s1 & E1 & E).
  apply classic_find_or_create_var_ok in E1;
    [|destruct is_arr; lia | exact Hok].
  destruct E1 as (Hok1 & _ & Hfound).
  destruct ri as [i|]; [|injection E as <- <-; auto].
  destruct is_arr.
  - specialize (Hidx eq_refl).
    rewrite bind_run_get in E. apply bind_inv in E.
    destruct E as (grown & s2 & Eg & E).
    destruct grown.
    + assert (HA : vars_ok ClassicBuild s2 /\ (i < List.length (vars s2))%nat /\
                   (array (nth i (vars s2) null_var) <> [] ->
                    (Z.to_nat idx < List.length (array (nth i (vars s2) null_var)))%nat)).
      { run_split Eg; run_steps; table_facts.
        - edestruct (grown_block_holds ClassicBuild H i idx s1) as (Ha1 & Ha2 & Ha3);
            [exact Hok1 | exact Hfound | exact Hidx | eassumption | eassumption
            | reflexivity | apply vars_set_vars |].
          split; [exact Ha1 | split; [exact Ha2 | intros _; exact Ha3]].
        - split; [exact Hok1 | split; [exact Hfound|]].
          intros Hne.
          match goal with
          | |- context [vars ?s0] =>
              pose proof (wf_var_nth (vars s0) i (proj2 Hok1)) as (_ & [Hn|Hn])
          end; [contradiction | lia]. }
      destruct HA as (Hok2 & Hi2 & Hin).
      rewrite bind_run_get in E.
      destruct (array (nth i (vars s2) null_var)) as [|c cells] eqn:Harr;
        [discriminate|].
      eapply (classic_settle_slot_ok is_str (RElem i (Z.to_nat idx))); [exact Hok2 | | exact E].
      cbn. rewrite Harr. split; [exact Hi2 | apply Hin; discriminate].
    + injection E as <- <-. split; [|exact I].
      run_split Eg; run_steps; table_facts; try discriminate.
      eapply vars_ok_same; [|exact Hok1]. table_eq.
  - eapply (classic_settle_slot_ok is_str (RScalar i)); [exact Hok1 | exact Hfound | exact E].
Qed.

Lemma pdp11_var_slot_ok (H : host) n1 n2 is_str is_arr sz idx
    (s s' : state) (r : option value_ref) :
  vars_ok Pdp11Build s ->
  0 <= sz ->
  (is_arr = true -> 0 <= idx <= CLib.INT_MAX) ->
  Optimized.var_slot H n1 n2 is_str is_arr sz idx s = Some (r, s') ->
  vars_ok Pdp11Build s' /\
  match r with Some valp => ref_valid valp s' | None => True end.
Proof.
  intros Hok Hsz Hidx. unfold Optimized.var_slot. intros E.
  apply bind_inv in E. destruct E as (ri & s1 & E1 & E).
  apply pdp11_find_or_create_var_ok in E1;
    [|exact Hsz | exact Hok].
  destruct E1 as (Hok1 & _ & Hfound).
  destruct ri as [i|]; [|injection E as <- <-; auto].
  destruct is_arr.
  - specialize (Hidx eq_refl).
    rewrite bind_run_get in E. apply bind_inv in E.
    destruct E as (grown & s2 & Eg & E).
    destruct grown.
    + assert (HA : vars_ok Pdp11Build s2 /\ (i < List.length (vars s2))%nat /\
                   (array (nth i (vars s2) null_var) <> [] ->
                    (Z.to_nat idx < List.length (array (nth i (vars s2) null_var)))%nat)).
      { run_split Eg; run_steps; table_facts.
        - edestruct (grown_block_holds Pdp11Build H i idx s1) as (Ha1 & Ha2 & Ha3);
            [exact Hok1 | exact Hfound | exact Hidx | eassumption | eassumption
            | reflexivity | apply vars_set_vars |].
          split; [exact Ha1 | split; [exact Ha2 | intros _; exact Ha3]].
        - split; [exact Hok1 | split; [exact Hfound|]].
          intros Hne.
          match goal with
          | |- context [vars ?s0] =>
              pose proof (wf_var_nth (vars s0) i (proj2 Hok1)) as (_ & [Hn|Hn])
          end; [contradiction | lia]. }
      destruct HA as (Hok2 & Hi2 & Hin).
      rewrite bind_run_get in E.
      destruct (array (nth i (vars s2) null_var)) as [|c cells] eqn:Harr;
        [discriminate|].
      eapply (pdp11_settle_slot_ok is_str (RElem i (Z.to_nat idx))); [exact Hok2 | | exact E].
      cbn. rewrite Harr. split; [exact Hi2 | apply Hin; discriminate].
    + injection E as <- <-. split; [|exact I].
      run_split Eg; run_steps; table_facts; try discriminate.
      eapply vars_ok_same; [|exact Hok1]. table_eq.
  - eapply (pdp11_settle_slot_ok is_str (RScalar i)); [exact Hok1 | exact Hfound | exact E].
Qed.

(** ** The invariant along the evaluator *)

Lemma preserves_repeatM (P : state -> Prop) (n : nat) (m : M unit) :
  preserves P m -> preserves P (repeatM n m).
Proof.
  intros Hm. induction n as [|n IH]; cbn [repeatM].
  - apply preserves_ret.
  - apply preserves_bind; [exact Hm | intros; exact IH].
Qed.

Lemma pres_write_ref (b : build) (r : value_ref) (x : value) :
  preserves (vars_ok b) (modify (write_ref r x)).
Proof. apply preserves_modify. intros s. apply vars_ok_write_ref. Qed.

Lemma pres_write_ref_fun (b : build) (r : value_ref) (f : state -> value) :
  preserves (vars_ok b) (modify (fun s => write_ref r (f s) s)).
Proof. apply preserves_modify. intros s. apply vars_ok_write_ref. Qed.

Create HintDb presv.
#[local] Hint Resolve pres_write_ref pres_write_ref_fun : presv.

(** Decompose a computation along its binds and branches, down to the
    primitives; of these only the writes through a pointer and the table
    functions touch the variables. *)
Ltac presv_step :=
  match goal with
  | |- preserves _ (bind _ _) => apply preserves_bind; [|intros]
  | |- preserves _ (if ?c then _ else _) => destruct c eqn:?
  | |- preserves _ (match ?x with _ => _ end) => destruct x eqn:?
  | |- preserves _ (let (_, _) := ?x in _) => destruct x eqn:?
  | |- forall _, _ => intros
  | |- preserves _ _ => assumption
  | |- preserves _ _ => solve [auto with pres presv]
  | |- preserves _ (repeatM _ _) => apply preserves_repeatM
  | |- preserves _ (modify _) =>
      apply preserves_modify;
      let s := fresh "s" in let Hs := fresh "Hs" in
      intros s Hs; destruct s; exact Hs
  | |- preserves _ _ =>
      progress unfold Classic.skip_spaces, Classic.runtime_error, Classic.ensure_num,
        Classic.ensure_str, Classic.read_identifier, Classic.parse_number_literal,
        Classic.close_paren, Classic.numeric_fn, Classic.count_column,
        Classic.print_spaces, Classic.skip_digits, Classic.find_line_index,
        Classic.do_sleep_ticks, Classic.statement_rem,
        Optimized.skip_spaces, Optimized.runtime_error, Optimized.ensure_num,
        Optimized.ensure_str, Optimized.read_identifier,
        Optimized.parse_number_literal, Optimized.numeric_fn,
        Optimized.count_column, Optimized.print_spaces, Optimized.skip_digits,
        Optimized.find_line_index, Optimized.dupstr_local, Optimized.statement_rem,
        Optimized.statement_end,
        advance, set_cursor, peek, peek_at, fputc_stdout, fputs_stdout, fputs_stderr
  end.

Ltac presv_tac := repeat presv_step.

(** One step of a run that returned, carrying the invariant along. *)
Ltac run_inv_P P Hrun :=
  lazymatch type of Hrun with
  | bind (bind _ _) _ _ = Some _ => rewrite bind_assoc in Hrun
  | bind (if ?c then _ else _) _ _ = Some _ => destruct c eqn:?
  | bind ?m ?k ?s = Some _ =>
      let a := fresh "a" in
      let s1 := fresh "s" in
      let E := fresh "E" in
      let K := fresh "K" in
      apply bind_inv in Hrun; destruct Hrun as (a & s1 & E & Hrun);
      assert (K : P s1)
        by (refine ((_ : preserves P m) s a s1 E _); [presv_tac | assumption])
  | (if ?c then _ else _) _ = Some _ => destruct c eqn:?
  | match ?x with _ => _ end _ = Some _ => destruct x eqn:?
  | (let (_, _) := ?x in _) _ = Some _ => destruct x eqn:?
  end.

(** The size asked for is at least the default one, and a subscript is an
    [int]. *)
Lemma classic_array_size_for_nonneg (idx : Z) : 0 <= Classic.array_size_for idx.
Proof.
  unfold Classic.array_size_for, Classic.DEFAULT_ARRAY_SIZE.
  destruct (Z.ltb_spec (CLib.wrap32 (idx + 1)) 11); lia.
Qed.

Lemma pdp11_array_size_for_nonneg (idx : Z) : 0 <= Optimized.array_size_for idx.
Proof.
  unfold Optimized.array_size_for, Optimized.DEFAULT_ARRAY_SIZE.
  destruct (Z.ltb_spec (CLib.wrap32 (idx + 1)) 11); lia.
Qed.

Lemma classic_subscript_range (x : float) :
  (Classic.subscript_of x <? 0) = false ->
  0 <= Classic.subscript_of x <= CLib.INT_MAX.
Proof.
  intros Hi. apply Z.ltb_ge in Hi. split; [exact Hi|].
  apply double_to_int_range.
Qed.

Lemma pdp11_subscript_range (x : float) :
  (Optimized.subscript_of x <? 0) = false ->
  0 <= Optimized.subscript_of x <= CLib.INT_MAX.
Proof.
  intros Hi. apply Z.ltb_ge in Hi. split; [exact Hi|].
  apply double_to_int_range.
Qed.

Section ClassicVars.
Variable H : host.

Lemma pres_classic_var_slot_array n1 n2 is_str (x : float) :
  (Classic.subscript_of x <? 0) = false ->
  preserves (vars_ok ClassicBuild)
    (Classic.var_slot H n1 n2 is_str true
       (Classic.array_size_for (Classic.subscript_of x)) (Classic.subscript_of x)).
Proof.
  intros Hi s r s' E Hok.
  eapply classic_var_slot_ok;
    [exact Hok | apply classic_array_size_for_nonneg
    | intros _; apply classic_subscript_range, Hi | exact E].
Qed.

Lemma pres_classic_var_slot_scalar n1 n2 is_str :
  preserves (vars_ok ClassicBuild) (Classic.var_slot H n1 n2 is_str false 0 (-1)).
Proof.
  intros s r s' E Hok.
  eapply classic_var_slot_ok; eauto; [lia | discriminate].
Qed.

Lemma pres_classic_find_or_create_var n1 n2 is_str want (sz : Z) :
  (sz <=? 0) = false ->
  preserves (vars_ok ClassicBuild) (Classic.find_or_create_var H n1 n2 is_str want sz).
Proof.
  intros Hsz s r s' E Hok. apply Z.leb_gt in Hsz.
  eapply classic_find_or_create_var_ok; eauto. lia.
Qed.

#[local] Hint Resolve pres_classic_var_slot_array pres_classic_var_slot_scalar
  pres_classic_find_or_create_var : presv.

(** [get_var_reference]: the invariant, and the reference it returns. *)
Lemma classic_get_var_reference_ok (top : M value) (s s' : state)
    (r : option (value_ref * bool * bool)) :
  preserves (vars_ok ClassicBuild) top ->
  vars_ok ClassicBuild s ->
  Classic.get_var_reference H top s = Some (r, s') ->
  vars_ok ClassicBuild s' /\
  match r with Some (valp, _, _) => ref_valid valp s' | None => True end.
Proof.
  intros Htop Hok Hrun.
  unfold Classic.get_var_reference in Hrun.
  repeat run_inv_P (vars_ok ClassicBuild) Hrun.
  all: injection Hrun as <- <-.
  all: try (split; [assumption | exact I]).
  all: match goal with
       | E : ?lhs = Some (?a, _) |- _ =>
           lazymatch lhs with context [Classic.var_slot] => idtac end;
           first
             [ match goal with
               | Hi : (_ <? 0) = false |- _ =>
                   eapply classic_var_slot_ok in E;
                   [|eassumption | apply classic_array_size_for_nonneg
                    |intros _; apply classic_subscript_range, Hi]
               end
             | eapply classic_var_slot_ok in E; [|eassumption | lia | discriminate] ];
           destruct E as (Hok' & Hv); destruct a; (split; [exact Hok' | exact Hv])
       end.
Qed.

Lemma pres_classic_get_var_reference (top : M value) :
  preserves (vars_ok ClassicBuild) top ->
  preserves (vars_ok ClassicBuild) (Classic.get_var_reference H top).
Proof.
  intros Htop s r s' E Hok. eapply classic_get_var_reference_ok; eassumption.
Qed.

#[local] Hint Resolve pres_classic_get_var_reference : presv.

Lemma presv_classic_eval_function (top : M value) (name : string) :
  preserves (vars_ok ClassicBuild) top -> preserves (vars_ok ClassicBuild) (Classic.eval_function H top name).
Proof. intros Ht. unfold Classic.eval_function. presv_tac. Qed.


#[local] Hint Resolve presv_classic_eval_function : presv.

Lemma presv_classic_eval_factor_body (top factor : M value) :
  preserves (vars_ok ClassicBuild) top -> preserves (vars_ok ClassicBuild) factor -> preserves (vars_ok ClassicBuild) (Classic.eval_factor_body H top factor).
Proof. intros Ht Hf. unfold Classic.eval_factor_body. presv_tac. Qed.

Lemma presv_classic_eval_power_body (factor power : M value) :
  preserves (vars_ok ClassicBuild) factor -> preserves (vars_ok ClassicBuild) power -> preserves (vars_ok ClassicBuild) (Classic.eval_power_body H factor power).
Proof. intros Hf Hp. unfold Classic.eval_power_body. presv_tac. Qed.

Lemma presv_classic_eval_term_loop_body power again left :
  preserves (vars_ok ClassicBuild) power -> (forall v, preserves (vars_ok ClassicBuild) (again v)) ->
  preserves (vars_ok ClassicBuild) (Classic.eval_term_loop_body power again left).
Proof. intros Hp Ha. unfold Classic.eval_term_loop_body. presv_tac. Qed.

Lemma presv_classic_eval_term_body power loop :
  preserves (vars_ok ClassicBuild) power -> (forall v, preserves (vars_ok ClassicBuild) (loop v)) -> preserves (vars_ok ClassicBuild) (Classic.eval_term_body power loop).
Proof. intros Hp Hl. unfold Classic.eval_term_body. presv_tac. Qed.

Lemma presv_classic_eval_expr_loop_body term again left :
  preserves (vars_ok ClassicBuild) term -> (forall v, preserves (vars_ok ClassicBuild) (again v)) ->
  preserves (vars_ok ClassicBuild) (Classic.eval_expr_loop_body term again left).
Proof. intros Hp Ha. unfold Classic.eval_expr_loop_body. presv_tac. Qed.

Lemma presv_classic_eval_expr_body term loop :
  preserves (vars_ok ClassicBuild) term -> (forall v, preserves (vars_ok ClassicBuild) (loop v)) -> preserves (vars_ok ClassicBuild) (Classic.eval_expr_body term loop).
Proof. intros Hp Hl. unfold Classic.eval_expr_body. presv_tac. Qed.

Lemma presv_classic_eval_comparison_body expr :
  preserves (vars_ok ClassicBuild) expr -> preserves (vars_ok ClassicBuild) (Classic.eval_comparison_body expr).
Proof.
  intros He.
  unfold Classic.eval_comparison_body, Classic.compare_mixed, Classic.compare_numeric.
  presv_tac.
Qed.

Lemma presv_classic_eval_and_loop_body cmp again left :
  preserves (vars_ok ClassicBuild) cmp -> (forall v, preserves (vars_ok ClassicBuild) (again v)) ->
  preserves (vars_ok ClassicBuild) (Classic.eval_and_loop_body cmp again left).
Proof. intros Hp Ha. unfold Classic.eval_and_loop_body. presv_tac. Qed.

Lemma presv_classic_eval_and_expr_body cmp loop :
  preserves (vars_ok ClassicBuild) cmp -> (forall v, preserves (vars_ok ClassicBuild) (loop v)) -> preserves (vars_ok ClassicBuild) (Classic.eval_and_expr_body cmp loop).
Proof. intros Hp Hl. unfold Classic.eval_and_expr_body. presv_tac. Qed.

Lemma presv_classic_eval_or_loop_body a again left :
  preserves (vars_ok ClassicBuild) a -> (forall v, preserves (vars_ok ClassicBuild) (again v)) ->
  preserves (vars_ok ClassicBuild) (Classic.eval_or_loop_body a again left).
Proof. intros Hp Ha. unfold Classic.eval_or_loop_body. presv_tac. Qed.

Lemma presv_classic_eval_or_expr_body a loop :
  preserves (vars_ok ClassicBuild) a -> (forall v, preserves (vars_ok ClassicBuild) (loop v)) -> preserves (vars_ok ClassicBuild) (Classic.eval_or_expr_body a loop).
Proof. intros Hp Hl. unfold Classic.eval_or_expr_body. presv_tac. Qed.

(** The evaluator keeps the variable table within its bounds. *)
Lemma presv_classic_evaluator (n : nat) :
  preserves (vars_ok ClassicBuild) (Classic.eval_factor H n) /\
  preserves (vars_ok ClassicBuild) (Classic.eval_power H n) /\
  (forall v, preserves (vars_ok ClassicBuild) (Classic.eval_term_loop H n v)) /\
  preserves (vars_ok ClassicBuild) (Classic.eval_term H n) /\
  (forall v, preserves (vars_ok ClassicBuild) (Classic.eval_expr_loop H n v)) /\
  preserves (vars_ok ClassicBuild) (Classic.eval_expr H n) /\
  preserves (vars_ok ClassicBuild) (Classic.eval_comparison H n) /\
  (forall v, preserves (vars_ok ClassicBuild) (Classic.eval_and_loop H n v)) /\
  preserves (vars_ok ClassicBuild) (Classic.eval_and_expr H n) /\
  (forall v, preserves (vars_ok ClassicBuild) (Classic.eval_or_loop H n v)) /\
  preserves (vars_ok ClassicBuild) (Classic.eval_or_expr H n).
Proof.
  induction n as [|n IH].
  - repeat match goal with |- _ /\ _ => split end;
      intros; intros s a s' E; discriminate E.
  - destruct IH as (Hf & Hp & Htl & Ht & Hel & He & Hc & Hal & Ha & Hol & Ho).
    repeat match goal with |- _ /\ _ => split end; intros.
    + apply (presv_classic_eval_factor_body _ _ Ho Hf).
    + apply (presv_classic_eval_power_body _ _ Hf Hp).
    + apply (presv_classic_eval_term_loop_body _ _ _ Hp Htl).
    + apply (presv_classic_eval_term_body _ _ Hp Htl).
    + apply (presv_classic_eval_expr_loop_body _ _ _ Ht Hel).
    + apply (presv_classic_eval_expr_body _ _ Ht Hel).
    + apply (presv_classic_eval_comparison_body _ He).
    + apply (presv_classic_eval_and_loop_body _ _ _ Hc Hal).
    + apply (presv_classic_eval_and_expr_body _ _ Hc Hal).
    + apply (presv_classic_eval_or_loop_body _ _ _ Ha Hol).
    + apply (presv_classic_eval_or_expr_body _ _ Ha Hol).
Qed.

End ClassicVars.

Section Pdp11Vars.
Variable H : host.

Lemma pres_pdp11_var_slot_array n1 n2 is_str (x : float) :
  (Optimized.subscript_of x <? 0) = false ->
  preserves (vars_ok Pdp11Build)
    (Optimized.var_slot H n1 n2 is_str true
       (Optimized.array_size_for (Optimized.subscript_of x)) (Optimized.subscript_of x)).
Proof.
  intros Hi s r s' E Hok.
  eapply pdp11_var_slot_ok;
    [exact Hok | apply pdp11_array_size_for_nonneg
    | intros _; apply pdp11_subscript_range, Hi | exact E].
Qed.

Lemma pres_pdp11_var_slot_scalar n1 n2 is_str :
  preserves (vars_ok Pdp11Build) (Optimized.var_slot H n1 n2 is_str false 0 (-1)).
Proof.
  intros s r s' E Hok.
  eapply pdp11_var_slot_ok; eauto; [lia | discriminate].
Qed.

Lemma pres_pdp11_find_or_create_var n1 n2 is_str want (sz : Z) :
  (sz <=? 0) = false ->
  preserves (vars_ok Pdp11Build) (Optimized.find_or_create_var H n1 n2 is_str want sz).
Proof.
  intros Hsz s r s' E Hok. apply Z.leb_gt in Hsz.
  eapply pdp11_find_or_create_var_ok; eauto. lia.
Qed.

#[local] Hint Resolve pres_pdp11_var_slot_array pres_pdp11_var_slot_scalar
  pres_pdp11_find_or_create_var : presv.

(** [get_var_reference]: the invariant, and the reference it returns. *)
Lemma pdp11_get_var_reference_ok (top : M value) (s s' : state)
    (r : option (value_ref * bool * bool)) :
  preserves (vars_ok Pdp11Build) top ->
  vars_ok Pdp11Build s ->
  Optimized.get_var_reference H top s = Some (r, s') ->
  vars_ok Pdp11Build s' /\
  match r with Some (valp, _, _) => ref_valid valp s' | None => True end.
Proof.
  intros Htop Hok Hrun.
  unfold Optimized.get_var_reference in Hrun.
  repeat run_inv_P (vars_ok Pdp11Build) Hrun.
  all: injection Hrun as <- <-.
  all: try (split; [assumption | exact I]).
  all: match goal with
       | E : ?lhs = Some (?a, _) |- _ =>
           lazymatch lhs with context [Optimized.var_slot] => idtac end;
           first
             [ match goal with
               | Hi : (_ <? 0) = false |- _ =>
                   eapply pdp11_var_slot_ok in E;
                   [|eassumption | apply pdp11_array_size_for_nonneg
                    |intros _; apply pdp11_subscript_range, Hi]
               end
             | eapply pdp11_var_slot_ok in E; [|eassumption | lia | discriminate] ];
           destruct E as (Hok' & Hv); destruct a; (split; [exact Hok' | exact Hv])
       end.
Qed.

Lemma pres_pdp11_get_var_reference (top : M value) :
  preserves (vars_ok Pdp11Build) top ->
  preserves (vars_ok Pdp11Build) (Optimized.get_var_reference H top).
Proof.
  intros Htop s r s' E Hok. eapply pdp11_get_var_reference_ok; eassumption.
Qed.

#[local] Hint Resolve pres_pdp11_get_var_reference : presv.

Lemma presv_pdp11_eval_function (top : M value) (name : string) :
  preserves (vars_ok Pdp11Build) top -> preserves (vars_ok Pdp11Build) (Optimized.eval_function H top name).
Proof. intros Ht. unfold Optimized.eval_function. presv_tac. Qed.


#[local] Hint Resolve presv_pdp11_eval_function : presv.

Lemma presv_pdp11_eval_factor_body (top factor : M value) :
  preserves (vars_ok Pdp11Build) top -> preserves (vars_ok Pdp11Build) factor -> preserves (vars_ok Pdp11Build) (Optimized.eval_factor_body H top factor).
Proof. intros Ht Hf. unfold Optimized.eval_factor_body. presv_tac. Qed.

Lemma presv_pdp11_eval_power_body (factor power : M value) :
  preserves (vars_ok Pdp11Build) factor -> preserves (vars_ok Pdp11Build) power -> preserves (vars_ok Pdp11Build) (Optimized.eval_power_body H factor power).
Proof. intros Hf Hp. unfold Optimized.eval_power_body. presv_tac. Qed.

Lemma presv_pdp11_eval_term_loop_body power again left :
  preserves (vars_ok Pdp11Build) power -> (forall v, preserves (vars_ok Pdp11Build) (again v)) ->
  preserves (vars_ok Pdp11Build) (Optimized.eval_term_loop_body power again left).
Proof. intros Hp Ha. unfold Optimized.eval_term_loop_body. presv_tac. Qed.

Lemma presv_pdp11_eval_term_body power loop :
  preserves (vars_ok Pdp11Build) power -> (forall v, preserves (vars_ok Pdp11Build) (loop v)) -> preserves (vars_ok Pdp11Build) (Optimized.eval_term_body power loop).
Proof. intros Hp Hl. unfold Optimized.eval_term_body. presv_tac. Qed.

Lemma presv_pdp11_eval_expr_loop_body term again left :
  preserves (vars_ok Pdp11Build) term -> (forall v, preserves (vars_ok Pdp11Build) (again v)) ->
  preserves (vars_ok Pdp11Build) (Optimized.eval_expr_loop_body term again left).
Proof. intros Hp Ha. unfold Optimized.eval_expr_loop_body. presv_tac. Qed.

Lemma presv_pdp11_eval_expr_body term loop :
  preserves (vars_ok Pdp11Build) term -> (forall v, preserves (vars_ok Pdp11Build) (loop v)) -> preserves (vars_ok Pdp11Build) (Optimized.eval_expr_body term loop).
Proof. intros Hp Hl. unfold Optimized.eval_expr_body. presv_tac. Qed.

(** The evaluator keeps the variable table within its bounds. *)
Lemma presv_pdp11_evaluator (n : nat) :
  preserves (vars_ok Pdp11Build) (Optimized.eval_factor H n) /\
  preserves (vars_ok Pdp11Build) (Optimized.eval_power H n) /\
  (forall v, preserves (vars_ok Pdp11Build) (Optimized.eval_term_loop H n v)) /\
  preserves (vars_ok Pdp11Build) (Optimized.eval_term H n) /\
  (forall v, preserves (vars_ok Pdp11Build) (Optimized.eval_expr_loop H n v)) /\
  preserves (vars_ok Pdp11Build) (Optimized.eval_expr H n).
Proof.
  induction n as [|n IH].
  - repeat match goal with |- _ /\ _ => split end;
      intros; intros s a s' E; discriminate E.
  - destruct IH as (Hf & Hp & Htl & Ht & Hel & He).
    repeat match goal with |- _ /\ _ => split end; intros.
    + apply (presv_pdp11_eval_factor_body _ _ He Hf).
    + apply (presv_pdp11_eval_power_body _ _ Hf Hp).
    + apply (presv_pdp11_eval_term_loop_body _ _ _ Hp Htl).
    + apply (presv_pdp11_eval_term_body _ _ Hp Htl).
    + apply (presv_pdp11_eval_expr_loop_body _ _ _ Ht Hel).
    + apply (presv_pdp11_eval_expr_body _ _ Ht Hel).
Qed.

End Pdp11Vars.

Section ClassicVarsRun.
Variable H : host.

Lemma presv_classic_eval_or_expr (n : nat) : preserves (vars_ok ClassicBuild) (Classic.eval_or_expr H n).
Proof. apply (presv_classic_evaluator H n). Qed.

Lemma presv_classic_eval_factor (n : nat) : preserves (vars_ok ClassicBuild) (Classic.eval_factor H n).
Proof. apply (presv_classic_evaluator H n). Qed.

Lemma presv_classic_print_string (t : string) : preserves (vars_ok ClassicBuild) (Classic.print_string t).
Proof. induction t as [|c t IH]; cbn [Classic.print_string]; presv_tac. Qed.

#[local] Hint Resolve presv_classic_eval_or_expr presv_classic_eval_factor presv_classic_print_string
  pres_classic_get_var_reference pres_classic_find_or_create_var : presv.

Lemma presv_classic_statement_print (n : nat) :
  preserves (vars_ok ClassicBuild) (Classic.statement_print H n).
Proof.
  assert (Hloop : forall n nl, preserves (vars_ok ClassicBuild) (Classic.statement_print_loop H n nl)).
  { clear n. induction n as [|n IH]; intros nl; cbn [Classic.statement_print_loop];
      unfold Classic.print_value; presv_tac; try apply IH. }
  unfold Classic.statement_print. presv_tac; try apply Hloop.
Qed.

Lemma presv_classic_statement_input (n : nat) :
  preserves (vars_ok ClassicBuild) (Classic.statement_input H n).
Proof.
  assert (Hloop : forall n prompt first,
             preserves (vars_ok ClassicBuild) (Classic.statement_input_loop H n prompt first)).
  { clear n. induction n as [|n IH]; intros prompt first;
      cbn [Classic.statement_input_loop]; presv_tac; try apply IH. }
  unfold Classic.statement_input. presv_tac; try apply Hloop.
Qed.

Lemma presv_classic_statement_let (n : nat) :
  preserves (vars_ok ClassicBuild) (Classic.statement_let H n).
Proof. unfold Classic.statement_let. presv_tac. Qed.

Lemma presv_classic_statement_goto : preserves (vars_ok ClassicBuild) Classic.statement_goto.
Proof. unfold Classic.statement_goto. presv_tac. Qed.

Lemma presv_classic_statement_gosub : preserves (vars_ok ClassicBuild) Classic.statement_gosub.
Proof. unfold Classic.statement_gosub. presv_tac. Qed.

Lemma presv_classic_statement_return : preserves (vars_ok ClassicBuild) Classic.statement_return.
Proof. unfold Classic.statement_return. presv_tac. Qed.

Lemma presv_classic_statement_if (n : nat) :
  preserves (vars_ok ClassicBuild) (Classic.statement_if H n).
Proof. unfold Classic.statement_if, Classic.eval_condition. presv_tac. Qed.

Lemma presv_classic_statement_for (n : nat) :
  preserves (vars_ok ClassicBuild) (Classic.statement_for H n).
Proof. unfold Classic.statement_for. presv_tac. Qed.

Lemma presv_classic_statement_next : preserves (vars_ok ClassicBuild) Classic.statement_next.
Proof. unfold Classic.statement_next. presv_tac. Qed.

Lemma presv_classic_statement_dim (n : nat) :
  preserves (vars_ok ClassicBuild) (Classic.statement_dim H n).
Proof. induction n as [|n IH]; cbn [Classic.statement_dim]; presv_tac. Qed.

Lemma presv_classic_statement_sleep (n : nat) :
  preserves (vars_ok ClassicBuild) (Classic.statement_sleep H n).
Proof. unfold Classic.statement_sleep. presv_tac. Qed.

Lemma presv_classic_execute_statement (n : nat) :
  preserves (vars_ok ClassicBuild) (Classic.execute_statement H n).
Proof.
  unfold Classic.execute_statement.
  presv_tac;
    auto using presv_classic_statement_print, presv_classic_statement_input,
      presv_classic_statement_let, presv_classic_statement_goto,
      presv_classic_statement_gosub, presv_classic_statement_return,
      presv_classic_statement_if, presv_classic_statement_for,
      presv_classic_statement_next, presv_classic_statement_dim,
      presv_classic_statement_sleep.
Qed.

Lemma presv_classic_run_step (n : nat) :
  preserves (vars_ok ClassicBuild) (Classic.run_step H n).
Proof.
  unfold Classic.run_step. presv_tac; apply presv_classic_execute_statement.
Qed.

End ClassicVarsRun.

Section Pdp11VarsRun.
Variable H : host.

Lemma presv_pdp11_eval_expr (n : nat) : preserves (vars_ok Pdp11Build) (Optimized.eval_expr H n).
Proof. apply (presv_pdp11_evaluator H n). Qed.

Lemma presv_pdp11_eval_factor (n : nat) : preserves (vars_ok Pdp11Build) (Optimized.eval_factor H n).
Proof. apply (presv_pdp11_evaluator H n). Qed.

Lemma presv_pdp11_print_string (t : string) : preserves (vars_ok Pdp11Build) (Optimized.print_string t).
Proof. induction t as [|c t IH]; cbn [Optimized.print_string]; presv_tac. Qed.

#[local] Hint Resolve presv_pdp11_eval_expr presv_pdp11_eval_factor presv_pdp11_print_string
  pres_pdp11_get_var_reference pres_pdp11_find_or_create_var : presv.

Lemma presv_pdp11_statement_print (n : nat) :
  preserves (vars_ok Pdp11Build) (Optimized.statement_print H n).
Proof.
  assert (Hloop : forall n nl, preserves (vars_ok Pdp11Build) (Optimized.statement_print_loop H n nl)).
  { clear n. induction n as [|n IH]; intros nl; cbn [Optimized.statement_print_loop];
      unfold Optimized.print_value; presv_tac; try apply IH. }
  unfold Optimized.statement_print. presv_tac; try apply Hloop.
Qed.

Lemma presv_pdp11_statement_input (n : nat) :
  preserves (vars_ok Pdp11Build) (Optimized.statement_input H n).
Proof.
  assert (Hloop : forall n prompt first,
             preserves (vars_ok Pdp11Build) (Optimized.statement_input_loop H n prompt first)).
  { clear n. induction n as [|n IH]; intros prompt first;
      cbn [Optimized.statement_input_loop]; presv_tac; try apply IH. }
  unfold Optimized.statement_input. presv_tac; try apply Hloop.
Qed.

Lemma presv_pdp11_statement_let (n : nat) :
  preserves (vars_ok Pdp11Build) (Optimized.statement_let H n).
Proof. unfold Optimized.statement_let. presv_tac. Qed.

Lemma presv_pdp11_statement_goto : preserves (vars_ok Pdp11Build) Optimized.statement_goto.
Proof. unfold Optimized.statement_goto. presv_tac. Qed.

Lemma presv_pdp11_statement_gosub : preserves (vars_ok Pdp11Build) Optimized.statement_gosub.
Proof. unfold Optimized.statement_gosub. presv_tac. Qed.

Lemma presv_pdp11_statement_return : preserves (vars_ok Pdp11Build) Optimized.statement_return.
Proof. unfold Optimized.statement_return. presv_tac. Qed.

Lemma presv_pdp11_statement_if (n : nat) :
  preserves (vars_ok Pdp11Build) (Optimized.statement_if H n).
Proof. unfold Optimized.statement_if, Optimized.eval_condition. presv_tac. Qed.

Lemma presv_pdp11_statement_for (n : nat) :
  preserves (vars_ok Pdp11Build) (Optimized.statement_for H n).
Proof. unfold Optimized.statement_for. presv_tac. Qed.

Lemma presv_pdp11_statement_next : preserves (vars_ok Pdp11Build) Optimized.statement_next.
Proof. unfold Optimized.statement_next. presv_tac. Qed.

Lemma presv_pdp11_statement_dim (n : nat) :
  preserves (vars_ok Pdp11Build) (Optimized.statement_dim H n).
Proof. induction n as [|n IH]; cbn [Optimized.statement_dim]; presv_tac. Qed.

Lemma presv_pdp11_execute_statement (n : nat) :
  preserves (vars_ok Pdp11Build) (Optimized.execute_statement H n).
Proof.
  unfold Optimized.execute_statement.
  presv_tac;
    auto using presv_pdp11_statement_print, presv_pdp11_statement_input,
      presv_pdp11_statement_let, presv_pdp11_statement_goto,
      presv_pdp11_statement_gosub, presv_pdp11_statement_return,
      presv_pdp11_statement_if, presv_pdp11_statement_for,
      presv_pdp11_statement_next, presv_pdp11_statement_dim.
Qed.

Lemma presv_pdp11_run_step (n : nat) :
  preserves (vars_ok Pdp11Build) (Optimized.run_step H n).
Proof.
  unfold Optimized.run_step. presv_tac; apply presv_pdp11_execute_statement.
Qed.

End Pdp11VarsRun.

Lemma classic_load_lines_preserves (P : state -> Prop) :
  (forall n t, preserves P (Classic.add_or_replace_line n t)) ->
  forall (fuel : nat) (file : string) (s s' : state),
  Classic.load_lines fuel file s = Loaded s' -> P s -> P s'.
Proof.
  intros Hadd. induction fuel as [|fuel IH]; intros file s s'; cbn [Classic.load_lines].
  - intros E. injection E as <-. auto.
  - destruct (CLib.fgets Classic.MAX_LINE_LEN file) as [[linebuf rest]|];
      [|intros E; injection E as <-; auto].
    destruct (Ascii.eqb _ CLib.NUL); [apply IH|].
    destruct (negb _); [discriminate|].
    destruct (Classic.add_or_replace_line _ _ s) as [[u s1]|] eqn:Ha;
      [|intros E; injection E as <-; auto].
    intros E HP. apply (IH _ _ _ E). eapply Hadd; eassumption.
Qed.

Lemma pdp11_load_lines_preserves (P : state -> Prop) :
  (forall n t, preserves P (Optimized.add_or_replace_line n t)) ->
  forall (fuel : nat) (file : string) (s s' : state),
  Optimized.load_lines fuel file s = Loaded s' -> P s -> P s'.
Proof.
  intros Hadd. induction fuel as [|fuel IH]; intros file s s'; cbn [Optimized.load_lines].
  - intros E. injection E as <-. auto.
  - destruct (CLib.fgets Optimized.MAX_LINE_LEN file) as [[linebuf rest]|];
      [|intros E; injection E as <-; auto].
    destruct (_ && _); [discriminate|].
    destruct (Ascii.eqb _ CLib.NUL); [apply IH|].
    destruct (negb _); [discriminate|].
    destruct (_ || _); [discriminate|].
    destruct (Optimized.add_or_replace_line _ _ s) as [[u s1]|] eqn:Ha;
      [|intros E; injection E as <-; auto].
    intros E HP. apply (IH _ _ _ E). eapply Hadd; eassumption.
Qed.

Lemma load_program_vars_ok (b : build) (path : string) (file : option string)
    (input : string) (s : state) :
  load_program b path file (initial_state input) = Loaded s -> vars_ok b s.
Proof.
  assert (H0 : vars_ok b (initial_state input))
    by (destruct b; split; [vm_compute; discriminate | constructor
                           | vm_compute; discriminate | constructor]).
  destruct b; cbn [load_program];
    unfold Classic.load_program, Optimized.load_program;
    (destruct file as [content|]; [|discriminate]).
  - destruct (Classic.load_lines _ content _) as [c s1|s1] eqn:Hl; [discriminate|].
    intros E. injection E as <-.
    apply (classic_load_lines_preserves (vars_ok ClassicBuild)) in Hl; [| |exact H0].
    + destruct s1; exact Hl.
    + intros n t. unfold Classic.add_or_replace_line. presv_tac.
  - destruct (Optimized.load_lines _ content _) as [c s1|s1] eqn:Hl; [discriminate|].
    intros E. injection E as <-.
    apply (pdp11_load_lines_preserves (vars_ok Pdp11Build)) in Hl; [| |exact H0].
    + destruct s1; exact Hl.
    + intros n t. unfold Optimized.add_or_replace_line. presv_tac.
Qed.

(** X12.  The variable table never leaves its array, and every block is
    either NULL (no array yet, or an allocation that failed) or has exactly
    the number of cells its entry records: a loaded program starts with at
    most [MAX_VARS] variables in that shape, and every turn of the driver
    loop that returns (evaluating expressions, creating variables, DIM,
    growing arrays, assignments, with allocations that succeed or fail as
    the host decides) keeps it so; so does every sequence of turns. *)
Theorem variable_table_stays_within (b : build) (H : host) (n : nat) :
  (forall path file input s,
     load_program b path file (initial_state input) = Loaded s -> vars_ok b s) /\
  (forall s again s',
     run_step b H n s = Some (again, s') -> vars_ok b s -> vars_ok b s') /\
  (forall k s s',
     steps b H n k s = Some s' -> vars_ok b s -> vars_ok b s').
Proof.
  assert (Hstep : forall s again s',
             run_step b H n s = Some (again, s') -> vars_ok b s -> vars_ok b s').
  { intros s again s' E HP.
    destruct b; cbn [run_step] in E.
    - eapply presv_classic_run_step; eassumption.
    - eapply presv_pdp11_run_step; eassumption. }
  split; [apply load_program_vars_ok|]. split; [exact Hstep|].
  induction k as [|k IH]; intros s s'; cbn [steps].
  - intros E. injection E as <-. auto.
  - destruct (run_step b H n s) as [[again s1]|] eqn:E1; [|discriminate].
    intros E HP. apply (IH _ _ E). eapply Hstep; eassumption.
Qed.

(** X13.  The reference [get_var_reference] returns is inside the table:
    for a scalar the index of an entry, for an array element the index of an
    entry and a cell index below the number of cells of its block (the array
    is created or enlarged first when the subscript asks for it), at the
    moment the function returns; the table stays in its shape.  Whether the
    allocations succeed is up to the host: where one fails the function
    reports the error and returns no reference, and a call that would read
    through a NULL block returns nothing at all. *)
Theorem variable_reference_in_bounds (b : build) (H : host) (n : nat)
    (s s' : state) (r : value_ref) (is_arr is_str : bool) :
  vars_ok b s ->
  get_var_reference b H (expression b H n) s = Some (Some (r, is_arr, is_str), s') ->
  ref_valid r s' /\ vars_ok b s'.
Proof.
  intros Hok E. destruct b; cbn [get_var_reference expression] in E.
  - apply classic_get_var_reference_ok in E;
      [tauto | apply (presv_classic_evaluator H n) | exact Hok].
  - apply pdp11_get_var_reference_ok in E;
      [tauto | apply (presv_pdp11_evaluator H n) | exact Hok].
Qed.

(** The element [A(25)] in an empty table. *)
Lemma variable_reference_in_bounds_witness :
  ref_valid (RElem 0 25)
    (state_after (get_var_reference ClassicBuild RefHost.ref_host
                    (expression ClassicBuild RefHost.ref_host 20))
                 (at_text "A(25)")) /\
  vars_ok ClassicBuild
    (state_after (get_var_reference ClassicBuild RefHost.ref_host
                    (expression ClassicBuild RefHost.ref_host 20))
                 (at_text "A(25)")).
Proof.
  apply (variable_reference_in_bounds ClassicBuild RefHost.ref_host 20
           (at_text "A(25)") _ (RElem 0 25) true false).
  - split; [vm_compute; discriminate | constructor].
  - vm_compute. reflexivity.
Defined.

(* ===================================================================== *)
(** * The loader: the store it builds                                     *)
(* ===================================================================== *)


Lemma swap_lines_permutation (l : list line) (i j : nat) :
  (i < List.length l)%nat -> (j < List.length l)%nat ->
  Permutation l (swap_lines l i j).
Proof.
  intros Hi Hj.
  apply (Permutation_nth l (swap_lines l i j) (mk_line 0 "")).
  split; [apply length_swap_lines|].
  exists (transpose i j). unfold transpose. split; [|split].
  - intros x Hx. destruct (Nat.eqb x j); [exact Hi|].
    destruct (Nat.eqb x i); [exact Hj | exact Hx].
  - intros x y Hx Hy.
    destruct (Nat.eqb_spec x j), (Nat.eqb_spec x i), (Nat.eqb_spec y j),
      (Nat.eqb_spec y i); subst; intros; try lia; congruence.
  - intros x Hx. fold (line_at (swap_lines l i j) x).
    rewrite line_at_swap_lines by assumption.
    destruct (Nat.eqb x j); [reflexivity|]. destruct (Nat.eqb x i); reflexivity.
Qed.

Lemma sort_inner_permutation (n i : nat) :
  forall (k j : nat) (l : list line),
  List.length l = n -> (i < j)%nat -> (j + k = n)%nat ->
  Permutation l (sort_inner k i j l).
Proof.
  induction k as [|k IH]; intros j l Hlen Hij Hjk; cbn [sort_inner].
  - apply Permutation_refl.
  - destruct (number (line_at l j) <? number (line_at l i)).
    + eapply Permutation_trans; [apply (swap_lines_permutation l i j); lia|].
      apply IH; [rewrite length_swap_lines; exact Hlen | lia | lia].
    + apply IH; [exact Hlen | lia | lia].
Qed.

Lemma sort_outer_permutation (n : nat) :
  forall (k i : nat) (l : list line),
  List.length l = n -> (i + k = n)%nat -> Permutation l (sort_outer k i l).
Proof.
  induction k as [|k IH]; intros i l Hlen Hik; cbn [sort_outer].
  - apply Permutation_refl.
  - rewrite Hlen.
    eapply Permutation_trans;
      [apply (sort_inner_permutation n i (n - S i) (S i) l Hlen); lia|].
    apply IH; [|lia].
    rewrite <- Hlen. symmetry. apply Permutation_length.
    rewrite Hlen. apply (sort_inner_permutation n i (n - S i) (S i) l Hlen); lia.
Qed.

Lemma sort_program_increasing_of_NoDup (l : list line) :
  NoDup (map number l) ->
  increasing (sort_program l) /\ List.length (sort_program l) = List.length l.
Proof.
  intros Hnd. unfold sort_program.
  destruct (sort_outer_spec (List.length l) (List.length l) 0 l eq_refl eq_refl
              ltac:(intros a b _ Ha; lia)) as (Hlen & Hsorted & Hq & Hd).
  split; [|exact Hlen].
  apply increasing_of_index. rewrite Hlen. intros a b Hab.
  pose proof (Hsorted a b Hab) as Hle.
  pose proof (Hd (distinct_of_NoDup l Hnd) a b) as Hne.
  rewrite Hlen in Hne. specialize (Hne ltac:(lia) ltac:(lia) ltac:(lia)). lia.
Qed.

(** X14.  [sort_program] sorts: for every store, the result holds the same
    entries (it is a permutation, so no line is lost or made up) with the
    line numbers in non-decreasing order by index; when the numbers are
    pairwise different the order is strictly increasing. *)
Theorem sort_program_sorts (l : list line) :
  Permutation l (sort_program l) /\
  (forall a b, (a < b < List.length l)%nat ->
     number (line_at (sort_program l) a) <= number (line_at (sort_program l) b)) /\
  (NoDup (map number l) -> increasing (sort_program l)).
Proof.
  unfold sort_program.
  destruct (sort_outer_spec (List.length l) (List.length l) 0 l eq_refl eq_refl
              ltac:(intros a b _ Ha; lia)) as (Hlen & Hsorted & Hq & Hd).
  split; [apply (sort_outer_permutation (List.length l)); reflexivity|].
  split; [exact Hsorted|].
  intros Hnd. apply increasing_of_index. rewrite Hlen. intros a b Hab.
  pose proof (Hsorted a b Hab) as Hle.
  pose proof (Hd (distinct_of_NoDup l Hnd) a b) as Hne.
  rewrite Hlen in Hne. specialize (Hne ltac:(lia) ltac:(lia) ltac:(lia)). lia.
Qed.



Lemma find_line_from_bound (m : Z) :
  forall (ls : list line) (i : Z),
  Classic.find_line_from ls m i = -1 \/
  i <= Classic.find_line_from ls m i < i + Z.of_nat (List.length ls).
Proof.
  induction ls as [|l ls IH]; intros i; cbn [Classic.find_line_from List.length].
  - left. reflexivity.
  - destruct (number l =? m); [right; lia|].
    destruct (IH (i + 1)) as [E|E]; [left; exact E | right; lia].
Qed.



Lemma length_of_numbers (ls ls' : list line) :
  map number ls' = map number ls -> List.length ls' = List.length ls.
Proof.
  intros E. rewrite <- (length_map number ls'), E. apply length_map.
Qed.

Lemma NoDup_numbers_append (ls : list line) (n : Z) (t : string) :
  NoDup (map number ls) -> Forall (fun l => number l <> n) ls ->
  NoDup (map number (ls ++ [mk_line n t])).
Proof.
  intros Hnd Habs. rewrite map_app. cbn [map number].
  apply NoDup_app; [exact Hnd | repeat constructor; intros [] |].
  intros x Hx [E|[]]. subst x. apply in_map_iff in Hx. destruct Hx as (l & Hl & Hin).
  rewrite Forall_forall in Habs. exact (Habs l Hin Hl).
Qed.

Lemma classic_add_or_replace_line_within (n : Z) (t : string) :
  preserves (store_within ClassicBuild) (Classic.add_or_replace_line n t).
Proof.
  intros s u s' Hrun (Hnd & Hcount).
  unfold Classic.add_or_replace_line, Classic.dupstr_local in Hrun.
  rewrite bind_run_get in Hrun.
  destruct (replace_line (program_lines s) n t) as [ls|] eqn:Hrep.
  - injection Hrun as _ <-. apply replace_line_numbers in Hrep.
    unfold store_within, line_count in *. destruct s; cbn in *.
    rewrite Hrep, (length_of_numbers _ _ Hrep). split; assumption.
  - apply replace_line_none in Hrep.
    destruct (Z.leb_spec Classic.MAX_LINES (line_count s)) as [Hfull|Hroom].
    + apply keeps_classic_runtime_error in Hrun. destruct Hrun as (Hp & _).
      unfold store_within, line_count in *. rewrite Hp. split; assumption.
    + injection Hrun as _ <-.
      unfold store_within, line_count in *. destruct s; cbn in *.
      split; [apply NoDup_numbers_append; assumption|].
      rewrite length_app. cbn. lia.
Qed.

Lemma pdp11_add_or_replace_line_within (n : Z) (t : string) :
  preserves (store_within Pdp11Build) (Optimized.add_or_replace_line n t).
Proof.
  intros s u s' Hrun (Hnd & Hcount).
  unfold Optimized.add_or_replace_line in Hrun.
  rewrite bind_run_get in Hrun.
  destruct (replace_line (program_lines s) n "") as [ls0|] eqn:Hrep.
  - apply bind_inv in Hrun. destruct Hrun as (d & s1 & Ed & Hrun).
    apply keeps_pdp11_dupstr_local in Ed. destruct Ed as (Hp & _).
    rewrite bind_run_get in Hrun.
    unfold store_within, line_count in *. rewrite <- Hp in Hnd, Hcount.
    destruct (replace_line (program_lines s1) n _) as [ls|] eqn:Hrep1.
    + injection Hrun as _ <-. apply replace_line_numbers in Hrep1.
      destruct s1; cbn in *.
      rewrite Hrep1, (length_of_numbers _ _ Hrep1). split; assumption.
    + injection Hrun as _ <-. split; assumption.
  - apply replace_line_none in Hrep.
    destruct (Z.leb_spec Optimized.MAX_LINES (line_count s)) as [Hfull|Hroom].
    + apply keeps_pdp11_runtime_error in Hrun. destruct Hrun as (Hp & _).
      unfold store_within, line_count in *. rewrite Hp. split; assumption.
    + apply bind_inv in Hrun. destruct Hrun as (d & s1 & Ed & Hrun).
      apply keeps_pdp11_dupstr_local in Ed. destruct Ed as (Hp & _).
      rewrite bind_run_get in Hrun. injection Hrun as _ <-.
      unfold store_within, line_count in *. rewrite <- Hp in Hnd, Hcount, Hrep, Hroom.
      destruct s1; cbn in *.
      split; [apply NoDup_numbers_append; assumption|].
      rewrite length_app. cbn. lia.
Qed.

(** X15.  The store the loader leaves: in both builds every successful load
    ends with pairwise different line numbers in strictly increasing order,
    and with at most [MAX_LINES] lines; while reading, [add_or_replace_line]
    keeps the numbers pairwise different and the count within [MAX_LINES]
    whatever line it is given. *)
Theorem loader_leaves_ordered_store (b : build) :
  (forall n t, preserves (store_within b) (add_or_replace_line b n t)) /\
  (forall path file input s,
     load_program b path file (initial_state input) = Loaded s ->
     increasing (program_lines s) /\ line_count s <= MAX_LINES b).
Proof.
  assert (Hadd : forall n t, preserves (store_within b) (add_or_replace_line b n t)).
  { destruct b; cbn [add_or_replace_line];
      [apply classic_add_or_replace_line_within | apply pdp11_add_or_replace_line_within]. }
  split; [exact Hadd|].
  intros path file input s.
  assert (H0 : store_within b (initial_state input))
    by (split; [constructor | destruct b; vm_compute; discriminate]).
  assert (Hsorted : forall s1, store_within b s1 ->
            increasing (sort_program (program_lines s1)) /\
            Z.of_nat (List.length (sort_program (program_lines s1))) <= MAX_LINES b).
  { intros s1 (Hnd & Hc).
    destruct (sort_program_increasing_of_NoDup (program_lines s1) Hnd) as (Hinc & Hlen).
    split; [exact Hinc|]. rewrite Hlen. exact Hc. }
  destruct b; cbn [load_program add_or_replace_line] in *;
    unfold Classic.load_program, Optimized.load_program;
    (destruct file as [content|]; [|discriminate]).
  - destruct (Classic.load_lines _ content _) as [c s1|s1] eqn:Hl; [discriminate|].
    intros E. injection E as <-.
    apply (classic_load_lines_preserves _ Hadd) in Hl; [|exact H0].
    apply Hsorted in Hl. unfold line_count. destruct s1; exact Hl.
  - destruct (Optimized.load_lines _ content _) as [c s1|s1] eqn:Hl; [discriminate|].
    intros E. injection E as <-.
    apply (pdp11_load_lines_preserves _ Hadd) in Hl; [|exact H0].
    apply Hsorted in Hl. unfold line_count. destruct s1; exact Hl.
Qed.


(** ** The lookup of a line that was added *)





(** Before the sort the binary search of the PDP-11 build does not find a
    line that was added out of order; the scan of the classic build does. *)
Lemma lookup_before_sort :
  option_map fst
    (find_line_index Pdp11Build 5
       (state_after (add_or_replace_line Pdp11Build 5 "D") three_lines))
  = Some (-1) /\
  option_map fst
    (find_line_index ClassicBuild 5
       (state_after (add_or_replace_line ClassicBuild 5 "D") three_lines))
  = Some 3 /\
  option_map fst
    (find_line_index Pdp11Build 5
       (sorted_store
          (state_after (add_or_replace_line Pdp11Build 5 "D") three_lines)))
  = Some 0.
Proof. repeat split; vm_compute; reflexivity. Qed.



(* ===================================================================== *)
(** * A run leaves the program store alone                                *)
(* ===================================================================== *)

Lemma store_is_same (b : build) (L : list line) (s s' : state) :
  program_lines s' = program_lines s ->
  last_lookup_num s' = last_lookup_num s ->
  last_lookup_idx s' = last_lookup_idx s ->
  store_is b L s -> store_is b L s'.
Proof.
  unfold store_is, store_ok, cache_ok, line_count. intros E1 E2 E3 (HL & Hok).
  rewrite E1, E2, E3. split; assumption.
Qed.

Lemma preserves_store_of_keeps (b : build) (L : list line) {A} (m : M A) :
  keeps m -> preserves (store_is b L) m.
Proof.
  intros Hk s a s' E. destruct (Hk s a s' E) as (Hp & _ & _ & _ & Hn & Hi & _).
  apply store_is_same; assumption.
Qed.

Lemma pres_store_write_ref (b : build) (L : list line) (r : value_ref) (x : value) :
  preserves (store_is b L) (modify (write_ref r x)).
Proof.
  apply preserves_modify. intros s. apply store_is_same; destruct r, s; reflexivity.
Qed.

Lemma pres_store_write_ref_fun (b : build) (L : list line) (r : value_ref)
    (f : state -> value) :
  preserves (store_is b L) (modify (fun s => write_ref r (f s) s)).
Proof.
  apply preserves_modify. intros s. apply store_is_same; destruct r, s; reflexivity.
Qed.

(** The binary search fills its cache with a right pair. *)
Lemma pres_store_find_line_index (L : list line) (n : Z) :
  preserves (store_is Pdp11Build L) (Optimized.find_line_index n).
Proof.
  intros s k s' E (HL & Hs & Hr & Hc).
  destruct (find_line_index_refines s n Hs Hr Hc) as (s1 & E1 & Hp & Hc1 & _).
  rewrite E1 in E. injection E as _ <-.
  split; [congruence|]. cbn [store_ok]. rewrite Hp. auto.
Qed.

Create HintDb pstore.
#[local] Hint Resolve pres_store_write_ref pres_store_write_ref_fun
  pres_store_find_line_index : pstore.

Ltac store_step :=
  match goal with
  | |- preserves _ (bind _ _) => apply preserves_bind; [|intros]
  | |- preserves _ (if ?c then _ else _) => destruct c
  | |- preserves _ (match ?x with _ => _ end) => destruct x
  | |- preserves _ (let (_, _) := ?x in _) => destruct x
  | |- forall _, _ => intros
  | |- preserves _ _ => assumption
  | |- preserves _ _ => solve [auto with pres pstore]
  | |- preserves (store_is _ _) _ =>
      apply preserves_store_of_keeps; solve [auto with keeps]
  | |- preserves _ (repeatM _ _) => apply preserves_repeatM
  | |- preserves _ (modify _) =>
      apply preserves_modify;
      let s := fresh "s" in let Hs := fresh "Hs" in
      intros s Hs; destruct s; exact Hs
  | |- preserves _ _ =>
      progress unfold Classic.skip_spaces, Classic.runtime_error,
        Classic.skip_digits, Classic.find_line_index,
        Classic.do_sleep_ticks, Classic.statement_rem,
        Optimized.skip_spaces, Optimized.runtime_error, Optimized.skip_digits,
        Optimized.statement_rem, Optimized.statement_end,
        advance, set_cursor, peek, peek_at, fputc_stdout, fputs_stdout, fputs_stderr
  end.

Ltac store_tac := repeat store_step.

Section ClassicStore.
Variable H : host.
Variable L : list line.

#[local] Hint Resolve keeps_classic_print_spaces keeps_classic_print_value
  keeps_classic_eval_condition keeps_classic_eval_or_expr : keeps.

Lemma store_classic_statement_print (n : nat) :
  preserves (store_is ClassicBuild L) (Classic.statement_print H n).
Proof.
  assert (Hloop : forall n nl,
             preserves (store_is ClassicBuild L) (Classic.statement_print_loop H n nl)).
  { clear n. induction n as [|n IH]; intros nl; cbn [Classic.statement_print_loop];
      store_tac; try apply IH. }
  unfold Classic.statement_print. store_tac; try apply Hloop.
Qed.

Lemma store_classic_statement_input (n : nat) :
  preserves (store_is ClassicBuild L) (Classic.statement_input H n).
Proof.
  assert (Hloop : forall n prompt first,
             preserves (store_is ClassicBuild L)
               (Classic.statement_input_loop H n prompt first)).
  { clear n. induction n as [|n IH]; intros prompt first;
      cbn [Classic.statement_input_loop]; store_tac; try apply IH. }
  unfold Classic.statement_input. store_tac; try apply Hloop.
Qed.

Lemma store_classic_statement_let (n : nat) :
  preserves (store_is ClassicBuild L) (Classic.statement_let H n).
Proof. unfold Classic.statement_let. store_tac. Qed.

Lemma store_classic_statement_goto :
  preserves (store_is ClassicBuild L) Classic.statement_goto.
Proof. unfold Classic.statement_goto. store_tac. Qed.

Lemma store_classic_statement_gosub :
  preserves (store_is ClassicBuild L) Classic.statement_gosub.
Proof. unfold Classic.statement_gosub. store_tac. Qed.

Lemma store_classic_statement_return :
  preserves (store_is ClassicBuild L) Classic.statement_return.
Proof. unfold Classic.statement_return. store_tac. Qed.

Lemma store_classic_statement_if (n : nat) :
  preserves (store_is ClassicBuild L) (Classic.statement_if H n).
Proof. unfold Classic.statement_if. store_tac. Qed.

Lemma store_classic_statement_for (n : nat) :
  preserves (store_is ClassicBuild L) (Classic.statement_for H n).
Proof. unfold Classic.statement_for. store_tac. Qed.

Lemma store_classic_statement_next :
  preserves (store_is ClassicBuild L) Classic.statement_next.
Proof. unfold Classic.statement_next. store_tac. Qed.

Lemma store_classic_statement_dim (n : nat) :
  preserves (store_is ClassicBuild L) (Classic.statement_dim H n).
Proof. induction n as [|n IH]; cbn [Classic.statement_dim]; store_tac. Qed.

Lemma store_classic_statement_sleep (n : nat) :
  preserves (store_is ClassicBuild L) (Classic.statement_sleep H n).
Proof. unfold Classic.statement_sleep. store_tac. Qed.

Lemma store_classic_execute_statement (n : nat) :
  preserves (store_is ClassicBuild L) (Classic.execute_statement H n).
Proof.
  unfold Classic.execute_statement.
  store_tac;
    auto using store_classic_statement_print, store_classic_statement_input,
      store_classic_statement_let, store_classic_statement_goto,
      store_classic_statement_gosub, store_classic_statement_return,
      store_classic_statement_if, store_classic_statement_for,
      store_classic_statement_next, store_classic_statement_dim,
      store_classic_statement_sleep.
Qed.

Lemma store_classic_run_step (n : nat) :
  preserves (store_is ClassicBuild L) (Classic.run_step H n).
Proof.
  unfold Classic.run_step. store_tac; apply store_classic_execute_statement.
Qed.

End ClassicStore.

Section Pdp11Store.
Variable H : host.
Variable L : list line.

#[local] Hint Resolve keeps_pdp11_print_spaces keeps_pdp11_print_value
  keeps_pdp11_eval_condition keeps_pdp11_eval_expr : keeps.

Lemma store_pdp11_statement_print (n : nat) :
  preserves (store_is Pdp11Build L) (Optimized.statement_print H n).
Proof.
  assert (Hloop : forall n nl,
             preserves (store_is Pdp11Build L) (Optimized.statement_print_loop H n nl)).
  { clear n. induction n as [|n IH]; intros nl; cbn [Optimized.statement_print_loop];
      store_tac; try apply IH. }
  unfold Optimized.statement_print. store_tac; try apply Hloop.
Qed.

Lemma store_pdp11_statement_input (n : nat) :
  preserves (store_is Pdp11Build L) (Optimized.statement_input H n).
Proof.
  assert (Hloop : forall n prompt first,
             preserves (store_is Pdp11Build L)
               (Optimized.statement_input_loop H n prompt first)).
  { clear n. induction n as [|n IH]; intros prompt first;
      cbn [Optimized.statement_input_loop]; store_tac; try apply IH. }
  unfold Optimized.statement_input. store_tac; try apply Hloop.
Qed.

Lemma store_pdp11_statement_let (n : nat) :
  preserves (store_is Pdp11Build L) (Optimized.statement_let H n).
Proof. unfold Optimized.statement_let. store_tac. Qed.

Lemma store_pdp11_statement_goto :
  preserves (store_is Pdp11Build L) Optimized.statement_goto.
Proof. unfold Optimized.statement_goto. store_tac. Qed.

Lemma store_pdp11_statement_gosub :
  preserves (store_is Pdp11Build L) Optimized.statement_gosub.
Proof. unfold Optimized.statement_gosub. store_tac. Qed.

Lemma store_pdp11_statement_return :
  preserves (store_is Pdp11Build L) Optimized.statement_return.
Proof. unfold Optimized.statement_return. store_tac. Qed.

Lemma store_pdp11_statement_if (n : nat) :
  preserves (store_is Pdp11Build L) (Optimized.statement_if H n).
Proof. unfold Optimized.statement_if. store_tac. Qed.

Lemma store_pdp11_statement_for (n : nat) :
  preserves (store_is Pdp11Build L) (Optimized.statement_for H n).
Proof. unfold Optimized.statement_for. store_tac. Qed.

Lemma store_pdp11_statement_next :
  preserves (store_is Pdp11Build L) Optimized.statement_next.
Proof. unfold Optimized.statement_next. store_tac. Qed.

Lemma store_pdp11_statement_dim (n : nat) :
  preserves (store_is Pdp11Build L) (Optimized.statement_dim H n).
Proof. induction n as [|n IH]; cbn [Optimized.statement_dim]; store_tac. Qed.

Lemma store_pdp11_execute_statement (n : nat) :
  preserves (store_is Pdp11Build L) (Optimized.execute_statement H n).
Proof.
  unfold Optimized.execute_statement.
  store_tac;
    auto using store_pdp11_statement_print, store_pdp11_statement_input,
      store_pdp11_statement_let, store_pdp11_statement_goto,
      store_pdp11_statement_gosub, store_pdp11_statement_return,
      store_pdp11_statement_if, store_pdp11_statement_for,
      store_pdp11_statement_next, store_pdp11_statement_dim.
Qed.

Lemma store_pdp11_run_step (n : nat) :
  preserves (store_is Pdp11Build L) (Optimized.run_step H n).
Proof.
  unfold Optimized.run_step. store_tac; apply store_pdp11_execute_statement.
Qed.

End Pdp11Store.

Lemma load_program_store_is (b : build) (path : string) (file : option string)
    (input : string) (s : state) :
  load_program b path file (initial_state input) = Loaded s ->
  store_is b (program_lines s) s.
Proof.
  intros E. split; [reflexivity|]. destruct b; [exact I|].
  apply (load_program_store_ok path file input s E).
Qed.

(** X17.  A run never changes the stored program: every turn of the driver
    loop, and so every number of turns, leaves the program lines as the
    loader left them; in the PDP-11 build the store also stays sorted and
    the one-slot lookup cache stays either empty or right, which is what its
    binary search relies on. *)
Theorem program_store_is_fixed (b : build) (H : host) (n : nat) :
  (forall path file input s,
     load_program b path file (initial_state input) = Loaded s ->
     store_is b (program_lines s) s) /\
  (forall L s again s',
     run_step b H n s = Some (again, s') -> store_is b L s -> store_is b L s') /\
  (forall L k s s', steps b H n k s = Some s' -> store_is b L s -> store_is b L s').
Proof.
  assert (Hstep : forall L s again s',
             run_step b H n s = Some (again, s') -> store_is b L s -> store_is b L s').
  { intros L s again s' E. destruct b; cbn [run_step] in E.
    - exact (store_classic_run_step H L n s again s' E).
    - exact (store_pdp11_run_step H L n s again s' E). }
  split; [apply load_program_store_is|]. split; [exact Hstep|].
  intros L. induction k as [|k IH]; intros s s'; cbn [steps].
  - intros E. injection E as <-. auto.
  - destruct (run_step b H n s) as [[again s1]|] eqn:E1; [|discriminate].
    intros E HP. apply (IH _ _ E). eapply Hstep; eassumption.
Qed.

(* ===================================================================== *)
(** * The variable table: a name keeps its entry                          *)
(* ===================================================================== *)

Lemma find_var_keys (n1 n2 : ascii) (is_str : bool) :
  forall (vs vs' : list var) (start : nat),
  map var_key vs = map var_key vs' ->
  find_var vs n1 n2 is_str start = find_var vs' n1 n2 is_str start.
Proof.
  induction vs as [|v vs IH]; intros [|v' vs'] start E; try discriminate; [reflexivity|].
  cbn [map] in E. injection E as Ea Eb Ec Erest. cbn [find_var].
  assert (Em : var_matches n1 n2 is_str v = var_matches n1 n2 is_str v')
    by (unfold var_matches; congruence).
  rewrite Em.
  destruct (var_matches n1 n2 is_str v'); [reflexivity | apply IH; exact Erest].
Qed.

Lemma keys_list_set (vs : list var) (i : nat) (v' : var) :
  var_key v' = var_key (nth i vs null_var) -> (i < List.length vs)%nat ->
  map var_key (list_set vs i v') = map var_key vs.
Proof.
  revert i. induction vs as [|v vs IH]; intros [|i] E Hi; cbn in *; try lia.
  - rewrite E. reflexivity.
  - rewrite IH; [reflexivity | exact E | lia].
Qed.

Lemma list_set_same {A} (l : list A) (i : nat) (d : A) :
  list_set l i (nth i l d) = l.
Proof.
  revert i. induction l as [|y l IH]; intros [|i]; cbn; try reflexivity.
  rewrite IH. reflexivity.
Qed.

Lemma find_var_append_found (n1 n2 : ascii) (is_str : bool) (v : var) :
  forall (vs : list var) (start j : nat),
  find_var vs n1 n2 is_str start = Some j ->
  find_var (vs ++ [v]) n1 n2 is_str start = Some j.
Proof.
  induction vs as [|x vs IH]; intros start j; cbn [find_var List.app]; [discriminate|].
  destruct (var_matches n1 n2 is_str x); [auto | apply IH].
Qed.

Lemma find_var_append_new (n1 n2 : ascii) (is_str : bool) (v : var) :
  var_matches n1 n2 is_str v = true ->
  forall (vs : list var) (start : nat),
  find_var vs n1 n2 is_str start = None ->
  find_var (vs ++ [v]) n1 n2 is_str start = Some (start + List.length vs)%nat.
Proof.
  intros Hv. induction vs as [|x vs IH]; intros start; cbn [find_var List.app List.length].
  - rewrite Hv. intros _. f_equal. lia.
  - destruct (var_matches n1 n2 is_str x); [discriminate|].
    intros E. rewrite (IH _ E). f_equal. lia.
Qed.

Lemma var_matches_self (n1 n2 : ascii) (is_str : bool) (sc : value)
    (arr : list value) (sz : Z) (is_arr : bool) :
  var_matches n1 n2 is_str (mk_var sc arr sz n1 n2 is_str is_arr) = true.
Proof.
  unfold var_matches. cbn. rewrite !Ascii.eqb_refl, Bool.eqb_reflx. reflexivity.
Qed.

(** What both builds do to the table, on the lists. *)
Lemma table_after_update (vs : list var) (n1 n2 : ascii) (is_str : bool)
    (i : nat) (v' : var) :
  find_var vs n1 n2 is_str 0 = Some i ->
  var_key v' = var_key (nth i vs null_var) ->
  scalar v' = scalar (nth i vs null_var) ->
  find_var (list_set vs i v') n1 n2 is_str 0 = Some i /\
  (forall m1 m2 ms j,
     find_var vs m1 m2 ms 0 = Some j -> find_var (list_set vs i v') m1 m2 ms 0 = Some j) /\
  (forall j, (j < List.length vs)%nat ->
     scalar (nth j (list_set vs i v') null_var) = scalar (nth j vs null_var)) /\
  (forall j, (j < List.length vs)%nat -> j <> i ->
     nth j (list_set vs i v') null_var = nth j vs null_var).
Proof.
  intros Hfind Hkey Hsc. pose proof (find_var_bound _ _ _ _ _ _ Hfind) as Hi.
  assert (Hk : forall m1 m2 ms,
             find_var (list_set vs i v') m1 m2 ms 0 = find_var vs m1 m2 ms 0)
    by (intros; apply find_var_keys, keys_list_set; [exact Hkey | lia]).
  split; [rewrite Hk; exact Hfind|]. split; [intros; rewrite Hk; assumption|].
  split; intros j Hj; [|intros Hne]; rewrite nth_list_set by lia;
    destruct (Nat.eqb_spec j i); subst; auto; contradiction.
Qed.

Lemma table_after_append (vs : list var) (n1 n2 : ascii) (is_str : bool) (v : var) :
  find_var vs n1 n2 is_str 0 = None ->
  var_matches n1 n2 is_str v = true ->
  find_var (vs ++ [v]) n1 n2 is_str 0 = Some (List.length vs) /\
  (forall m1 m2 ms j,
     find_var vs m1 m2 ms 0 = Some j -> find_var (vs ++ [v]) m1 m2 ms 0 = Some j) /\
  (forall j, (j < List.length vs)%nat ->
     scalar (nth j (vs ++ [v]) null_var) = scalar (nth j vs null_var)) /\
  (forall j, (j < List.length vs)%nat -> j <> List.length vs ->
     nth j (vs ++ [v]) null_var = nth j vs null_var).
Proof.
  intros Hfind Hv.
  split; [rewrite (find_var_append_new _ _ _ _ Hv _ _ Hfind); reflexivity|].
  split; [intros; apply find_var_append_found; assumption|].
  split; intros j Hj; [|intros _]; rewrite app_nth1 by lia; reflexivity.
Qed.

Lemma table_after_nothing (vs vs' : list var) (n1 n2 : ascii) (is_str : bool)
    (i : nat) :
  find_var vs n1 n2 is_str 0 = Some i ->
  vs' = vs ->
  find_var vs' n1 n2 is_str 0 = Some i /\
  (forall m1 m2 ms j,
     find_var vs m1 m2 ms 0 = Some j -> find_var vs' m1 m2 ms 0 = Some j) /\
  (forall j, (j < List.length vs)%nat ->
     scalar (nth j vs' null_var) = scalar (nth j vs null_var)) /\
  (forall j, (j < List.length vs)%nat -> j <> i ->
     nth j vs' null_var = nth j vs null_var).
Proof. intros Hfind ->. auto. Qed.

Lemma table_after_update_eq (vs vs' : list var) (n1 n2 : ascii) (is_str : bool)
    (i : nat) (v' : var) :
  find_var vs n1 n2 is_str 0 = Some i ->
  vs' = list_set vs i v' ->
  var_key v' = var_key (nth i vs null_var) ->
  scalar v' = scalar (nth i vs null_var) ->
  find_var vs' n1 n2 is_str 0 = Some i /\
  (forall m1 m2 ms j,
     find_var vs m1 m2 ms 0 = Some j -> find_var vs' m1 m2 ms 0 = Some j) /\
  (forall j, (j < List.length vs)%nat ->
     scalar (nth j vs' null_var) = scalar (nth j vs null_var)) /\
  (forall j, (j < List.length vs)%nat -> j <> i ->
     nth j vs' null_var = nth j vs null_var).
Proof. intros Hfind -> Hk Hs. apply table_after_update; assumption. Qed.

Lemma table_after_append_eq (vs vs' : list var) (n1 n2 : ascii) (is_str : bool)
    (v : var) :
  find_var vs n1 n2 is_str 0 = None ->
  vs' = (vs ++ [v])%list ->
  var_matches n1 n2 is_str v = true ->
  find_var vs' n1 n2 is_str 0 = Some (List.length vs) /\
  (forall m1 m2 ms j,
     find_var vs m1 m2 ms 0 = Some j -> find_var vs' m1 m2 ms 0 = Some j) /\
  (forall j, (j < List.length vs)%nat ->
     scalar (nth j vs' null_var) = scalar (nth j vs null_var)) /\
  (forall j, (j < List.length vs)%nat -> j <> List.length vs ->
     nth j vs' null_var = nth j vs null_var).
Proof. intros Hfind -> Hv. apply table_after_append; assumption. Qed.

(** The second look at a name, with no array asked for. *)
Lemma classic_find_again (H : host) (n1 n2 : ascii) (is_str : bool) (s : state)
    (i : nat) :
  find_var (vars s) n1 n2 is_str 0 = Some i ->
  Classic.find_or_create_var H n1 n2 is_str false 0 s = Some (Some i, s).
Proof.
  intros E. unfold Classic.find_or_create_var. rewrite bind_run_get, E.
  reflexivity.
Qed.

Lemma pdp11_find_again (H : host) (n1 n2 : ascii) (is_str : bool) (s : state)
    (i : nat) :
  find_var (vars s) n1 n2 is_str 0 = Some i ->
  Optimized.find_or_create_var H n1 n2 is_str false 0 s = Some (Some i, s).
Proof.
  intros E. unfold Optimized.find_or_create_var. rewrite bind_run_get, E.
  reflexivity.
Qed.

Lemma classic_variable_found_again (H : host) (n1 n2 : ascii) (is_str want : bool)
    (sz : Z) (s s' : state) (i : nat) :
  Classic.find_or_create_var H n1 n2 is_str want sz s = Some (Some i, s') ->
  (find_var (vars s') n1 n2 is_str 0 = Some i /\
   (forall m1 m2 ms j,
      find_var (vars s) m1 m2 ms 0 = Some j -> find_var (vars s') m1 m2 ms 0 = Some j) /\
   (forall j, (j < List.length (vars s))%nat ->
      scalar (nth j (vars s') null_var) = scalar (nth j (vars s) null_var)) /\
   (forall j, (j < List.length (vars s))%nat -> j <> i ->
      nth j (vars s') null_var = nth j (vars s) null_var)) /\
  Classic.find_or_create_var H n1 n2 is_str false 0 s' = Some (Some i, s').
Proof.
  intros E.
  match goal with
  | |- ?A /\ _ =>
      assert (Htab : A);
      [|split; [exact Htab | apply classic_find_again, (proj1 Htab)]]
  end.
  unfold Classic.find_or_create_var in E. rewrite bind_run_get in E.
  destruct (find_var (vars s) n1 n2 is_str 0) as [i0|] eqn:Hfind.
  - run_split E; run_steps.
    match goal with E : _ = Some (_, _) |- _ => run_split E; run_steps end;
      table_facts;
      first [ eapply table_after_nothing; [exact Hfind | table_eq]
            | eapply table_after_update_eq;
              [exact Hfind | table_eq | reflexivity | reflexivity] ].
  - destruct (Classic.MAX_VARS <=? var_count s); run_split E; run_steps.
    match goal with E : _ = Some (_, _) |- _ => run_split E; run_steps end;
      table_facts;
      (eapply table_after_append_eq;
       [exact Hfind | table_eq | apply var_matches_self]).
Qed.

Lemma pdp11_variable_found_again (H : host) (n1 n2 : ascii) (is_str want : bool)
    (sz : Z) (s s' : state) (i : nat) :
  Optimized.find_or_create_var H n1 n2 is_str want sz s = Some (Some i, s') ->
  (find_var (vars s') n1 n2 is_str 0 = Some i /\
   (forall m1 m2 ms j,
      find_var (vars s) m1 m2 ms 0 = Some j -> find_var (vars s') m1 m2 ms 0 = Some j) /\
   (forall j, (j < List.length (vars s))%nat ->
      scalar (nth j (vars s') null_var) = scalar (nth j (vars s) null_var)) /\
   (forall j, (j < List.length (vars s))%nat -> j <> i ->
      nth j (vars s') null_var = nth j (vars s) null_var)) /\
  Optimized.find_or_create_var H n1 n2 is_str false 0 s' = Some (Some i, s').
Proof.
  intros E.
  match goal with
  | |- ?A /\ _ =>
      assert (Htab : A);
      [|split; [exact Htab | apply pdp11_find_again, (proj1 Htab)]]
  end.
  unfold Optimized.find_or_create_var in E. rewrite bind_run_get in E.
  destruct (find_var (vars s) n1 n2 is_str 0) as [i0|] eqn:Hfind.
  - run_split E; run_steps.
    match goal with E : _ = Some (_, _) |- _ => run_split E; run_steps end;
      table_facts;
      first [ eapply table_after_nothing; [exact Hfind | table_eq]
            | eapply table_after_update_eq;
              [exact Hfind | table_eq | reflexivity | reflexivity] ].
  - destruct (Optimized.MAX_VARS <=? var_count s); run_split E; run_steps.
    match goal with E : _ = Some (_, _) |- _ => run_split E; run_steps end;
      table_facts;
      (eapply table_after_append_eq;
       [exact Hfind | table_eq | apply var_matches_self]).
Qed.

(** The entry the search returns carries the key that was asked for. *)
Lemma find_var_key (n1 n2 : ascii) (is_str : bool) :
  forall (vs : list var) (start i : nat),
  find_var vs n1 n2 is_str start = Some i ->
  var_key (nth (i - start) vs null_var) = (n1, n2, is_str).
Proof.
  induction vs as [|v vs IH]; intros start i; cbn [find_var]; [discriminate|].
  destruct (var_matches n1 n2 is_str v) eqn:Hm.
  - intros E. injection E as <-. rewrite Nat.sub_diag. cbn [nth].
    unfold var_matches in Hm. apply andb_prop in Hm. destruct Hm as (Hm & H3).
    apply andb_prop in Hm. destruct Hm as (H1 & H2).
    apply Ascii.eqb_eq in H1, H2. apply Bool.eqb_prop in H3.
    unfold var_key. congruence.
  - intros E. pose proof (find_var_bound _ _ _ _ _ _ E) as Hb.
    apply IH in E. replace (i - start)%nat with (S (i - S start)) by lia. exact E.
Qed.

(** X18.  A name keeps its entry in the variable table.  When
    [find_or_create_var] returns an entry, a search for the same two
    characters and string flag finds that entry from then on, and a second
    call returns it without changing anything; no other name leads to it;
    every name that had an entry keeps the same one, with its scalar value
    and, for the other entries, everything else as well. *)
Theorem variable_keeps_its_entry (b : build) (H : host) (n1 n2 : ascii)
    (is_str want : bool) (sz : Z) (s s' : state) (i : nat) :
  find_or_create_var b H n1 n2 is_str want sz s = Some (Some i, s') ->
  find_var (vars s') n1 n2 is_str 0 = Some i /\
  find_or_create_var b H n1 n2 is_str false 0 s' = Some (Some i, s') /\
  (forall m1 m2 ms,
     find_var (vars s') m1 m2 ms 0 = Some i -> (m1, m2, ms) = (n1, n2, is_str)) /\
  (forall m1 m2 ms j,
     find_var (vars s) m1 m2 ms 0 = Some j -> find_var (vars s') m1 m2 ms 0 = Some j) /\
  (forall j, (j < List.length (vars s))%nat ->
     scalar (nth j (vars s') null_var) = scalar (nth j (vars s) null_var)) /\
  (forall j, (j < List.length (vars s))%nat -> j <> i ->
     nth j (vars s') null_var = nth j (vars s) null_var).
Proof.
  intros E.
  destruct b; cbn [find_or_create_var] in *;
    [destruct (classic_variable_found_again H _ _ _ _ _ _ _ _ E)
       as ((Hfound & Hold & Hsc & Hrest) & Hagain)
    |destruct (pdp11_variable_found_again H _ _ _ _ _ _ _ _ E)
       as ((Hfound & Hold & Hsc & Hrest) & Hagain)].
  all: repeat split; try assumption.
  all: intros m1 m2 ms Hm.
  all: apply find_var_key in Hm; apply find_var_key in Hfound; congruence.
Qed.

Lemma variable_keeps_its_entry_witness :
  find_var
    (vars (state_after
             (find_or_create_var Pdp11Build RefHost.ref_host "B" "1" false false 0)
             (state_after
                (find_or_create_var Pdp11Build RefHost.ref_host "A" " " true true 11)
                (initial_state ""))))
    "B" "1" false 0 = Some 1%nat.
Proof.
  apply (variable_keeps_its_entry Pdp11Build RefHost.ref_host "B" "1" false false 0
           (state_after
              (find_or_create_var Pdp11Build RefHost.ref_host "A" " " true true 11)
              (initial_state ""))).
  vm_compute. reflexivity.
Defined.

(** ** Arrays that grow *)

Lemma nth_grow_block_old (H : host) (vs : list var) (i : nat) (old : list value)
    (upto : Z) (k : nat) :
  (k < List.length old)%nat ->
  nth k (grow_block H vs i old upto) zero_value = nth k old zero_value.
Proof. intros Hk. unfold grow_block. apply app_nth1. exact Hk. Qed.

Lemma nth_grow_block_new (H : host) (vs : list var) (i : nat) (old : list value)
    (upto : Z) (k : nat) :
  (List.length old <= k < Z.to_nat upto)%nat ->
  nth k (grow_block H vs i old upto) zero_value = h_uninit H vs i k.
Proof.
  intros Hk. unfold grow_block. rewrite app_nth2 by lia.
  rewrite (nth_indep _ zero_value (h_uninit H vs i 0))
    by (rewrite length_map, length_seq; lia).
  rewrite map_nth, seq_nth by lia. f_equal. lia.
Qed.

Lemma nth_other_entry (vs : list var) (i j : nat) (v : var) :
  j <> i -> nth j (list_set vs i v) null_var = nth j vs null_var.
Proof.
  intros Hj. rewrite nth_list_set_any.
  destruct (Nat.eqb_spec j i); [contradiction | reflexivity].
Qed.

(** X19.  An array keeps its cells.  When [find_or_create_var] is asked
    for an array of [sz] cells under a name that already has an array, it
    returns that entry, which stays an array; the scalar of the entry, every
    cell its block had and all other entries are unchanged.  If [sz] is not
    more than the recorded size nothing changes at all.  If it is more and
    the host grants the block, the entry records [sz] cells, its block has
    that many, only the table has changed, and a cell from the old size on
    holds what the build's allocation gives (indeterminate contents in the
    classic build, zero in the PDP-11 build).  If the host refuses, the
    entry is as it was and [s'] is what the error Out of memory leaves.  So
    neither a second DIM nor a subscript beyond the size loses data. *)
Theorem array_keeps_its_cells (b : build) (H : host) (n1 n2 : ascii) (is_str : bool)
    (sz : Z) (s s' : state) (i : nat) (r : option nat) :
  find_var (vars s) n1 n2 is_str 0 = Some i ->
  is_array (nth i (vars s) null_var) = true ->
  wf_var (nth i (vars s) null_var) ->
  find_or_create_var b H n1 n2 is_str true sz s = Some (r, s') ->
  r = Some i /\
  is_array (nth i (vars s') null_var) = true /\
  wf_var (nth i (vars s') null_var) /\
  scalar (nth i (vars s') null_var) = scalar (nth i (vars s) null_var) /\
  (forall k, (k < List.length (array (nth i (vars s) null_var)))%nat ->
     nth k (array (nth i (vars s') null_var)) zero_value
     = nth k (array (nth i (vars s) null_var)) zero_value) /\
  (forall j, j <> i -> nth j (vars s') null_var = nth j (vars s) null_var) /\
  if size (nth i (vars s) null_var) <? sz then
    if alloc_ok H (vars s) sz then
      size (nth i (vars s') null_var) = sz /\
      List.length (array (nth i (vars s') null_var)) = Z.to_nat sz /\
      (forall k, (Z.to_nat (size (nth i (vars s) null_var)) <= k < Z.to_nat sz)%nat ->
         nth k (array (nth i (vars s') null_var)) zero_value
         = new_cell b H (vars s) i k) /\
      s' = set_vars (vars s') s
    else
      nth i (vars s') null_var = nth i (vars s) null_var /\
      runtime_error b "Out of memory" s = Some (tt, s')
  else s' = s.
Proof.
  intros Hfind Harr Hwf Hrun.
  pose proof (find_var_bound _ _ _ _ _ _ Hfind) as Hi.
  set (v := nth i (vars s) null_var) in *.
  assert (Hlen : (List.length (array v) <= Z.to_nat (size v))%nat)
    by (destruct Hwf as (H0 & [-> | Hl]); cbn [List.length]; lia).
  destruct Hwf as (Hsize0 & Hshape).
  assert (Hrun' :
    (if size v <? sz then
       if alloc_ok H (vars s) sz then
         ret (Some i)
           (set_vars (list_set (vars s) i
              (mk_var (scalar v)
                 (match b with
                  | ClassicBuild => grow_block H (vars s) i (array v) sz
                  | Pdp11Build =>
                      (grow_block H (vars s) i (array v) (size v)
                       ++ calloc_values (sz - size v))%list
                  end)
                 sz (name1 v) (name2 v) (is_string v) (is_array v))) s)
       else bind (runtime_error b "Out of memory") (fun _ => ret (Some i)) s
     else ret (Some i) s) = Some (r, s')).
  { rewrite <- Hrun.
    destruct b; cbn [find_or_create_var runtime_error];
      unfold Classic.find_or_create_var, Optimized.find_or_create_var;
      rewrite bind_run_get, Hfind; cbv zeta; fold v;
      rewrite Harr; cbn [negb andb];
      (destruct (size v <? sz); [destruct (alloc_ok H (vars s) sz)|]; reflexivity). }
  clear Hrun.
  destruct (Z.ltb_spec (size v) sz) as [Hlt|Hge];
    [destruct (alloc_ok H (vars s) sz) eqn:Halloc|].
  - injection Hrun' as <- <-. apply alloc_ok_nonneg in Halloc.
    rewrite !vars_set_vars, !nth_list_set by lia. rewrite Nat.eqb_refl.
    cbn [is_array scalar array size].
    split; [reflexivity|]. split; [exact Harr|].
    assert (Hcells : List.length
              (match b with
               | ClassicBuild => grow_block H (vars s) i (array v) sz
               | Pdp11Build =>
                   (grow_block H (vars s) i (array v) (size v)
                    ++ calloc_values (sz - size v))%list
               end) = Z.to_nat sz)
      by (destruct b; rewrite ?length_app, ?length_calloc_values, !length_grow_block;
          lia).
    split; [unfold wf_var; cbn [size array]; rewrite Hcells; split; [|right]; lia|].
    split; [reflexivity|].
    split; [intros k Hk; destruct b; rewrite ?app_nth1
                                       by (rewrite length_grow_block; lia);
            apply nth_grow_block_old; exact Hk|].
    split; [intros j Hj; apply nth_other_entry; exact Hj|].
    split; [reflexivity|]. split; [exact Hcells|].
    split; [|destruct s; reflexivity].
    intros k Hk. destruct b; cbn [new_cell].
    + apply nth_grow_block_new. lia.
    + rewrite app_nth2 by (rewrite length_grow_block; lia).
      unfold calloc_values. apply nth_repeat_lt.
      rewrite length_grow_block. lia.
  - apply bind_inv in Hrun'. destruct Hrun' as ([] & s1 & Eerr & Hret).
    injection Hret as <- <-.
    assert (Hv : vars s1 = vars s)
      by (destruct b; cbn [runtime_error] in Eerr;
          [eapply classic_runtime_error_vars | eapply pdp11_runtime_error_vars];
          exact Eerr).
    rewrite Hv. fold v.
    repeat split; try assumption; try reflexivity.
  - injection Hrun' as <- <-. fold v.
    repeat split; try assumption; try reflexivity.
Qed.

(** A second DIM of 21 cells over the array A of eleven. *)
Lemma array_keeps_its_cells_witness :
  size (nth 0 (vars (state_after
                       (find_or_create_var Pdp11Build RefHost.ref_host "A" " " false true 21)
                       with_array_A)) null_var) = 21 /\
  nth 15 (array (nth 0 (vars (state_after
                       (find_or_create_var Pdp11Build RefHost.ref_host "A" " " false true 21)
                       with_array_A)) null_var)) zero_value = zero_value.
Proof.
  destruct (array_keeps_its_cells Pdp11Build RefHost.ref_host "A" " " false 21
              with_array_A
              (state_after
                 (find_or_create_var Pdp11Build RefHost.ref_host "A" " " false true 21)
                 with_array_A)
              0%nat (Some 0%nat))
    as (_ & _ & _ & _ & _ & _ & Hgrown).
  - vm_compute. reflexivity.
  - vm_compute. reflexivity.
  - vm_compute. split; [discriminate | right; reflexivity].
  - vm_compute. reflexivity.
  - assert (E1 : (size (nth 0 (vars with_array_A) null_var) <? 21) = true)
      by (vm_compute; reflexivity).
    assert (E2 : alloc_ok RefHost.ref_host (vars with_array_A) 21 = true)
      by (vm_compute; reflexivity).
    rewrite E1, E2 in Hgrown. destruct Hgrown as (Hsize & _ & Hnew & _).
    split; [exact Hsize|]. apply Hnew.
    assert (E3 : size (nth 0 (vars with_array_A) null_var) = 11)
      by (vm_compute; reflexivity).
    rewrite E3. lia.
Defined.

(* ===================================================================== *)
(** * Evaluation has no effect on control                                 *)
(* ===================================================================== *)

(** X20.  Evaluating an expression, a function call or a variable
    reference, and printing a value, leave the control part of the state
    alone, whatever the text and whether or not an error is raised: the
    program store, the GOSUB and FOR stacks, the current line, the lookup
    cache and the pending input are unchanged, an error that was raised stays
    raised, and the cursor never becomes NULL. *)
Theorem evaluation_keeps_control (b : build) (H : host) (n : nat) :
  keeps (expression b H n) /\
  keeps (get_var_reference b H (expression b H n)) /\
  (forall name, keeps (eval_function b H (expression b H n) name)) /\
  (forall v, keeps (print_value b H v)).
Proof.
  destruct b; cbn [expression get_var_reference eval_function print_value].
  - pose proof (keeps_classic_eval_or_expr H n) as He.
    split; [exact He|]. split; [exact (keeps_classic_get_var_reference H _ He)|].
    split; [intros name; exact (keeps_classic_eval_function H _ name He)|].
    intros v. exact (keeps_classic_print_value H v).
  - pose proof (keeps_pdp11_eval_expr H n) as He.
    split; [exact He|]. split; [exact (keeps_pdp11_get_var_reference H _ He)|].
    split; [intros name; exact (keeps_pdp11_eval_function H _ name He)|].
    intros v. exact (keeps_pdp11_print_value H v).
Qed.

(* ===================================================================== *)
(** * GOTO and IF                                                         *)
(* ===================================================================== *)

(** The linear scan answers an index that carries the number, or -1 when no
    entry does. *)
Lemma find_line_from_cases (n : Z) :
  forall (ls : list line) (i : Z),
  (i <= Classic.find_line_from ls n i < i + Z.of_nat (List.length ls) /\
   number (line_at ls (Z.to_nat (Classic.find_line_from ls n i - i))) = n) \/
  (Classic.find_line_from ls n i = -1 /\ Forall (fun l => number l <> n) ls).
Proof.
  induction ls as [|l ls IH]; intros i; cbn [Classic.find_line_from List.length].
  - right. split; [reflexivity | constructor].
  - destruct (Z.eqb_spec (number l) n) as [E|E].
    + left. rewrite Z.sub_diag. cbn. split; [lia | exact E].
    + destruct (IH (i + 1)) as [(Hb & Hn)|(Hk & Habs)].
      * left. split; [lia|].
        replace (Z.to_nat (Classic.find_line_from ls n (i + 1) - i))
          with (S (Z.to_nat (Classic.find_line_from ls n (i + 1) - (i + 1)))) by lia.
        exact Hn.
      * right. split; [exact Hk | constructor; assumption].
Qed.

Lemma linear_lookup_cases (ls : list line) (n : Z) :
  (0 <= linear_lookup ls n < Z.of_nat (List.length ls) /\
   number (line_at ls (Z.to_nat (linear_lookup ls n))) = n) \/
  (linear_lookup ls n = -1 /\ Forall (fun l => number l <> n) ls).
Proof.
  unfold linear_lookup. destruct (find_line_from_cases n ls 0) as [(Hb & Hn)|H0].
  - left. rewrite Z.sub_0_r in Hn. split; [lia | exact Hn].
  - right. exact H0.
Qed.

Lemma classic_goto_jumps (s : state) :
  exists s',
    Classic.statement_goto s = Some (tt, s') /\
    jumped (CLib.atoi (skip_spaces_str (cursor s))) s s' /\ same_data s s'.
Proof.
  unfold Classic.statement_goto, Classic.skip_spaces, Classic.skip_digits,
    Classic.find_line_index, Classic.runtime_error, fputs_stderr, bind, get, gets, modify.
  cbn.
  destruct (linear_lookup_cases (program_lines s)
              (CLib.atoi (skip_spaces_str (cursor s)))) as [(Hb & Hn)|(Hk & Habs)];
    unfold jumped, same_data, line_count; cbv zeta; unfold linear_lookup in *.
  - destruct (Z.ltb_spec (Classic.find_line_from (program_lines s)
                            (CLib.atoi (skip_spaces_str (cursor s))) 0) 0); [lia|].
    eexists. split; [reflexivity|]. destruct s; cbn in *.
    split; [|repeat split]. split; [reflexivity|]. split; [reflexivity|].
    left. repeat split; lia.
  - rewrite Hk. cbn.
    eexists. split; [reflexivity|]. destruct s; cbn in *.
    split; [|repeat split]. split; [reflexivity|]. split; [reflexivity|].
    right. repeat split; assumption.
Qed.

Lemma pdp11_goto_jumps (s : state) :
  increasing (program_lines s) -> numbers_in_range (program_lines s) -> cache_ok s ->
  exists s',
    Optimized.statement_goto s = Some (tt, s') /\
    jumped (CLib.atoi (skip_spaces_str (cursor s))) s s' /\ same_data s s' /\
    cache_ok s'.
Proof.
  intros Hs Hnn Hc.
  unfold Optimized.statement_goto, Optimized.skip_spaces, Optimized.skip_digits,
    bind, get, modify.
  match goal with
  | |- context [Optimized.find_line_index ?n ?st] =>
      destruct (find_line_index_refines st n) as (s2 & Hfind & Hpl & Hc2 & Hs2);
        [exact Hs | exact Hnn | destruct s; exact Hc |];
      rewrite Hfind; clear Hfind;
      change (program_lines st) with (program_lines s) in *;
      replace n with (CLib.atoi (skip_spaces_str (cursor s))) in *
        by (destruct s; reflexivity);
      set (s1 := st) in *
  end.
  unfold jumped, same_data. cbv zeta.
  fold (linear_lookup (program_lines s) (CLib.atoi (skip_spaces_str (cursor s)))) in *.
  destruct (linear_lookup_cases (program_lines s)
              (CLib.atoi (skip_spaces_str (cursor s)))) as [(Hb & Hn)|(Hk & Habs)].
  - destruct (Z.ltb_spec (linear_lookup (program_lines s)
                            (CLib.atoi (skip_spaces_str (cursor s)))) 0); [lia|].
    eexists. split; [reflexivity|].
    unfold line_count, cache_ok in *.
    destruct Hs2 as [-> | ->]; subst s1; destruct s; cbn in *;
      (split; [|split; [repeat split|exact Hc2]]);
      (split; [reflexivity|]); (split; [reflexivity|]);
      left; repeat split; lia.
  - rewrite Hk in *. cbn [Z.ltb Z.compare].
    unfold Optimized.runtime_error, fputs_stderr, bind, get, modify.
    unfold line_count, cache_ok in *.
    destruct Hs2 as [-> | ->]; subst s1; destruct s; cbn in *;
      (eexists; split; [reflexivity|]); cbn;
      (split; [|split; [repeat split|exact Hc2]]);
      (split; [reflexivity|]); (split; [reflexivity|]);
      right; repeat split; assumption.
Qed.

(** X21.  GOTO lands on the line with the number it is given: on a store in
    the shape the build's lookup relies on, the statement returns with the
    current line set to the index the linear scan answers for the number at
    the cursor; when a line has the number that index is its place in the
    store, the next statement is the first of that line and nothing is
    reported; when none has it the index is -1, the run is halted and
    "Target line not found" goes to stderr.  Variables, both stacks, the
    output and the input are not touched, and the store keeps its shape. *)
Theorem goto_lands_on_line (b : build) (s : state) :
  store_ok b s ->
  exists s',
    statement_goto b s = Some (tt, s') /\
    jumped (CLib.atoi (skip_spaces_str (cursor s))) s s' /\
    same_data s s' /\
    store_ok b s'.
Proof.
  intros Hok. destruct b; cbn [statement_goto store_ok] in *.
  - destruct (classic_goto_jumps s) as (s' & E & Hj & Hd).
    exists s'. split; [exact E|]. split; [exact Hj|]. split; [exact Hd | exact I].
  - destruct Hok as (Hs & Hnn & Hc).
    destruct (pdp11_goto_jumps s Hs Hnn Hc) as (s' & E & Hj & Hd & Hc').
    exists s'. split; [exact E|]. split; [exact Hj|]. split; [exact Hd|].
    destruct Hj as (_ & Hp & _). rewrite Hp. repeat split; assumption.
Qed.

Lemma goto_lands_on_line_witness :
  exists s',
    statement_goto Pdp11Build (gosub_at_30 Pdp11Build) = Some (tt, s') /\
    current_line s' = 2 /\ program_lines s' = program_lines (gosub_at_30 Pdp11Build).
Proof.
  destruct (goto_lands_on_line Pdp11Build (gosub_at_30 Pdp11Build))
    as (s' & E & (Hl & Hp & _) & _).
  - split; [|split].
    + vm_compute. repeat constructor.
    + vm_compute. repeat constructor; discriminate.
    + left. split; vm_compute; reflexivity.
  - exists s'. split; [exact E|]. split; [|exact Hp].
    rewrite Hl. vm_compute. reflexivity.
Defined.



Lemma same_data_cursor (s s' : state) (p : option string) :
  same_data (set_statement_pos p s) s' -> same_data s s'.
Proof. destruct s; exact (fun H => H). Qed.

Lemma classic_if_outcome (H : host) (n : nat) (s s' : state) (u : unit) :
  Classic.statement_if H n s = Some (u, s') ->
  exists c s1,
    Classic.eval_condition H n s = Some (c, s1) /\ if_outcome ClassicBuild c s1 s'.
Proof.
  intros Hrun. unfold Classic.statement_if in Hrun.
  apply bind_inv in Hrun. destruct Hrun as (c & s1 & Ec & Hrest).
  exists c, s1. split; [exact Ec|].
  unfold if_outcome. cbv zeta. cbn [starts_with_kw].
  unfold bind at 1 in Hrest. rewrite run_classic_skip_spaces, bind_run_get in Hrest.
  rewrite cursor_skip_spaces_st in Hrest.
  destruct (Classic.starts_with_kw (skip_spaces_str (cursor s1)) "THEN"); cbn [negb] in *.
  - unfold bind at 1 in Hrest. rewrite run_advance in Hrest.
    unfold bind at 1 in Hrest. rewrite run_classic_skip_spaces in Hrest.
    set (sB := skip_spaces_st (advance_st 4 (skip_spaces_st s1))) in *.
    assert (HcB : cursor sB = skip_spaces_str (CLib.drop 4 (skip_spaces_str (cursor s1))))
      by (destruct s1; reflexivity).
    assert (HsB : skip_spaces_st sB = sB) by apply skip_spaces_st_idem.
    destruct (c =? 0).
    + injection Hrest as _ <-. destruct s1; reflexivity.
    + rewrite bind_run_get in Hrest || (unfold bind at 1 in Hrest; rewrite run_peek in Hrest).
      rewrite HcB in Hrest.
      destruct (CLib.isdigit _).
      * assert (Hgoto : Classic.statement_goto sB = Some (u, s')).
        { unfold Classic.statement_goto. unfold bind at 1.
          rewrite run_classic_skip_spaces, HsB. exact Hrest. }
        destruct (classic_goto_jumps sB) as (s2 & E & Hj & Hd).
        rewrite E in Hgoto. injection Hgoto as _ <-.
        rewrite HcB, skip_spaces_str_idem in Hj.
        split; [exact Hj|]. subst sB. destruct s1; exact Hd.
      * rewrite run_classic_skip_spaces, HsB in Hrest. injection Hrest as _ <-.
        subst sB. destruct s1; reflexivity.
  - unfold Classic.runtime_error, fputs_stderr, bind, modify in Hrest.
    injection Hrest as _ <-. destruct s1; cbn.
    split; [reflexivity|]. split; [|repeat split].
    repeat split; intros; cbn in *; congruence.
Qed.

Lemma pdp11_if_outcome (H : host) (n : nat) (s s' : state) (u : unit) :
  increasing (program_lines s) -> numbers_in_range (program_lines s) -> cache_ok s ->
  Optimized.statement_if H n s = Some (u, s') ->
  exists c s1,
    Optimized.eval_condition H n s = Some (c, s1) /\ if_outcome Pdp11Build c s1 s' /\
    cache_ok s'.
Proof.
  intros Hs Hnn Hc Hrun. unfold Optimized.statement_if in Hrun.
  apply bind_inv in Hrun. destruct Hrun as (c & s1 & Ec & Hrest).
  exists c, s1. split; [exact Ec|].
  assert (Hok1 : store_is Pdp11Build (program_lines s) s1).
  { refine (preserves_store_of_keeps Pdp11Build _ _ (keeps_pdp11_eval_condition H n)
              s c s1 Ec _).
    split; [reflexivity | repeat split; assumption]. }
  destruct Hok1 as (Hp1 & Hs1 & Hnn1 & Hc1). clear Hs Hnn Hc Ec.
  unfold if_outcome. cbv zeta. cbn [starts_with_kw].
  unfold bind at 1 in Hrest. rewrite run_pdp11_skip_spaces, bind_run_get in Hrest.
  rewrite cursor_skip_spaces_st in Hrest.
  destruct (Optimized.starts_with_kw (skip_spaces_str (cursor s1)) "THEN"); cbn [negb] in *.
  - unfold bind at 1 in Hrest. rewrite run_advance in Hrest.
    unfold bind at 1 in Hrest. rewrite run_pdp11_skip_spaces in Hrest.
    set (sB := skip_spaces_st (advance_st 4 (skip_spaces_st s1))) in *.
    assert (HcB : cursor sB = skip_spaces_str (CLib.drop 4 (skip_spaces_str (cursor s1))))
      by (destruct s1; reflexivity).
    assert (HsB : skip_spaces_st sB = sB) by apply skip_spaces_st_idem.
    assert (HcacheB : cache_ok sB) by (destruct s1; exact Hc1).
    destruct (c =? 0).
    + injection Hrest as _ <-. split; destruct s1; [reflexivity | exact Hc1].
    + unfold bind at 1 in Hrest. rewrite run_peek in Hrest.
      rewrite HcB in Hrest.
      destruct (CLib.isdigit _).
      * assert (Hgoto : Optimized.statement_goto sB = Some (u, s')).
        { unfold Optimized.statement_goto. unfold bind at 1.
          rewrite run_pdp11_skip_spaces, HsB. exact Hrest. }
        destruct (pdp11_goto_jumps sB) as (s2 & E & Hj & Hd & Hc2);
          [exact Hs1 | exact Hnn1 | exact HcacheB |].
        rewrite E in Hgoto. injection Hgoto as _ <-.
        rewrite HcB, skip_spaces_str_idem in Hj.
        split; [|exact Hc2]. split; [exact Hj|]. subst sB. destruct s1; exact Hd.
      * rewrite run_pdp11_skip_spaces, HsB in Hrest. injection Hrest as _ <-.
        split; [|exact HcacheB]. subst sB. destruct s1; reflexivity.
  - pose proof (pdp11_runtime_error_halts _ _ _ _ Hrest) as Hh.
    pose proof (keeps_pdp11_runtime_error _ _ _ _ Hrest) as Hk.
    assert (Hd : same_data s1 s').
    { revert Hrest. unfold Optimized.runtime_error, bind, get, fputs_stderr, modify.
      destruct (_ && _); intros E; injection E as _ <-; destruct s1; repeat split. }
    split.
    + split; [exact Hh|]. split; [|exact Hd].
      eapply same_control_trans; [|exact Hk].
      destruct s1; repeat split; intros; cbn in *; congruence.
    + destruct Hk as (Hpl & _ & _ & _ & Hn & Hi & _).
      unfold cache_ok, line_count in *. rewrite Hpl, Hn, Hi.
      destruct s1; exact Hc1.
Qed.

(** X22.  IF ... THEN: the condition is evaluated first; without THEN behind
    it the run is halted; with a false condition the cursor goes to the end
    of the line and nothing else changes; with a true condition a number
    behind THEN is a jump exactly as GOTO makes it, and anything else is
    left under the cursor as the next statement.  So the statements behind a
    colon on an IF line run only when the condition is true. *)
Theorem if_then_outcomes (b : build) (H : host) :
  (forall n s s' u,
     store_ok b s ->
     statement_if b H n s = Some (u, s') ->
     exists c s1,
       eval_condition b H n s = Some (c, s1) /\ if_outcome b c s1 s') /\
  output_of b if_false_program "" 100 = Some (0, ln "C", "") /\
  output_of b if_true_program "" 100 = Some (0, ln "A" ++ ln "B" ++ ln "C", "").
Proof.
  split; [|split; destruct b; vm_compute; reflexivity].
  intros n s s' u Hok Hrun.
  destruct b; cbn [statement_if eval_condition store_ok] in *.
  - exact (classic_if_outcome H n s s' u Hrun).
  - destruct Hok as (Hs & Hnn & Hc).
    destruct (pdp11_if_outcome H n s s' u Hs Hnn Hc Hrun) as (c & s1 & E & Ho & _).
    exists c, s1. split; assumption.
Qed.

(* ===================================================================== *)
(** * A false IF gives up the whole line                                  *)
(* ===================================================================== *)

Lemma toupper_is_I (c : ascii) : CLib.toupper c = "I"%char -> c = "I"%char \/ c = "i"%char.
Proof.
  destruct c as [[] [] [] [] [] [] [] []]; vm_compute; intros E;
    try discriminate E; auto.
Qed.

Lemma toupper_is_F (c : ascii) : CLib.toupper c = "F"%char -> c = "F"%char \/ c = "f"%char.
Proof.
  destruct c as [[] [] [] [] [] [] [] []]; vm_compute; intros E;
    try discriminate E; auto.
Qed.

Lemma kw_if_shape (p : string) :
  kw_matches p "IF" = true ->
  exists c1 c2 rest,
    p = String c1 (String c2 rest) /\
    (c1 = "I"%char \/ c1 = "i"%char) /\ (c2 = "F"%char \/ c2 = "f"%char).
Proof.
  destruct p as [|c1 [|c2 rest]]; cbn [kw_matches CLib.peek CLib.drop]; intros E.
  - apply andb_prop in E. destruct E as (E & _). vm_compute in E. discriminate E.
  - apply andb_prop in E. destruct E as (_ & E).
    apply andb_prop in E. destruct E as (E & _). vm_compute in E. discriminate E.
  - apply andb_prop in E. destruct E as (E1 & E).
    apply andb_prop in E. destruct E as (E2 & _).
    apply Ascii.eqb_eq in E1, E2.
    exists c1, c2, rest. split; [reflexivity|].
    split; [apply toupper_is_I | apply toupper_is_F]; assumption.
Qed.

(** The dispatch of [execute_statement] on a text that starts with IF. *)
Lemma classic_dispatch_if (H : host) (n : nat) (s : state) :
  Classic.starts_with_kw (skip_spaces_str (cursor s)) "IF" = true ->
  Classic.execute_statement H n s
  = bind (advance 2) (fun _ => Classic.statement_if H n) (skip_spaces_st s).
Proof.
  intros Hkw. unfold Classic.execute_statement.
  unfold bind at 1. rewrite run_classic_skip_spaces, bind_run_get.
  rewrite cursor_skip_spaces_st. cbv zeta.
  pose proof Hkw as Hshape. unfold Classic.starts_with_kw in Hshape.
  apply andb_prop in Hshape. destruct Hshape as (Hshape & _).
  apply kw_if_shape in Hshape. destruct Hshape as (c1 & c2 & rest & Hp & H1 & H2).
  rewrite Hkw. rewrite Hp.
  destruct H1 as [-> | ->], H2 as [-> | ->]; reflexivity.
Qed.

Lemma pdp11_dispatch_if (H : host) (n : nat) (s : state) :
  Optimized.starts_with_kw (skip_spaces_str (cursor s)) "IF" = true ->
  Optimized.execute_statement H n s
  = bind (advance 2) (fun _ => Optimized.statement_if H n) (skip_spaces_st s).
Proof.
  intros Hkw. unfold Optimized.execute_statement.
  unfold bind at 1. rewrite run_pdp11_skip_spaces, bind_run_get.
  rewrite cursor_skip_spaces_st. cbv zeta.
  pose proof Hkw as Hshape. unfold Optimized.starts_with_kw in Hshape.
  apply andb_prop in Hshape. destruct Hshape as (Hshape & _).
  apply kw_if_shape in Hshape. destruct Hshape as (c1 & c2 & rest & Hp & H1 & H2).
  rewrite Hkw. rewrite Hp.
  destruct H1 as [-> | ->], H2 as [-> | ->]; reflexivity.
Qed.

(** The rest of IF behind a condition that is false. *)
Lemma classic_if_false (H : host) (n : nat) (s s1 : state) :
  Classic.eval_condition H n s = Some (0, s1) ->
  Classic.starts_with_kw (skip_spaces_str (cursor s1)) "THEN" = true ->
  Classic.statement_if H n s = Some (tt, set_statement_pos (Some "") s1).
Proof.
  intros Ec Hkw. unfold Classic.statement_if.
  unfold bind at 1. rewrite Ec.
  unfold bind at 1. rewrite run_classic_skip_spaces, bind_run_get.
  rewrite cursor_skip_spaces_st, Hkw. cbn [negb Z.eqb].
  unfold bind, advance, Classic.skip_spaces, set_cursor, modify.
  destruct s1; reflexivity.
Qed.

Lemma pdp11_if_false (H : host) (n : nat) (s s1 : state) :
  Optimized.eval_condition H n s = Some (0, s1) ->
  Optimized.starts_with_kw (skip_spaces_str (cursor s1)) "THEN" = true ->
  Optimized.statement_if H n s = Some (tt, set_statement_pos (Some "") s1).
Proof.
  intros Ec Hkw. unfold Optimized.statement_if.
  unfold bind at 1. rewrite Ec.
  unfold bind at 1. rewrite run_pdp11_skip_spaces, bind_run_get.
  rewrite cursor_skip_spaces_st, Hkw. cbn [negb Z.eqb].
  unfold bind, advance, Optimized.skip_spaces, set_cursor, modify.
  destruct s1; reflexivity.
Qed.

(** The driver's turn on a statement that leaves the cursor at the end of
    the text without an error. *)
Lemma classic_turn_to_next_line (H : host) (n : nat) (s s1 : state) :
  halted s = false -> 0 <= current_line s < line_count s ->
  Ascii.eqb (CLib.peek (turn_text s)) CLib.NUL = false ->
  Classic.execute_statement H n (set_statement_pos (Some (turn_text s)) s)
  = Some (tt, set_statement_pos (Some "") s1) ->
  halted s1 = false ->
  Classic.run_step H n s
  = Some (true, set_statement_pos None (set_current_line (current_line s1 + 1) s1)).
Proof.
  intros Hh Hl Hnul Hexec Hh1.
  assert (Hin : negb (halted s) && (0 <=? current_line s)
                && (current_line s <? line_count s) = true).
  { rewrite Hh. cbn [negb andb].
    destruct (Z.leb_spec 0 (current_line s)); [|lia].
    destruct (Z.ltb_spec (current_line s) (line_count s)); [reflexivity | lia]. }
  unfold Classic.run_step. rewrite bind_run_get, Hin. cbv zeta.
  fold (turn_text s). rewrite Hnul.
  unfold bind at 1. unfold set_cursor at 1, modify at 1.
  unfold bind at 1. rewrite Hexec. rewrite bind_run_get.
  replace (halted (set_statement_pos (Some "") s1)) with false
    by (destruct s1; symmetry; exact Hh1).
  replace (statement_pos (set_statement_pos (Some "") s1)) with (Some "")
    by (destruct s1; reflexivity).
  unfold bind, Classic.skip_spaces, peek, gets, get, modify. cbn.
  destruct s1; reflexivity.
Qed.

Lemma pdp11_turn_to_next_line (H : host) (n : nat) (s s1 : state) :
  halted s = false -> 0 <= current_line s < line_count s ->
  Ascii.eqb (CLib.peek (turn_text s)) CLib.NUL = false ->
  Optimized.execute_statement H n (set_statement_pos (Some (turn_text s)) s)
  = Some (tt, set_statement_pos (Some "") s1) ->
  halted s1 = false ->
  Optimized.run_step H n s
  = Some (true, set_statement_pos None (set_current_line (current_line s1 + 1) s1)).
Proof.
  intros Hh Hl Hnul Hexec Hh1.
  assert (Hin : negb (halted s) && (0 <=? current_line s)
                && (current_line s <? line_count s) = true).
  { rewrite Hh. cbn [negb andb].
    destruct (Z.leb_spec 0 (current_line s)); [|lia].
    destruct (Z.ltb_spec (current_line s) (line_count s)); [reflexivity | lia]. }
  unfold Optimized.run_step. rewrite bind_run_get, Hin. cbv zeta.
  fold (turn_text s). rewrite Hnul.
  unfold bind at 1. unfold set_cursor at 1, modify at 1.
  unfold bind at 1. rewrite Hexec. rewrite bind_run_get.
  replace (halted (set_statement_pos (Some "") s1)) with false
    by (destruct s1; symmetry; exact Hh1).
  replace (statement_pos (set_statement_pos (Some "") s1)) with (Some "")
    by (destruct s1; reflexivity).
  unfold bind, Optimized.skip_spaces, peek, gets, get, modify. cbn.
  destruct s1; reflexivity.
Qed.

Lemma turn_state (s : state) :
  advance_st 2 (skip_spaces_st (set_statement_pos (Some (turn_text s)) s))
  = set_statement_pos (Some (CLib.drop 2 (turn_text s))) s.
Proof.
  assert (HT : skip_spaces_str (turn_text s) = turn_text s)
    by (unfold turn_text; apply skip_spaces_str_idem).
  revert HT. generalize (turn_text s). intros T HT.
  unfold advance_st, skip_spaces_st. destruct s; cbn. rewrite HT. reflexivity.
Qed.

Lemma turn_cursor (s : state) :
  skip_spaces_str (cursor (set_statement_pos (Some (turn_text s)) s)) = turn_text s.
Proof.
  replace (cursor (set_statement_pos (Some (turn_text s)) s)) with (turn_text s)
    by (destruct s; reflexivity).
  unfold turn_text. apply skip_spaces_str_idem.
Qed.

(** X23.  A false IF gives up the whole line.  When the driver's turn starts
    on a statement that begins with IF, the condition evaluates to 0 without
    an error and THEN follows it, the turn ends at the start of the next
    line, whatever stands behind THEN: a statement, a line number, or more
    statements behind colons.  Nothing but the evaluation of the condition
    has changed the state. *)
Theorem false_if_gives_up_the_line (b : build) (H : host) (n : nat) (s s1 : state) :
  halted s = false ->
  0 <= current_line s < line_count s ->
  starts_with_kw b (turn_text s) "IF" = true ->
  eval_condition b H n (set_statement_pos (Some (CLib.drop 2 (turn_text s))) s)
    = Some (0, s1) ->
  halted s1 = false ->
  starts_with_kw b (skip_spaces_str (cursor s1)) "THEN" = true ->
  run_step b H n s
  = Some (true, set_statement_pos None (set_current_line (current_line s + 1) s1)).
Proof.
  intros Hh Hl Hif Ec Hh1 Hthen.
  assert (Hnul : Ascii.eqb (CLib.peek (turn_text s)) CLib.NUL = false).
  { assert (Hm : kw_matches (turn_text s) "IF" = true)
      by (destruct b; cbn [starts_with_kw] in Hif;
          unfold Classic.starts_with_kw, Optimized.starts_with_kw in Hif;
          apply andb_prop in Hif; apply Hif).
    apply kw_if_shape in Hm. destruct Hm as (c1 & c2 & rest & -> & [-> | ->] & _);
      reflexivity. }
  assert (Hline : current_line s1 = current_line s).
  { assert (Hk : keeps (eval_condition b H n))
      by (destruct b; [apply keeps_classic_eval_condition
                      | apply keeps_pdp11_eval_condition]).
    destruct (Hk _ _ _ Ec) as (_ & _ & _ & Hc & _). rewrite Hc.
    destruct s; reflexivity. }
  rewrite <- Hline.
  destruct b; cbn [run_step starts_with_kw eval_condition] in *.
  - apply classic_turn_to_next_line; try assumption.
    rewrite classic_dispatch_if by (rewrite turn_cursor; exact Hif).
    unfold bind. rewrite run_advance, turn_state.
    apply classic_if_false; assumption.
  - apply pdp11_turn_to_next_line; try assumption.
    rewrite pdp11_dispatch_if by (rewrite turn_cursor; exact Hif).
    unfold bind. rewrite run_advance, turn_state.
    apply pdp11_if_false; assumption.
Qed.

Lemma false_if_gives_up_the_line_witness :
  exists s1,
    run_step ClassicBuild RefHost.ref_host 50 at_false_if = Some (true, s1) /\
    current_line s1 = 1 /\ statement_pos s1 = None /\ stdout s1 = "".
Proof.
  eexists. split.
  - apply (false_if_gives_up_the_line ClassicBuild RefHost.ref_host 50 at_false_if
             (state_after (eval_condition ClassicBuild RefHost.ref_host 50)
                (set_statement_pos (Some (CLib.drop 2 (turn_text at_false_if)))
                   at_false_if))).
    + vm_compute. reflexivity.
    + vm_compute. split; [discriminate | reflexivity].
    + vm_compute. reflexivity.
    + vm_compute. reflexivity.
    + vm_compute. reflexivity.
    + vm_compute. reflexivity.
  - vm_compute. repeat split.
Defined.
